(** * GradeJournal: the local-first synchronisation core of [src/app.js]

    A shallow embedding of the document store, the merge engine, the
    pending-change queue, the remote adapter and the save pipeline of the
    gradebook application, followed by the properties of the specification
    that were checked against it.

    Conventions of the embedding:
    - a JavaScript object is a record; a property that may be missing
      ([undefined] or [null]) is an [option];
    - a JavaScript [Map] or [Set] is an insertion-ordered association list,
      since the merge iterates over them and pushes in iteration order;
    - a lesson's [data] object is a finite map from its synthetic string keys
      to strings;
    - the wall clock ([new Date()], [Date.now()]), [Math.random()], the
      browser's connectivity flag and the answers of the remote backend are
      explicit inputs;
    - exceptions are a sum type ([Returned] / [Threw]). *)

From Stdlib Require Import ZArith Lia Ascii.
From stdpp Require Import base option list strings gmap pretty.

Open Scope Z_scope.
Open Scope string_scope.
Open Scope list_scope.

(** ** JavaScript runtime: insertion-ordered [Map] and [Set] *)

Module JsMap.
Section Ordered.
Context {K V : Type} `{EqDecision K}.

(** [m.set(k, v)]: an existing key keeps its position and takes the new
    value, a new key goes to the end. *)
Fixpoint set (k : K) (v : V) (m : list (K * V)) : list (K * V) :=
  match m with
  | [] => [(k, v)]
  | (k', v') :: m' =>
      if decide (k = k') then (k, v) :: m' else (k', v') :: set k v m'
  end.

(** [new Map(entries)] *)
Definition new (entries : list (K * V)) : list (K * V) :=
  foldl (fun m kv => set kv.1 kv.2 m) [] entries.

(** [m.get(k)] *)
Fixpoint get (m : list (K * V)) (k : K) : option V :=
  match m with
  | [] => None
  | (k', v) :: m' => if decide (k = k') then Some v else get m' k
  end.

(** [m.has(k)] *)
Definition has (m : list (K * V)) (k : K) : bool :=
  match get m k with Some _ => true | None => false end.

(** [m.keys()] *)
Definition keys (m : list (K * V)) : list K := m.*1.
End Ordered.
End JsMap.

Module JsSet.
Section Ordered.
Context {K : Type} `{EqDecision K}.

(** [s.add(k)] *)
Fixpoint add (k : K) (s : list K) : list K :=
  match s with
  | [] => [k]
  | k' :: s' => if decide (k = k') then k' :: s' else k' :: add k s'
  end.

(** [new Set(items)] *)
Definition new (items : list K) : list K :=
  foldl (fun s k => add k s) [] items.
End Ordered.
End JsSet.

(** ** JavaScript runtime: time values

    A time value is a number of milliseconds since the epoch, or [NaN]
    ([None]) for an invalid date.  Every comparison with [NaN] is false. *)

Definition TimeValue := option Z.

Definition js_gt (a b : TimeValue) : bool :=
  match a, b with
  | Some x, Some y => bool_decide (y < x)
  | _, _ => false
  end.

(** A model of [Date.parse] on the UTC form the application itself writes with
    [toISOString()], with or without the milliseconds:
    [YYYY-MM-DDTHH:MM:SS(.mmm)Z].  It serves the closed examples; the merge
    itself is stated over an arbitrary parser. *)
Module IsoDate.

Definition digit (a : ascii) : option Z :=
  let n := Z.of_nat (nat_of_ascii a) in
  if bool_decide (48 <= n <= 57) then Some (n - 48) else None.

Fixpoint number (acc : Z) (s : list ascii) : option Z :=
  match s with
  | [] => Some acc
  | a :: s' => d ← digit a; number (10 * acc + d) s'
  end.

Fixpoint chars (s : string) : list ascii :=
  match s with
  | EmptyString => []
  | String a s' => a :: chars s'
  end.

Definition field (s : string) (from len : nat) : option Z :=
  let cs := take len (drop from (chars s)) in
  if bool_decide (length cs = len) then number 0 cs else None.

Definition char_at (s : string) (i : nat) : option ascii := chars s !! i.

(** Days since 1970-01-01 of a proleptic Gregorian date. *)
Definition days_from_civil (y m d : Z) : Z :=
  let y' := if bool_decide (m <= 2) then y - 1 else y in
  let era := y' / 400 in
  let yoe := y' - era * 400 in
  let mp := (m + 9) mod 12 in
  let doy := (153 * mp + 2) / 5 + d - 1 in
  let doe := yoe * 365 + yoe / 4 - yoe / 100 + doy in
  era * 146097 + doe - 719468.

Definition is_leap (y : Z) : bool :=
  bool_decide (y mod 4 = 0) && (negb (bool_decide (y mod 100 = 0)) || bool_decide (y mod 400 = 0)).

Definition days_in_month (y m : Z) : Z :=
  if bool_decide (m = 2) then (if is_leap y then 29 else 28)
  else if bool_decide (m = 4 ∨ m = 6 ∨ m = 9 ∨ m = 11) then 30 else 31.

Definition parse (s : string) : TimeValue :=
  y ← field s 0 4; mo ← field s 5 2; d ← field s 8 2;
  h ← field s 11 2; mi ← field s 14 2; se ← field s 17 2;
  ms ← (if bool_decide (String.length s = 20%nat) then Some 0
        else if bool_decide (String.length s = 24%nat ∧ char_at s 19 = Some "."%char)
             then field s 20 3 else None);
  if bool_decide (char_at s 4 = Some "-"%char ∧ char_at s 7 = Some "-"%char
                  ∧ char_at s 10 = Some "T"%char ∧ char_at s 13 = Some ":"%char
                  ∧ char_at s 16 = Some ":"%char
                  ∧ char_at s (String.length s - 1) = Some "Z"%char
                  ∧ 1 <= mo <= 12 ∧ 1 <= d <= days_in_month y mo
                  ∧ h <= 23 ∧ mi <= 59 ∧ se <= 59)
  then Some ((((days_from_civil y mo d * 24 + h) * 60 + mi) * 60 + se) * 1000 + ms)
  else None.

End IsoDate.

(** ** Data model *)

(** Lesson [data]: [att_<studentId>] and [col_<columnId>_<studentId>] keys. *)
Definition att_key (sid : Z) : string := "att_" +:+ pretty sid.
Definition col_key (cid sid : Z) : string := "col_" +:+ pretty cid +:+ "_" +:+ pretty sid.

Record Student := mkStudent {
  s_id : Z;
  s_name : string;
  s_phone : string;
  s_email : string;
  s_parentName : string;
  s_parentPhone : string;
  s_note : string;
  s_updatedAt : option string
}.

Record Lesson := mkLesson {
  l_id : Z;
  l_topic : string;
  l_date : string;
  l_num : Z;
  l_data : option (gmap string string);
  l_mode : option string;
  l_studentIds : option (list Z);
  l_notes : option string;
  l_updatedAt : option string
}.

Record Column := mkColumn {
  col_id : Z;
  col_name : string;
  col_ielts : bool;
  col_lessonId : option Z;
  col_updatedAt : option string
}.

Record Classroom := mkClassroom {
  c_id : string;
  c_name : string;
  c_subject : string;
  c_teacher : string;
  c_students : list Student;
  c_columns : list Column;
  c_lessons : list Lesson;
  c_nextSid : Z;
  c_nextLid : Z;
  c_nextCid : Z;
  c_updatedAt : option string
}.

Record Color := mkColor { col_h : Z; col_s : Z; col_l : Z; col_a : Z }.

Record ExportSettings := mkExportSettings {
  es_color : Color;
  es_logo : option string;
  es_logoName : option string;
  es_logoSize : option Z
}.

Record User := mkUser {
  u_id : option string;
  u_email : string;
  u_name : string;
  u_mode : option string
}.

(** A pending-change marker. *)
Record Marker := mkMarker { pc_timestamp : string; pc_context : string }.

Record GradeTemplate := mkGradeTemplate { gt_name : string; gt_columns : list string }.

Inductive SyncStatus := Idle | Syncing | SyncError | Offline.

(** The document store [DB].  A value pulled from the backend is an object of
    the same kind that carries only [classrooms], [exportSettings] and
    [nextId].  [classrooms] is always an array: the [?.] and [|| []] guards of
    the merge on a store without one have no counterpart here. *)
Record Store := mkStore {
  classrooms : list Classroom;
  nextId : option Z;
  user : option User;
  lastSync : option string;
  syncStatus : option SyncStatus;
  pendingChanges : option (list Marker);
  exportSettings : option ExportSettings;
  gradeTemplates : option (list GradeTemplate)
}.

#[global] Instance Student_eq_dec : EqDecision Student.
Proof. solve_decision. Defined.
#[global] Instance Lesson_eq_dec : EqDecision Lesson.
Proof. solve_decision. Defined.
#[global] Instance Column_eq_dec : EqDecision Column.
Proof. solve_decision. Defined.
#[global] Instance Classroom_eq_dec : EqDecision Classroom.
Proof. solve_decision. Defined.
#[global] Instance Marker_eq_dec : EqDecision Marker.
Proof. solve_decision. Defined.
#[global] Instance SyncStatus_eq_dec : EqDecision SyncStatus.
Proof. solve_decision. Defined.

(** What the generic child merge needs of an item: its [id] and its
    [updatedAt]. *)
Class Entity (A : Type) := {
  ent_id : A → Z;
  ent_updatedAt : A → option string
}.

#[global] Instance Student_Entity : Entity Student :=
  {| ent_id := s_id; ent_updatedAt := s_updatedAt |}.
#[global] Instance Lesson_Entity : Entity Lesson :=
  {| ent_id := l_id; ent_updatedAt := l_updatedAt |}.

(** The store the application starts with. *)
Definition defaultExportSettings : ExportSettings :=
  mkExportSettings (mkColor 30 60 50 100) None None None.

Definition initialDB : Store :=
  mkStore [] (Some 1) None None (Some Idle) (Some []) (Some defaultExportSettings) (Some []).

(** ** Merge engine ([mergeData], [mergeArrayById]) *)

Module Merge.
Section WithDate.
(** [Date.parse] of the runtime: milliseconds, or [None] for [NaN]. *)
Variable Date_parse : string → TimeValue.

(** [new Date(u || 0).getTime()]: a missing or empty [updatedAt] is the
    epoch. *)
Definition timeOf (u : option string) : TimeValue :=
  match u with
  | None => Some 0
  | Some s => if decide (s = "") then Some 0 else Date_parse s
  end.

(** The body of the loop over the local [Map]: an item that the remote
    side has too is kept in its newer copy, the local one on a tie. *)
Definition pushLocal {A} `{Entity A} (rm : list (Z * A)) (merged : list A)
    (entry : Z * A) : list A :=
  let '(id, li) := entry in
  match JsMap.get rm id with
  | Some ri =>
      merged ++ [if js_gt (timeOf (ent_updatedAt ri)) (timeOf (ent_updatedAt li))
                 then ri else li]
  | None => merged ++ [li]
  end.

(** The body of the loop over the remote [Map]. *)
Definition pushRemote {A} (lm : list (Z * A)) (merged : list A) (entry : Z * A) : list A :=
  let '(id, ri) := entry in
  if JsMap.has lm id then merged else merged ++ [ri].

Definition mergeArrayById {A} `{Entity A} (local remote : list A) : list A :=
  let lm := JsMap.new ((λ i, (ent_id i, i)) <$> local) in
  let rm := JsMap.new ((λ i, (ent_id i, i)) <$> remote) in
  let merged := foldl (pushLocal rm) [] lm in
  foldl (pushRemote lm) merged rm.

(** [{ ...rc, students: ..., lessons: ... }] *)
Definition withChildren (rc : Classroom) (students : list Student) (lessons : list Lesson) : Classroom :=
  mkClassroom (c_id rc) (c_name rc) (c_subject rc) (c_teacher rc)
    students (c_columns rc) lessons
    (c_nextSid rc) (c_nextLid rc) (c_nextCid rc) (c_updatedAt rc).

(** [n || 1] on a number that may be missing. *)
Definition orOne (n : option Z) : Z :=
  match n with
  | Some z => if decide (z = 0) then 1 else z
  | None => 1
  end.

(** The body of the loop over [allIds]. *)
Definition mergeStep (localMap remoteMap : list (string * Classroom))
    (merged : list Classroom) (id : string) : list Classroom :=
  match JsMap.get localMap id, JsMap.get remoteMap id with
  | Some lc, None => merged ++ [lc]
  | None, Some rc => merged ++ [rc]
  | Some lc, Some rc =>
      let lt := timeOf (c_updatedAt lc) in
      let rt := timeOf (c_updatedAt rc) in
      if js_gt rt lt
      then merged ++ [withChildren rc
                        (mergeArrayById (c_students lc) (c_students rc))
                        (mergeArrayById (c_lessons lc) (c_lessons rc))]
      else merged ++ [lc]
  | None, None => merged
  end.

Definition classroomMap (s : Store) : list (string * Classroom) :=
  JsMap.new ((λ c, (c_id c, c)) <$> classrooms s).

(** [mergeData(local, remote)], with the reading of the clock that stamps
    [lastSync] as the argument [now]. *)
Definition mergeData (now : string) (local : Store) (remote : option Store) : Store :=
  match remote with
  | None => local
  | Some remote =>
      let localMap := classroomMap local in
      let remoteMap := classroomMap remote in
      let allIds := JsSet.new (JsMap.keys localMap ++ JsMap.keys remoteMap) in
      {| classrooms := foldl (mergeStep localMap remoteMap) [] allIds;
         nextId := Some (Z.max (orOne (nextId local)) (orOne (nextId remote)));
         user := user local;
         lastSync := Some now;
         syncStatus := syncStatus local;
         pendingChanges := pendingChanges local;
         exportSettings :=
           match exportSettings remote with
           | Some e => Some e
           | None => exportSettings local
           end;
         gradeTemplates := gradeTemplates local |}
  end.
End WithDate.
End Merge.


(** ** JavaScript runtime: strings, errors, exceptions *)

Module Js.

(** [hay.includes(needle)] *)
Fixpoint includes (needle hay : string) : bool :=
  if String.prefix needle hay then true
  else match hay with
       | EmptyString => false
       | String _ hay' => includes needle hay'
       end.

(** [s.split(sep)[0]] for a one-character separator. *)
Fixpoint firstSegment (sep : ascii) (s : string) : string :=
  match s with
  | EmptyString => EmptyString
  | String a s' => if decide (a = sep) then EmptyString else String a (firstSegment sep s')
  end.

(** Texts are held in their UTF-8 encoding.  The white space and the line
    terminators that [trim] and [parseInt] strip (U+0009 to U+000D, U+0020,
    U+00A0, U+1680, U+2000 to U+200A, U+2028, U+2029, U+202F, U+205F, U+3000
    and U+FEFF) are one, two or three bytes of it. *)
Definition isSpace (a : ascii) : bool :=
  let n := nat_of_ascii a in
  bool_decide (n = 32 ∨ 9 <= n <= 13)%nat.

Definition isSpace2 (a b : ascii) : bool :=
  bool_decide (nat_of_ascii a = 194 ∧ nat_of_ascii b = 160)%nat.

Definition isSpace3 (a b c : ascii) : bool :=
  let x := nat_of_ascii a in
  let y := nat_of_ascii b in
  let z := nat_of_ascii c in
  bool_decide ((x = 225 ∧ y = 154 ∧ z = 128)
               ∨ (x = 226 ∧ y = 128 ∧ (128 <= z <= 138 ∨ z = 168 ∨ z = 169 ∨ z = 175))
               ∨ (x = 226 ∧ y = 129 ∧ z = 159)
               ∨ (x = 227 ∧ y = 128 ∧ z = 128)
               ∨ (x = 239 ∧ y = 187 ∧ z = 191))%nat.

(** Whether a text is one white-space character. *)
Definition isWhiteSpace (s : string) : bool :=
  match s with
  | String a EmptyString => isSpace a
  | String a (String b EmptyString) => isSpace2 a b
  | String a (String b (String c EmptyString)) => isSpace3 a b c
  | _ => false
  end.

Definition digitOf (radix : Z) (a : ascii) : option Z :=
  let n := Z.of_nat (nat_of_ascii a) in
  let d := if bool_decide (48 <= n <= 57) then Some (n - 48)
           else if bool_decide (97 <= n <= 122) then Some (n - 87)
           else if bool_decide (65 <= n <= 90) then Some (n - 55)
           else None in
  d ← d; if bool_decide (d < radix) then Some d else None.

(** The longest prefix of digits, as a number; [None] when there is none. *)
Fixpoint digits (radix : Z) (acc : option Z) (s : string) : option Z :=
  match s with
  | EmptyString => acc
  | String a s' =>
      match digitOf radix a with
      | Some d => digits radix (Some (radix * default 0 acc + d)) s'
      | None => acc
      end
  end.

(** The text without the white space it starts with. *)
Fixpoint skipSpaces (s : string) : string :=
  match s with
  | EmptyString => EmptyString
  | String a s1 =>
      if isSpace a then skipSpaces s1
      else match s1 with
           | EmptyString => s
           | String b s2 =>
               if isSpace2 a b then skipSpaces s2
               else match s2 with
                    | EmptyString => s
                    | String c s3 => if isSpace3 a b c then skipSpaces s3 else s
                    end
           end
  end.

(** [parseInt(s)] without a radix; [None] is [NaN]. *)
Definition parseInt (s : string) : option Z :=
  let s := skipSpaces s in
  let '(sign, s) :=
    match s with
    | String "-" s' => (-1, s')
    | String "+" s' => (1, s')
    | _ => (1, s)
    end in
  let magnitude :=
    match s with
    | String "0" (String "x" s') | String "0" (String "X" s') => digits 16 None s'
    | _ => digits 10 None s
    end in
  (λ m, sign * m) <$> magnitude.

(** [s.trim()]: the text without the white space it starts and ends with.
    From the end, a character is dropped when it is white space and only
    white space follows it. *)
Fixpoint trimEnd (s : string) : string :=
  match s with
  | EmptyString => EmptyString
  | String a s' =>
      let t := String a (trimEnd s') in
      if isWhiteSpace t then EmptyString else t
  end.

Definition trim (s : string) : string := trimEnd (skipSpaces s).

(** An [Error] or a backend error object: only [message] is inspected. *)
Record Error := mkError { message : option string }.

(** [e.message?.includes(text)], read as a condition. *)
Definition messageIncludes (e : Error) (text : string) : bool :=
  match message e with
  | Some m => includes text m
  | None => false
  end.

(** The two ways control leaves a call. *)
Inductive Outcome (A : Type) :=
| Returned (a : A)
| Threw (e : Error).
Arguments Returned {A} a.
Arguments Threw {A} e.

Definition bind {A B} (m : Outcome A) (k : A → Outcome B) : Outcome B :=
  match m with
  | Returned a => k a
  | Threw e => Threw e
  end.

End Js.

Notation "'try!' x ← m ; k" := (Js.bind m (λ x, k))
  (at level 10, x pattern, m at level 100, k at level 200).

(** ** The remote record store

    The backend is outside the repository.  A request either rejects (the
    awaited promise throws) or resolves to a [{ data, error }] pair. *)

Module Remote.

Inductive Reply (D : Type) :=
| Rejects (e : Js.Error)
| Resolves (data : option D) (error : option Js.Error).
Arguments Rejects {D} e.
Arguments Resolves {D} data error.

(** [await] of one request. *)
Definition await {D} (r : Reply D) : Js.Outcome (option D * option Js.Error) :=
  match r with
  | Rejects e => Js.Threw e
  | Resolves d e => Js.Returned (d, e)
  end.

Record ClassroomRow := mkClassroomRow {
  r_user_id : string;
  r_id : string;
  r_name : string;
  r_subject : option string;
  r_teacher_name : option string;
  r_next_student_id : Z;
  r_next_lesson_id : Z;
  r_next_column_id : Z;
  r_updated_at : option string
}.

Record StudentRow := mkStudentRow {
  sr_classroom_id : string;
  sr_student_number : Z;
  sr_name : string;
  sr_phone : option string;
  sr_email : option string;
  sr_parent_name : option string;
  sr_parent_phone : option string;
  sr_notes : option string;
  sr_updated_at : option string
}.

Record LessonRow := mkLessonRow {
  lr_id : string;
  lr_classroom_id : string;
  lr_lesson_number : Z;
  lr_title : string;
  lr_lesson_date : string;
  lr_mode : option string;
  lr_student_ids : option (list Z);
  lr_updated_at : option string
}.

Record ColumnRow := mkColumnRow {
  cr_classroom_id : string;
  cr_lesson_id : option string;
  cr_column_number : Z;
  cr_name : string;
  cr_ielts : option bool
}.

(** [student_id] and [column_id] are given as the text the key template
    prints for them. *)
Record GradeRow := mkGradeRow {
  gr_lesson_id : string;
  gr_student_id : string;
  gr_column_id : option string;
  gr_grade : string
}.

Record AttendanceRow := mkAttendanceRow {
  ar_lesson_id : string;
  ar_student_id : string;
  ar_status : string
}.

Record SettingsRow := mkSettingsRow {
  st_color : option Color;
  st_logo_data : option string;
  st_logo_name : option string;
  st_logo_size : option Z
}.

(** The answers of the backend to the requests of a pull. *)
Record Backend := mkBackend {
  selectLimit1 : string → Reply (list unit);
  selectClassrooms : string → Reply (list ClassroomRow);
  selectExportSettings : string → Reply SettingsRow;
  selectStudents : list string → Reply (list StudentRow);
  selectLessons : list string → Reply (list LessonRow);
  selectColumns : list string → Reply (list ColumnRow);
  selectGrades : list string → Reply (list GradeRow);
  selectAttendance : list string → Reply (list AttendanceRow)
}.

(** The answer of the backend to one upsert of a classroom row. *)
Inductive UpsertReply :=
| Accepted
| Refused (error : Js.Error)
| Failed (e : Js.Error).

(** The record-store meaning of an accepted upsert on the [classrooms]
    table, whose key is [id]: the row with that key is replaced, a row with
    a new key is added. *)
Fixpoint upsertRow (row : ClassroomRow) (table : list ClassroomRow) : list ClassroomRow :=
  match table with
  | [] => [row]
  | r :: table' =>
      if decide (r_id r = r_id row) then row :: table' else r :: upsertRow row table'
  end.

(** A request that changes the [classrooms] table. *)
Inductive Request :=
| Upsert (row : ClassroomRow)
| Insert (row : ClassroomRow)
| DeleteWhereUser (user_id : string).

End Remote.

(** ** Application state

    [DB_INDEX] holds references to the objects of [DB].  A reference is
    modelled by the position of the object in the array that owns it: the
    classroom at a position of [DB.classrooms], the student or lesson at a
    position inside that classroom.  A write through a reference is a write at
    that position of the store, so that it is seen through every other path
    to the same object. *)

Record Index := mkIndex {
  classroomsById : list (string * nat);
  studentsByClassroom : list (string * (nat * list (Z * nat)));
  lessonsByClassroom : list (string * (nat * list (Z * nat)));
  columnsByClassroom : list (string * (nat * list (Z * nat)))
}.

(** The closure handed to [confirm_]. *)
Inductive Callback :=
| RemoveStudent (sid : Z).

(** The two slots of the local persistence adapter, each holding the snapshot
    that was serialised into it. *)
Record Storage := mkStorage {
  gj_v6_pro : option Store;
  gj_v6_pro_backup : option Store
}.

Record World := mkWorld {
  DB : Store;
  DB_INDEX : Index;
  CID : option string;
  LID : option Z;
  editSid : option Z;
  currentLessonMode : string;
  confirmCb : option Callback;
  (** entries of [saveQueue]: the badge and [Date.now()] *)
  saveQueue : list (option string * Z);
  (** the debounce timer [_st]: the badge captured by the pending
      [saveOperation], if one is scheduled *)
  _st : option (option string);
  localStorage : Storage;
  (** the remote [classrooms] table and the requests sent to it *)
  cloud : list Remote.ClassroomRow;
  requests : list Remote.Request;
  (** notifications and toasts shown *)
  notices : list string;
  (** readings of the clock taken so far *)
  ticks : nat
}.

(** What the application does not control during one operation. *)
Record Env := mkEnv {
  onLine : bool;
  supabase : bool;
  backend : Remote.Backend;
  upsertReply : Remote.ClassroomRow → Remote.UpsertReply;
  (** the successive readings of the clock, as [new Date().toISOString()],
      [Date.now()] and [todayStr()] print them *)
  clock : nat → string;
  clockMs : nat → Z;
  clockDay : nat → string;
  (** [Date.parse] of the runtime *)
  Date_parse : string → TimeValue;
  (** whether [localStorage.setItem] succeeds *)
  storageWritable : bool
}.

Definition set_DB (x : Store) (w : World) : World :=
  let '(mkWorld db idx cid lid esid mode cb queue timer storage table sent shown reads) := w in
  mkWorld x idx cid lid esid mode cb
    queue timer storage table sent shown reads.
Definition set_DB_INDEX (x : Index) (w : World) : World :=
  let '(mkWorld db idx cid lid esid mode cb queue timer storage table sent shown reads) := w in
  mkWorld db x cid lid esid mode cb
    queue timer storage table sent shown reads.
Definition set_CID (x : option string) (w : World) : World :=
  let '(mkWorld db idx cid lid esid mode cb queue timer storage table sent shown reads) := w in
  mkWorld db idx x lid esid mode cb
    queue timer storage table sent shown reads.
Definition set_LID (x : option Z) (w : World) : World :=
  let '(mkWorld db idx cid lid esid mode cb queue timer storage table sent shown reads) := w in
  mkWorld db idx cid x esid mode cb
    queue timer storage table sent shown reads.
Definition set_editSid (x : option Z) (w : World) : World :=
  let '(mkWorld db idx cid lid esid mode cb queue timer storage table sent shown reads) := w in
  mkWorld db idx cid lid x mode cb
    queue timer storage table sent shown reads.
Definition set_confirmCb (x : option Callback) (w : World) : World :=
  let '(mkWorld db idx cid lid esid mode cb queue timer storage table sent shown reads) := w in
  mkWorld db idx cid lid esid mode x
    queue timer storage table sent shown reads.
Definition set_saveQueue (x : list (option string * Z)) (w : World) : World :=
  let '(mkWorld db idx cid lid esid mode cb queue timer storage table sent shown reads) := w in
  mkWorld db idx cid lid esid mode cb
    x timer storage table sent shown reads.
Definition set__st (x : option (option string)) (w : World) : World :=
  let '(mkWorld db idx cid lid esid mode cb queue timer storage table sent shown reads) := w in
  mkWorld db idx cid lid esid mode cb
    queue x storage table sent shown reads.
Definition set_localStorage (x : Storage) (w : World) : World :=
  let '(mkWorld db idx cid lid esid mode cb queue timer storage table sent shown reads) := w in
  mkWorld db idx cid lid esid mode cb
    queue timer x table sent shown reads.
Definition set_cloud (x : list Remote.ClassroomRow) (w : World) : World :=
  let '(mkWorld db idx cid lid esid mode cb queue timer storage table sent shown reads) := w in
  mkWorld db idx cid lid esid mode cb
    queue timer storage x sent shown reads.
Definition send (r : Remote.Request) (w : World) : World :=
  let '(mkWorld db idx cid lid esid mode cb queue timer storage table sent shown reads) := w in
  mkWorld db idx cid lid esid mode cb
    queue timer storage table (sent ++ [r]) shown reads.
Definition notify (text : string) (w : World) : World :=
  let '(mkWorld db idx cid lid esid mode cb queue timer storage table sent shown reads) := w in
  mkWorld db idx cid lid esid mode cb
    queue timer storage table sent (shown ++ [text]) reads.

(** [new Date().toISOString()], [Date.now()] and [todayStr()] *)
Definition readClock (env : Env) (w : World) : string * World :=
  let '(mkWorld db idx cid lid esid mode cb queue timer storage table sent shown reads) := w in
  (clock env reads,
   mkWorld db idx cid lid esid mode cb
     queue timer storage table sent shown (S reads)).
Definition readClockMs (env : Env) (w : World) : Z * World :=
  let '(mkWorld db idx cid lid esid mode cb queue timer storage table sent shown reads) := w in
  (clockMs env reads,
   mkWorld db idx cid lid esid mode cb
     queue timer storage table sent shown (S reads)).
Definition readClockDay (env : Env) (w : World) : string * World :=
  let '(mkWorld db idx cid lid esid mode cb queue timer storage table sent shown reads) := w in
  (clockDay env reads,
   mkWorld db idx cid lid esid mode cb
     queue timer storage table sent shown (S reads)).

(** Assignments to properties of [DB]. *)
Definition set_classrooms (x : list Classroom) (db : Store) : Store :=
  let '(mkStore cs next usr synced status pending settings templates) := db in
  mkStore x next usr synced status pending settings templates.
Definition set_lastSync (x : option string) (db : Store) : Store :=
  let '(mkStore cs next usr synced status pending settings templates) := db in
  mkStore cs next usr x status pending settings templates.
Definition set_syncStatus (x : option SyncStatus) (db : Store) : Store :=
  let '(mkStore cs next usr synced status pending settings templates) := db in
  mkStore cs next usr synced x pending settings templates.
Definition set_pendingChanges (x : option (list Marker)) (db : Store) : Store :=
  let '(mkStore cs next usr synced status pending settings templates) := db in
  mkStore cs next usr synced status x settings templates.

Definition initialIndex : Index := mkIndex [] [] [] [].

(** The state of a freshly loaded page with nothing in local storage. *)
Definition initialWorld : World :=
  mkWorld initialDB initialIndex None None None "standard" None [] None
    (mkStorage None None) [] [] [] 0.

(** ** Secondary index *)

Definition byId {A} (id : A → Z) (items : list A) : list (Z * nat) :=
  JsMap.new (imap (λ q x, (id x, q)) items).

Definition rebuildIndex (w : World) : World :=
  set_DB_INDEX
    (foldl (λ idx '(p, c),
        mkIndex (JsMap.set (c_id c) p (classroomsById idx))
                (JsMap.set (c_id c) (p, byId s_id (c_students c)) (studentsByClassroom idx))
                (JsMap.set (c_id c) (p, byId l_id (c_lessons c)) (lessonsByClassroom idx))
                (JsMap.set (c_id c) (p, byId col_id (c_columns c)) (columnsByClassroom idx)))
      initialIndex (imap (λ p c, (p, c)) (classrooms (DB w)))) w.

(** A reference to a classroom, and to a lesson of a classroom. *)
Definition getC (w : World) (id : option string) : option nat :=
  id ← id; JsMap.get (classroomsById (DB_INDEX w)) id.

Definition getStudent (w : World) (classId : option string) (sid : Z) : option (nat * nat) :=
  classId ← classId;
  '(p, m) ← JsMap.get (studentsByClassroom (DB_INDEX w)) classId;
  q ← JsMap.get m sid; Some (p, q).

Definition getLesson (w : World) (classId : option string) (lid : Z) : option (nat * nat) :=
  classId ← classId;
  '(p, m) ← JsMap.get (lessonsByClassroom (DB_INDEX w)) classId;
  q ← JsMap.get m lid; Some (p, q).

Definition CC (w : World) : option nat := getC w (CID w).

(** [CID && LID ? getLesson(CID, LID) : null] *)
Definition CL (w : World) : option (nat * nat) :=
  match CID w, LID w with
  | Some cid, Some lid =>
      if decide (cid = "") then None
      else if decide (lid = 0) then None
      else getLesson w (Some cid) lid
  | _, _ => None
  end.

(** Reading and writing through references. *)
Definition classroomAt (w : World) (p : nat) : option Classroom := classrooms (DB w) !! p.

Definition lessonAt (w : World) (r : nat * nat) : option Lesson :=
  c ← classroomAt w r.1; c_lessons c !! r.2.

Definition studentAt (w : World) (r : nat * nat) : option Student :=
  c ← classroomAt w r.1; c_students c !! r.2.

Definition updateClassroom (p : nat) (f : Classroom → Classroom) (w : World) : World :=
  set_DB (set_classrooms (alter f p (classrooms (DB w))) (DB w)) w.

(** ** Local persistence and the pending-change queue *)

(** [saveToLocalStorage()]: both slots receive the same snapshot; a failing
    write is caught and logged. *)
Definition saveToLocalStorage (env : Env) (w : World) : World :=
  if storageWritable env
  then set_localStorage (mkStorage (Some (DB w)) (Some (DB w))) w
  else w.

(** [badge || 'unknown'] *)
Definition contextOf (badge : option string) : string :=
  match badge with
  | Some b => if decide (b = "") then "unknown" else b
  | None => "unknown"
  end.

Definition queuePendingChanges (env : Env) (badge : option string) (w : World) : World :=
  let pending := default [] (pendingChanges (DB w)) in
  let '(now, w) := readClock env w in
  let pending := pending ++ [mkMarker now (contextOf badge)] in
  let pending := if bool_decide (50 < length pending)%nat then drop 1 pending else pending in
  saveToLocalStorage env (set_DB (set_pendingChanges (Some pending) (DB w)) w).

(** ** Remote adapter: pull ([checkTableExists], [loadUserDataFromSupabase]) *)

Definition BATCH_SIZE : nat := 25.

Module Pull.
Import Remote.

Definition errorIncludes (error : option Js.Error) (text : string) : bool :=
  match error with
  | Some e => Js.messageIncludes e text
  | None => false
  end.

Definition checkTableExists (be : Backend) (tableName : string) : bool :=
  match selectLimit1 be tableName with
  | Rejects _ => false
  | Resolves _ error =>
      negb (errorIncludes error "relation" && errorIncludes error "does not exist")
  end.

(** The value the pull falls back to: [{ classrooms: [] }]. *)
Definition emptyRemote : Store := mkStore [] None None None None None None None.

(** The [Map] of arrays that groups rows by a key. *)
Definition groupBy {R} (key : R → string) (rows : list R) : list (string * list R) :=
  foldl (λ m r, JsMap.set (key r) (default [] (JsMap.get m (key r)) ++ [r]) m) [] rows.

Definition rowsOf {R} (m : list (string * list R)) (k : string) : list R :=
  default [] (JsMap.get m k).

(** The loop that fetches grades and attendance [BATCH_SIZE] lessons at a
    time; [fuel] bounds the number of rounds. *)
Fixpoint fetchBatches (be : Backend) (fuel i : nat) (lessonIds : list string)
    (grades : list GradeRow) (attendance : list AttendanceRow)
    : Js.Outcome (list GradeRow * list AttendanceRow) :=
  match fuel with
  | O => Js.Returned (grades, attendance)
  | S fuel' =>
      if bool_decide (i < length lessonIds)%nat then
        let batch := take BATCH_SIZE (drop i lessonIds) in
        try! gb ← await (selectGrades be batch);
        try! ab ← await (selectAttendance be batch);
        fetchBatches be fuel' (i + BATCH_SIZE) lessonIds
          (grades ++ default [] gb.1) (attendance ++ default [] ab.1)
      else Js.Returned (grades, attendance)
  end.

(** [s || ''] and [s || null] on a string that may be missing. *)
Definition orEmpty (s : option string) : string := default "" s.
Definition truthyString (s : option string) : option string :=
  match s with
  | Some t => if decide (t = "") then None else Some t
  | None => None
  end.
Definition truthyNumber (n : option Z) : option Z :=
  match n with
  | Some z => if decide (z = 0) then None else Some z
  | None => None
  end.

Definition studentOfRow (s : StudentRow) : Student :=
  mkStudent (sr_student_number s) (sr_name s) (orEmpty (sr_phone s)) (orEmpty (sr_email s))
    (orEmpty (sr_parent_name s)) (orEmpty (sr_parent_phone s)) (orEmpty (sr_notes s))
    (sr_updated_at s).

Definition lessonOfRow (gradesByLesson : list (string * list GradeRow))
    (attendanceByLesson : list (string * list AttendanceRow)) (l : LessonRow) : Lesson :=
  let data : gmap string string := ∅ in
  let data :=
    foldl (λ data g,
             match truthyString (gr_column_id g) with
             | Some column_id =>
                 <["col_" +:+ column_id +:+ "_" +:+ gr_student_id g := gr_grade g]> data
             | None => data
             end) data (rowsOf gradesByLesson (lr_id l)) in
  let data :=
    foldl (λ data a, <["att_" +:+ ar_student_id a := ar_status a]> data)
      data (rowsOf attendanceByLesson (lr_id l)) in
  mkLesson (lr_lesson_number l) (lr_title l) (lr_lesson_date l) (lr_lesson_number l)
    (Some data) (lr_mode l) (Some (default [] (lr_student_ids l))) None (lr_updated_at l).

Definition columnOfRow (classroomLessons : list LessonRow) (col : ColumnRow) : Column :=
  mkColumn (cr_column_number col) (cr_name col) (default false (cr_ielts col))
    (lesson_id ← truthyString (cr_lesson_id col);
     l ← list_find (λ l, lr_id l = lesson_id) classroomLessons;
     Some (lr_lesson_number l.2))
    None.

Definition classroomOfRow (studentsByClassroom : list (string * list StudentRow))
    (lessonsByClassroom : list (string * list LessonRow))
    (columnsByClassroom : list (string * list ColumnRow))
    (gradesByLesson : list (string * list GradeRow))
    (attendanceByLesson : list (string * list AttendanceRow))
    (c : ClassroomRow) : Classroom :=
  let classroomLessons := rowsOf lessonsByClassroom (r_id c) in
  let lessonsWithData := lessonOfRow gradesByLesson attendanceByLesson <$> classroomLessons in
  mkClassroom (r_id c) (r_name c) (orEmpty (r_subject c)) (orEmpty (r_teacher_name c))
    (studentOfRow <$> rowsOf studentsByClassroom (r_id c))
    (columnOfRow classroomLessons <$> rowsOf columnsByClassroom (r_id c))
    lessonsWithData
    (r_next_student_id c) (r_next_lesson_id c) (r_next_column_id c) (r_updated_at c).

Definition exportSettingsOfRow (st : SettingsRow) : ExportSettings :=
  mkExportSettings (default (mkColor 30 60 50 100) (st_color st))
    (truthyString (st_logo_data st)) (truthyString (st_logo_name st))
    (truthyNumber (st_logo_size st)).

(** [Math.max(...ids.map(id => parseInt(id.split('-')[0]) || 0), 0) + 1].
    Numbers are integers here; the runtime's are doubles, which are the same
    up to 2^53 and round beyond. *)
Definition nextIdOf (cs : list Classroom) : Z :=
  foldr Z.max 0 ((λ c, default 0 (Js.parseInt (Js.firstSegment "-" (c_id c)))) <$> cs) + 1.

(** The [try] block of [loadUserDataFromSupabase]. *)
Definition loadBody (be : Backend) (db : Store) (userId : string) : Js.Outcome Store :=
  let tablesExist := checkTableExists be "classrooms" in
  if negb tablesExist then Js.Returned emptyRemote else
  try! classrooms ← await (selectClassrooms be userId);
  try! settings ← await (selectExportSettings be userId);
  match classrooms.2 with
  | Some error =>
      if Js.messageIncludes error "does not exist" then Js.Returned emptyRemote
      else Js.Threw error
  | None =>
      match classrooms.1 with
      | None | Some [] => Js.Returned emptyRemote
      | Some classroomRows =>
          let classroomIds := r_id <$> classroomRows in
          try! students ← await (selectStudents be classroomIds);
          try! lessons ← await (selectLessons be classroomIds);
          try! columns ← await (selectColumns be classroomIds);
          let studentsByClassroom := groupBy sr_classroom_id (default [] students.1) in
          let lessonsByClassroom := groupBy lr_classroom_id (default [] lessons.1) in
          let columnsByClassroom := groupBy cr_classroom_id (default [] columns.1) in
          let lessonIds := lr_id <$> default [] lessons.1 in
          try! (grades, attendance) ← fetchBatches be (length lessonIds) 0 lessonIds [] [];
          let gradesByLesson := groupBy gr_lesson_id grades in
          let attendanceByLesson := groupBy ar_lesson_id attendance in
          let cloudClassrooms :=
            classroomOfRow studentsByClassroom lessonsByClassroom columnsByClassroom
              gradesByLesson attendanceByLesson <$> classroomRows in
          let exportSettings :=
            match settings.1 with
            | Some st => Some (exportSettingsOfRow st)
            | None => exportSettings db
            end in
          Js.Returned (mkStore cloudClassrooms (Some (nextIdOf cloudClassrooms))
                         None None None None exportSettings None)
      end
  end.

(** [loadUserDataFromSupabase(userId)]: whatever the [try] block throws is
    caught, reported as missing tables and replaced by the empty remote. *)
Definition loadUserDataFromSupabase (env : Env) (userId : string) (w : World)
    : Js.Outcome (Store * World) :=
  match loadBody (backend env) (DB w) userId with
  | Js.Returned remote => Js.Returned (remote, w)
  | Js.Threw e =>
      Js.Returned
        (emptyRemote,
         notify "Database tables not set up. Please run the Supabase setup script." w)
  end.
End Pull.

(** ** Remote adapter: push ([saveUserDataToSupabase]) *)

Module Push.
Import Remote.

Definition rowOf (userId : string) (c : Classroom) (now : string) : ClassroomRow :=
  mkClassroomRow userId (c_id c) (c_name c) (Some (c_subject c)) (Some (c_teacher c))
    (c_nextSid c) (c_nextLid c) (c_nextCid c) (Some now).

(** The loop over [DB.classrooms]; [None] in place of the error list is the
    early [return] on a missing table. *)
Fixpoint pushLoop (env : Env) (userId : string) (cs : list Classroom)
    (errors : list Js.Error) (w : World) : option (list Js.Error) * World :=
  match cs with
  | [] => (Some errors, w)
  | c :: cs' =>
      let '(now, w) := readClock env w in
      let row := rowOf userId c now in
      let w := send (Upsert row) w in
      match upsertReply env row with
      | Accepted => pushLoop env userId cs' errors (set_cloud (upsertRow row (cloud w)) w)
      | Refused error =>
          if Js.messageIncludes error "does not exist"
          then (None, notify "Database tables not set up." w)
          else pushLoop env userId cs' (errors ++ [error]) w
      | Failed e => pushLoop env userId cs' (errors ++ [e]) w
      end
  end.

Definition saveUserDataToSupabase (env : Env) (userId : string) (w : World) : Js.Outcome World :=
  if negb (supabase env) then Js.Threw (Js.mkError (Some "Supabase not initialized"))
  else
    match pushLoop env userId (classrooms (DB w)) [] w with
    | (None, w) => Js.Returned w
    | (Some errors, w) =>
        Js.Returned
          (if bool_decide (errors = []) then w
           else notify ("⚠️ " +:+ pretty (length errors) +:+ " items failed to sync") w)
    end.
End Push.

(** ** Save pipeline ([saveDB]) *)

(** [DB.user?.mode === 'supabase' && DB.user?.id] *)
Definition remoteUserId (db : Store) : option string :=
  u ← user db;
  if decide (u_mode u = Some "supabase") then Pull.truthyString (u_id u) else None.

(** [saveQueue[saveQueue.length - 1]?.badge] *)
Definition lastBadge (w : World) : option string :=
  match last (saveQueue w) with
  | Some (badge, _) => badge
  | None => None
  end.

(** The closure [saveOperation] of [saveDB(badge, immediate)].  The save pill
    it shows afterwards is part of the page and is left out. *)
Definition saveOperation (env : Env) (badge : option string) (w : World) : World :=
  let w := saveToLocalStorage env w in
  let w :=
    match (if onLine env && supabase env then remoteUserId (DB w) else None) with
    | Some userId =>
        match Push.saveUserDataToSupabase env userId w with
        | Js.Returned w => set_DB (set_pendingChanges (Some []) (DB w)) w
        | Js.Threw e => queuePendingChanges env badge w
        end
    | None => w
    end in
  set_saveQueue [] w.

Definition saveDB (env : Env) (badge : option string) (immediate : bool) (w : World) : World :=
  let '(ms, w) := readClockMs env w in
  let w := set_saveQueue (saveQueue w ++ [(badge, ms)]) w in
  if immediate then saveOperation env badge (set__st None w)
  else set__st (Some badge) w.

(** The debounce timer elapses. *)
Definition timerFires (env : Env) (w : World) : World :=
  match _st w with
  | Some badge => saveOperation env badge (set__st None w)
  | None => w
  end.

(** ** Sync controller ([syncWithCloud]) *)

(** A run of [syncWithCloud()] during which no other handler of the page runs
    while it awaits the backend: [DB.user.id], which the code reads again for
    the push, is then the id that the guard read.  [syncWithCloudAmid] below
    is the run with other handlers in between. *)
Definition syncWithCloud (env : Env) (w : World) : World :=
  match (if supabase env then remoteUserId (DB w) else None) with
  | None => w
  | Some userId =>
      if decide (syncStatus (DB w) = Some Syncing) then w else
      let w := set_DB (set_syncStatus (Some Syncing) (DB w)) w in
      let failed (w : World) : World :=
        let w := set_DB (set_syncStatus (Some SyncError) (DB w)) w in
        let w := notify "⚠️ Sync failed. Using local mode." w in
        queuePendingChanges env None w in
      match Pull.loadUserDataFromSupabase env userId w with
      | Js.Threw _ => failed w
      | Js.Returned (cloudData, w) =>
          let '(now, w) := readClock env w in
          let w := set_DB (Merge.mergeData (Date_parse env) now (DB w) (Some cloudData)) w in
          let w := rebuildIndex w in
          match Push.saveUserDataToSupabase env userId w with
          | Js.Threw _ => failed w
          | Js.Returned w =>
              let w := saveToLocalStorage env w in
              let '(now, w) := readClock env w in
              let w := set_DB (set_lastSync (Some now) (DB w)) w in
              let w := set_DB (set_syncStatus (Some Idle) (DB w)) w in
              let w := set_DB (set_pendingChanges (Some []) (DB w)) w in
              notify "✅ Synced with cloud" w
          end
      end
  end.

(** ** The previous version of the save pipeline

    The repository also carries version 6.0.0 of the application.  Its
    [saveDB] differs from the one above by one more branch; its remote push
    is a parameter here. *)

Module V6.
Section SaveDB.
Variable saveUserDataToSupabase : Env → string → World → Js.Outcome World.

Definition saveOperation (env : Env) (badge : option string) (w : World) : World :=
  let w := saveToLocalStorage env w in
  let w :=
    match (if onLine env && supabase env then remoteUserId (DB w) else None) with
    | Some userId =>
        match saveUserDataToSupabase env userId w with
        | Js.Returned w => set_DB (set_pendingChanges (Some []) (DB w)) w
        | Js.Threw e => queuePendingChanges env badge w
        end
    | None =>
        if decide ((user (DB w) ≫= u_mode) = Some "supabase")
        then queuePendingChanges env (lastBadge w) w
        else w
    end in
  set_saveQueue [] w.

Definition saveDB (env : Env) (badge : option string) (immediate : bool) (w : World) : World :=
  let '(ms, w) := readClockMs env w in
  let w := set_saveQueue (saveQueue w ++ [(badge, ms)]) w in
  if immediate then saveOperation env badge (set__st None w)
  else set__st (Some badge) w.
End SaveDB.
End V6.

(** ** Classroom, student and lesson handlers

    The value of an input element is [None] when the page has no such
    element.  Rendering, overlays and toasts are left out. *)

Record ClassForm := mkClassForm {
  inp_cname : option string;
  inp_csub : option string;
  inp_cteacher : option string
}.

Record StudentForm := mkStudentForm {
  inp_sname : option string;
  inp_sphone : option string;
  inp_semail : option string;
  inp_pname : option string;
  inp_pphone : option string;
  inp_snote : option string
}.

Record LessonForm := mkLessonForm {
  inp_ltopic : option string;
  inp_ldate : option string;
  inp_lnum : option string
}.

(** [el?.value.trim() || ''] *)
Definition trimmed (value : option string) : string := Js.trim (default "" value).

Definition createClassroom (env : Env) (form : ClassForm) (random : string) (w : World) : World :=
  match inp_cname form with
  | None => w
  | Some value =>
      let name := Js.trim value in
      if decide (name = "") then w else
      let '(ms, w) := readClockMs env w in
      let '(now, w) := readClock env w in
      let newClass :=
        mkClassroom ("class_" +:+ pretty ms +:+ "_" +:+ random) name
          (trimmed (inp_csub form)) (trimmed (inp_cteacher form))
          [] [] [] 1 1 1 (Some now) in
      let w := set_DB (set_classrooms (classrooms (DB w) ++ [newClass]) (DB w)) w in
      let w := rebuildIndex w in
      saveDB env (Some "home") false w
  end.

(** [openClassroom(id)], up to the rendering. *)
Definition openClassroom (id : string) (w : World) : World := set_CID (Some id) w.

Definition openAddStudent (w : World) : World := set_editSid None w.
Definition openEditStudent (sid : Z) (w : World) : World := set_editSid (Some sid) w.

(** [Object.assign(student, data)] on the first student with the id. *)
Fixpoint assignFirst (sid : Z) (f : Student → Student) (students : list Student) : list Student :=
  match students with
  | [] => []
  | s :: students' =>
      if decide (s_id s = sid) then f s :: students' else s :: assignFirst sid f students'
  end.

Definition set_students (x : list Student) (c : Classroom) : Classroom :=
  let '(mkClassroom id name subject teacher students columns lessons nextSid nextLid nextCid updatedAt) := c in
  mkClassroom id name subject teacher x columns lessons nextSid nextLid nextCid updatedAt.
Definition set_lessons (x : list Lesson) (c : Classroom) : Classroom :=
  let '(mkClassroom id name subject teacher students columns lessons nextSid nextLid nextCid updatedAt) := c in
  mkClassroom id name subject teacher students columns x nextSid nextLid nextCid updatedAt.
Definition set_columns (x : list Column) (c : Classroom) : Classroom :=
  let '(mkClassroom id name subject teacher students columns lessons nextSid nextLid nextCid updatedAt) := c in
  mkClassroom id name subject teacher students x lessons nextSid nextLid nextCid updatedAt.
Definition set_nextSid (x : Z) (c : Classroom) : Classroom :=
  let '(mkClassroom id name subject teacher students columns lessons nextSid nextLid nextCid updatedAt) := c in
  mkClassroom id name subject teacher students columns lessons x nextLid nextCid updatedAt.
Definition set_nextLid (x : Z) (c : Classroom) : Classroom :=
  let '(mkClassroom id name subject teacher students columns lessons nextSid nextLid nextCid updatedAt) := c in
  mkClassroom id name subject teacher students columns lessons nextSid x nextCid updatedAt.
Definition set_nextCid (x : Z) (c : Classroom) : Classroom :=
  let '(mkClassroom id name subject teacher students columns lessons nextSid nextLid nextCid updatedAt) := c in
  mkClassroom id name subject teacher students columns lessons nextSid nextLid x updatedAt.

Definition saveStudent (env : Env) (form : StudentForm) (w : World) : World :=
  match inp_sname form with
  | None => w
  | Some value =>
      let name := Js.trim value in
      if decide (name = "") then w else
      let '(now, w) := readClock env w in
      let data (id : Z) : Student :=
        mkStudent id name (trimmed (inp_sphone form)) (trimmed (inp_semail form))
          (trimmed (inp_pname form)) (trimmed (inp_pphone form)) (trimmed (inp_snote form))
          (Some now) in
      match CC w with
      | None => w
      | Some p =>
          let w :=
            match editSid w with
            | Some editedId =>
                updateClassroom p
                  (λ c, set_students (assignFirst editedId (λ s, data (s_id s)) (c_students c)) c) w
            | None =>
                updateClassroom p
                  (λ c, let newId := c_nextSid c in
                        set_students (c_students c ++ [data newId]) (set_nextSid (newId + 1) c)) w
            end in
          let w := rebuildIndex w in
          saveDB env (Some "class") false w
      end
  end.

(** Attendance statistics of a student in the current classroom. *)
Record Stats := mkStats { present : Z; late : Z; absent : Z; attended : Z; total : Z }.

(** [!l.studentIds || l.studentIds.includes(sid)] *)
Definition appliesTo (sid : Z) (l : Lesson) : bool :=
  match l_studentIds l with
  | None => true
  | Some ids => bool_decide (sid ∈ ids)
  end.

(** [(l.data || {})[`att_${sid}`] || 'present'] *)
Definition attendanceOf (sid : Z) (l : Lesson) : string :=
  match default ∅ (l_data l) !! att_key sid with
  | Some val => if decide (val = "") then "present" else val
  | None => "present"
  end.

Definition studentStats (w : World) (sid : Z) : Stats :=
  match CC w ≫= classroomAt w with
  | None => mkStats 0 0 0 0 0
  | Some c =>
      let '(present, late, absent) :=
        foldl (λ '(present, late, absent) l,
                 if negb (appliesTo sid l) then (present, late, absent)
                 else
                   let val := attendanceOf sid l in
                   if decide (val = "present") then (present + 1, late, absent)
                   else if decide (val = "late") then (present, late + 1, absent)
                   else (present, late, absent + 1))
          (0, 0, 0) (c_lessons c) in
      mkStats present late absent (present + late)
        (Z.of_nat (length (filter (λ l, appliesTo sid l = true) (c_lessons c))))
  end.

Definition delStudentConfirm (sid : Z) (w : World) : World :=
  match getStudent w (CID w) sid with
  | None => w
  | Some _ => set_confirmCb (Some (RemoveStudent sid)) w
  end.

(** The callbacks given to [confirm_], and the button that runs them. *)
Definition runCallback (env : Env) (cb : Callback) (w : World) : World :=
  match cb with
  | RemoveStudent sid =>
      match CC w with
      | None => w
      | Some p =>
          let w :=
            updateClassroom p
              (λ c, set_students (filter (λ st, s_id st ≠ sid) (c_students c)) c) w in
          let w := rebuildIndex w in
          saveDB env (Some "class") true w
      end
  end.

Definition confirmOk (env : Env) (w : World) : World :=
  let w := match confirmCb w with
           | Some cb => runCallback env cb w
           | None => w
           end in
  set_confirmCb None w.

Definition set_currentLessonMode (x : string) (w : World) : World :=
  let '(mkWorld db idx cid lid esid mode cb queue timer storage table sent shown reads) := w in
  mkWorld db idx cid lid esid x cb
    queue timer storage table sent shown reads.

(** [toggleLessonMode(mode)] and [openAddLesson()], up to the page.
    [openAddLesson] calls [todayStr()], which reads the clock, when the page
    has the input [inp-ldate]. *)
Definition toggleLessonMode (mode : string) (w : World) : World := set_currentLessonMode mode w.
Definition openAddLesson (env : Env) (inp_ldate : bool) (w : World) : World :=
  let w := toggleLessonMode "standard" w in
  if inp_ldate then (readClockDay env w).2 else w.

Definition IELTS_SECTIONS : list string :=
  ["Listening"; "Reading"; "Writing"; "Speaking"; "Overall Band"].

(** The columns an IELTS lesson brings with it: one per section but the
    overall band, each tied to the lesson. *)
Definition ieltsColumns (env : Env) (p : nat) (lessonId : Z) (w : World) : World :=
  foldl (λ w sec,
           if decide (sec = "Overall Band") then w else
           let '(now, w) := readClock env w in
           updateClassroom p
             (λ c, set_columns
                     (c_columns c ++ [mkColumn (c_nextCid c) sec true (Some lessonId) (Some now)])
                     (set_nextCid (c_nextCid c + 1) c)) w)
    w IELTS_SECTIONS.

Definition saveLesson (env : Env) (form : LessonForm) (w : World) : World :=
  match inp_ltopic form with
  | None => w
  | Some value =>
      let topic := Js.trim value in
      if decide (topic = "") then w else
      let '(date, w) :=
        match inp_ldate form with
        | Some d => (d, w)
        | None => readClockDay env w
        end in
      match CC w, CC w ≫= classroomAt w with
      | Some p, Some c =>
          let num :=
            match Js.parseInt (default "" (inp_lnum form)) with
            | Some n => if decide (n = 0) then Z.of_nat (length (c_lessons c)) + 1 else n
            | None => Z.of_nat (length (c_lessons c)) + 1
            end in
          let mode := currentLessonMode w in
          let lessonId := c_nextLid c in
          let w := updateClassroom p (set_nextLid (lessonId + 1)) w in
          let '(now, w) := readClock env w in
          let lesson :=
            mkLesson lessonId topic date num (Some ∅) (Some mode)
              (Some (s_id <$> c_students c)) None (Some now) in
          let w := if decide (mode = "ielts") then ieltsColumns env p lessonId w else w in
          let w := updateClassroom p (λ c, set_lessons (c_lessons c ++ [lesson]) c) w in
          let w := set_LID (Some lessonId) w in
          let w := rebuildIndex w in
          saveDB env (Some "class") false w
      | _, _ => w
      end
  end.

Definition set_data (x : option (gmap string string)) (l : Lesson) : Lesson :=
  let '(mkLesson id topic date num data mode studentIds notes updatedAt) := l in
  mkLesson id topic date num x mode studentIds notes updatedAt.
Definition set_l_updatedAt (x : option string) (l : Lesson) : Lesson :=
  let '(mkLesson id topic date num data mode studentIds notes updatedAt) := l in
  mkLesson id topic date num data mode studentIds notes x.

Definition updateLesson (r : nat * nat) (f : Lesson → Lesson) (w : World) : World :=
  updateClassroom r.1 (λ c, set_lessons (alter f r.2 (c_lessons c)) c) w.

Definition setAtt (env : Env) (sid : Z) (status : string) (w : World) : World :=
  match CL w with
  | None => w
  | Some l =>
      let w := updateLesson l (λ l, set_data (Some (<[att_key sid := status]> (default ∅ (l_data l)))) l) w in
      let '(now, w) := readClock env w in
      let w := updateLesson l (set_l_updatedAt (Some now)) w in
      saveDB env (Some "lesson") false w
  end.

(** ** Sample data for the closed examples *)

Module Sample.

Definition student (id : Z) (name updatedAt : string) : Student :=
  mkStudent id name "" "" "" "" "" (Some updatedAt).

Definition classroom (id updatedAt : string) (students : list Student) : Classroom :=
  mkClassroom id "Algebra" "Mathematics" "Ms. Turing" students [] [] 3 1 1 (Some updatedAt).

Definition store (cs : list Classroom) : Store :=
  mkStore cs (Some 1) None None (Some Idle) (Some []) (Some defaultExportSettings) (Some []).

Definition T1 : string := "2024-01-01T00:00:00Z".
Definition T2 : string := "2024-01-02T00:00:00Z".

Definition S1 : Student := student 1 "Ada" T1.
Definition S2 : Student := student 2 "Grace" T1.
(** [S1] as edited later on another device. *)
Definition S1' : Student := student 1 "Ada L." T2.

(** The same classroom on two devices: the older copy and the newer copy,
    each with one or with two students. *)
Definition olderC1 : Classroom := classroom "C" T1 [S1].
Definition olderC2 : Classroom := classroom "C" T1 [S1; S2].
Definition newerC1 : Classroom := classroom "C" T2 [S1].
Definition newerC2 : Classroom := classroom "C" T2 [S1'; S2].
Definition otherD : Classroom := classroom "D" T1 [].

(** Two readings of the clock. *)
Definition now1 : string := "2024-03-01T10:00:00.000Z".

(** A clock that advances by one second per reading, from 10:00:00 on
    2024-03-01. *)
Definition pad2 (n : nat) : string :=
  if bool_decide (n < 10)%nat then "0" +:+ pretty n else pretty n.
Definition clockAt (n : nat) : string :=
  "2024-03-01T10:" +:+ pad2 (n `div` 60) +:+ ":" +:+ pad2 (n `mod` 60) +:+ "Z".

(** A backend with empty tables that answers every request. *)
Definition emptyBackend : Remote.Backend :=
  Remote.mkBackend
    (λ _, Remote.Resolves (Some []) None) (λ _, Remote.Resolves (Some []) None)
    (λ _, Remote.Resolves None None) (λ _, Remote.Resolves (Some []) None)
    (λ _, Remote.Resolves (Some []) None) (λ _, Remote.Resolves (Some []) None)
    (λ _, Remote.Resolves (Some []) None) (λ _, Remote.Resolves (Some []) None).

(** Online, with the client connected and a backend that accepts. *)
Definition env : Env :=
  mkEnv true true emptyBackend (λ _, Remote.Accepted)
    clockAt (λ n, 1709287200000 + 1000 * Z.of_nat n) (λ _, "2024-03-01")
    IsoDate.parse true.

(** The same, with the browser reporting no connectivity. *)
Definition offlineEnv : Env :=
  mkEnv false true emptyBackend (λ _, Remote.Accepted)
    clockAt (λ n, 1709287200000 + 1000 * Z.of_nat n) (λ _, "2024-03-01")
    IsoDate.parse true.

(** A network failure as the backend client reports it: every request
    resolves with an error that says the fetch failed. *)
Definition fetchFailed : Js.Error := Js.mkError (Some "TypeError: Failed to fetch").

Definition downBackend : Remote.Backend :=
  Remote.mkBackend
    (λ _, Remote.Resolves None (Some fetchFailed)) (λ _, Remote.Resolves None (Some fetchFailed))
    (λ _, Remote.Resolves None (Some fetchFailed)) (λ _, Remote.Resolves None (Some fetchFailed))
    (λ _, Remote.Resolves None (Some fetchFailed)) (λ _, Remote.Resolves None (Some fetchFailed))
    (λ _, Remote.Resolves None (Some fetchFailed)) (λ _, Remote.Resolves None (Some fetchFailed)).

Definition downEnv : Env :=
  mkEnv true true downBackend (λ _, Remote.Refused fetchFailed)
    clockAt (λ n, 1709287200000 + 1000 * Z.of_nat n) (λ _, "2024-03-01")
    IsoDate.parse true.

(** A network failure as a rejected request: the error the client module
    throws when its [fetch] fails. *)
Definition networkError : Js.Error :=
  Js.mkError (Some "Network error - please check your connection").

Definition rejectingBackend : Remote.Backend :=
  Remote.mkBackend
    (λ _, Remote.Rejects networkError) (λ _, Remote.Rejects networkError)
    (λ _, Remote.Rejects networkError) (λ _, Remote.Rejects networkError)
    (λ _, Remote.Rejects networkError) (λ _, Remote.Rejects networkError)
    (λ _, Remote.Rejects networkError) (λ _, Remote.Rejects networkError).

Definition rejectingEnv : Env :=
  mkEnv true true rejectingBackend (λ _, Remote.Failed networkError)
    clockAt (λ n, 1709287200000 + 1000 * Z.of_nat n) (λ _, "2024-03-01")
    IsoDate.parse true.

(** The forms of the end-to-end scenario. *)
Definition classForm : ClassForm := mkClassForm (Some "C1") (Some "") (Some "").
Definition studentForm : StudentForm :=
  mkStudentForm (Some "Ada") (Some "") (Some "") (Some "") (Some "") (Some "").
Definition lessonForm : LessonForm := mkLessonForm (Some "L1") (Some "2024-03-01") (Some "").

(** A signed-in user of the remote backend, and a store of theirs with one
    classroom of two students and one lesson with cells for both. *)
Definition remoteUser : User := mkUser (Some "user-1") "ada@example.org" "ada" (Some "supabase").

Definition lessonL1 : Lesson :=
  mkLesson 1 "L1" "2024-03-01" 1
    (Some (<["att_1" := "late"]> (<["col_1_1" := "9"]> (<["att_2" := "absent"]> ∅))))
    (Some "standard") (Some [1; 2]) None (Some T1).

Definition classroomC : Classroom :=
  mkClassroom "C" "Algebra" "Mathematics" "Ms. Turing" [S1; S2]
    [mkColumn 1 "Quiz" false None (Some T1)] [lessonL1] 3 2 2 (Some T1).

Definition signedIn (cs : list Classroom) : Store :=
  mkStore cs (Some 1) (Some remoteUser) None (Some Idle) (Some [])
    (Some defaultExportSettings) (Some []).

(** The page showing classroom [C] of that store, index built. *)
Definition worldC : World :=
  rebuildIndex
    (mkWorld (signedIn [classroomC; otherD]) initialIndex (Some "C") None None "standard" None
       [] None (mkStorage None None) [] [] [] 0).

(** Sixty saves, labelled 0 to 59. *)
Definition badges60 : list (option string) := (λ i : nat, Some (pretty i)) <$> seq 0 60.

End Sample.

(** ** Gradebook, column, template and deletion handlers *)

Definition getColumn (w : World) (classId : option string) (cid : Z) : option (nat * nat) :=
  classId ← classId;
  '(p, m) ← JsMap.get (columnsByClassroom (DB_INDEX w)) classId;
  q ← JsMap.get m cid; Some (p, q).

Definition columnAt (w : World) (r : nat * nat) : option Column :=
  c ← classroomAt w r.1; c_columns c !! r.2.

Definition set_studentIds (x : option (list Z)) (l : Lesson) : Lesson :=
  let '(mkLesson id topic date num data mode studentIds notes updatedAt) := l in
  mkLesson id topic date num data mode x notes updatedAt.
Definition set_notes (x : option string) (l : Lesson) : Lesson :=
  let '(mkLesson id topic date num data mode studentIds notes updatedAt) := l in
  mkLesson id topic date num data mode studentIds x updatedAt.
Definition set_topic (x : string) (l : Lesson) : Lesson :=
  let '(mkLesson id topic date num data mode studentIds notes updatedAt) := l in
  mkLesson id x date num data mode studentIds notes updatedAt.
Definition set_date (x : string) (l : Lesson) : Lesson :=
  let '(mkLesson id topic date num data mode studentIds notes updatedAt) := l in
  mkLesson id topic x num data mode studentIds notes updatedAt.
Definition set_num (x : Z) (l : Lesson) : Lesson :=
  let '(mkLesson id topic date num data mode studentIds notes updatedAt) := l in
  mkLesson id topic date x data mode studentIds notes updatedAt.
Definition set_col_name (x : string) (col : Column) : Column :=
  let '(mkColumn id name ielts lessonId updatedAt) := col in
  mkColumn id x ielts lessonId updatedAt.
Definition set_col_updatedAt (x : option string) (col : Column) : Column :=
  let '(mkColumn id name ielts lessonId updatedAt) := col in
  mkColumn id name ielts lessonId x.
Definition set_s_updatedAt (x : option string) (s : Student) : Student :=
  let '(mkStudent id name phone email parentName parentPhone note updatedAt) := s in
  mkStudent id name phone email parentName parentPhone note x.
Definition set_c_updatedAt (x : option string) (c : Classroom) : Classroom :=
  let '(mkClassroom id name subject teacher students columns lessons nextSid nextLid nextCid updatedAt) := c in
  mkClassroom id name subject teacher students columns lessons nextSid nextLid nextCid x.
Definition set_gradeTemplates (x : option (list GradeTemplate)) (db : Store) : Store :=
  let '(mkStore cs next usr synced status pending settings templates) := db in
  mkStore cs next usr synced status pending settings x.
Definition set_exportSettings (x : option ExportSettings) (db : Store) : Store :=
  let '(mkStore cs next usr synced status pending settings templates) := db in
  mkStore cs next usr synced status pending x templates.

Definition set_user (x : option User) (db : Store) : Store :=
  let '(mkStore cs next usr synced status pending settings templates) := db in
  mkStore cs next x synced status pending settings templates.

Definition updateColumn (r : nat * nat) (f : Column → Column) (w : World) : World :=
  updateClassroom r.1 (λ c, set_columns (alter f r.2 (c_columns c)) c) w.

Definition updateStudent (r : nat * nat) (f : Student → Student) (w : World) : World :=
  updateClassroom r.1 (λ c, set_students (alter f r.2 (c_students c)) c) w.

(** The fields of a student that the student sheet lets the user edit in
    place: the [field] that [icard] passes to [editField]. *)
Inductive StudentField := FName | FPhone | FEmail | FParentName | FParentPhone | FNote.

(** [s[field] = x] *)
Definition set_field (field : StudentField) (x : string) (s : Student) : Student :=
  let '(mkStudent id name phone email parentName parentPhone note updatedAt) := s in
  match field with
  | FName => mkStudent id x phone email parentName parentPhone note updatedAt
  | FPhone => mkStudent id name x email parentName parentPhone note updatedAt
  | FEmail => mkStudent id name phone x parentName parentPhone note updatedAt
  | FParentName => mkStudent id name phone email x parentPhone note updatedAt
  | FParentPhone => mkStudent id name phone email parentName x note updatedAt
  | FNote => mkStudent id name phone email parentName parentPhone x updatedAt
  end.

(** [editField(card, sid, field)] with the [commit] of its input, whose
    value is [value], up to the page.  The student is looked up when the
    field is opened; the commit follows with no other handler in between. *)
Definition editField (env : Env) (sid : Z) (field : StudentField) (value : string)
    (w : World) : World :=
  match getStudent w (CID w) sid with
  | None => w
  | Some r =>
      let w := updateStudent r (set_field field (Js.trim value)) w in
      let '(now, w) := readClock env w in
      let w := updateStudent r (set_s_updatedAt (Some now)) w in
      saveDB env (Some "class") false w
  end.

(** [openLesson(lid)], up to the rendering. *)
Definition openLesson (lid : Z) (w : World) : World := set_LID (Some lid) w.

(** [saveGrade(cid, sid, val)] *)
Definition saveGrade (env : Env) (cid sid : Z) (val : string) (w : World) : World :=
  match CL w with
  | None => w
  | Some l =>
      let w := updateLesson l
                 (λ l, set_data (Some (<[col_key cid sid := Js.trim val]> (default ∅ (l_data l)))) l) w in
      let '(now, w) := readClock env w in
      let w := updateLesson l (set_l_updatedAt (Some now)) w in
      saveDB env (Some "lesson") false w
  end.

(** The students a lesson lists:
    [c.students.filter(s => l.studentIds ? l.studentIds.includes(s.id) : true)] *)
Definition studentsOf (l : Lesson) (c : Classroom) : list Student :=
  filter (λ s, appliesTo (s_id s) l = true) (c_students c).

(** [bulkSetAttendance(status)].  The loop that assigns [l.data[att_<id>]]
    student by student is the fold over [data]. *)
Definition bulkSetAttendance (env : Env) (status : string) (w : World) : World :=
  match CL w with
  | None => w
  | Some r =>
      let w := updateLesson r (λ l, set_data (Some (default ∅ (l_data l))) l) w in
      match CC w ≫= classroomAt w, lessonAt w r with
      | Some c, Some l =>
          let students := studentsOf l c in
          let w := updateLesson r
                     (λ l, set_data
                             (Some (foldl (λ data s, <[att_key (s_id s) := status]> data)
                                      (default ∅ (l_data l)) students)) l) w in
          let '(now, w) := readClock env w in
          let w := updateLesson r (set_l_updatedAt (Some now)) w in
          saveDB env (Some "lesson") false w
      | _, _ => w
      end
  end.

(** [quickAddStudentToLesson(name, inputEl)] *)
Definition quickAddStudentToLesson (env : Env) (name : string) (w : World) : World :=
  let name := Js.trim name in
  if decide (name = "") then w else
  match CC w, CC w ≫= classroomAt w, CL w with
  | Some p, Some c, Some r =>
      let newId := c_nextSid c in
      let w := updateClassroom p (set_nextSid (newId + 1)) w in
      let '(now, w) := readClock env w in
      let newStudent := mkStudent newId name "" "" "" "" "" (Some now) in
      let w := updateClassroom p (λ c, set_students (c_students c ++ [newStudent]) c) w in
      let w := updateLesson r
                 (λ l, match l_studentIds l with
                       | Some ids => set_studentIds (Some (ids ++ [newId])) l
                       | None => l
                       end) w in
      let '(now, w) := readClock env w in
      let w := updateLesson r (set_l_updatedAt (Some now)) w in
      let w := rebuildIndex w in
      saveDB env (Some "class") false w
  | _, _, _ => w
  end.

(** [saveColumn()]; the argument is the value of [inp-colname], if the page
    has the element. *)
Definition saveColumn (env : Env) (inp_colname : option string) (w : World) : World :=
  match inp_colname with
  | None => w
  | Some value =>
      let name := Js.trim value in
      if decide (name = "") then w else
      match CC w with
      | None => w
      | Some p =>
          let '(now, w) := readClock env w in
          let w := updateClassroom p
                     (λ c, set_columns (c_columns c ++ [mkColumn (c_nextCid c) name false None (Some now)])
                             (set_nextCid (c_nextCid c + 1) c)) w in
          let w := rebuildIndex w in
          saveDB env (Some "class") false w
      end
  end.

(** [confirmRenameCol()]; [renameColId] is the module variable that
    [openRenameColumn] sets. *)
Definition confirmRenameCol (env : Env) (renameColId : Z) (inp_rename_col : option string)
    (w : World) : World :=
  match inp_rename_col with
  | None => w
  | Some value =>
      let name := Js.trim value in
      if decide (name = "") then w else
      match getColumn w (CID w) renameColId with
      | None => w
      | Some r =>
          let w := updateColumn r (set_col_name name) w in
          let '(now, w) := readClock env w in
          let w := updateColumn r (set_col_updatedAt (Some now)) w in
          saveDB env (Some "class") false w
      end
  end.

(** [saveLessonNotes()]; the argument is the value of [lesson-notes-area]. *)
Definition saveLessonNotes (env : Env) (notesArea : option string) (w : World) : World :=
  match CL w with
  | None => w
  | Some r =>
      let w := updateLesson r (set_notes (Some (trimmed notesArea))) w in
      let '(now, w) := readClock env w in
      let w := updateLesson r (set_l_updatedAt (Some now)) w in
      saveDB env (Some "lesson") false w
  end.

Record EditLessonForm := mkEditLessonForm {
  inp_el_topic : option string;
  inp_el_date : option string;
  inp_el_num : option string
}.

(** [value] of an input that may be missing, when it is not empty:
    [if (input?.value) ...] *)
Definition filledIn (value : option string) : option string := Pull.truthyString value.

(** [confirmEditLesson()]; [editLid] is the module variable that
    [openEditLesson] sets. *)
Definition confirmEditLesson (env : Env) (editLid : Z) (form : EditLessonForm) (w : World) : World :=
  match inp_el_topic form with
  | None => w
  | Some value =>
      let topic := Js.trim value in
      if decide (topic = "") then w else
      match getLesson w (CID w) editLid with
      | None => w
      | Some r =>
          let w := updateLesson r (set_topic topic) w in
          let w := match filledIn (inp_el_date form) with
                   | Some d => updateLesson r (set_date d) w
                   | None => w
                   end in
          let w := match filledIn (inp_el_num form) with
                   | Some n =>
                       updateLesson r
                         (λ l, set_num (match Js.parseInt n with
                                        | Some z => if decide (z = 0) then l_num l else z
                                        | None => l_num l
                                        end) l) w
                   | None => w
                   end in
          let '(now, w) := readClock env w in
          let w := updateLesson r (set_l_updatedAt (Some now)) w in
          saveDB env (Some "class") false w
      end
  end.

(** The closures that the deletion handlers hand to [confirm_], run when the
    dialog is confirmed. *)
Definition deleteClass (env : Env) (id : string) (w : World) : World :=
  let w := set_DB (set_classrooms (filter (λ cls, c_id cls ≠ id) (classrooms (DB w))) (DB w)) w in
  let w := rebuildIndex w in
  saveDB env (Some "home") true w.

Definition deleteLesson (env : Env) (lid : Z) (w : World) : World :=
  match CC w with
  | None => w
  | Some p =>
      let w := updateClassroom p
                 (λ c, set_columns (filter (λ col, col_lessonId col ≠ Some lid) (c_columns c)) c) w in
      let w := updateClassroom p
                 (λ c, set_lessons (filter (λ ls, l_id ls ≠ lid) (c_lessons c)) c) w in
      let w := if decide (LID w = Some lid) then set_LID None w else w in
      let w := rebuildIndex w in
      saveDB env (Some "class") true w
  end.

Definition deleteColumn (env : Env) (cid : Z) (w : World) : World :=
  match CC w with
  | None => w
  | Some p =>
      let w := updateClassroom p
                 (λ c, set_columns (filter (λ col, col_id col ≠ cid) (c_columns c)) c) w in
      let w := rebuildIndex w in
      saveDB env (Some "class") true w
  end.

(** [deleteClassConfirm(id)], [delLessonConfirm(lid)] and
    [delColumnConfirm(cid)]: the closure given to [confirm_], or nothing when
    the index does not know the item. *)
Definition deleteClassConfirm (env : Env) (id : string) (w : World) : option (World → World) :=
  _ ← getC w (Some id); Some (deleteClass env id).

Definition delLessonConfirm (env : Env) (lid : Z) (w : World) : option (World → World) :=
  _ ← getLesson w (CID w) lid; Some (deleteLesson env lid).

Definition delColumnConfirm (env : Env) (cid : Z) (w : World) : option (World → World) :=
  _ ← getColumn w (CID w) cid; Some (deleteColumn env cid).

(** The dialog is confirmed. *)
Definition confirmed (cb : option (World → World)) (w : World) : World :=
  match cb with
  | Some run => run w
  | None => w
  end.

(** [applyGradeTemplate(idx)].  Indexing a missing [DB.gradeTemplates] throws
    before anything is done. *)
Definition applyGradeTemplate (env : Env) (idx : nat) (w : World) : World :=
  match gradeTemplates (DB w) ≫= (.!! idx) with
  | None => w
  | Some t =>
      match CC w with
      | None => w
      | Some p =>
          let w := foldl (λ w name,
                            let '(now, w) := readClock env w in
                            updateClassroom p
                              (λ c, set_columns
                                      (c_columns c ++ [mkColumn (c_nextCid c) name false None (Some now)])
                                      (set_nextCid (c_nextCid c + 1) c)) w)
                     w (gt_columns t) in
          let w := rebuildIndex w in
          saveDB env (Some "class") false w
      end
  end.

(** [saveCurrentColumnsAsTemplate()]; [answer] is what [prompt] returns. *)
Definition saveCurrentColumnsAsTemplate (env : Env) (answer : option string) (w : World) : World :=
  match CC w ≫= classroomAt w with
  | None => w
  | Some c =>
      let standardCols := col_name <$> filter (λ col, col_ielts col = false) (c_columns c) in
      if decide (standardCols = []) then w else
      match answer with
      | None => w
      | Some name =>
          if decide (Js.trim name = "") then w else
          let templates := default [] (gradeTemplates (DB w)) in
          let w := set_DB (set_gradeTemplates
                             (Some (templates ++ [mkGradeTemplate (Js.trim name) standardCols]))
                             (DB w)) w in
          saveDB env (Some "home") true w
      end
  end.

(** [deleteTemplate(idx)]; [splice] on a missing [DB.gradeTemplates] throws
    before anything is done. *)
Definition deleteTemplate (env : Env) (idx : nat) (w : World) : World :=
  match gradeTemplates (DB w) with
  | None => w
  | Some templates =>
      let w := set_DB (set_gradeTemplates (Some (delete idx templates)) (DB w)) w in
      saveDB env (Some "home") true w
  end.

(** The batches that the loop of [Pull.fetchBatches] cuts from [lessonIds]:
    [k] of them, the first starting at position [i]. *)
Definition batchesFrom (lessonIds : list string) (i k : nat) : list (list string) :=
  (λ j, take BATCH_SIZE (drop (i + j * BATCH_SIZE) lessonIds)) <$> seq 0 k.

(** ** Lesson completion and attendance streaks *)

(** [(lesson.data || {})[col_<col.id>_<s.id>]?.trim()] is truthy *)
Definition cellFilled (lesson : Lesson) (s : Student) (col : Column) : bool :=
  match default ∅ (l_data lesson) !! col_key (col_id col) (s_id s) with
  | Some val => bool_decide (Js.trim val ≠ "")
  | None => false
  end.

(** The columns of the gradebook of a lesson, the overall band left out. *)
Definition gradedColumns (lesson : Lesson) (classroom : Classroom) : list Column :=
  if decide (l_mode lesson = Some "ielts")
  then filter (λ c, col_ielts c = true ∧ col_lessonId c = Some (l_id lesson)
                    ∧ col_name c ≠ "Overall Band") (c_columns classroom)
  else filter (λ c, col_ielts c = false) (c_columns classroom).

Definition lessonCompletionStatus (lesson : Lesson) (classroom : Classroom) : string :=
  let students := studentsOf lesson classroom in
  if decide (length students = 0%nat) then "empty" else
  let cols := gradedColumns lesson classroom in
  if decide (length cols = 0%nat) then "att-only" else
  let total := (length students * length cols)%nat in
  let filled :=
    foldl (λ sum s, (sum + length (filter (λ col, cellFilled lesson s col = true) cols))%nat)
      0%nat students in
  if decide (filled = 0%nat) then "att-only"
  else if decide (filled < total)%nat then "partial"
  else "complete".

Section Streak.
(** [[...lessons].sort((a, b) => new Date(b.date) - new Date(a.date))]: the
    order the runtime's sort gives the lessons. *)
Variable sortByDate : list Lesson → list Lesson.

Definition checkAttendanceStreak (classroom : Classroom) (studentId : Z) : bool :=
  let sorted := take 5 (sortByDate (c_lessons classroom)) in
  if decide (length sorted < 3)%nat then false else
  forallb (λ l, if negb (appliesTo studentId l) then true
                else bool_decide (attendanceOf studentId l ≠ "absent")) sorted.
End Streak.

(** ** Page helpers: [esc], [timeAgo] *)

Module Html.

(** [s.replace(/c/g, into)] for one character [c] *)
Fixpoint replaceAll (c : ascii) (into : string) (s : string) : string :=
  match s with
  | EmptyString => EmptyString
  | String a s' =>
      if decide (a = c) then into +:+ replaceAll c into s' else String a (replaceAll c into s')
  end.

Definition amp : ascii := "&"%char.
Definition lt : ascii := "<"%char.
Definition gt : ascii := ">"%char.
Definition quot : ascii := "034"%char.
Definition apos : ascii := "'"%char.

Definition esc (s : option string) : string :=
  match s with
  | None => ""
  | Some s =>
      replaceAll apos "&#039;"
        (replaceAll quot "&quot;"
           (replaceAll gt "&gt;"
              (replaceAll lt "&lt;"
                 (replaceAll amp "&amp;" s))))
  end.

(** What one character becomes. *)
Definition entity (a : ascii) : string :=
  if decide (a = amp) then "&amp;"
  else if decide (a = lt) then "&lt;"
  else if decide (a = gt) then "&gt;"
  else if decide (a = quot) then "&quot;"
  else if decide (a = apos) then "&#039;"
  else String a EmptyString.

Fixpoint escapeEach (s : string) : string :=
  match s with
  | EmptyString => EmptyString
  | String a s' => entity a +:+ escapeEach s'
  end.

End Html.

(** [timeAgo(ts)] at the reading [nowMs] of [Date.now()]. *)
Definition timeAgo (Date_parse : string → TimeValue) (nowMs : Z) (ts : string) : string :=
  match Date_parse ts with
  | None => "NaNd ago"
  | Some t =>
      let s := (nowMs - t) / 1000 in
      if decide (s < 60) then "just now"
      else if decide (s < 3600) then pretty (s / 60) +:+ "m ago"
      else if decide (s < 86400) then pretty (s / 3600) +:+ "h ago"
      else pretty (s / 86400) +:+ "d ago"
  end.

(** ** Loading: [loadFromLocalStorage], [loadDB], [migrateLegacyData] *)

(** [!u] for a string that may be missing *)
Definition missing (u : option string) : bool :=
  match u with
  | None => true
  | Some s => bool_decide (s = "")
  end.

Definition set_ticks (x : nat) (w : World) : World :=
  let '(mkWorld db idx cid lid esid mode cb queue timer storage table sent shown reads) := w in
  mkWorld db idx cid lid esid mode cb
    queue timer storage table sent shown x.

Module Load.
Section WithClock.
Variable env : Env.

(** [if (!x.updatedAt) x.updatedAt = new Date().toISOString()], at the
    reading [t] of the clock *)
Definition stamp (u : option string) (t : nat) : option string * nat :=
  if missing u then (Some (clock env t), S t) else (u, t).

Fixpoint migrateLessons (students : list Student) (ls : list Lesson) (t : nat)
    : list Lesson * nat :=
  match ls with
  | [] => ([], t)
  | l :: ls' =>
      let l := match l_studentIds l with
               | None => set_studentIds (Some (s_id <$> students)) l
               | Some _ => l
               end in
      let '(u, t) := stamp (l_updatedAt l) t in
      let '(rest, t) := migrateLessons students ls' t in
      (set_l_updatedAt u l :: rest, t)
  end.

Fixpoint migrateStudents (ss : list Student) (t : nat) : list Student * nat :=
  match ss with
  | [] => ([], t)
  | s :: ss' =>
      let '(u, t) := stamp (s_updatedAt s) t in
      let '(rest, t) := migrateStudents ss' t in
      (set_s_updatedAt u s :: rest, t)
  end.

Fixpoint migrateClassrooms (cs : list Classroom) (t : nat) : list Classroom * nat :=
  match cs with
  | [] => ([], t)
  | c :: cs' =>
      let '(lessons, t) := migrateLessons (c_students c) (c_lessons c) t in
      let '(students, t) := migrateStudents (c_students c) t in
      let '(rest, t) := migrateClassrooms cs' t in
      (set_students students (set_lessons lessons c) :: rest, t)
  end.

Definition migrateLegacyData (w : World) : World :=
  let '(cs, t) := migrateClassrooms (classrooms (DB w)) (ticks w) in
  set_ticks t (set_DB (set_classrooms cs (DB w)) w).

(** The loop of [loadDB] over the classrooms: a classroom without a
    timestamp gets the time of the load, its students and lessons without one
    get the classroom's. *)
Definition inherit (from : option string) (u : option string) : option string :=
  if missing u then from else u.

Fixpoint stampClassrooms (cs : list Classroom) (t : nat) : list Classroom * nat :=
  match cs with
  | [] => ([], t)
  | c :: cs' =>
      let '(u, t) := stamp (c_updatedAt c) t in
      let c := set_c_updatedAt u c in
      let c := set_students ((λ s, set_s_updatedAt (inherit u (s_updatedAt s)) s) <$> c_students c) c in
      let c := set_lessons ((λ l, set_l_updatedAt (inherit u (l_updatedAt l)) l) <$> c_lessons c) c in
      let '(rest, t) := stampClassrooms cs' t in
      (c :: rest, t)
  end.

(** [loadFromLocalStorage()]: the main slot, else the backup, else nothing. *)
Definition loadFromLocalStorage (w : World) : option Store :=
  match gj_v6_pro (localStorage w) with
  | Some main => Some main
  | None => gj_v6_pro_backup (localStorage w)
  end.

(** The [try] block of [loadDB()]. *)
Definition loadDB (w : World) : World :=
  let w := match loadFromLocalStorage w with
           | Some localData => set_DB localData w
           | None => w
           end in
  let w := match exportSettings (DB w) with
           | Some _ => w
           | None => set_DB (set_exportSettings (Some defaultExportSettings) (DB w)) w
           end in
  let w := match gradeTemplates (DB w) with
           | Some _ => w
           | None => set_DB (set_gradeTemplates (Some []) (DB w)) w
           end in
  let '(cs, t) := stampClassrooms (classrooms (DB w)) (ticks w) in
  let w := set_ticks t (set_DB (set_classrooms cs (DB w)) w) in
  rebuildIndex (migrateLegacyData w).
End WithClock.
End Load.

(** ** A sync with other handlers in between

    [syncWithCloud()] awaits the pull and then the push.  While it awaits the
    pull, other handlers of the page may run: [meanwhile] is what they do to
    the page.  The pull looks at the page only once its last request is
    answered (for [DB.exportSettings]), so it runs on the page they leave.
    For the push the code reads [DB.user.id] again: with no user object left
    ([signOut] sets [DB.user = null]) the read throws a [TypeError] into the
    [catch]; a user object without an id has none to send, and the rows then
    carry the empty text.  Handlers that run while the push is awaited are
    left out. *)
Definition syncWithCloudAmid (env : Env) (meanwhile : World → World) (w : World) : World :=
  match (if supabase env then remoteUserId (DB w) else None) with
  | None => w
  | Some userId =>
      if decide (syncStatus (DB w) = Some Syncing) then w else
      let w := set_DB (set_syncStatus (Some Syncing) (DB w)) w in
      let failed (w : World) : World :=
        let w := set_DB (set_syncStatus (Some SyncError) (DB w)) w in
        let w := notify "⚠️ Sync failed. Using local mode." w in
        queuePendingChanges env None w in
      let w := meanwhile w in
      match Pull.loadUserDataFromSupabase env userId w with
      | Js.Threw _ => failed w
      | Js.Returned (cloudData, w) =>
          let '(now, w) := readClock env w in
          let w := set_DB (Merge.mergeData (Date_parse env) now (DB w) (Some cloudData)) w in
          let w := rebuildIndex w in
          match user (DB w) with
          | None => failed w
          | Some u =>
              match Push.saveUserDataToSupabase env (default "" (u_id u)) w with
              | Js.Threw _ => failed w
              | Js.Returned w =>
                  let w := saveToLocalStorage env w in
                  let '(now, w) := readClock env w in
                  let w := set_DB (set_lastSync (Some now) (DB w)) w in
                  let w := set_DB (set_syncStatus (Some Idle) (DB w)) w in
                  let w := set_DB (set_pendingChanges (Some []) (DB w)) w in
                  notify "✅ Synced with cloud" w
              end
          end
      end
  end.

(** The last assignments of [signOut()]: [DB.user = null; DB.syncStatus =
    'idle'; saveToLocalStorage()]. *)
Definition signedOut (env : Env) (w : World) : World :=
  saveToLocalStorage env
    (set_DB (set_syncStatus (Some Idle) (set_user None (DB w))) w).

(** ** The events of the page

    What the user does at the page to the classrooms, students, lessons,
    columns and templates of the store, each event with the handler it runs.
    A deletion is the opening of the confirmation dialog followed by its
    confirmation.  The handlers that replace the store by one that comes
    from outside the page ([loadDB], [loadFromBackup], [restoreFromFile],
    [authSubmit], [syncWithCloud]) are not among the events. *)

Inductive Event :=
| CreateClassroom (form : ClassForm) (random : string)
| OpenClassroom (id : string)
| OpenAddStudent
| OpenEditStudent (sid : Z)
| SaveStudent (form : StudentForm)
| EditField (sid : Z) (field : StudentField) (value : string)
| DeleteStudent (sid : Z)
| ToggleLessonMode (mode : string)
| OpenAddLesson (inp_ldate : bool)
| SaveLesson (form : LessonForm)
| EditLesson (lid : Z) (form : EditLessonForm)
| DeleteLesson (lid : Z)
| OpenLesson (lid : Z)
| SetAtt (sid : Z) (status : string)
| BulkSetAttendance (status : string)
| SaveGrade (cid sid : Z) (val : string)
| QuickAddStudent (name : string)
| SaveLessonNotes (notesArea : option string)
| SaveColumn (inp_colname : option string)
| RenameColumn (cid : Z) (inp_rename_col : option string)
| DeleteColumn (cid : Z)
| DeleteClass (id : string)
| ApplyGradeTemplate (idx : nat)
| SaveColumnsAsTemplate (answer : option string)
| DeleteTemplate (idx : nat)
| TimerFires.

Definition handle (env : Env) (e : Event) (w : World) : World :=
  match e with
  | CreateClassroom form random => createClassroom env form random w
  | OpenClassroom id => openClassroom id w
  | OpenAddStudent => openAddStudent w
  | OpenEditStudent sid => openEditStudent sid w
  | SaveStudent form => saveStudent env form w
  | EditField sid field value => editField env sid field value w
  | DeleteStudent sid => confirmOk env (delStudentConfirm sid w)
  | ToggleLessonMode mode => toggleLessonMode mode w
  | OpenAddLesson inp_ldate => openAddLesson env inp_ldate w
  | SaveLesson form => saveLesson env form w
  | EditLesson lid form => confirmEditLesson env lid form w
  | DeleteLesson lid => confirmed (delLessonConfirm env lid w) w
  | OpenLesson lid => openLesson lid w
  | SetAtt sid status => setAtt env sid status w
  | BulkSetAttendance status => bulkSetAttendance env status w
  | SaveGrade cid sid val => saveGrade env cid sid val w
  | QuickAddStudent name => quickAddStudentToLesson env name w
  | SaveLessonNotes notesArea => saveLessonNotes env notesArea w
  | SaveColumn inp_colname => saveColumn env inp_colname w
  | RenameColumn cid inp_rename_col => confirmRenameCol env cid inp_rename_col w
  | DeleteColumn cid => confirmed (delColumnConfirm env cid w) w
  | DeleteClass id => confirmed (deleteClassConfirm env id w) w
  | ApplyGradeTemplate idx => applyGradeTemplate env idx w
  | SaveColumnsAsTemplate answer => saveCurrentColumnsAsTemplate env answer w
  | DeleteTemplate idx => deleteTemplate env idx w
  | TimerFires => timerFires env w
  end.

(** A session: the events in their order, each under the conditions (clock,
    connectivity, backend) it meets. *)
Definition session (events : list (Env * Event)) (w : World) : World :=
  foldl (λ w '(env, e), handle env e w) w events.

(** The ids of a collection are distinct, at least 1 and below the counter
    they were drawn from. *)
Definition numbered {A} (id : A → Z) (items : list A) (next : Z) : Prop :=
  NoDup (id <$> items) ∧ Forall (λ x, 1 ≤ id x < next)%Z items ∧ (1 ≤ next)%Z.

Definition wellNumbered (c : Classroom) : Prop :=
  numbered s_id (c_students c) (c_nextSid c)
  ∧ numbered l_id (c_lessons c) (c_nextLid c)
  ∧ numbered col_id (c_columns c) (c_nextCid c).

(** A column that is tied to a lesson is tied to a lesson of its classroom;
    the students a lesson lists are distinct and were students of its
    classroom. *)
Definition anchored (c : Classroom) : Prop :=
  Forall (λ col, ∀ lid, col_lessonId col = Some lid → lid ∈ l_id <$> c_lessons c) (c_columns c)
  ∧ Forall (λ l, ∃ ids, l_studentIds l = Some ids ∧ NoDup ids
                        ∧ Forall (λ i, 1 ≤ i < c_nextSid c)%Z ids) (c_lessons c).

Definition sound (c : Classroom) : Prop := wellNumbered c ∧ anchored c.

(** What the index records of a classroom: its id and the ids of its
    students, lessons and columns, in their order. *)
Definition indexed (c : Classroom) : string * list Z * list Z * list Z :=
  (c_id c, s_id <$> c_students c, l_id <$> c_lessons c, col_id <$> c_columns c).

(** The index is the index of the store. *)
Definition indexFresh (w : World) : Prop := DB_INDEX (rebuildIndex w) = DB_INDEX w.

Definition consistent (w : World) : Prop :=
  Forall sound (classrooms (DB w)) ∧ indexFresh w.

(** ** More sample data *)

Module Demo.

(** A store written by an older version: its lesson has no [studentIds], and
    nothing has a timestamp. *)
Definition legacyClassroom : Classroom :=
  mkClassroom "1" "Algebra" "" ""
    [mkStudent 1 "Ada" "" "" "" "" "" None; mkStudent 2 "Grace" "" "" "" "" "" None]
    [] [mkLesson 1 "L1" "2023-09-01" 1 (Some ∅) None None None None] 3 2 1 None.

Definition legacyWorld : World :=
  set_DB (mkStore [legacyClassroom] (Some 2) None None None None None None) initialWorld.

(** Thirty lessons, and a backend that has one attendance row for each
    lesson it is asked about. *)
Definition lessonIds30 : list string := (λ i : nat, "lesson-" +:+ pretty i) <$> seq 0 30.

Definition attendanceRows (batch : list string) : list Remote.AttendanceRow :=
  (λ id, Remote.mkAttendanceRow id "1" "late") <$> batch.

Definition attendanceBackend : Remote.Backend :=
  Remote.mkBackend
    (λ _, Remote.Resolves (Some []) None) (λ _, Remote.Resolves (Some []) None)
    (λ _, Remote.Resolves None None) (λ _, Remote.Resolves (Some []) None)
    (λ _, Remote.Resolves (Some []) None) (λ _, Remote.Resolves (Some []) None)
    (λ _, Remote.Resolves None None)
    (λ batch, Remote.Resolves (Some (attendanceRows batch)) None).

(** A grade typed with a no-break space (U+00A0) before it and an
    ideographic space (U+3000) after it. *)
Definition nbsp : string := String "194" (String "160" "").
Definition ideographicSpace : string := String "227" (String "128" (String "128" "")).
Definition paddedGrade : string := nbsp +:+ "7" +:+ ideographicSpace.

(** The sample page with one grade template. *)
Definition quizSet : GradeTemplate := mkGradeTemplate "Quiz Set" ["Quiz 1"; "Quiz 2"].

Definition templateWorld : World :=
  set_DB (set_gradeTemplates (Some [quizSet]) (DB Sample.worldC)) Sample.worldC.

(** A session: a classroom is created and opened, two students are added, an
    IELTS lesson is created and opened, the first student is marked late and
    then removed. *)
Definition events : list (Env * Event) :=
  (λ e, (Sample.env, e)) <$>
    [CreateClassroom Sample.classForm "k3x9q2mzp";
     OpenClassroom "class_1709287200000_k3x9q2mzp";
     OpenAddStudent; SaveStudent Sample.studentForm;
     SaveStudent (mkStudentForm (Some "Grace") None None None None None);
     ToggleLessonMode "ielts"; SaveLesson Sample.lessonForm;
     OpenLesson 1; SetAtt 1 "late"; DeleteStudent 1; TimerFires].

(** The page after that session: lesson 1 of the classroom is open. *)
Definition lessonWorld : World := session events initialWorld.

Definition lessonClassroom : Classroom :=
  default Sample.classroomC (classroomAt lessonWorld 0).

End Demo.
(** ** Symbolic evaluation of the handlers *)

Ltac run0_in H :=
  repeat (progress (cbn -[pretty Js.trim Js.parseInt trimmed decide String.app bool_decide] in H;
                    repeat first [rewrite decide_True in H by done
                                 |rewrite decide_False in H by done])).

Ltac run_in H :=
  repeat (progress (cbn -[Js.trim Js.parseInt trimmed decide bool_decide att_key
                          gmap_lookup gmap_partial_alter gmap_empty map_insert ieltsColumns] in H;
                    repeat first [rewrite decide_True in H by done
                                 |rewrite decide_False in H by done])).

Ltac run :=
  repeat (progress (cbn -[Js.trim Js.parseInt trimmed decide bool_decide att_key
                          gmap_lookup gmap_partial_alter gmap_empty map_insert ieltsColumns];
                    repeat first [rewrite decide_True by done
                                 |rewrite decide_False by done
                                 |rewrite bool_decide_eq_true_2 by (by left)
                                 |rewrite lookup_insert_eq
                                 |rewrite lookup_empty])).

(** * Properties *)

(** ** The ordered [Map] and [Set] *)

Module JsSetFacts.
Section Facts.
Context {K : Type} `{EqDecision K}.
Implicit Types (s l : list K) (k x : K).

Lemma elem_of_add s k x : x ∈ JsSet.add k s ↔ x = k ∨ x ∈ s.
Proof.
  induction s as [|k0 s IH]; simpl.
  - rewrite list_elem_of_singleton, elem_of_nil. tauto.
  - case_decide; subst; rewrite !elem_of_cons, ?IH; intuition (subst; auto).
Qed.

Lemma add_fresh s k : k ∉ s → JsSet.add k s = s ++ [k].
Proof.
  induction s as [|k0 s IH]; simpl; [done|].
  intros Hk. apply not_elem_of_cons in Hk as [? ?].
  rewrite decide_False by done. by rewrite IH.
Qed.

Lemma add_known s k : k ∈ s → JsSet.add k s = s.
Proof.
  induction s as [|k0 s IH]; simpl; [by intros ?%elem_of_nil|].
  intros Hk. case_decide; [done|].
  apply elem_of_cons in Hk as [?|?]; [done|]. by rewrite IH.
Qed.

Lemma NoDup_add s k : NoDup s → NoDup (JsSet.add k s).
Proof.
  intros Hs. destruct (decide (k ∈ s)) as [Hk|Hk].
  - by rewrite add_known.
  - rewrite add_fresh by done. apply NoDup_app; repeat split; [done| |apply NoDup_singleton].
    intros x Hx ->%list_elem_of_singleton. done.
Qed.

Lemma elem_of_foldl_add l s x :
  x ∈ foldl (λ s k, JsSet.add k s) s l ↔ x ∈ s ∨ x ∈ l.
Proof.
  revert s. induction l as [|k l IH]; intros s; simpl.
  - rewrite elem_of_nil. tauto.
  - rewrite IH, elem_of_add, elem_of_cons. tauto.
Qed.

Lemma NoDup_foldl_add l s : NoDup s → NoDup (foldl (λ s k, JsSet.add k s) s l).
Proof. revert s. induction l; intros s Hs; simpl; auto using NoDup_add. Qed.

Lemma foldl_add_fresh l s : NoDup (s ++ l) → foldl (λ s k, JsSet.add k s) s l = s ++ l.
Proof.
  revert s. induction l as [|k l IH]; intros s Hnd; simpl.
  - by rewrite app_nil_r.
  - rewrite add_fresh.
    + rewrite IH; rewrite <- app_assoc; done.
    + apply NoDup_app in Hnd as (_ & Hdisj & _). intros Hk. apply (Hdisj k Hk). left.
Qed.

Lemma foldl_add_known l s : (∀ x, x ∈ l → x ∈ s) → foldl (λ s k, JsSet.add k s) s l = s.
Proof.
  induction l as [|k l IH]; intros Hl; simpl; [done|].
  rewrite add_known by (apply Hl; left). apply IH. intros x Hx. apply Hl. by right.
Qed.

Lemma elem_of_new l x : x ∈ JsSet.new l ↔ x ∈ l.
Proof. unfold JsSet.new. rewrite elem_of_foldl_add, elem_of_nil. tauto. Qed.

Lemma NoDup_new l : NoDup (JsSet.new l).
Proof. apply NoDup_foldl_add, NoDup_nil_2. Qed.

Lemma new_NoDup l : NoDup l → JsSet.new l = l.
Proof. intros. unfold JsSet.new. by rewrite foldl_add_fresh. Qed.

(** The union of a duplicate-free list with itself is the list. *)
Lemma new_twice l : NoDup l → JsSet.new (l ++ l) = l.
Proof.
  intros Hl. unfold JsSet.new. rewrite foldl_app.
  fold (JsSet.new l). rewrite new_NoDup by done. by apply foldl_add_known.
Qed.
End Facts.
End JsSetFacts.

Module JsMapFacts.
Section Facts.
Context {K V : Type} `{EqDecision K}.
Implicit Types (m l : list (K * V)) (k : K) (v : V).

Lemma get_set m k v k' :
  JsMap.get (JsMap.set k v m) k' = if decide (k' = k) then Some v else JsMap.get m k'.
Proof.
  induction m as [|[k0 v0] m IH]; simpl; [done|].
  destruct (decide (k = k0)) as [->|Hne]; simpl.
  - by destruct (decide (k' = k0)).
  - rewrite IH. repeat case_decide; simplify_eq; done.
Qed.

Lemma keys_set m k v : JsMap.keys (JsMap.set k v m) = JsSet.add k (JsMap.keys m).
Proof.
  unfold JsMap.keys. induction m as [|[k0 v0] m IH]; csimpl; [done|].
  case_decide; csimpl; [by subst|]. by rewrite IH.
Qed.

Lemma get_None m k : JsMap.get m k = None ↔ k ∉ JsMap.keys m.
Proof.
  unfold JsMap.keys. induction m as [|[k0 v0] m IH]; csimpl.
  - split; [intros _; apply not_elem_of_nil|done].
  - rewrite not_elem_of_cons. case_decide; subst; [|rewrite IH]; intuition congruence.
Qed.

Lemma get_is_Some m k : is_Some (JsMap.get m k) ↔ k ∈ JsMap.keys m.
Proof.
  rewrite <- not_eq_None_Some, get_None.
  destruct (decide (k ∈ JsMap.keys m)); tauto.
Qed.

Lemma get_Some_elem m k v : JsMap.get m k = Some v → (k, v) ∈ m.
Proof.
  induction m as [|[k0 v0] m IH]; simpl; [done|].
  case_decide; intros; simplify_eq; [left|right; auto].
Qed.

Lemma elem_get_NoDup m k v : NoDup (JsMap.keys m) → (k, v) ∈ m → JsMap.get m k = Some v.
Proof.
  unfold JsMap.keys. induction m as [|[k0 v0] m IH]; csimpl; [by intros _ ?%elem_of_nil|].
  intros [Hk0 Hnd]%NoDup_cons [?|Hin]%elem_of_cons; simplify_eq.
  - by rewrite decide_True.
  - rewrite decide_False; [auto|]. intros ->. apply Hk0.
    apply list_elem_of_fmap. by exists (k0, v).
Qed.

Lemma has_true m k : JsMap.has m k = true ↔ k ∈ JsMap.keys m.
Proof.
  unfold JsMap.has. pose proof (get_is_Some m k) as Hs. destruct (JsMap.get m k).
  - split; [intros _; apply Hs; by eexists|done].
  - split; [done|]. intros [? ?]%Hs. done.
Qed.

Lemma has_false m k : JsMap.has m k = false ↔ k ∉ JsMap.keys m.
Proof. rewrite <- has_true. by destruct (JsMap.has m k). Qed.

Lemma set_fresh m k v : k ∉ JsMap.keys m → JsMap.set k v m = m ++ [(k, v)].
Proof.
  unfold JsMap.keys. induction m as [|[k0 v0] m IH]; csimpl; [done|].
  intros [? ?]%not_elem_of_cons. rewrite decide_False by done. by rewrite IH.
Qed.

Lemma keys_build l m :
  JsMap.keys (foldl (λ m kv, JsMap.set kv.1 kv.2 m) m l)
  = foldl (λ s k, JsSet.add k s) (JsMap.keys m) l.*1.
Proof.
  revert m. induction l as [|[k v] l IH]; intros m; csimpl; [done|].
  by rewrite IH, keys_set.
Qed.

Lemma keys_new l : JsMap.keys (JsMap.new l) = JsSet.new l.*1.
Proof. apply keys_build. Qed.

Lemma NoDup_keys_new l : NoDup (JsMap.keys (JsMap.new l)).
Proof. rewrite keys_new. apply JsSetFacts.NoDup_new. Qed.

Lemma elem_of_keys_new l k : k ∈ JsMap.keys (JsMap.new l) ↔ k ∈ l.*1.
Proof. rewrite keys_new. apply JsSetFacts.elem_of_new. Qed.

Lemma build_fresh l m :
  NoDup (m.*1 ++ l.*1) → foldl (λ m kv, JsMap.set kv.1 kv.2 m) m l = m ++ l.
Proof.
  revert m. induction l as [|[k v] l IH]; intros m Hnd; csimpl.
  - by rewrite app_nil_r.
  - csimpl in Hnd. rewrite set_fresh.
    + rewrite IH; rewrite <- ?app_assoc; [done|].
      rewrite fmap_app. simpl. by rewrite <- app_assoc.
    + apply NoDup_app in Hnd as (_ & Hdisj & _). intros Hk. apply (Hdisj k Hk). left.
Qed.

(** A list of entries with distinct keys is its own [Map]. *)
Lemma new_unique_keys l : NoDup l.*1 → JsMap.new l = l.
Proof. intros. unfold JsMap.new. by rewrite build_fresh. Qed.

Lemma get_build_Some l m k v :
  JsMap.get (foldl (λ m kv, JsMap.set kv.1 kv.2 m) m l) k = Some v →
  (k, v) ∈ l ∨ JsMap.get m k = Some v.
Proof.
  revert m. induction l as [|[k0 v0] l IH]; intros m; simpl; [auto|].
  intros [Hin|Hget]%IH; [left; by right|].
  rewrite get_set in Hget. case_decide; simplify_eq; [left; left|by right].
Qed.

(** What a [Map] holds for a key is one of the entries it was built from. *)
Lemma get_new_Some l k v : JsMap.get (JsMap.new l) k = Some v → (k, v) ∈ l.
Proof. intros [?|?]%get_build_Some; done. Qed.

Lemma get_new_NoDup l k v : NoDup l.*1 → (k, v) ∈ l → JsMap.get (JsMap.new l) k = Some v.
Proof. intros Hnd Hin. rewrite new_unique_keys by done. by apply elem_get_NoDup. Qed.
End Facts.
End JsMapFacts.

(** ** Lists built by pushing *)

Lemma foldl_push_many {A B} (step : list A → B → list A) (l : list B) (acc : list A) :
  (∀ acc x, step acc x = acc ++ step [] x) →
  foldl step acc l = acc ++ (l ≫= step []).
Proof.
  intros Hstep. revert acc. induction l as [|x l IH]; intros acc; csimpl.
  - by rewrite app_nil_r.
  - by rewrite IH, (Hstep acc x), <- app_assoc.
Qed.

Lemma bind_singletons {A B} (f : B → list A) (g : B → A) (l : list B) :
  (∀ x, x ∈ l → f x = [g x]) → l ≫= f = g <$> l.
Proof.
  induction l as [|x l IH]; intros Hf; csimpl; [done|].
  rewrite (Hf x) by left. rewrite IH; [done|]. intros y Hy. apply Hf. by right.
Qed.

Lemma filter_unique {A K} `{EqDecision K} (key : A → K) (l : list A) (x : A) :
  NoDup (key <$> l) → x ∈ l → filter (λ y, key y = key x) l = [x].
Proof.
  induction l as [|y l IH]; csimpl; [by intros _ ?%elem_of_nil|].
  intros [Hy Hnd]%NoDup_cons [->|Hin]%elem_of_cons.
  - rewrite filter_cons_True by done. f_equal.
    apply elem_of_nil_inv. intros z [Hz Hzl]%list_elem_of_filter.
    apply Hy. rewrite <- Hz. by apply list_elem_of_fmap_2.
  - rewrite filter_cons_False; [by apply IH|].
    intros Heq. apply Hy. rewrite Heq. by apply list_elem_of_fmap_2.
Qed.

(** ** The merge engine *)

Module MergeFacts.
Section Facts.
Variable Date_parse : string → TimeValue.

Lemma js_gt_irrefl (t : TimeValue) : js_gt t t = false.
Proof. destruct t as [z|]; simpl; [|done]. apply bool_decide_eq_false. lia. Qed.

Lemma js_gt_asym (a b : TimeValue) : js_gt a b = true → js_gt b a = false.
Proof.
  destruct a, b; simpl; try done.
  intros ?%bool_decide_eq_true. apply bool_decide_eq_false. lia.
Qed.

Section Children.
Context {A : Type} `{Entity A}.
Implicit Types (local remote : list A) (lm rm : list (Z * A)).

Lemma entries_keys (l : list A) : ((λ i, (ent_id i, i)) <$> l).*1 = ent_id <$> l.
Proof. by rewrite <- list_fmap_compose. Qed.

Lemma elem_of_entries (l : list A) k x :
  (k, x) ∈ JsMap.new ((λ i, (ent_id i, i)) <$> l) → x ∈ l ∧ ent_id x = k.
Proof.
  intros Hin. apply JsMapFacts.elem_get_NoDup in Hin; [|apply JsMapFacts.NoDup_keys_new].
  apply JsMapFacts.get_new_Some, list_elem_of_fmap in Hin as (i & ? & ?). by simplify_eq.
Qed.

Lemma get_entries (l : list A) k x :
  JsMap.get (JsMap.new ((λ i, (ent_id i, i)) <$> l)) k = Some x → x ∈ l ∧ ent_id x = k.
Proof. intros ?%JsMapFacts.get_Some_elem. by apply elem_of_entries. Qed.

Lemma get_entries_NoDup (l : list A) x :
  NoDup (ent_id <$> l) → x ∈ l →
  JsMap.get (JsMap.new ((λ i, (ent_id i, i)) <$> l)) (ent_id x) = Some x.
Proof.
  intros Hnd Hin. apply JsMapFacts.get_new_NoDup; [by rewrite entries_keys|].
  apply list_elem_of_fmap. by exists x.
Qed.

Lemma get_entries_None (l : list A) k :
  JsMap.get (JsMap.new ((λ i, (ent_id i, i)) <$> l)) k = None ↔ k ∉ ent_id <$> l.
Proof. by rewrite JsMapFacts.get_None, JsMapFacts.elem_of_keys_new, entries_keys. Qed.

Lemma pushLocal_push rm acc e :
  Merge.pushLocal Date_parse rm acc e = acc ++ Merge.pushLocal Date_parse rm [] e.
Proof. destruct e as [id li]. simpl. by destruct (JsMap.get rm id). Qed.

Lemma pushRemote_push lm acc (e : Z * A) :
  Merge.pushRemote lm acc e = acc ++ Merge.pushRemote lm [] e.
Proof. destruct e as [id ri]. simpl. destruct (JsMap.has lm id); [by rewrite app_nil_r|done]. Qed.

(** The two loops of [mergeArrayById], one after the other. *)
Lemma mergeArrayById_loops local remote :
  Merge.mergeArrayById Date_parse local remote
  = (JsMap.new ((λ i, (ent_id i, i)) <$> local)
       ≫= Merge.pushLocal Date_parse (JsMap.new ((λ i, (ent_id i, i)) <$> remote)) [])
    ++ (JsMap.new ((λ i, (ent_id i, i)) <$> remote)
          ≫= Merge.pushRemote (JsMap.new ((λ i, (ent_id i, i)) <$> local)) []).
Proof.
  unfold Merge.mergeArrayById.
  rewrite (foldl_push_many (Merge.pushRemote _)) by apply pushRemote_push.
  by rewrite (foldl_push_many (Merge.pushLocal _ _)) by apply pushLocal_push.
Qed.

(** An item that only the local side has is kept. *)
Lemma mergeArrayById_local_only local remote li :
  NoDup (ent_id <$> local) → li ∈ local → ent_id li ∉ ent_id <$> remote →
  li ∈ Merge.mergeArrayById Date_parse local remote.
Proof.
  intros Hnd Hin Hout. rewrite mergeArrayById_loops, elem_of_app. left.
  apply list_elem_of_bind. exists (ent_id li, li). split.
  - simpl. apply get_entries_None in Hout. rewrite Hout. by left.
  - apply JsMapFacts.get_Some_elem. by apply get_entries_NoDup.
Qed.

(** An item that only the remote side has is added. *)
Lemma mergeArrayById_remote_only local remote ri :
  NoDup (ent_id <$> remote) → ri ∈ remote → ent_id ri ∉ ent_id <$> local →
  ri ∈ Merge.mergeArrayById Date_parse local remote.
Proof.
  intros Hnd Hin Hout. rewrite mergeArrayById_loops, elem_of_app. right.
  apply list_elem_of_bind. exists (ent_id ri, ri). split.
  - simpl. rewrite (proj2 (JsMapFacts.has_false _ _)); [by left|].
    by rewrite JsMapFacts.elem_of_keys_new, entries_keys.
  - apply JsMapFacts.get_Some_elem. by apply get_entries_NoDup.
Qed.

(** Of an item that both sides have, the newer copy is kept, the local one
    on a tie. *)
Lemma mergeArrayById_both local remote li ri :
  NoDup (ent_id <$> local) → NoDup (ent_id <$> remote) →
  li ∈ local → ri ∈ remote → ent_id li = ent_id ri →
  (if js_gt (Merge.timeOf Date_parse (ent_updatedAt ri))
            (Merge.timeOf Date_parse (ent_updatedAt li))
   then ri else li) ∈ Merge.mergeArrayById Date_parse local remote.
Proof.
  intros Hl Hr Hli Hri Hid. rewrite mergeArrayById_loops, elem_of_app. left.
  apply list_elem_of_bind. exists (ent_id li, li). split.
  - simpl. rewrite Hid, (get_entries_NoDup remote ri) by done. by left.
  - apply JsMapFacts.get_Some_elem. by apply get_entries_NoDup.
Qed.

Lemma pushLocal_ids (l : list (Z * A)) rm :
  (∀ k x, (k, x) ∈ l → ent_id x = k) →
  (∀ k x, JsMap.get rm k = Some x → ent_id x = k) →
  ent_id <$> (l ≫= Merge.pushLocal Date_parse rm []) = l.*1.
Proof.
  intros Hl Hrm. induction l as [|[k x] l IH]; csimpl; [done|].
  rewrite fmap_app, IH by (intros; apply Hl; by right). f_equal.
  destruct (JsMap.get rm k) as [ri|] eqn:E; csimpl.
  - case_match; f_equal; [by apply Hrm|apply Hl; left].
  - f_equal. apply Hl. left.
Qed.

Lemma pushRemote_ids (l : list (Z * A)) lm :
  (∀ k x, (k, x) ∈ l → ent_id x = k) →
  ent_id <$> (l ≫= Merge.pushRemote lm []) = filter (λ k, k ∉ JsMap.keys lm) l.*1.
Proof.
  intros Hl. induction l as [|[k x] l IH]; csimpl; [done|].
  rewrite fmap_app, IH by (intros; apply Hl; by right).
  destruct (JsMap.has lm k) eqn:E.
  - rewrite filter_cons_False; [done|]. apply JsMapFacts.has_true in E. tauto.
  - rewrite filter_cons_True by (by apply JsMapFacts.has_false). csimpl.
    f_equal. apply Hl. left.
Qed.

(** The ids of the merged array: those of the local side in their order,
    then the ids that only the remote side has. *)
Lemma mergeArrayById_ids local remote :
  ent_id <$> Merge.mergeArrayById Date_parse local remote
  = JsSet.new (ent_id <$> local)
    ++ filter (λ k, k ∉ ent_id <$> local) (JsSet.new (ent_id <$> remote)).
Proof.
  rewrite mergeArrayById_loops, fmap_app.
  rewrite pushLocal_ids, pushRemote_ids.
  - fold (JsMap.keys (JsMap.new ((λ i, (ent_id i, i)) <$> local))).
    fold (JsMap.keys (JsMap.new ((λ i, (ent_id i, i)) <$> remote))).
    rewrite !JsMapFacts.keys_new, !entries_keys. f_equal.
    apply list_filter_iff. intros k. by rewrite JsSetFacts.elem_of_new.
  - intros k x. apply elem_of_entries.
  - intros k x. apply elem_of_entries.
  - intros k x. apply get_entries.
Qed.

(** No id occurs twice in the merged array. *)
Lemma mergeArrayById_NoDup local remote :
  NoDup (ent_id <$> Merge.mergeArrayById Date_parse local remote).
Proof.
  rewrite mergeArrayById_ids. apply NoDup_app. split; [apply JsSetFacts.NoDup_new|]. split.
  - intros k Hk [Hk' _]%list_elem_of_filter. apply Hk'. by apply JsSetFacts.elem_of_new.
  - apply NoDup_filter, JsSetFacts.NoDup_new.
Qed.

(** Every merged item is an item of one of the two sides. *)
Lemma mergeArrayById_from local remote x :
  x ∈ Merge.mergeArrayById Date_parse local remote → x ∈ local ∨ x ∈ remote.
Proof.
  rewrite mergeArrayById_loops, elem_of_app, !list_elem_of_bind.
  intros [([k li] & Hx & [Hli _]%elem_of_entries)|([k ri] & Hx & [Hri _]%elem_of_entries)].
  - simpl in Hx. destruct (JsMap.get _ k) as [ri|] eqn:E.
    + apply get_entries in E as [? _]. apply list_elem_of_singleton in Hx.
      case_match; subst; auto.
    + apply list_elem_of_singleton in Hx. subst. auto.
  - simpl in Hx. destruct (JsMap.has _ k); [by apply elem_of_nil in Hx|].
    apply list_elem_of_singleton in Hx. subst. auto.
Qed.
End Children.

Section Classrooms.
Implicit Types (local remote s : Store) (c lc rc : Classroom).

Lemma classroomMap_keys s :
  JsMap.keys (Merge.classroomMap s) = JsSet.new (c_id <$> classrooms s).
Proof.
  unfold Merge.classroomMap. by rewrite JsMapFacts.keys_new, <- list_fmap_compose.
Qed.

Lemma classroomMap_elem s k c :
  (k, c) ∈ Merge.classroomMap s → c ∈ classrooms s ∧ c_id c = k.
Proof.
  intros Hin. apply JsMapFacts.elem_get_NoDup in Hin; [|apply JsMapFacts.NoDup_keys_new].
  apply JsMapFacts.get_new_Some, list_elem_of_fmap in Hin as (i & ? & ?). by simplify_eq.
Qed.

Lemma classroomMap_get s k c :
  JsMap.get (Merge.classroomMap s) k = Some c → c ∈ classrooms s ∧ c_id c = k.
Proof. intros ?%JsMapFacts.get_Some_elem. by apply classroomMap_elem. Qed.

Lemma classroomMap_get_NoDup s c :
  NoDup (c_id <$> classrooms s) → c ∈ classrooms s →
  JsMap.get (Merge.classroomMap s) (c_id c) = Some c.
Proof.
  intros Hnd Hin. apply JsMapFacts.get_new_NoDup; [by rewrite <- list_fmap_compose|].
  apply list_elem_of_fmap. by exists c.
Qed.

Lemma classroomMap_get_None s k :
  JsMap.get (Merge.classroomMap s) k = None ↔ k ∉ c_id <$> classrooms s.
Proof. by rewrite JsMapFacts.get_None, classroomMap_keys, JsSetFacts.elem_of_new. Qed.

Lemma mergeStep_push lm rm acc id :
  Merge.mergeStep Date_parse lm rm acc id = acc ++ Merge.mergeStep Date_parse lm rm [] id.
Proof.
  unfold Merge.mergeStep.
  destruct (JsMap.get lm id), (JsMap.get rm id); try done;
    [by case_match|by rewrite app_nil_r].
Qed.

(** The merged classrooms: one step for every id of either side, local
    ids first. *)
Lemma mergeData_classrooms now local remote :
  classrooms (Merge.mergeData Date_parse now local (Some remote))
  = JsSet.new (JsSet.new (c_id <$> classrooms local) ++ JsSet.new (c_id <$> classrooms remote))
      ≫= Merge.mergeStep Date_parse (Merge.classroomMap local) (Merge.classroomMap remote) [].
Proof.
  simpl. rewrite (foldl_push_many (Merge.mergeStep _ _ _)) by apply mergeStep_push.
  by rewrite !classroomMap_keys.
Qed.

Lemma elem_of_allIds local remote id :
  id ∈ JsSet.new (JsSet.new (c_id <$> classrooms local) ++ JsSet.new (c_id <$> classrooms remote))
  ↔ id ∈ c_id <$> classrooms local ∨ id ∈ c_id <$> classrooms remote.
Proof. by rewrite JsSetFacts.elem_of_new, elem_of_app, !JsSetFacts.elem_of_new. Qed.

(** A classroom that only the local side has is kept. *)
Lemma mergeData_local_only now local remote lc :
  NoDup (c_id <$> classrooms local) → lc ∈ classrooms local →
  c_id lc ∉ c_id <$> classrooms remote →
  lc ∈ classrooms (Merge.mergeData Date_parse now local (Some remote)).
Proof.
  intros Hnd Hin Hout. rewrite mergeData_classrooms. apply list_elem_of_bind.
  exists (c_id lc). split.
  - unfold Merge.mergeStep. rewrite classroomMap_get_NoDup by done.
    apply classroomMap_get_None in Hout. rewrite Hout. by left.
  - apply elem_of_allIds. left. by apply list_elem_of_fmap_2.
Qed.

(** A classroom that only the remote side has is adopted. *)
Lemma mergeData_remote_only now local remote rc :
  NoDup (c_id <$> classrooms remote) → rc ∈ classrooms remote →
  c_id rc ∉ c_id <$> classrooms local →
  rc ∈ classrooms (Merge.mergeData Date_parse now local (Some remote)).
Proof.
  intros Hnd Hin Hout. rewrite mergeData_classrooms. apply list_elem_of_bind.
  exists (c_id rc). split.
  - unfold Merge.mergeStep. rewrite (classroomMap_get_NoDup remote) by done.
    apply classroomMap_get_None in Hout. rewrite Hout. by left.
  - apply elem_of_allIds. right. by apply list_elem_of_fmap_2.
Qed.

(** A classroom that both sides have: the remote copy with merged
    children when it is strictly newer, the local copy otherwise. *)
Lemma mergeData_both now local remote lc rc :
  NoDup (c_id <$> classrooms local) → NoDup (c_id <$> classrooms remote) →
  lc ∈ classrooms local → rc ∈ classrooms remote → c_id lc = c_id rc →
  (if js_gt (Merge.timeOf Date_parse (c_updatedAt rc)) (Merge.timeOf Date_parse (c_updatedAt lc))
   then Merge.withChildren rc
          (Merge.mergeArrayById Date_parse (c_students lc) (c_students rc))
          (Merge.mergeArrayById Date_parse (c_lessons lc) (c_lessons rc))
   else lc) ∈ classrooms (Merge.mergeData Date_parse now local (Some remote)).
Proof.
  intros Hl Hr Hlc Hrc Hid. rewrite mergeData_classrooms. apply list_elem_of_bind.
  exists (c_id lc). split.
  - unfold Merge.mergeStep. rewrite classroomMap_get_NoDup by done.
    rewrite Hid, (classroomMap_get_NoDup remote) by done.
    case_match; by left.
  - apply elem_of_allIds. left. by apply list_elem_of_fmap_2.
Qed.

Lemma mergeStep_ids lm rm (l : list string) :
  (∀ k c, JsMap.get lm k = Some c → c_id c = k) →
  (∀ k c, JsMap.get rm k = Some c → c_id c = k) →
  (∀ k, k ∈ l → is_Some (JsMap.get lm k) ∨ is_Some (JsMap.get rm k)) →
  c_id <$> (l ≫= Merge.mergeStep Date_parse lm rm []) = l.
Proof.
  intros Hlm Hrm. induction l as [|k l IH]; intros Hl; csimpl; [done|].
  rewrite fmap_app, IH by (intros; apply Hl; by right). f_equal.
  unfold Merge.mergeStep.
  destruct (JsMap.get lm k) as [lc|] eqn:El, (JsMap.get rm k) as [rc|] eqn:Er; csimpl.
  - case_match; csimpl; f_equal; auto.
  - f_equal; auto.
  - f_equal; auto.
  - destruct (Hl k) as [[? ?]|[? ?]]; [left|congruence..].
Qed.

(** The ids of the merged classrooms: the local ids in their order, then
    the ids that only the remote side has. *)
Lemma mergeData_ids now local remote :
  c_id <$> classrooms (Merge.mergeData Date_parse now local (Some remote))
  = JsSet.new (JsSet.new (c_id <$> classrooms local) ++ JsSet.new (c_id <$> classrooms remote)).
Proof.
  rewrite mergeData_classrooms. apply mergeStep_ids.
  - intros k c. apply classroomMap_get.
  - intros k c. apply classroomMap_get.
  - intros k Hk. apply elem_of_allIds in Hk.
    rewrite !JsMapFacts.get_is_Some, !classroomMap_keys, !JsSetFacts.elem_of_new. done.
Qed.

Lemma mergeData_NoDup now local remote :
  NoDup (c_id <$> classrooms (Merge.mergeData Date_parse now local (Some remote))).
Proof. rewrite mergeData_ids. apply JsSetFacts.NoDup_new. Qed.

(** Merging a store with itself gives back its classrooms. *)
Lemma mergeData_self_classrooms now s :
  NoDup (c_id <$> classrooms s) →
  classrooms (Merge.mergeData Date_parse now s (Some s)) = classrooms s.
Proof.
  intros Hnd. rewrite mergeData_classrooms.
  rewrite (JsSetFacts.new_NoDup (c_id <$> classrooms s)) by done.
  rewrite JsSetFacts.new_twice by done.
  rewrite list_fmap_bind. rewrite (bind_singletons _ id); [apply list_fmap_id|].
  intros c Hc. simpl. unfold Merge.mergeStep.
  rewrite classroomMap_get_NoDup by done. by rewrite js_gt_irrefl.
Qed.
End Classrooms.
End Facts.
End MergeFacts.

(** ** Claims about the merge engine *)

(** C1, as stated, fails: a student that exists only in the remote copy of a
    classroom is not in the merge when the local copy of that classroom is the
    newer one.  Here the remote copy of classroom [C] has the students 1 and
    2, the newer local copy has student 1 only, and no merged classroom has a
    student 2. *)
Lemma C1_remote_only_child_dropped :
  let local := Sample.store [Sample.newerC1] in
  let remote := Sample.store [Sample.olderC2] in
  Sample.S2 ∈ c_students Sample.olderC2
  ∧ Sample.olderC2 ∈ classrooms remote
  ∧ Forall (λ c, Forall (λ s, s_id s ≠ 2) (c_students c)) (classrooms local)
  ∧ Forall (λ c, Forall (λ s, s_id s ≠ 2) (c_students c))
      (classrooms (Merge.mergeData IsoDate.parse Sample.now1 local (Some remote))).
Proof.
  repeat split; try (apply (bool_decide_unpack _); vm_compute; exact I).
Qed.

(** C1, amended: with unique ids, the merge contains every classroom that
    only one side has; inside a classroom that both sides have it contains
    every student and lesson that only the local copy has, and every student
    and lesson that only the remote copy has when the remote copy is strictly
    newer; otherwise the merged classroom is the local copy.  Without a remote
    the result is the local store. *)
Theorem merge_keeps_one_sided_entities (parse : string → TimeValue) (now : string)
    (local remote : Store) :
  NoDup (c_id <$> classrooms local) →
  NoDup (c_id <$> classrooms remote) →
  let merged := classrooms (Merge.mergeData parse now local (Some remote)) in
  Merge.mergeData parse now local None = local
  ∧ (∀ c, c ∈ classrooms local → c_id c ∉ c_id <$> classrooms remote → c ∈ merged)
  ∧ (∀ c, c ∈ classrooms remote → c_id c ∉ c_id <$> classrooms local → c ∈ merged)
  ∧ (∀ lc rc, lc ∈ classrooms local → rc ∈ classrooms remote → c_id lc = c_id rc →
       ∃ mc, mc ∈ merged ∧ c_id mc = c_id lc
         ∧ (NoDup (s_id <$> c_students lc) →
            ∀ s, s ∈ c_students lc → s_id s ∉ s_id <$> c_students rc → s ∈ c_students mc)
         ∧ (NoDup (l_id <$> c_lessons lc) →
            ∀ l, l ∈ c_lessons lc → l_id l ∉ l_id <$> c_lessons rc → l ∈ c_lessons mc)
         ∧ (js_gt (Merge.timeOf parse (c_updatedAt rc)) (Merge.timeOf parse (c_updatedAt lc)) = true →
            (NoDup (s_id <$> c_students rc) →
             ∀ s, s ∈ c_students rc → s_id s ∉ s_id <$> c_students lc → s ∈ c_students mc)
            ∧ (NoDup (l_id <$> c_lessons rc) →
               ∀ l, l ∈ c_lessons rc → l_id l ∉ l_id <$> c_lessons lc → l ∈ c_lessons mc))
         ∧ (js_gt (Merge.timeOf parse (c_updatedAt rc)) (Merge.timeOf parse (c_updatedAt lc)) = false →
            mc = lc)).
Proof.
  intros Hl Hr merged. split; [done|]. split; [|split].
  - intros c Hc Hout. by apply MergeFacts.mergeData_local_only.
  - intros c Hc Hout. by apply MergeFacts.mergeData_remote_only.
  - intros lc rc Hlc Hrc Hid.
    pose proof (MergeFacts.mergeData_both parse now local remote lc rc Hl Hr Hlc Hrc Hid) as Hmc.
    fold merged in Hmc.
    destruct (js_gt _ _) eqn:Hgt.
    + eexists. split; [exact Hmc|]. simpl. split; [done|]. repeat split; try done.
      * intros Hnd s Hs Hout.
        by apply (MergeFacts.mergeArrayById_local_only parse (c_students lc)).
      * intros Hnd l Hin Hout.
        by apply (MergeFacts.mergeArrayById_local_only parse (c_lessons lc)).
      * intros Hnd s Hs Hout.
        by apply (MergeFacts.mergeArrayById_remote_only parse (c_students lc)).
      * intros Hnd l Hin Hout.
        by apply (MergeFacts.mergeArrayById_remote_only parse (c_lessons lc)).
    + exists lc. repeat split; try done.
Qed.

(** The second-device scenario: the remote copy of [C] is newer and has a
    student more; both students are in the merge. *)
Lemma merge_keeps_one_sided_entities_witness :
  NoDup (c_id <$> classrooms (Sample.store [Sample.olderC1]))
  ∧ NoDup (c_id <$> classrooms (Sample.store [Sample.newerC2; Sample.otherD]))
  ∧ Sample.otherD ∈ classrooms
      (Merge.mergeData IsoDate.parse Sample.now1 (Sample.store [Sample.olderC1])
         (Some (Sample.store [Sample.newerC2; Sample.otherD]))).
Proof.
  assert (H1 : NoDup (c_id <$> classrooms (Sample.store [Sample.olderC1])))
    by (apply (bool_decide_unpack _); vm_compute; exact I).
  assert (H2 : NoDup (c_id <$> classrooms (Sample.store [Sample.newerC2; Sample.otherD])))
    by (apply (bool_decide_unpack _); vm_compute; exact I).
  split; [exact H1|]. split; [exact H2|].
  destruct (merge_keeps_one_sided_entities IsoDate.parse Sample.now1 _ _ H1 H2)
    as (_ & _ & Hremote & _).
  apply Hremote; apply (bool_decide_unpack _); vm_compute; exact I.
Defined.

(** C2, as stated, fails: the merge stamps [lastSync] with the time of the
    call, so merging the initial store with itself does not give it back. *)
Lemma C2_merge_self_changes_lastSync :
  Merge.mergeData IsoDate.parse Sample.now1 initialDB (Some initialDB) ≠ initialDB.
Proof. vm_compute. discriminate. Qed.

(** C2, amended: merging a store that has unique classroom ids and a non-zero
    [nextId] with itself gives the store back on every field but [lastSync],
    which becomes the time of the call. *)
Theorem merge_self (parse : string → TimeValue) (now : string) (X : Store) (n : Z) :
  NoDup (c_id <$> classrooms X) →
  nextId X = Some n → n ≠ 0 →
  Merge.mergeData parse now X (Some X) = set_lastSync (Some now) X.
Proof.
  intros Hnd Hn Hn0.
  pose proof (MergeFacts.mergeData_self_classrooms parse now X Hnd) as Hcs.
  destruct X as [cs next usr synced status pending settings templates].
  unfold Merge.mergeData in *. simpl in *. f_equal.
  - exact Hcs.
  - rewrite Hn. unfold Merge.orOne. rewrite decide_False by done. by rewrite Z.max_id.
  - by destruct settings.
Qed.

Lemma merge_self_witness :
  NoDup (c_id <$> classrooms (Sample.store [Sample.olderC2; Sample.otherD]))
  ∧ nextId (Sample.store [Sample.olderC2; Sample.otherD]) = Some 1
  ∧ 1 ≠ 0
  ∧ Merge.mergeData IsoDate.parse Sample.now1 (Sample.store [Sample.olderC2; Sample.otherD])
      (Some (Sample.store [Sample.olderC2; Sample.otherD]))
    = set_lastSync (Some Sample.now1) (Sample.store [Sample.olderC2; Sample.otherD]).
Proof.
  assert (H1 : NoDup (c_id <$> classrooms (Sample.store [Sample.olderC2; Sample.otherD])))
    by (apply (bool_decide_unpack _); vm_compute; exact I).
  split; [exact H1|]. split; [reflexivity|]. split; [lia|].
  apply (merge_self IsoDate.parse Sample.now1 _ 1 H1); [reflexivity|lia].
Defined.



(** C4, as stated, fails for students and lessons: the timestamps of the two
    copies of a student are compared only when the remote classroom is
    strictly newer.  Here the remote copy of student 1 is the later one; the
    local classroom is the newer one, or the two classrooms are dated alike,
    and in both cases the merge keeps the older, local copy of the student. *)
Lemma C4_later_remote_child_not_kept :
  let remote := Sample.store [Sample.classroom "C" Sample.T1 [Sample.S1'; Sample.S2]] in
  s_id Sample.S1' = s_id Sample.S1
  ∧ js_gt (Merge.timeOf IsoDate.parse (s_updatedAt Sample.S1'))
          (Merge.timeOf IsoDate.parse (s_updatedAt Sample.S1)) = true
  ∧ c_students <$> classrooms (Merge.mergeData IsoDate.parse Sample.now1
                                 (Sample.store [Sample.newerC1]) (Some remote))
    = [[Sample.S1]]
  ∧ c_students <$> classrooms (Merge.mergeData IsoDate.parse Sample.now1
                                 (Sample.store [Sample.olderC1]) (Some remote))
    = [[Sample.S1]].
Proof. vm_compute. repeat split; reflexivity. Qed.

(** C4, amended: of two classrooms with the same id (ids unique on each
    side), the merge keeps the remote copy's top-level fields when its
    [updatedAt] is strictly later, with the students and lessons of the two
    copies merged by [mergeArrayById], and keeps the local copy as it is
    otherwise.  Of two copies of a student or lesson that [mergeArrayById] is
    given, it keeps the remote copy when it is strictly later and the local
    copy otherwise.  So, of two copies of a student or lesson inside two such
    classrooms, the merged classroom holds the remote copy when both the
    remote classroom and the remote copy are strictly later, and the local
    copy otherwise, also when the remote copy is the later one. *)
Theorem merge_timestamp_tie_break (parse : string → TimeValue) :
  (∀ now local remote lc rc,
     NoDup (c_id <$> classrooms local) → NoDup (c_id <$> classrooms remote) →
     lc ∈ classrooms local → rc ∈ classrooms remote → c_id lc = c_id rc →
     ∃ mc,
       filter (λ c, c_id c = c_id lc)
         (classrooms (Merge.mergeData parse now local (Some remote))) = [mc]
       ∧ if js_gt (Merge.timeOf parse (c_updatedAt rc)) (Merge.timeOf parse (c_updatedAt lc))
         then (c_id mc, c_name mc, c_subject mc, c_teacher mc, c_columns mc,
               c_nextSid mc, c_nextLid mc, c_nextCid mc, c_updatedAt mc)
              = (c_id rc, c_name rc, c_subject rc, c_teacher rc, c_columns rc,
                 c_nextSid rc, c_nextLid rc, c_nextCid rc, c_updatedAt rc)
              ∧ c_students mc = Merge.mergeArrayById parse (c_students lc) (c_students rc)
              ∧ c_lessons mc = Merge.mergeArrayById parse (c_lessons lc) (c_lessons rc)
         else mc = lc)
  ∧ (∀ (A : Type) (E : Entity A) (local remote : list A) (li ri : A),
       NoDup (ent_id <$> local) → NoDup (ent_id <$> remote) →
       li ∈ local → ri ∈ remote → ent_id li = ent_id ri →
       filter (λ x, ent_id x = ent_id li) (Merge.mergeArrayById parse local remote)
       = [if js_gt (Merge.timeOf parse (ent_updatedAt ri)) (Merge.timeOf parse (ent_updatedAt li))
          then ri else li])
  ∧ (∀ now local remote lc rc,
       NoDup (c_id <$> classrooms local) → NoDup (c_id <$> classrooms remote) →
       lc ∈ classrooms local → rc ∈ classrooms remote → c_id lc = c_id rc →
       let newer := js_gt (Merge.timeOf parse (c_updatedAt rc))
                          (Merge.timeOf parse (c_updatedAt lc)) in
       ∃ mc,
         filter (λ c, c_id c = c_id lc)
           (classrooms (Merge.mergeData parse now local (Some remote))) = [mc]
         ∧ (∀ ls rs,
              NoDup (s_id <$> c_students lc) → NoDup (s_id <$> c_students rc) →
              ls ∈ c_students lc → rs ∈ c_students rc → s_id ls = s_id rs →
              filter (λ s, s_id s = s_id ls) (c_students mc)
              = [if newer && js_gt (Merge.timeOf parse (s_updatedAt rs))
                                   (Merge.timeOf parse (s_updatedAt ls))
                 then rs else ls])
         ∧ (∀ ll rl,
              NoDup (l_id <$> c_lessons lc) → NoDup (l_id <$> c_lessons rc) →
              ll ∈ c_lessons lc → rl ∈ c_lessons rc → l_id ll = l_id rl →
              filter (λ l, l_id l = l_id ll) (c_lessons mc)
              = [if newer && js_gt (Merge.timeOf parse (l_updatedAt rl))
                                   (Merge.timeOf parse (l_updatedAt ll))
                 then rl else ll])).
Proof.
  assert (Hclass : ∀ now local remote lc rc,
     NoDup (c_id <$> classrooms local) → NoDup (c_id <$> classrooms remote) →
     lc ∈ classrooms local → rc ∈ classrooms remote → c_id lc = c_id rc →
     ∃ mc,
       filter (λ c, c_id c = c_id lc)
         (classrooms (Merge.mergeData parse now local (Some remote))) = [mc]
       ∧ if js_gt (Merge.timeOf parse (c_updatedAt rc)) (Merge.timeOf parse (c_updatedAt lc))
         then (c_id mc, c_name mc, c_subject mc, c_teacher mc, c_columns mc,
               c_nextSid mc, c_nextLid mc, c_nextCid mc, c_updatedAt mc)
              = (c_id rc, c_name rc, c_subject rc, c_teacher rc, c_columns rc,
                 c_nextSid rc, c_nextLid rc, c_nextCid rc, c_updatedAt rc)
              ∧ c_students mc = Merge.mergeArrayById parse (c_students lc) (c_students rc)
              ∧ c_lessons mc = Merge.mergeArrayById parse (c_lessons lc) (c_lessons rc)
         else mc = lc).
  { intros now local remote lc rc Hl Hr Hlc Hrc Hid.
    pose proof (MergeFacts.mergeData_both parse now local remote lc rc Hl Hr Hlc Hrc Hid) as Hmc.
    pose proof (MergeFacts.mergeData_NoDup parse now local remote) as Hnd.
    destruct (js_gt _ _) eqn:Hgt.
    + exists (Merge.withChildren rc
                (Merge.mergeArrayById parse (c_students lc) (c_students rc))
                (Merge.mergeArrayById parse (c_lessons lc) (c_lessons rc))).
      split; [|done].
      rewrite Hid.
      change (c_id rc) with
        (c_id (Merge.withChildren rc
                 (Merge.mergeArrayById parse (c_students lc) (c_students rc))
                 (Merge.mergeArrayById parse (c_lessons lc) (c_lessons rc)))).
      by apply (filter_unique c_id).
    + exists lc. split; [|done]. by apply (filter_unique c_id). }
  assert (Hchild : ∀ (A : Type) (E : Entity A) (local remote : list A) (li ri : A),
       NoDup (ent_id <$> local) → NoDup (ent_id <$> remote) →
       li ∈ local → ri ∈ remote → ent_id li = ent_id ri →
       filter (λ x, ent_id x = ent_id li) (Merge.mergeArrayById parse local remote)
       = [if js_gt (Merge.timeOf parse (ent_updatedAt ri)) (Merge.timeOf parse (ent_updatedAt li))
          then ri else li]).
  { intros A E local remote li ri Hl Hr Hli Hri Hid.
    pose proof (MergeFacts.mergeArrayById_both parse local remote li ri Hl Hr Hli Hri Hid) as Hm.
    pose proof (MergeFacts.mergeArrayById_NoDup parse local remote) as Hnd.
    destruct (js_gt _ _) eqn:Hgt.
    + rewrite Hid. by apply (filter_unique ent_id).
    + by apply (filter_unique ent_id). }
  split; [exact Hclass|]. split; [exact Hchild|].
  intros now local remote lc rc Hl Hr Hlc Hrc Hid newer.
  destruct (Hclass now local remote lc rc Hl Hr Hlc Hrc Hid) as (mc & Hmc & Hfields).
  exists mc. split; [exact Hmc|]. unfold newer.
  destruct (js_gt (Merge.timeOf parse (c_updatedAt rc)) (Merge.timeOf parse (c_updatedAt lc))).
  - destruct Hfields as (_ & Hs & Hls). rewrite Hs, Hls. split.
    + intros ls rs Hnl Hnr Hin Hrs Hsid.
      exact (Hchild Student _ (c_students lc) (c_students rc) ls rs Hnl Hnr Hin Hrs Hsid).
    + intros ll rl Hnl Hnr Hin Hrl Hlid.
      exact (Hchild Lesson _ (c_lessons lc) (c_lessons rc) ll rl Hnl Hnr Hin Hrl Hlid).
  - subst mc. split.
    + intros ls rs Hnl _ Hin _ _. by apply (filter_unique s_id).
    + intros ll rl Hnl _ Hin _ _. by apply (filter_unique l_id).
Qed.

(** The pair of timestamps of the specification: the copy dated
    2024-01-02 wins over the copy dated 2024-01-01, as a remote classroom, as
    a remote student given to [mergeArrayById], and as a remote student of a
    remote classroom that is the later one. *)
Lemma merge_timestamp_tie_break_witness :
  (NoDup (c_id <$> classrooms (Sample.store [Sample.olderC1]))
   ∧ NoDup (c_id <$> classrooms (Sample.store [Sample.newerC2]))
   ∧ Sample.olderC1 ∈ classrooms (Sample.store [Sample.olderC1])
   ∧ Sample.newerC2 ∈ classrooms (Sample.store [Sample.newerC2])
   ∧ c_id Sample.olderC1 = c_id Sample.newerC2
   ∧ js_gt (Merge.timeOf IsoDate.parse (Some Sample.T2))
           (Merge.timeOf IsoDate.parse (Some Sample.T1)) = true
   ∧ ∃ mc,
       filter (λ c, c_id c = c_id Sample.olderC1)
         (classrooms (Merge.mergeData IsoDate.parse Sample.now1
                        (Sample.store [Sample.olderC1]) (Some (Sample.store [Sample.newerC2]))))
       = [mc]
       ∧ c_name mc = c_name Sample.newerC2)
  ∧ (NoDup (s_id <$> [Sample.S1]) ∧ NoDup (s_id <$> [Sample.S1'; Sample.S2])
     ∧ Sample.S1 ∈ [Sample.S1] ∧ Sample.S1' ∈ [Sample.S1'; Sample.S2]
     ∧ filter (λ s, s_id s = 1)
         (Merge.mergeArrayById IsoDate.parse [Sample.S1] [Sample.S1'; Sample.S2])
       = [Sample.S1'])
  ∧ (∃ mc,
       filter (λ c, c_id c = c_id Sample.olderC1)
         (classrooms (Merge.mergeData IsoDate.parse Sample.now1
                        (Sample.store [Sample.olderC1]) (Some (Sample.store [Sample.newerC2]))))
       = [mc]
       ∧ filter (λ s, s_id s = 1) (c_students mc) = [Sample.S1']).
Proof.
  assert (H1 : NoDup (c_id <$> classrooms (Sample.store [Sample.olderC1])))
    by (apply (bool_decide_unpack _); vm_compute; exact I).
  assert (H2 : NoDup (c_id <$> classrooms (Sample.store [Sample.newerC2])))
    by (apply (bool_decide_unpack _); vm_compute; exact I).
  assert (H3 : Sample.olderC1 ∈ classrooms (Sample.store [Sample.olderC1])) by left.
  assert (H4 : Sample.newerC2 ∈ classrooms (Sample.store [Sample.newerC2])) by left.
  assert (H5 : NoDup (s_id <$> [Sample.S1]))
    by (apply (bool_decide_unpack _); vm_compute; exact I).
  assert (H6 : NoDup (s_id <$> [Sample.S1'; Sample.S2]))
    by (apply (bool_decide_unpack _); vm_compute; exact I).
  assert (H7 : Sample.S1 ∈ [Sample.S1]) by left.
  assert (H8 : Sample.S1' ∈ [Sample.S1'; Sample.S2]) by left.
  destruct (merge_timestamp_tie_break IsoDate.parse) as (Hc & Hs & Hm). split; [|split].
  - do 6 (split; [done|]).
    destruct (Hc Sample.now1 _ _ _ _ H1 H2 H3 H4 eq_refl) as (mc & Hmc & Hfields).
    exists mc. split; [exact Hmc|].
    change (js_gt _ _) with true in Hfields. destruct Hfields as [Hf _]. congruence.
  - do 4 (split; [done|]).
    exact (Hs Student _ [Sample.S1] [Sample.S1'; Sample.S2] Sample.S1 Sample.S1'
             H5 H6 H7 H8 eq_refl).
  - destruct (Hm Sample.now1 _ _ _ _ H1 H2 H3 H4 eq_refl) as (mc & Hmc & Hstudents & _).
    exists mc. split; [exact Hmc|].
    exact (Hstudents Sample.S1 Sample.S1' H5 H6 H7 H8 eq_refl).
Defined.

(** ** The pending-change queue *)

Module QueueFacts.

Lemma queuePendingChanges_pending env badge w :
  pendingChanges (DB (queuePendingChanges env badge w))
  = Some (let pending := default [] (pendingChanges (DB w))
                           ++ [mkMarker (clock env (ticks w)) (contextOf badge)] in
          if bool_decide (50 < length pending)%nat then drop 1 pending else pending).
Proof.
  destruct w. match goal with d : Store |- _ => destruct d end.
  unfold queuePendingChanges, saveToLocalStorage. simpl.
  by destruct (storageWritable env).
Qed.

Lemma queuePendingChanges_ticks env badge w :
  ticks (queuePendingChanges env badge w) = S (ticks w).
Proof.
  destruct w. match goal with d : Store |- _ => destruct d end.
  unfold queuePendingChanges, saveToLocalStorage. simpl.
  by destruct (storageWritable env).
Qed.

Lemma enqueue_all_ticks env badges w :
  ticks (foldl (λ w b, queuePendingChanges env b w) w badges) = (ticks w + length badges)%nat.
Proof.
  revert w. induction badges as [|b bs IH]; intros w; simpl; [lia|].
  rewrite IH, queuePendingChanges_ticks. lia.
Qed.

(** After any number of saves into an empty queue, the queue holds the last
    fifty markers, in the order they were queued. *)
Lemma enqueue_all_pending env badges w :
  default [] (pendingChanges (DB w)) = [] →
  pendingChanges (DB (foldl (λ w b, queuePendingChanges env b w) w badges))
  = (if decide (badges = []) then pendingChanges (DB w) else
     Some (drop (length badges - 50)
             (imap (λ i b, mkMarker (clock env (ticks w + i)) (contextOf b)) badges))).
Proof.
  intros Hempty. induction badges as [|b bs IH] using rev_ind; [done|].
  rewrite decide_False by (by destruct bs).
  rewrite foldl_app. simpl. rewrite queuePendingChanges_pending, enqueue_all_ticks. f_equal.
  rewrite imap_app, length_app. simpl. rewrite Nat.add_0_r.
  set (M := imap _ bs). set (m := mkMarker _ _).
  assert (HM : length M = length bs) by apply length_imap.
  assert (Hq : default [] (pendingChanges
                 (DB (foldl (λ w b, queuePendingChanges env b w) w bs)))
               = drop (length bs - 50) M).
  { rewrite IH. case_decide; [subst; by rewrite Hempty|done]. }
  rewrite Hq. destruct (decide (length bs < 50)%nat) as [Hlt|Hge].
  - replace (length bs - 50)%nat with 0%nat by lia.
    replace (length bs + 1 - 50)%nat with 0%nat by lia. rewrite !drop_0.
    rewrite bool_decide_eq_false_2; [done|]. rewrite length_app. simpl. lia.
  - rewrite bool_decide_eq_true_2.
    + rewrite drop_app_le by (rewrite length_drop; lia).
      rewrite drop_drop. rewrite (drop_app_le M) by lia. do 2 f_equal. lia.
    + rewrite length_app, length_drop. simpl. lia.
Qed.
End QueueFacts.

(** C8, as stated, fails in its last words: the survivors are in the order
    they were queued, oldest first.  After sixty saves into the empty queue
    the fifty markers left start with the eleventh save and end with the
    sixtieth. *)
Lemma C8_queue_is_oldest_first :
  let queue := default [] (pendingChanges
                 (DB (foldl (λ w b, queuePendingChanges Sample.env b w) initialWorld Sample.badges60))) in
  length queue = 50%nat
  ∧ head queue = Some (mkMarker (Sample.clockAt 10) "10")
  ∧ last queue = Some (mkMarker (Sample.clockAt 59) "59")
  ∧ head queue ≠ Some (mkMarker (Sample.clockAt 59) "59").
Proof. vm_compute. repeat split; discriminate. Qed.

(** C8, amended: a queue of at most fifty markers stays at most fifty; each
    save appends one marker stamped with the reading of the clock; and any
    number of saves into an empty queue leaves the last fifty markers in the
    order they were queued, oldest first.  Sixty saves leave fifty markers,
    the ten oldest gone. *)
Theorem pending_queue_bound (env : Env) (w : World) :
  (∀ badge,
     (length (default [] (pendingChanges (DB w))) ≤ 50)%nat →
     (length (default [] (pendingChanges (DB (queuePendingChanges env badge w)))) ≤ 50)%nat)
  ∧ (∀ badge,
       (length (default [] (pendingChanges (DB w))) < 50)%nat →
       pendingChanges (DB (queuePendingChanges env badge w))
       = Some (default [] (pendingChanges (DB w))
                 ++ [mkMarker (clock env (ticks w)) (contextOf badge)]))
  ∧ (∀ badges,
       default [] (pendingChanges (DB w)) = [] → badges ≠ [] →
       pendingChanges (DB (foldl (λ w b, queuePendingChanges env b w) w badges))
       = Some (drop (length badges - 50)
                 (imap (λ i b, mkMarker (clock env (ticks w + i)) (contextOf b)) badges)))
  ∧ (∀ badges,
       default [] (pendingChanges (DB w)) = [] → length badges = 60%nat →
       let markers := imap (λ i b, mkMarker (clock env (ticks w + i)) (contextOf b)) badges in
       let queue := default [] (pendingChanges
                      (DB (foldl (λ w b, queuePendingChanges env b w) w badges))) in
       queue = drop 10 markers ∧ length queue = 50%nat).
Proof.
  split; [|split; [|split]].
  - intros badge Hle. rewrite QueueFacts.queuePendingChanges_pending. simpl.
    case_bool_decide as Hlen.
    + rewrite length_drop, length_app. simpl. lia.
    + lia.
  - intros badge Hlt. rewrite QueueFacts.queuePendingChanges_pending. simpl.
    rewrite bool_decide_eq_false_2; [done|]. rewrite length_app. simpl. lia.
  - intros badges Hempty Hne. rewrite QueueFacts.enqueue_all_pending by done.
    by rewrite decide_False.
  - intros badges Hempty Hlen markers queue. unfold queue.
    rewrite QueueFacts.enqueue_all_pending by done.
    rewrite decide_False by (intros ->; done). simpl. rewrite Hlen.
    split; [done|]. unfold markers. rewrite length_drop, length_imap. lia.
Qed.

Lemma pending_queue_bound_witness :
  default [] (pendingChanges (DB initialWorld)) = []
  ∧ length Sample.badges60 = 60%nat
  ∧ length (default [] (pendingChanges
              (DB (foldl (λ w b, queuePendingChanges Sample.env b w) initialWorld Sample.badges60))))
    = 50%nat.
Proof.
  split; [reflexivity|]. split; [reflexivity|].
  destruct (pending_queue_bound Sample.env initialWorld) as (_ & _ & _ & H60).
  exact (proj2 (H60 Sample.badges60 eq_refl eq_refl)).
Defined.

(** ** The save pipeline leaves the classrooms alone *)

Module SaveFacts.

Lemma saveToLocalStorage_DB env w : DB (saveToLocalStorage env w) = DB w.
Proof. destruct w. unfold saveToLocalStorage. by destruct (storageWritable env). Qed.

Lemma queuePendingChanges_classrooms env badge w :
  classrooms (DB (queuePendingChanges env badge w)) = classrooms (DB w).
Proof.
  destruct w. match goal with d : Store |- _ => destruct d end.
  unfold queuePendingChanges, saveToLocalStorage. simpl.
  by destruct (storageWritable env).
Qed.

Lemma pushLoop_DB env userId cs errors w :
  DB (Push.pushLoop env userId cs errors w).2 = DB w.
Proof.
  revert errors w. induction cs as [|c cs IH]; intros errors w; [done|].
  destruct w. simpl. destruct (upsertReply env _) as [|error|e].
  - by rewrite IH.
  - destruct (Js.messageIncludes error "does not exist"); [done|]. by rewrite IH.
  - by rewrite IH.
Qed.

Lemma saveUserDataToSupabase_DB env userId w w' :
  Push.saveUserDataToSupabase env userId w = Js.Returned w' → DB w' = DB w.
Proof.
  unfold Push.saveUserDataToSupabase. destruct (supabase env); simpl; [|done].
  pose proof (pushLoop_DB env userId (classrooms (DB w)) [] w) as Hdb.
  destruct (Push.pushLoop env userId (classrooms (DB w)) [] w) as [[errors|] w0];
    simpl in Hdb; intros [= <-]; [|done].
  case_bool_decide; [done|]. by destruct w0.
Qed.

Lemma saveOperation_classrooms env badge w :
  classrooms (DB (saveOperation env badge w)) = classrooms (DB w).
Proof.
  unfold saveOperation.
  pose proof (saveToLocalStorage_DB env w) as Hls.
  destruct (saveToLocalStorage env w) as [db idx cid lid esid mode cb q t ls cl rq nt tk] eqn:E.
  simpl in Hls. subst db. simpl.
  destruct (if onLine env && supabase env then remoteUserId (DB w) else None) as [userId|];
    [|done].
  destruct (Push.saveUserDataToSupabase _ _ _) as [w'|e] eqn:Hpush.
  - apply saveUserDataToSupabase_DB in Hpush. destruct w'. simpl in *. subst.
    by destruct (DB w).
  - pose proof (queuePendingChanges_classrooms env badge
                  (mkWorld (DB w) idx cid lid esid mode cb q t ls cl rq nt tk)) as Hq.
    by destruct (queuePendingChanges _ _ _).
Qed.

Lemma saveDB_classrooms env badge immediate w :
  classrooms (DB (saveDB env badge immediate w)) = classrooms (DB w).
Proof.
  destruct w. unfold saveDB. simpl. destruct immediate; [|done].
  by rewrite saveOperation_classrooms.
Qed.

Lemma rebuildIndex_DB w : DB (rebuildIndex w) = DB w.
Proof. by destruct w. Qed.

Lemma updateClassroom_classrooms p f w :
  classrooms (DB (updateClassroom p f w)) = alter f p (classrooms (DB w)).
Proof. destruct w. by match goal with d : Store |- _ => destruct d end. Qed.

Lemma set_confirmCb_DB cb w : DB (set_confirmCb cb w) = DB w.
Proof. by destruct w. Qed.

Lemma confirmCb_set cb w : confirmCb (set_confirmCb cb w) = cb.
Proof. by destruct w. Qed.

Lemma CC_set_confirmCb cb w : CC (set_confirmCb cb w) = CC w.
Proof. by destruct w. Qed.

Lemma runCallback_classrooms env sid w :
  classrooms (DB (runCallback env (RemoveStudent sid) w))
  = match CC w with
    | Some p =>
        alter (λ c, set_students (filter (λ st, s_id st ≠ sid) (c_students c)) c) p
          (classrooms (DB w))
    | None => classrooms (DB w)
    end.
Proof.
  unfold runCallback. destruct (CC w) as [p|]; [|done].
  by rewrite saveDB_classrooms, rebuildIndex_DB, updateClassroom_classrooms.
Qed.
End SaveFacts.

(** ** Claims about the handlers *)

(** The loop over the IELTS sections, with the overall band left out. *)
Lemma ieltsColumns_sections env p lessonId w :
  ieltsColumns env p lessonId w
  = foldl (λ w sec,
             let '(now, w) := readClock env w in
             updateClassroom p
               (λ c, set_columns
                       (c_columns c ++ [mkColumn (c_nextCid c) sec true (Some lessonId) (Some now)])
                       (set_nextCid (c_nextCid c + 1) c)) w)
      w ["Listening"; "Reading"; "Writing"; "Speaking"].
Proof.
  unfold ieltsColumns, IELTS_SECTIONS. cbn [foldl].
  rewrite decide_True by done. by rewrite !decide_False by done.
Qed.

(** C9: from the empty store, creating a classroom, opening it, adding one
    student and creating one lesson (in either lesson mode, with or without a
    date typed in) gives a classroom whose one student has id 1 and whose one
    lesson has an empty [data]; [studentStats(1)] is then
    [{present: 1, late: 0, absent: 0, attended: 1, total: 1}].  After
    [setAtt(1, 'absent')] the lesson's [data] is [{att_1: 'absent'}] and
    [studentStats(1)] is [{present: 0, late: 0, absent: 1, attended: 0,
    total: 1}]. *)
Theorem end_to_end_attendance (env : Env) (cform : ClassForm) (random : string)
    (sform : StudentForm) (lform : LessonForm) (mode cname sname topic : string) :
  inp_cname cform = Some cname → Js.trim cname ≠ "" →
  inp_sname sform = Some sname → Js.trim sname ≠ "" →
  inp_ltopic lform = Some topic → Js.trim topic ≠ "" →
  let w1 := createClassroom env cform random initialWorld in
  let cid := "class_" +:+ pretty (clockMs env 0) +:+ "_" +:+ random in
  let w2 := openClassroom cid w1 in
  let w3 := saveStudent env sform (openAddStudent w2) in
  let w4 := saveLesson env lform (toggleLessonMode mode w3) in
  let w5 := setAtt env 1 "absent" w4 in
  let shape (c : Classroom) :=
    (c_id c, s_id <$> c_students c, (λ l, (l_id l, l_studentIds l, l_data l)) <$> c_lessons c) in
  shape <$> classrooms (DB w4) = [(cid, [1], [(1, Some [1], Some ∅)])]
  ∧ studentStats w4 1 = mkStats 1 0 0 1 1
  ∧ shape <$> classrooms (DB w5) = [(cid, [1], [(1, Some [1], Some (<[att_key 1 := "absent"]> ∅))])]
  ∧ studentStats w5 1 = mkStats 0 0 1 0 1.
Proof.
  intros Hc Hcn Hs Hsn Hl Hln w1 cid w2 w3 w4 w5 shape.
  assert (Hcid : cid ≠ "") by done.
  assert (H1 : w1 = w1) by done. unfold w1 at 2 in H1.
  unfold createClassroom in H1. rewrite Hc in H1. run0_in H1. fold cid in H1.
  assert (H3 : w3 = w3) by done. unfold w3 at 2 in H3. unfold w2 in H3. rewrite H1 in H3.
  clearbody cid.
  unfold saveStudent in H3. rewrite Hs in H3. run_in H3.
  assert (H4 : w4 = w4) by done. unfold w4 at 2 in H4. rewrite H3 in H4.
  unfold saveLesson in H4. rewrite Hl in H4. rewrite decide_False in H4 by done.
  assert (H5 : w5 = w5) by done. unfold w5 at 2 in H5. unfold setAtt in H5.
  clearbody w4 w5. clear H1 H3. clearbody w1 w3.
  destruct (inp_ldate lform) as [date|], (decide (mode = "ielts")) as [->|Hmode];
    run_in H4; rewrite ?ieltsColumns_sections in H4; run_in H4;
    rewrite H4 in H5; run_in H5; rewrite H4, H5;
    unfold studentStats, shape; run; repeat split; reflexivity.
Qed.

(** The scenario of the specification: classroom "C1", student "Ada", lesson
    "L1" dated 2024-03-01. *)
Lemma end_to_end_attendance_witness :
  let w1 := createClassroom Sample.env Sample.classForm "k3x9q2mzp" initialWorld in
  let cid := "class_" +:+ pretty (clockMs Sample.env 0) +:+ "_" +:+ "k3x9q2mzp" in
  let w4 := saveLesson Sample.env Sample.lessonForm
              (toggleLessonMode "standard"
                 (saveStudent Sample.env Sample.studentForm
                    (openAddStudent (openClassroom cid w1)))) in
  Js.trim "C1" ≠ "" ∧ Js.trim "Ada" ≠ "" ∧ Js.trim "L1" ≠ ""
  ∧ studentStats w4 1 = mkStats 1 0 0 1 1
  ∧ studentStats (setAtt Sample.env 1 "absent" w4) 1 = mkStats 0 0 1 0 1.
Proof.
  assert (H1 : Js.trim "C1" ≠ "") by (vm_compute; discriminate).
  assert (H2 : Js.trim "Ada" ≠ "") by (vm_compute; discriminate).
  assert (H3 : Js.trim "L1" ≠ "") by (vm_compute; discriminate).
  intros w1 cid w4. do 3 (split; [assumption|]).
  destruct (end_to_end_attendance Sample.env Sample.classForm "k3x9q2mzp" Sample.studentForm
              Sample.lessonForm "standard" "C1" "Ada" "L1" eq_refl H1 eq_refl H2 eq_refl H3)
    as (_ & Hs4 & _ & Hs5).
  split; [exact Hs4|exact Hs5].
Defined.

(** C10: confirming the removal of a student changes, of all classrooms, only
    the current one, and of it only the [students] array, from which the
    entries with that id are filtered out.  Its lessons (their [data] maps and
    [studentIds] included), columns, counters, id and [updatedAt] are the
    same, and so is every other classroom. *)
Theorem delete_student_frame (env : Env) (w : World) (sid : Z) :
  is_Some (getStudent w (CID w) sid) →
  let w' := confirmOk env (delStudentConfirm sid w) in
  classrooms (DB w')
  = match CC w with
    | Some p =>
        alter (λ c, set_students (filter (λ st, s_id st ≠ sid) (c_students c)) c) p
          (classrooms (DB w))
    | None => classrooms (DB w)
    end
  ∧ (∀ p c, CC w = Some p → classroomAt w p = Some c →
       (∃ c', classroomAt w' p = Some c'
          ∧ c_students c' = filter (λ st, s_id st ≠ sid) (c_students c)
          ∧ c_lessons c' = c_lessons c
          ∧ c_columns c' = c_columns c
          ∧ (c_id c', c_name c', c_subject c', c_teacher c',
             c_nextSid c', c_nextLid c', c_nextCid c', c_updatedAt c')
            = (c_id c, c_name c, c_subject c, c_teacher c,
               c_nextSid c, c_nextLid c, c_nextCid c, c_updatedAt c))
       ∧ ∀ q, q ≠ p → classroomAt w' q = classroomAt w q).
Proof.
  intros [r Hr] w'.
  assert (Hcs : classrooms (DB w')
                = match CC w with
                  | Some p =>
                      alter (λ c, set_students (filter (λ st, s_id st ≠ sid) (c_students c)) c) p
                        (classrooms (DB w))
                  | None => classrooms (DB w)
                  end).
  { unfold w', delStudentConfirm. rewrite Hr. unfold confirmOk.
    rewrite SaveFacts.confirmCb_set, SaveFacts.set_confirmCb_DB.
    rewrite SaveFacts.runCallback_classrooms.
    by rewrite SaveFacts.CC_set_confirmCb, SaveFacts.set_confirmCb_DB. }
  split; [exact Hcs|].
  intros p c Hp Hc. unfold classroomAt in *. rewrite Hcs, Hp. split.
  - exists (set_students (filter (λ st, s_id st ≠ sid) (c_students c)) c).
    split; [by rewrite list_lookup_alter_eq, Hc|by destruct c].
  - intros q Hq. by rewrite list_lookup_alter_ne.
Qed.

(** Student 1 of the sample classroom is removed: student 2 stays, and the
    lesson keeps student 1 in [studentIds] and the cells [att_1] and
    [col_1_1]. *)
Lemma delete_student_frame_witness :
  is_Some (getStudent Sample.worldC (CID Sample.worldC) 1)
  ∧ classrooms (DB (confirmOk Sample.env (delStudentConfirm 1 Sample.worldC)))
    = [set_students [Sample.S2] Sample.classroomC; Sample.otherD].
Proof.
  assert (H : is_Some (getStudent Sample.worldC (CID Sample.worldC) 1))
    by (vm_compute; eexists; reflexivity).
  split; [exact H|].
  exact (eq_trans (proj1 (delete_student_frame Sample.env Sample.worldC 1 H)) eq_refl).
Defined.

(** ** The remote push *)

Module PushFacts.
Import Remote.

Lemma upsertRow_ids row table :
  r_id <$> upsertRow row table = JsSet.add (r_id row) (r_id <$> table).
Proof.
  induction table as [|r table IH]; csimpl; [done|].
  destruct (decide (r_id r = r_id row)) as [Heq|Hne]; csimpl.
  - rewrite decide_True by done. by rewrite Heq.
  - rewrite decide_False by done. by rewrite IH.
Qed.

(** What a push asks of the backend, and what it makes of the table. *)
Lemma pushLoop_effect env userId cs errors w :
  ∃ rows,
    requests (Push.pushLoop env userId cs errors w).2 = requests w ++ (Upsert <$> rows)
    ∧ Forall (λ row, ∃ c t, c ∈ cs ∧ row = Push.rowOf userId c t) rows
    ∧ ∃ accepted,
        (∀ k, k ∈ accepted → k ∈ c_id <$> cs)
        ∧ r_id <$> cloud (Push.pushLoop env userId cs errors w).2
          = foldl (λ s k, JsSet.add k s) (r_id <$> cloud w) accepted
        ∧ ((∀ row, upsertReply env row = Accepted) →
           rows = imap (λ i c, Push.rowOf userId c (clock env (ticks w + i))) cs
           ∧ accepted = c_id <$> cs).
Proof.
  revert errors w. induction cs as [|c cs IH]; intros errors w.
  - exists []. simpl. rewrite app_nil_r. repeat split; [constructor|].
    exists []. repeat split; by intros ? ?%elem_of_nil.
  - destruct w as [db idx cid lid esid mode cb q t ls cl rq nt tk]. simpl.
    set (row := Push.rowOf userId c (clock env tk)).
    assert (Hrow : ∃ c0 t0, c0 ∈ c :: cs ∧ row = Push.rowOf userId c0 t0)
      by (exists c, (clock env tk); split; [left|done]).
    assert (Hweaken : ∀ rows,
              Forall (λ row, ∃ c0 t0, c0 ∈ cs ∧ row = Push.rowOf userId c0 t0) rows →
              Forall (λ row, ∃ c0 t0, c0 ∈ c :: cs ∧ row = Push.rowOf userId c0 t0) rows).
    { intros rows Hrows. eapply Forall_impl; [exact Hrows|].
      intros r (c0 & t0 & ? & ?). exists c0, t0. split; [by right|done]. }
    destruct (upsertReply env row) as [|error|e] eqn:Hreply.
    + destruct (IH errors (mkWorld db idx cid lid esid mode cb q t ls
                             (upsertRow row cl) (rq ++ [Upsert row]) nt (S tk)))
        as (rows & Hreq & Hrows & accepted & Hacc & Hids & Hall).
      exists (row :: rows). simpl in *. rewrite Hreq, <- app_assoc. split; [done|].
      split; [apply Forall_cons; split; [exact Hrow|by apply Hweaken]|].
      exists (c_id c :: accepted). split; [|split].
      * intros k [->|?]%elem_of_cons; [left|right; auto].
      * rewrite Hids, upsertRow_ids. done.
      * intros Hyes. destruct (Hall Hyes) as [-> ->]. split; [|done].
        rewrite Nat.add_0_r. f_equal. apply imap_ext. intros i x _.
        unfold compose, Push.rowOf. do 3 f_equal. lia.
    + destruct (Js.messageIncludes error "does not exist").
      * exists [row]. simpl. split; [done|].
        split; [apply Forall_cons; split; [exact Hrow|apply Forall_nil_2]|].
        exists []. split; [by intros ? ?%elem_of_nil|]. split; [done|].
        intros Hyes. rewrite Hyes in Hreply. discriminate.
      * destruct (IH (errors ++ [error]) (mkWorld db idx cid lid esid mode cb q t ls
                             cl (rq ++ [Upsert row]) nt (S tk)))
          as (rows & Hreq & Hrows & accepted & Hacc & Hids & Hall).
        exists (row :: rows). simpl in *. rewrite Hreq, <- app_assoc. split; [done|].
        split; [apply Forall_cons; split; [exact Hrow|by apply Hweaken]|].
        exists accepted. split; [intros k ?; right; auto|]. split; [done|].
        intros Hyes. rewrite Hyes in Hreply. discriminate.
    + destruct (IH (errors ++ [e]) (mkWorld db idx cid lid esid mode cb q t ls
                             cl (rq ++ [Upsert row]) nt (S tk)))
        as (rows & Hreq & Hrows & accepted & Hacc & Hids & Hall).
      exists (row :: rows). simpl in *. rewrite Hreq, <- app_assoc. split; [done|].
      split; [apply Forall_cons; split; [exact Hrow|by apply Hweaken]|].
      exists accepted. split; [intros k ?; right; auto|]. split; [done|].
      intros Hyes. rewrite Hyes in Hreply. discriminate.
Qed.

Lemma saveUserDataToSupabase_pushLoop env userId w w' :
  Push.saveUserDataToSupabase env userId w = Js.Returned w' →
  requests w' = requests (Push.pushLoop env userId (classrooms (DB w)) [] w).2
  ∧ cloud w' = cloud (Push.pushLoop env userId (classrooms (DB w)) [] w).2.
Proof.
  unfold Push.saveUserDataToSupabase. destruct (supabase env); simpl; [|done].
  destruct (Push.pushLoop env userId (classrooms (DB w)) [] w) as [[errors|] w0];
    simpl; intros [= <-]; [|done].
  case_bool_decide; [done|]. by destruct w0.
Qed.

(** With the client connected the push returns. *)
Lemma saveUserDataToSupabase_returns env userId w :
  supabase env = true → ∃ w', Push.saveUserDataToSupabase env userId w = Js.Returned w'.
Proof.
  intros Hs. unfold Push.saveUserDataToSupabase. rewrite Hs. simpl.
  destruct (Push.pushLoop _ _ _ _ _) as [[errors|] w0]; eauto.
Qed.
End PushFacts.

(** C6: the push sends the backend nothing but upserts, each of the row of a
    classroom of the store under the classroom's own id and the owner's id,
    and one per classroom in order when every upsert is accepted.  On a table
    keyed by id no row is dropped and no id comes to occur twice; when every
    upsert is accepted each classroom has its row; and pushing a store whose
    classrooms all have their row leaves the list of ids of the table as it
    is. *)
Theorem push_upserts_only (env : Env) (userId : string) (w w' : World) :
  Push.saveUserDataToSupabase env userId w = Js.Returned w' →
  (∃ rows,
     requests w' = requests w ++ (Remote.Upsert <$> rows)
     ∧ Forall (λ row, ∃ c t, c ∈ classrooms (DB w) ∧ row = Push.rowOf userId c t
                             ∧ Remote.r_id row = c_id c ∧ Remote.r_user_id row = userId) rows
     ∧ ((∀ row, upsertReply env row = Remote.Accepted) →
        rows = imap (λ i c, Push.rowOf userId c (clock env (ticks w + i))) (classrooms (DB w))))
  ∧ (∀ id, id ∈ Remote.r_id <$> cloud w → id ∈ Remote.r_id <$> cloud w')
  ∧ (NoDup (Remote.r_id <$> cloud w) → NoDup (Remote.r_id <$> cloud w'))
  ∧ ((∀ row, upsertReply env row = Remote.Accepted) →
     ∀ c, c ∈ classrooms (DB w) → c_id c ∈ Remote.r_id <$> cloud w')
  ∧ ((∀ c, c ∈ classrooms (DB w) → c_id c ∈ Remote.r_id <$> cloud w) →
     Remote.r_id <$> cloud w' = Remote.r_id <$> cloud w).
Proof.
  intros Hpush. apply PushFacts.saveUserDataToSupabase_pushLoop in Hpush as [Hreq Hcloud].
  destruct (PushFacts.pushLoop_effect env userId (classrooms (DB w)) [] w)
    as (rows & Hrq & Hrows & accepted & Hacc & Hids & Hall).
  rewrite <- Hreq in Hrq. rewrite <- Hcloud in Hids. split; [|split; [|split; [|split]]].
  - exists rows. split; [done|]. split.
    + eapply Forall_impl; [exact Hrows|]. intros row (c & t & ? & ->). by exists c, t.
    + intros Hyes. by destruct (Hall Hyes).
  - intros id Hid. rewrite Hids. apply JsSetFacts.elem_of_foldl_add. by left.
  - intros Hnd. rewrite Hids. by apply JsSetFacts.NoDup_foldl_add.
  - intros Hyes c Hc. destruct (Hall Hyes) as [_ ->]. rewrite Hids.
    apply JsSetFacts.elem_of_foldl_add. right. by apply list_elem_of_fmap_2.
  - intros Hknown. rewrite Hids. apply JsSetFacts.foldl_add_known.
    intros k [c [-> Hc]]%Hacc%list_elem_of_fmap. by apply Hknown.
Qed.

(** The sample store pushed twice into an empty table: two rows, [C] and
    [D], after the first push and after the second. *)
Lemma push_upserts_only_witness :
  ∃ w1 w2,
    Push.saveUserDataToSupabase Sample.env "user-1" Sample.worldC = Js.Returned w1
    ∧ Push.saveUserDataToSupabase Sample.env "user-1" w1 = Js.Returned w2
    ∧ Remote.r_id <$> cloud w1 = ["C"; "D"]
    ∧ Remote.r_id <$> cloud w2 = ["C"; "D"].
Proof.
  destruct (PushFacts.saveUserDataToSupabase_returns Sample.env "user-1" Sample.worldC eq_refl)
    as [w1 H1].
  destruct (PushFacts.saveUserDataToSupabase_returns Sample.env "user-1" w1 eq_refl)
    as [w2 H2].
  exists w1, w2. split; [exact H1|]. split; [exact H2|].
  assert (Hw1 : Remote.r_id <$> cloud w1 = ["C"; "D"]).
  { revert H1. vm_compute. by intros [= <-]. }
  split; [exact Hw1|].
  destruct (push_upserts_only Sample.env "user-1" w1 w2 H2) as (_ & _ & _ & _ & Hsame).
  rewrite Hsame; [exact Hw1|].
  assert (Hdb : classrooms (DB w1) = classrooms (DB Sample.worldC)).
  { revert H1. vm_compute. by intros [= <-]. }
  rewrite Hdb, Hw1. intros c Hc. apply (bool_decide_unpack _).
  revert c Hc. apply Forall_forall. vm_compute. repeat constructor.
Defined.

(** ** The pull and the save pipeline on failures *)

Module PullFacts.

(** Whatever the backend answers, the pull returns: nothing it throws
    leaves [loadUserDataFromSupabase]. *)
Lemma loadUserDataFromSupabase_returns env userId w :
  ∃ remote w', Pull.loadUserDataFromSupabase env userId w = Js.Returned (remote, w').
Proof.
  unfold Pull.loadUserDataFromSupabase.
  destruct (Pull.loadBody (backend env) (DB w) userId); eauto.
Qed.

(** An error thrown inside the pull becomes the empty remote. *)
Lemma loadUserDataFromSupabase_caught env userId w e :
  Pull.loadBody (backend env) (DB w) userId = Js.Threw e →
  Pull.loadUserDataFromSupabase env userId w
  = Js.Returned
      (Pull.emptyRemote,
       notify "Database tables not set up. Please run the Supabase setup script." w).
Proof. intros He. unfold Pull.loadUserDataFromSupabase. by rewrite He. Qed.

(** An error of the classrooms request that does not say that the table
    is missing is thrown inside the pull. *)
Lemma loadBody_throws_classrooms_error be db userId data error settings :
  Pull.checkTableExists be "classrooms" = true →
  Remote.selectClassrooms be userId = Remote.Resolves data (Some error) →
  Remote.selectExportSettings be userId = settings →
  (∀ e, settings ≠ Remote.Rejects e) →
  Js.messageIncludes error "does not exist" = false →
  Pull.loadBody be db userId = Js.Threw error.
Proof.
  intros Hprobe Hcls Hset Hok Hmsg. unfold Pull.loadBody.
  rewrite Hprobe, Hcls, Hset. simpl.
  destruct settings as [e|sdata serror]; [by destruct (Hok e)|]. simpl. by rewrite Hmsg.
Qed.
End PullFacts.

Module SaveOffline.

(** Version 7: a save without connectivity writes the local slots, empties
    [saveQueue] and does nothing else. *)
Lemma saveOperation_offline env badge w :
  onLine env = false →
  saveOperation env badge w = set_saveQueue [] (saveToLocalStorage env w).
Proof. intros Hoff. unfold saveOperation. by rewrite Hoff. Qed.

Lemma saveOperation_offline_pending env badge w :
  onLine env = false →
  pendingChanges (DB (saveOperation env badge w)) = pendingChanges (DB w)
  ∧ requests (saveOperation env badge w) = requests w.
Proof.
  intros Hoff. rewrite saveOperation_offline by done.
  destruct w. unfold saveToLocalStorage. by destruct (storageWritable env).
Qed.

(** Version 6: a save without connectivity by a user of the remote backend
    queues a marker, and sends nothing. *)
Lemma V6_saveOperation_offline push env badge w :
  onLine env = false →
  (user (DB w) ≫= u_mode) = Some "supabase" →
  V6.saveOperation push env badge w
  = set_saveQueue []
      (queuePendingChanges env (lastBadge (saveToLocalStorage env w))
         (saveToLocalStorage env w)).
Proof.
  intros Hoff Hmode. unfold V6.saveOperation. rewrite Hoff. simpl.
  rewrite SaveFacts.saveToLocalStorage_DB, decide_True by done. done.
Qed.
End SaveOffline.

(** C5: the code does not propagate a network failure.  When every request
    resolves with a "Failed to fetch" error, the [try] block of the pull
    throws the error of the classrooms request, the function's own [catch]
    turns it into the empty remote under the notice that the tables are not
    set up, and the sync goes on to push, reports success and empties the
    pending queue, with not one row written.  When every request rejects, the
    table probe answers that the tables are missing and the pull returns the
    empty remote as well. *)
Theorem pull_swallows_network_failure :
  Pull.loadBody Sample.downBackend (DB Sample.worldC) "user-1" = Js.Threw Sample.fetchFailed
  ∧ Pull.loadUserDataFromSupabase Sample.downEnv "user-1" Sample.worldC
    = Js.Returned
        (Pull.emptyRemote,
         notify "Database tables not set up. Please run the Supabase setup script."
           Sample.worldC)
  ∧ Pull.loadUserDataFromSupabase Sample.rejectingEnv "user-1" Sample.worldC
    = Js.Returned (Pull.emptyRemote, Sample.worldC)
  ∧ syncStatus (DB (syncWithCloud Sample.downEnv Sample.worldC)) = Some Idle
  ∧ pendingChanges (DB (syncWithCloud Sample.downEnv Sample.worldC)) = Some []
  ∧ cloud (syncWithCloud Sample.downEnv Sample.worldC) = []
  ∧ notices (syncWithCloud Sample.downEnv Sample.worldC)
    = ["Database tables not set up. Please run the Supabase setup script.";
       "⚠️ 2 items failed to sync"; "✅ Synced with cloud"].
Proof. vm_compute. repeat split; reflexivity. Qed.

(** C7: the code does not queue a marker for an offline save.  A signed-in
    user of the remote backend saves without connectivity, at once or through
    the debounce timer: no request is sent and the pending queue stays empty.
    The same save in version 6 of [saveDB] queues a marker labelled with the
    badge. *)
Theorem saveDB_offline_queues_nothing :
  onLine Sample.offlineEnv = false
  ∧ remoteUserId (DB Sample.worldC) = Some "user-1"
  ∧ pendingChanges (DB Sample.worldC) = Some []
  ∧ pendingChanges (DB (saveDB Sample.offlineEnv (Some "class") true Sample.worldC)) = Some []
  ∧ requests (saveDB Sample.offlineEnv (Some "class") true Sample.worldC) = []
  ∧ pendingChanges
      (DB (timerFires Sample.offlineEnv
             (saveDB Sample.offlineEnv (Some "class") false Sample.worldC))) = Some []
  ∧ pendingChanges
      (DB (V6.saveDB Push.saveUserDataToSupabase Sample.offlineEnv (Some "class") true
             Sample.worldC))
    = Some [mkMarker (Sample.clockAt 1) "class"]
  ∧ requests (V6.saveDB Push.saveUserDataToSupabase Sample.offlineEnv (Some "class") true
                Sample.worldC) = [].
Proof. vm_compute. repeat split; reflexivity. Qed.
(** ** More on the merge engine *)

Lemma bind_nothing {A B} (f : B → list A) (l : list B) :
  (∀ x, x ∈ l → f x = []) → l ≫= f = [].
Proof.
  induction l as [|x l IH]; intros Hf; csimpl; [done|].
  rewrite Hf by left. apply IH. intros y Hy. apply Hf. by right.
Qed.

Module MergeMore.
Section Facts.
Variable Date_parse : string → TimeValue.
Context {A : Type} `{Entity A}.
Implicit Types (local remote l : list A).

Lemma mergeArrayById_nil_r l :
  NoDup (ent_id <$> l) → Merge.mergeArrayById Date_parse l [] = l.
Proof.
  intros Hnd. rewrite MergeFacts.mergeArrayById_loops.
  rewrite (JsMapFacts.new_unique_keys ((λ i, (ent_id i, i)) <$> l))
    by (by rewrite MergeFacts.entries_keys).
  csimpl. rewrite app_nil_r.
  rewrite (bind_singletons _ snd).
  - rewrite <- list_fmap_compose. apply list_fmap_id.
  - by intros [k x] _.
Qed.

Lemma mergeArrayById_nil_l l :
  NoDup (ent_id <$> l) → Merge.mergeArrayById Date_parse [] l = l.
Proof.
  intros Hnd. rewrite MergeFacts.mergeArrayById_loops.
  rewrite (JsMapFacts.new_unique_keys ((λ i, (ent_id i, i)) <$> l))
    by (by rewrite MergeFacts.entries_keys).
  csimpl.
  rewrite (bind_singletons _ snd).
  - rewrite <- list_fmap_compose. apply list_fmap_id.
  - by intros [k x] _.
Qed.

Lemma mergeArrayById_self l :
  NoDup (ent_id <$> l) → Merge.mergeArrayById Date_parse l l = l.
Proof.
  intros Hnd. rewrite MergeFacts.mergeArrayById_loops.
  rewrite (JsMapFacts.new_unique_keys ((λ i, (ent_id i, i)) <$> l))
    by (by rewrite MergeFacts.entries_keys).
  set (m := (λ i, (ent_id i, i)) <$> l).
  assert (Hkeys : JsMap.keys m = ent_id <$> l) by apply MergeFacts.entries_keys.
  rewrite (bind_singletons (Merge.pushLocal Date_parse m []) snd).
  - rewrite (bind_nothing (Merge.pushRemote m []) m).
    + rewrite app_nil_r. unfold m. rewrite <- list_fmap_compose. apply list_fmap_id.
    + intros [k x] Hin. simpl.
      assert (Hk : JsMap.has m k = true).
      { apply JsMapFacts.has_true. apply list_elem_of_fmap. by exists (k, x). }
      by rewrite Hk.
  - intros [k x] Hin. simpl.
    rewrite (JsMapFacts.elem_get_NoDup m k x) by (by rewrite ?Hkeys).
    by rewrite MergeFacts.js_gt_irrefl.
Qed.
End Facts.

Section Classrooms.
Variable Date_parse : string → TimeValue.

(** Against a remote without classrooms the local classrooms stay. *)
Lemma mergeData_no_remote_classrooms now local remote :
  NoDup (c_id <$> classrooms local) → classrooms remote = [] →
  classrooms (Merge.mergeData Date_parse now local (Some remote)) = classrooms local.
Proof.
  intros Hnd Hr. rewrite MergeFacts.mergeData_classrooms. rewrite Hr. csimpl.
  rewrite app_nil_r.
  rewrite (JsSetFacts.new_NoDup (c_id <$> classrooms local)) by done.
  rewrite (JsSetFacts.new_NoDup (c_id <$> classrooms local)) by done.
  rewrite list_fmap_bind. rewrite (bind_singletons _ id); [apply list_fmap_id|].
  intros c Hc. simpl. unfold Merge.mergeStep.
  rewrite MergeFacts.classroomMap_get_NoDup by done.
  assert (Hnone : JsMap.get (Merge.classroomMap remote) (c_id c) = None).
  { apply MergeFacts.classroomMap_get_None. rewrite Hr. apply not_elem_of_nil. }
  by rewrite Hnone.
Qed.

(** A local store without classrooms adopts the remote ones. *)
Lemma mergeData_no_local_classrooms now local remote :
  NoDup (c_id <$> classrooms remote) → classrooms local = [] →
  classrooms (Merge.mergeData Date_parse now local (Some remote)) = classrooms remote.
Proof.
  intros Hnd Hl. rewrite MergeFacts.mergeData_classrooms. rewrite Hl. csimpl.
  rewrite (JsSetFacts.new_NoDup (c_id <$> classrooms remote)) by done.
  rewrite (JsSetFacts.new_NoDup (c_id <$> classrooms remote)) by done.
  rewrite list_fmap_bind. rewrite (bind_singletons _ id); [apply list_fmap_id|].
  intros c Hc. simpl. unfold Merge.mergeStep.
  rewrite (MergeFacts.classroomMap_get_NoDup remote) by done.
  assert (Hnone : JsMap.get (Merge.classroomMap local) (c_id c) = None).
  { apply MergeFacts.classroomMap_get_None. rewrite Hl. apply not_elem_of_nil. }
  by rewrite Hnone.
Qed.

(** Every merged classroom is a local one, a remote one, or a remote one
    with the children of the two sides merged. *)
Lemma mergeData_from now local remote c :
  c ∈ classrooms (Merge.mergeData Date_parse now local (Some remote)) →
  c ∈ classrooms local ∨ c ∈ classrooms remote
  ∨ ∃ lc rc, lc ∈ classrooms local ∧ rc ∈ classrooms remote ∧ c_id lc = c_id rc
      ∧ c = Merge.withChildren rc
              (Merge.mergeArrayById Date_parse (c_students lc) (c_students rc))
              (Merge.mergeArrayById Date_parse (c_lessons lc) (c_lessons rc)).
Proof.
  rewrite MergeFacts.mergeData_classrooms. intros (id & Hc & _)%list_elem_of_bind.
  unfold Merge.mergeStep in Hc.
  destruct (JsMap.get (Merge.classroomMap local) id) as [lc|] eqn:Hl;
    destruct (JsMap.get (Merge.classroomMap remote) id) as [rc|] eqn:Hr; simpl in Hc.
  - apply MergeFacts.classroomMap_get in Hl as [Hl1 Hl2].
    apply MergeFacts.classroomMap_get in Hr as [Hr1 Hr2].
    destruct (js_gt _ _); apply list_elem_of_singleton in Hc as ->.
    + right. right. exists lc, rc. split; [done|]. split; [done|]. split; [congruence|done].
    + by left.
  - apply MergeFacts.classroomMap_get in Hl as [Hl1 Hl2].
    apply list_elem_of_singleton in Hc as ->. by left.
  - apply MergeFacts.classroomMap_get in Hr as [Hr1 Hr2].
    apply list_elem_of_singleton in Hc as ->. right. by left.
  - by apply elem_of_nil in Hc.
Qed.
End Classrooms.
End MergeMore.

(** X1: whatever the two arrays hold, the array that [mergeArrayById] gives
    has no id twice; its ids are the local ids in their order of first
    occurrence followed by the ids that only the remote array has; and
    each of its items is an item of one of the two arrays. *)
Theorem merged_children_ids (parse : string → TimeValue) (A : Type) (E : Entity A)
    (local remote : list A) :
  let merged := Merge.mergeArrayById parse local remote in
  ent_id <$> merged
  = JsSet.new (ent_id <$> local)
    ++ filter (λ k, k ∉ ent_id <$> local) (JsSet.new (ent_id <$> remote))
  ∧ NoDup (ent_id <$> merged)
  ∧ ∀ x, x ∈ merged → x ∈ local ∨ x ∈ remote.
Proof.
  intros merged. split; [apply MergeFacts.mergeArrayById_ids|].
  split; [apply MergeFacts.mergeArrayById_NoDup|].
  apply MergeFacts.mergeArrayById_from.
Qed.

(** X2: for an array without repeated ids, merging with the empty array on
    either side, or with the array itself, gives the array back, in its
    order. *)
Theorem merged_children_neutral (parse : string → TimeValue) (A : Type) (E : Entity A)
    (l : list A) :
  NoDup (ent_id <$> l) →
  Merge.mergeArrayById parse l [] = l
  ∧ Merge.mergeArrayById parse [] l = l
  ∧ Merge.mergeArrayById parse l l = l.
Proof.
  intros Hnd. split; [by apply MergeMore.mergeArrayById_nil_r|].
  split; [by apply MergeMore.mergeArrayById_nil_l|by apply MergeMore.mergeArrayById_self].
Qed.

Lemma merged_children_neutral_witness :
  NoDup (s_id <$> [Sample.S1; Sample.S2])
  ∧ Merge.mergeArrayById IsoDate.parse [Sample.S1; Sample.S2] [Sample.S1; Sample.S2]
    = [Sample.S1; Sample.S2].
Proof.
  assert (Hnd : NoDup (s_id <$> [Sample.S1; Sample.S2]))
    by (apply (bool_decide_unpack _); vm_compute; exact I).
  split; [exact Hnd|].
  exact (proj2 (proj2 (merged_children_neutral IsoDate.parse Student _ _ Hnd))).
Defined.

(** X3: the classrooms of a merge never share an id, whatever the two stores
    hold; their ids are the local ids in their order of first occurrence
    followed by the ids that only the remote store has; each of them is a
    local classroom, a remote classroom, or a remote classroom carrying the
    merged students and lessons of the two copies; and the [nextId] of the
    merge is at least the [nextId] of either side. *)
Theorem merged_classrooms_ids (parse : string → TimeValue) (now : string)
    (local remote : Store) :
  let merged := Merge.mergeData parse now local (Some remote) in
  c_id <$> classrooms merged
  = JsSet.new (JsSet.new (c_id <$> classrooms local) ++ JsSet.new (c_id <$> classrooms remote))
  ∧ NoDup (c_id <$> classrooms merged)
  ∧ (∀ c, c ∈ classrooms merged →
       c ∈ classrooms local ∨ c ∈ classrooms remote
       ∨ ∃ lc rc, lc ∈ classrooms local ∧ rc ∈ classrooms remote ∧ c_id lc = c_id rc
           ∧ c = Merge.withChildren rc
                   (Merge.mergeArrayById parse (c_students lc) (c_students rc))
                   (Merge.mergeArrayById parse (c_lessons lc) (c_lessons rc)))
  ∧ ∃ n, nextId merged = Some n
         ∧ (default 0 (nextId local) ≤ n)%Z ∧ (default 0 (nextId remote) ≤ n)%Z.
Proof.
  intros merged. split; [apply MergeFacts.mergeData_ids|].
  split; [apply MergeFacts.mergeData_NoDup|].
  split; [apply MergeMore.mergeData_from|].
  eexists. split; [reflexivity|]. unfold Merge.orOne.
  destruct (nextId local) as [a|], (nextId remote) as [b|]; cbn -[Z.max];
    repeat case_decide; lia.
Qed.

(** X4: a store whose classroom ids are distinct keeps its classrooms, in
    their order, when it is merged with a remote that has no classrooms (the
    value the pull falls back to); and a store without classrooms adopts the
    classrooms of a remote whose ids are distinct. *)
Theorem merge_with_empty_side (parse : string → TimeValue) (now : string) (s : Store) :
  NoDup (c_id <$> classrooms s) →
  classrooms (Merge.mergeData parse now s (Some Pull.emptyRemote)) = classrooms s
  ∧ classrooms (Merge.mergeData parse now initialDB (Some s)) = classrooms s.
Proof.
  intros Hnd. split.
  - by apply MergeMore.mergeData_no_remote_classrooms.
  - by apply MergeMore.mergeData_no_local_classrooms.
Qed.

Lemma merge_with_empty_side_witness :
  NoDup (c_id <$> classrooms (Sample.store [Sample.olderC2; Sample.otherD]))
  ∧ classrooms (Merge.mergeData IsoDate.parse Sample.now1
                  (Sample.store [Sample.olderC2; Sample.otherD]) (Some Pull.emptyRemote))
    = [Sample.olderC2; Sample.otherD].
Proof.
  assert (Hnd : NoDup (c_id <$> classrooms (Sample.store [Sample.olderC2; Sample.otherD])))
    by (apply (bool_decide_unpack _); vm_compute; exact I).
  split; [exact Hnd|].
  exact (proj1 (merge_with_empty_side IsoDate.parse Sample.now1 _ Hnd)).
Defined.
(** ** The sync controller and the save pipeline, whatever the backend answers *)

Module SyncFacts.

Lemma saveToLocalStorage_pending env w :
  pendingChanges (DB (saveToLocalStorage env w)) = pendingChanges (DB w).
Proof. by rewrite SaveFacts.saveToLocalStorage_DB. Qed.

(** A save leaves the pending queue as it is or empties it. *)
Lemma saveOperation_pending env badge w :
  pendingChanges (DB (saveOperation env badge w)) = pendingChanges (DB w)
  ∨ pendingChanges (DB (saveOperation env badge w)) = Some [].
Proof.
  unfold saveOperation.
  pose proof (SaveFacts.saveToLocalStorage_DB env w) as Hls.
  destruct (saveToLocalStorage env w) as [db idx cid lid esid mode cb q t ls cl rq nt tk] eqn:E.
  simpl in Hls. subst db. simpl.
  destruct (onLine env && supabase env) eqn:Hguard; [|by left].
  apply andb_true_iff in Hguard as [_ Hs].
  destruct (remoteUserId (DB w)) as [userId|]; [|by left].
  destruct (PushFacts.saveUserDataToSupabase_returns env userId
              (mkWorld (DB w) idx cid lid esid mode cb q t ls cl rq nt tk) Hs) as [w' Hw'].
  rewrite Hw'. right. destruct w'. simpl. by match goal with d : Store |- _ => destruct d end.
Qed.

Lemma saveDB_pending env badge immediate w :
  pendingChanges (DB (saveDB env badge immediate w)) = pendingChanges (DB w)
  ∨ pendingChanges (DB (saveDB env badge immediate w)) = Some [].
Proof.
  destruct w as [db idx cid lid esid mode cb q t ls cl rq nt tk]. unfold saveDB. simpl.
  destruct immediate; [|by left].
  apply (saveOperation_pending env badge
           (mkWorld db idx cid lid esid mode cb (q ++ [(badge, clockMs env tk)]) None ls cl rq nt (S tk))).
Qed.

Lemma timerFires_pending env w :
  pendingChanges (DB (timerFires env w)) = pendingChanges (DB w)
  ∨ pendingChanges (DB (timerFires env w)) = Some [].
Proof.
  unfold timerFires. destruct (_st w) as [badge|] eqn:Ht; [|by left].
  destruct w as [db idx cid lid esid mode cb q t ls cl rq nt tk].
  apply (saveOperation_pending env badge
           (mkWorld db idx cid lid esid mode cb q None ls cl rq nt tk)).
Qed.

(** A sync that starts goes through to its last line. *)
Lemma syncWithCloud_runs env w userId :
  supabase env = true → remoteUserId (DB w) = Some userId →
  syncStatus (DB w) ≠ Some Syncing →
  ∃ w', syncWithCloud env w = notify "✅ Synced with cloud" w'
        ∧ syncStatus (DB w') = Some Idle
        ∧ pendingChanges (DB w') = Some []
        ∧ is_Some (lastSync (DB w')).
Proof.
  intros Hs Hu Hsync. unfold syncWithCloud. rewrite Hs, Hu.
  rewrite decide_False by done.
  destruct (PullFacts.loadUserDataFromSupabase_returns env userId
              (set_DB (set_syncStatus (Some Syncing) (DB w)) w)) as (remote & w1 & ->).
  destruct w1 as [db1 idx1 cid1 lid1 esid1 mode1 cb1 q1 t1 ls1 cl1 rq1 nt1 tk1]. simpl.
  match goal with
  | |- context [Push.saveUserDataToSupabase env userId ?x] =>
      destruct (PushFacts.saveUserDataToSupabase_returns env userId x Hs) as [w2 ->]
  end.
  pose proof (SaveFacts.saveToLocalStorage_DB env w2) as Hls.
  destruct (saveToLocalStorage env w2) as [db3 idx3 cid3 lid3 esid3 mode3 cb3 q3 t3 ls3 cl3 rq3 nt3 tk3].
  simpl in *. subst db3. destruct (DB w2). simpl.
  eexists (mkWorld _ _ _ _ _ _ _ _ _ _ _ _ nt3 _). split; [reflexivity|]. simpl. repeat split. by eexists.
Qed.

Lemma syncWithCloud_pending env w :
  pendingChanges (DB (syncWithCloud env w)) = pendingChanges (DB w)
  ∨ pendingChanges (DB (syncWithCloud env w)) = Some [].
Proof.
  destruct (supabase env) eqn:Hs; [|left; unfold syncWithCloud; by rewrite Hs].
  destruct (remoteUserId (DB w)) as [userId|] eqn:Hu;
    [|left; unfold syncWithCloud; by rewrite Hs, Hu].
  destruct (decide (syncStatus (DB w) = Some Syncing)) as [Hsync|Hsync];
    [left; unfold syncWithCloud; by rewrite Hs, Hu, decide_True|].
  destruct (syncWithCloud_runs env w userId Hs Hu Hsync) as (w' & -> & _ & Hp & _).
  right. by destruct w'.
Qed.

(** The user of the store is not touched by a merge, by the pull or by
    [rebuildIndex]. *)
Lemma user_mergeData parse now local remote :
  user (Merge.mergeData parse now local (Some remote)) = user local.
Proof. done. Qed.

Lemma pending_mergeData parse now local remote :
  pendingChanges (Merge.mergeData parse now local (Some remote)) = pendingChanges local.
Proof. done. Qed.

Lemma loadUserDataFromSupabase_store env userId w remote w1 :
  Pull.loadUserDataFromSupabase env userId w = Js.Returned (remote, w1) → DB w1 = DB w.
Proof.
  unfold Pull.loadUserDataFromSupabase.
  destruct (Pull.loadBody (backend env) (DB w) userId) as [r|e]; intros [= <- <-];
    [done|by destruct w].
Qed.

(** The [catch] of [syncWithCloud]. *)
Lemma failed_effect env w :
  let w' :=
    queuePendingChanges env None
      (notify "⚠️ Sync failed. Using local mode."
         (set_DB (set_syncStatus (Some SyncError) (DB w)) w)) in
  syncStatus (DB w') = Some SyncError
  ∧ pendingChanges (DB w')
    = Some (let pending := default [] (pendingChanges (DB w))
                             ++ [mkMarker (clock env (ticks w)) "unknown"] in
            if bool_decide (50 < length pending)%nat then drop 1 pending else pending)
  ∧ last (notices w') = Some "⚠️ Sync failed. Using local mode.".
Proof.
  intros w'. unfold w'. rewrite QueueFacts.queuePendingChanges_pending.
  destruct w as [db idx cid lid esid mode cb q t ls cl rq nt tk].
  destruct db as [cs next usr synced status pending settings templates].
  unfold queuePendingChanges, saveToLocalStorage. simpl.
  destruct (storageWritable env); simpl; by rewrite last_snoc.
Qed.

(** A sync that starts, with other handlers in between: what the handlers
    leave, what the pull returns, and the two ways the sync ends. *)
Lemma syncWithCloudAmid_runs env meanwhile w userId :
  supabase env = true → remoteUserId (DB w) = Some userId →
  syncStatus (DB w) ≠ Some Syncing →
  let w0 := meanwhile (set_DB (set_syncStatus (Some Syncing) (DB w)) w) in
  ∃ remote w1 w2,
    Pull.loadUserDataFromSupabase env userId w0 = Js.Returned (remote, w1)
    ∧ w2 = rebuildIndex
             (set_DB (Merge.mergeData (Date_parse env) (clock env (ticks w1)) (DB w1)
                        (Some remote))
                (set_ticks (S (ticks w1)) w1))
    ∧ match user (DB w0) with
      | None =>
          syncWithCloudAmid env meanwhile w
          = queuePendingChanges env None
              (notify "⚠️ Sync failed. Using local mode."
                 (set_DB (set_syncStatus (Some SyncError) (DB w2)) w2))
      | Some u =>
          ∃ w', syncWithCloudAmid env meanwhile w = notify "✅ Synced with cloud" w'
                ∧ syncStatus (DB w') = Some Idle
                ∧ pendingChanges (DB w') = Some []
                ∧ is_Some (lastSync (DB w'))
      end.
Proof.
  intros Hs Hu Hsync w0. unfold syncWithCloudAmid. rewrite Hs, Hu.
  rewrite decide_False by done. cbv zeta. fold w0.
  destruct (PullFacts.loadUserDataFromSupabase_returns env userId w0) as (remote & w1 & Hpull).
  rewrite Hpull. pose proof (loadUserDataFromSupabase_store _ _ _ _ _ Hpull) as Hdb.
  eexists remote, w1, _. split; [done|]. split; [reflexivity|].
  destruct w1 as [db1 idx1 cid1 lid1 esid1 mode1 cb1 q1 t1 ls1 cl1 rq1 nt1 tk1].
  simpl in Hdb. subst db1. simpl.
  destruct (user (DB w0)) as [u|]; [|reflexivity].
  match goal with
  | |- context [Push.saveUserDataToSupabase env ?id ?x] =>
      destruct (PushFacts.saveUserDataToSupabase_returns env id x Hs) as [w3 ->]
  end.
  pose proof (SaveFacts.saveToLocalStorage_DB env w3) as Hls.
  destruct (saveToLocalStorage env w3) as [db4 idx4 cid4 lid4 esid4 mode4 cb4 q4 t4 ls4 cl4 rq4 nt4 tk4].
  simpl in *. subst db4. destruct (DB w3). simpl.
  eexists (mkWorld _ _ _ _ _ _ _ _ _ _ _ _ nt4 _). split; [reflexivity|]. simpl.
  repeat split. by eexists.
Qed.

(** With nothing in between, it is the run that [syncWithCloud] describes. *)
Lemma syncWithCloudAmid_alone env w : syncWithCloudAmid env (λ w, w) w = syncWithCloud env w.
Proof.
  unfold syncWithCloudAmid, syncWithCloud.
  destruct (if supabase env then remoteUserId (DB w) else None) as [userId|] eqn:Hguard;
    [|done].
  case_decide; [done|]. cbv zeta.
  assert (Hu : ∃ u, user (DB w) = Some u ∧ u_id u = Some userId).
  { destruct (supabase env); [|done]. unfold remoteUserId in Hguard.
    destruct (user (DB w)) as [u|]; [|done]. simpl in Hguard. exists u. split; [done|].
    case_decide; [|done]. unfold Pull.truthyString in Hguard.
    destruct (u_id u) as [id|]; [|done]. by case_decide; simplify_eq. }
  destruct Hu as (u & Hu & Hid).
  destruct (Pull.loadUserDataFromSupabase env userId _) as [[remote w1]|e] eqn:Hpull; [|done].
  pose proof (loadUserDataFromSupabase_store _ _ _ _ _ Hpull) as Hdb.
  destruct w1 as [db1 idx1 cid1 lid1 esid1 mode1 cb1 q1 t1 ls1 cl1 rq1 nt1 tk1].
  destruct w as [db idx cid lid esid mode cb q t ls cl rq nt tk].
  destruct db as [cs next usr synced status pending settings templates].
  simpl in *. subst. simpl. by rewrite Hid.
Qed.
End SyncFacts.

(** X5: no answer of the backend makes a sync fail; only a sign-out does.
    Take a sync that starts (the client is connected, a user of the remote
    backend is signed in, no sync is running) and whatever other handlers do
    to the page while the pull is awaited.  If the page still has a user when
    the code reads [DB.user.id] again for the push, the sync ends as a
    success, whatever the backend answers to the pull and to the push: the
    status is idle, the pending queue is empty, [lastSync] is set and the
    last notice is the success toast.  If the user is gone by then, the sync
    ends in its [catch]: the status is the error status, a marker with the
    context ['unknown'] is added to the pending queue, which is cut to its 50
    newest entries, and the last notice is the failure notice.  With no
    handler in between, the run is that of [syncWithCloud], which therefore
    always ends as a success. *)
Theorem sync_fails_only_without_user (env : Env) (meanwhile : World → World) (w : World)
    (userId : string) :
  supabase env = true → remoteUserId (DB w) = Some userId →
  syncStatus (DB w) ≠ Some Syncing →
  let w0 := meanwhile (set_DB (set_syncStatus (Some Syncing) (DB w)) w) in
  let w' := syncWithCloudAmid env meanwhile w in
  (is_Some (user (DB w0)) →
   syncStatus (DB w') = Some Idle
   ∧ pendingChanges (DB w') = Some []
   ∧ is_Some (lastSync (DB w'))
   ∧ last (notices w') = Some "✅ Synced with cloud")
  ∧ (user (DB w0) = None →
     syncStatus (DB w') = Some SyncError
     ∧ (∃ now,
          pendingChanges (DB w')
          = Some (let pending := default [] (pendingChanges (DB w0))
                                   ++ [mkMarker now "unknown"] in
                  if bool_decide (50 < length pending)%nat then drop 1 pending else pending))
     ∧ last (notices w') = Some "⚠️ Sync failed. Using local mode.")
  ∧ syncWithCloudAmid env (λ w, w) w = syncWithCloud env w
  ∧ syncStatus (DB (syncWithCloud env w)) = Some Idle.
Proof.
  intros Hs Hu Hsync w0 w'.
  destruct (SyncFacts.syncWithCloudAmid_runs env meanwhile w userId Hs Hu Hsync)
    as (remote & w1 & w2 & Hpull & Hw2 & Hend).
  fold w0 in Hpull, Hend. fold w' in Hend.
  split; [|split; [|split]].
  - intros [u Huser]. rewrite Huser in Hend. destruct Hend as (w3 & -> & H1 & H2 & H3).
    destruct w3. simpl in *. repeat split; try done. by rewrite last_snoc.
  - intros Huser. rewrite Huser in Hend. rewrite Hend.
    destruct (SyncFacts.failed_effect env w2) as (H1 & H2 & H3).
    split; [exact H1|]. split; [|exact H3]. exists (clock env (ticks w2)).
    rewrite H2. subst w2. rewrite SaveFacts.rebuildIndex_DB.
    pose proof (SyncFacts.loadUserDataFromSupabase_store _ _ _ _ _ Hpull) as Hdb.
    destruct w1. simpl in *. by rewrite Hdb.
  - apply SyncFacts.syncWithCloudAmid_alone.
  - destruct (SyncFacts.syncWithCloud_runs env w userId Hs Hu Hsync) as (w3 & -> & H1 & _).
    by destruct w3.
Qed.

Lemma sync_fails_only_without_user_witness :
  supabase Sample.env = true
  ∧ remoteUserId (DB Sample.worldC) = Some "user-1"
  ∧ syncStatus (DB Sample.worldC) ≠ Some Syncing
  ∧ syncStatus (DB (syncWithCloudAmid Sample.env (signedOut Sample.env) Sample.worldC))
    = Some SyncError
  ∧ syncStatus (DB (syncWithCloudAmid Sample.rejectingEnv (λ w, w) Sample.worldC)) = Some Idle.
Proof.
  assert (H3 : syncStatus (DB Sample.worldC) ≠ Some Syncing) by (vm_compute; discriminate).
  split; [reflexivity|]. split; [reflexivity|]. split; [exact H3|].
  destruct (sync_fails_only_without_user Sample.env (signedOut Sample.env) Sample.worldC
              "user-1" eq_refl eq_refl H3) as (_ & Hfailed & _).
  destruct (sync_fails_only_without_user Sample.rejectingEnv (λ w, w) Sample.worldC
              "user-1" eq_refl eq_refl H3) as (Hdone & _).
  split.
  - apply Hfailed. reflexivity.
  - apply Hdone. eexists. reflexivity.
Defined.

(** X6: a save never adds a marker to the pending queue, and a sync adds one
    only when it fails.  [saveDB] (at once or debounced) and the debounce
    timer each leave [pendingChanges] as it is or empty it, online or offline
    and whatever the backend answers.  So does a sync, whatever other
    handlers do while its pull is awaited, unless the page has no user left
    when the sync comes to its push. *)
Theorem pending_queue_grows_only_without_user (env : Env) (w : World) :
  (∀ badge immediate,
     pendingChanges (DB (saveDB env badge immediate w)) = pendingChanges (DB w)
     ∨ pendingChanges (DB (saveDB env badge immediate w)) = Some [])
  ∧ (pendingChanges (DB (timerFires env w)) = pendingChanges (DB w)
     ∨ pendingChanges (DB (timerFires env w)) = Some [])
  ∧ (∀ meanwhile,
       is_Some (user (DB (meanwhile (set_DB (set_syncStatus (Some Syncing) (DB w)) w)))) →
       pendingChanges (DB (syncWithCloudAmid env meanwhile w)) = pendingChanges (DB w)
       ∨ pendingChanges (DB (syncWithCloudAmid env meanwhile w)) = Some []).
Proof.
  split; [intros badge immediate; apply SyncFacts.saveDB_pending|].
  split; [apply SyncFacts.timerFires_pending|].
  intros meanwhile [u Huser].
  destruct (supabase env) eqn:Hs; [|left; unfold syncWithCloudAmid; by rewrite Hs].
  destruct (remoteUserId (DB w)) as [userId|] eqn:Hu;
    [|left; unfold syncWithCloudAmid; by rewrite Hs, Hu].
  destruct (decide (syncStatus (DB w) = Some Syncing)) as [Hsync|Hsync];
    [left; unfold syncWithCloudAmid; by rewrite Hs, Hu, decide_True|].
  destruct (SyncFacts.syncWithCloudAmid_runs env meanwhile w userId Hs Hu Hsync)
    as (remote & w1 & w2 & _ & _ & Hend).
  rewrite Huser in Hend. destruct Hend as (w3 & -> & _ & Hp & _).
  right. by destruct w3.
Qed.
Module SyncMore.

(** The pull leaves the store alone. *)
Lemma loadUserDataFromSupabase_DB env userId w remote w1 :
  Pull.loadUserDataFromSupabase env userId w = Js.Returned (remote, w1) →
  DB w1 = DB w
  ∧ (remote = Pull.emptyRemote
     ∨ Pull.loadBody (backend env) (DB w) userId = Js.Returned remote).
Proof.
  unfold Pull.loadUserDataFromSupabase.
  destruct (Pull.loadBody (backend env) (DB w) userId) as [r|e]; intros [= <- <-].
  - split; [done|by right].
  - split; [by destruct w|by left].
Qed.

(** What the pull returns does not depend on the store but for the export
    settings it falls back to. *)
Lemma loadBody_classrooms be db db' userId remote :
  Pull.loadBody be db userId = Js.Returned remote →
  ∃ remote', Pull.loadBody be db' userId = Js.Returned remote'
             ∧ classrooms remote' = classrooms remote.
Proof.
  unfold Pull.loadBody.
  destruct (negb (Pull.checkTableExists be "classrooms")); [intros [= <-]; eauto|].
  destruct (Remote.await (Remote.selectClassrooms be userId)) as [[cd ce]|]; simpl; [|done].
  destruct (Remote.await (Remote.selectExportSettings be userId)) as [[sd se]|]; simpl; [|done].
  destruct ce as [error|].
  { destruct (Js.messageIncludes error "does not exist"); [intros [= <-]; eauto|done]. }
  destruct cd as [[|row rows]|]; [intros [= <-]; eauto| |intros [= <-]; eauto].
  destruct (Remote.await (Remote.selectStudents be _)) as [[? ?]|]; simpl; [|done].
  destruct (Remote.await (Remote.selectLessons be _)) as [[? ?]|]; simpl; [|done].
  destruct (Remote.await (Remote.selectColumns be _)) as [[? ?]|]; simpl; [|done].
  destruct (Pull.fetchBatches _ _ _ _ _ _) as [[? ?]|]; simpl; [|done].
  intros [= <-]. eauto.
Qed.

(** The store a sync that starts ends with. *)
Lemma syncWithCloud_DB env w userId :
  supabase env = true → remoteUserId (DB w) = Some userId →
  syncStatus (DB w) ≠ Some Syncing →
  ∃ remote now now',
    (remote = Pull.emptyRemote
     ∨ Pull.loadBody (backend env) (set_syncStatus (Some Syncing) (DB w)) userId
       = Js.Returned remote)
    ∧ DB (syncWithCloud env w)
      = set_pendingChanges (Some [])
          (set_syncStatus (Some Idle)
             (set_lastSync (Some now')
                (Merge.mergeData (Date_parse env) now
                   (set_syncStatus (Some Syncing) (DB w)) (Some remote)))).
Proof.
  intros Hs Hu Hsync. unfold syncWithCloud. rewrite Hs, Hu.
  rewrite decide_False by done.
  destruct (PullFacts.loadUserDataFromSupabase_returns env userId
              (set_DB (set_syncStatus (Some Syncing) (DB w)) w)) as (remote & w1 & Hpull).
  rewrite Hpull. apply loadUserDataFromSupabase_DB in Hpull as [Hdb Hremote].
  assert (Hdb0 : DB (set_DB (set_syncStatus (Some Syncing) (DB w)) w)
                 = set_syncStatus (Some Syncing) (DB w)) by (by destruct w).
  rewrite Hdb0 in Hdb, Hremote. clear Hdb0.
  destruct w1 as [db1 idx1 cid1 lid1 esid1 mode1 cb1 q1 t1 ls1 cl1 rq1 nt1 tk1].
  simpl in Hdb. subst db1. simpl.
  match goal with
  | |- context [Push.saveUserDataToSupabase env userId ?x] =>
      destruct (PushFacts.saveUserDataToSupabase_returns env userId x Hs) as [w2 Hpush];
      rewrite Hpush; apply SaveFacts.saveUserDataToSupabase_DB in Hpush
  end.
  pose proof (SaveFacts.saveToLocalStorage_DB env w2) as Hls.
  destruct (saveToLocalStorage env w2) as [db3 idx3 cid3 lid3 esid3 mode3 cb3 q3 t3 ls3 cl3 rq3 nt3 tk3].
  simpl in Hls. subst db3. simpl. rewrite Hpush. simpl.
  exists remote, (clock env tk1), (clock env tk3). split; [exact Hremote|done].
Qed.
End SyncMore.

(** X7: when the pull yields no classrooms (the tables are missing, a
    request failed, or the user has no rows), a sync that starts leaves the
    classrooms of a store with distinct classroom ids exactly as they
    are. *)
Theorem sync_without_remote_classrooms (env : Env) (w : World) (userId : string) :
  supabase env = true → remoteUserId (DB w) = Some userId →
  syncStatus (DB w) ≠ Some Syncing →
  NoDup (c_id <$> classrooms (DB w)) →
  (∀ remote, Pull.loadBody (backend env) (DB w) userId = Js.Returned remote →
             classrooms remote = []) →
  classrooms (DB (syncWithCloud env w)) = classrooms (DB w).
Proof.
  intros Hs Hu Hsync Hnd Hempty.
  destruct (SyncMore.syncWithCloud_DB env w userId Hs Hu Hsync)
    as (remote & now & now' & Hremote & ->).
  assert (Hr : classrooms remote = []).
  { destruct Hremote as [->|Hbody]; [done|].
    destruct (SyncMore.loadBody_classrooms _ _ (DB w) _ _ Hbody) as (remote' & Hbody' & <-).
    by apply Hempty. }
  assert (Hcs : classrooms (set_syncStatus (Some Syncing) (DB w)) = classrooms (DB w))
    by (by destruct (DB w)).
  pose proof (MergeMore.mergeData_no_remote_classrooms (Date_parse env) now
                (set_syncStatus (Some Syncing) (DB w)) remote) as Hm.
  rewrite Hcs in Hm. specialize (Hm Hnd Hr).
  destruct (Merge.mergeData _ _ _ _). simpl in *. done.
Qed.

Lemma sync_without_remote_classrooms_witness :
  supabase Sample.downEnv = true
  ∧ remoteUserId (DB Sample.worldC) = Some "user-1"
  ∧ syncStatus (DB Sample.worldC) ≠ Some Syncing
  ∧ NoDup (c_id <$> classrooms (DB Sample.worldC))
  ∧ Pull.loadBody (backend Sample.downEnv) (DB Sample.worldC) "user-1"
    = Js.Threw Sample.fetchFailed
  ∧ classrooms (DB (syncWithCloud Sample.downEnv Sample.worldC))
    = classrooms (DB Sample.worldC).
Proof.
  assert (H3 : syncStatus (DB Sample.worldC) ≠ Some Syncing) by (vm_compute; discriminate).
  assert (H4 : NoDup (c_id <$> classrooms (DB Sample.worldC)))
    by (apply (bool_decide_unpack _); vm_compute; exact I).
  assert (H5 : Pull.loadBody (backend Sample.downEnv) (DB Sample.worldC) "user-1"
               = Js.Threw Sample.fetchFailed) by (vm_compute; reflexivity).
  split; [reflexivity|]. split; [reflexivity|]. split; [exact H3|]. split; [exact H4|].
  split; [exact H5|].
  apply (sync_without_remote_classrooms Sample.downEnv Sample.worldC "user-1"
           eq_refl eq_refl H3 H4).
  intros remote Hremote. rewrite H5 in Hremote. discriminate.
Defined.
(** ** The pull: grouping of rows and batching of requests *)

Module PullMore.
Import Remote.

Section Grouping.
Context {R : Type}.
Implicit Types (key : R → string) (rows : list R).

Lemma groupBy_snoc key rows r :
  Pull.groupBy key (rows ++ [r])
  = JsMap.set (key r) (Pull.rowsOf (Pull.groupBy key rows) (key r) ++ [r]) (Pull.groupBy key rows).
Proof. unfold Pull.groupBy. by rewrite foldl_app. Qed.

(** The group of a key: the rows with that key, in their order. *)
Lemma rowsOf_groupBy key rows k :
  Pull.rowsOf (Pull.groupBy key rows) k = filter (λ r, key r = k) rows.
Proof.
  induction rows as [|r rows IH] using rev_ind; [done|].
  rewrite groupBy_snoc, filter_app. unfold Pull.rowsOf at 1.
  rewrite JsMapFacts.get_set. case_decide as Hk.
  - subst k. simpl. rewrite IH. by rewrite filter_cons_True, filter_nil by done.
  - fold (Pull.rowsOf (Pull.groupBy key rows) k). rewrite IH.
    rewrite filter_cons_False by congruence. by rewrite filter_nil, app_nil_r.
Qed.

Lemma keys_groupBy key rows :
  JsMap.keys (Pull.groupBy key rows) = JsSet.new (key <$> rows).
Proof.
  induction rows as [|r rows IH] using rev_ind; [done|].
  rewrite groupBy_snoc, JsMapFacts.keys_set, IH, fmap_app. unfold JsSet.new.
  by rewrite foldl_app.
Qed.
End Grouping.

Section Batches.
Variable be : Backend.
Variable lessonIds : list string.
Variable gd : list string → option (list GradeRow) * option Js.Error.
Variable ad : list string → option (list AttendanceRow) * option Js.Error.
Hypothesis grades_resolve : ∀ batch, await (selectGrades be batch) = Js.Returned (gd batch).
Hypothesis attendance_resolves :
  ∀ batch, await (selectAttendance be batch) = Js.Returned (ad batch).

Lemma batchesFrom_S i k :
  batchesFrom lessonIds i (S k) = take BATCH_SIZE (drop i lessonIds) :: batchesFrom lessonIds (i + BATCH_SIZE) k.
Proof.
  unfold batchesFrom. rewrite <- cons_seq. csimpl. rewrite Nat.add_0_r. f_equal.
  rewrite <- fmap_S_seq, <- list_fmap_compose. apply list_fmap_ext.
  intros j x _. simpl. do 2 f_equal. unfold BATCH_SIZE. lia.
Qed.

Lemma rounds_step i :
  (i < length lessonIds)%nat →
  ((length lessonIds - i + 24) / 25 = S ((length lessonIds - (i + BATCH_SIZE) + 24) / 25))%nat.
Proof.
  intros Hi. unfold BATCH_SIZE.
  destruct (decide (length lessonIds - i < 25)%nat) as [Hlt|Hge].
  - replace (length lessonIds - (i + 25))%nat with 0%nat by lia.
    change ((0 + 24) / 25)%nat with 0%nat.
    symmetry. apply Nat.div_unique with (r := (length lessonIds - i - 1)%nat); lia.
  - replace (length lessonIds - i + 24)%nat
      with (1 * 25 + (length lessonIds - (i + 25) + 24))%nat by lia.
    rewrite Nat.div_add_l by lia. lia.
Qed.

Lemma fetchBatches_from fuel i grades attendance :
  (length lessonIds - i ≤ fuel)%nat →
  Pull.fetchBatches be fuel i lessonIds grades attendance
  = Js.Returned
      (grades ++ (batchesFrom lessonIds i ((length lessonIds - i + 24) / 25) ≫= λ b, default [] (gd b).1),
       attendance ++ (batchesFrom lessonIds i ((length lessonIds - i + 24) / 25) ≫= λ b, default [] (ad b).1)).
Proof.
  revert i grades attendance. induction fuel as [|fuel IH]; intros i grades attendance Hfuel.
  - replace (length lessonIds - i)%nat with 0%nat by lia.
    change ((0 + 24) / 25)%nat with 0%nat. simpl. by rewrite !app_nil_r.
  - cbn [Pull.fetchBatches]. case_bool_decide as Hi.
    + rewrite grades_resolve, attendance_resolves. cbn [Js.bind].
      rewrite IH by (unfold BATCH_SIZE; lia).
      rewrite (rounds_step i Hi), batchesFrom_S. csimpl. by rewrite <- !app_assoc.
    + replace (length lessonIds - i)%nat with 0%nat by lia.
      change ((0 + 24) / 25)%nat with 0%nat. simpl. by rewrite !app_nil_r.
Qed.

Lemma concat_batchesFrom k i :
  (length lessonIds ≤ i + k * 25)%nat → concat (batchesFrom lessonIds i k) = drop i lessonIds.
Proof.
  revert i. induction k as [|k IH]; intros i Hk.
  - simpl. by rewrite drop_ge by lia.
  - rewrite batchesFrom_S. cbn [concat]. rewrite IH by (unfold BATCH_SIZE; lia).
    rewrite <- drop_drop. apply take_drop.
Qed.

Lemma batchesFrom_lengths k :
  (k * 25 < length lessonIds + 25)%nat →
  Forall (λ b : list string, 0 < length b ≤ 25)%nat (batchesFrom lessonIds 0 k).
Proof.
  intros Hk. unfold batchesFrom. apply Forall_fmap, Forall_forall.
  intros j Hj%elem_of_seq. simpl.
  rewrite length_take, length_drop. unfold BATCH_SIZE. lia.
Qed.
End Batches.
End PullMore.

(** X8: the pull groups the rows of a table by their key without losing or
    reordering any: the group of a key holds exactly the rows with that key,
    in the order of the table, and the keys of the grouping are the keys of
    the rows in their order of first occurrence.  So a pulled classroom gets
    exactly the student, lesson and column rows that carry its id. *)
Theorem pull_groups_rows_by_key (R : Type) (key : R → string) (rows : list R) :
  (∀ k, Pull.rowsOf (Pull.groupBy key rows) k = filter (λ r, key r = k) rows)
  ∧ JsMap.keys (Pull.groupBy key rows) = JsSet.new (key <$> rows)
  ∧ ∀ students lessons columns grades attendance (c : Remote.ClassroomRow),
      let pulled :=
        Pull.classroomOfRow (Pull.groupBy Remote.sr_classroom_id students)
          (Pull.groupBy Remote.lr_classroom_id lessons)
          (Pull.groupBy Remote.cr_classroom_id columns)
          (Pull.groupBy Remote.gr_lesson_id grades)
          (Pull.groupBy Remote.ar_lesson_id attendance) c in
      c_students pulled
      = Pull.studentOfRow <$> filter (λ s, Remote.sr_classroom_id s = Remote.r_id c) students
      ∧ l_id <$> c_lessons pulled
        = Remote.lr_lesson_number
            <$> filter (λ l, Remote.lr_classroom_id l = Remote.r_id c) lessons
      ∧ col_id <$> c_columns pulled
        = Remote.cr_column_number
            <$> filter (λ col, Remote.cr_classroom_id col = Remote.r_id c) columns.
Proof.
  split; [apply PullMore.rowsOf_groupBy|]. split; [apply PullMore.keys_groupBy|].
  intros students lessons columns grades attendance c pulled. unfold pulled.
  unfold Pull.classroomOfRow. simpl. rewrite !PullMore.rowsOf_groupBy.
  split; [done|]. split; by rewrite <- list_fmap_compose.
Qed.

(** X9: when the grade and attendance requests resolve, the loop of the pull
    asks for the lessons in batches that are cut from the list of lesson ids
    in order, each of 1 to 25 ids, that together are the whole list, and it
    returns the rows of the batches in that order; the bound on its rounds is
    never what stops it. *)
Theorem pull_fetches_in_batches (be : Remote.Backend) (lessonIds : list string)
    (gd : list string → option (list Remote.GradeRow) * option Js.Error)
    (ad : list string → option (list Remote.AttendanceRow) * option Js.Error) :
  (∀ batch, Remote.await (Remote.selectGrades be batch) = Js.Returned (gd batch)) →
  (∀ batch, Remote.await (Remote.selectAttendance be batch) = Js.Returned (ad batch)) →
  let batches :=
    (λ j, take BATCH_SIZE (drop (j * BATCH_SIZE) lessonIds))
      <$> seq 0 ((length lessonIds + 24) / 25) in
  Pull.fetchBatches be (length lessonIds) 0 lessonIds [] []
  = Js.Returned (batches ≫= (λ b, default [] (gd b).1), batches ≫= (λ b, default [] (ad b).1))
  ∧ concat batches = lessonIds
  ∧ Forall (λ b : list string, 0 < length b ≤ 25)%nat batches.
Proof.
  intros Hg Ha batches.
  assert (Hb : batches = batchesFrom lessonIds 0 ((length lessonIds + 24) / 25)) by done.
  pose proof (Nat.div_mod (length lessonIds + 24) 25 ltac:(lia)) as Hdiv.
  pose proof (Nat.mod_upper_bound (length lessonIds + 24) 25 ltac:(lia)) as Hmod.
  split; [|split].
  - rewrite (PullMore.fetchBatches_from be lessonIds gd ad Hg Ha) by lia.
    rewrite Nat.sub_0_r. by rewrite Hb.
  - rewrite Hb, PullMore.concat_batchesFrom by lia. done.
  - rewrite Hb. apply PullMore.batchesFrom_lengths. lia.
Qed.

Lemma pull_fetches_in_batches_witness :
  (∀ batch, Remote.await (Remote.selectGrades Demo.attendanceBackend batch)
            = Js.Returned (None, None))
  ∧ (∀ batch, Remote.await (Remote.selectAttendance Demo.attendanceBackend batch)
              = Js.Returned (Some (Demo.attendanceRows batch), None))
  ∧ Pull.fetchBatches Demo.attendanceBackend 30 0 Demo.lessonIds30 [] []
    = Js.Returned ([], Demo.attendanceRows Demo.lessonIds30).
Proof.
  split; [done|]. split; [done|].
  destruct (pull_fetches_in_batches Demo.attendanceBackend Demo.lessonIds30
              (λ _, (None, None)) (λ batch, (Some (Demo.attendanceRows batch), None))
              (λ _, eq_refl) (λ _, eq_refl)) as (Hrows & _ & _).
  change (length Demo.lessonIds30) with 30%nat in Hrows. rewrite Hrows.
  vm_compute. reflexivity.
Defined.
(** ** Attendance statistics *)

Module StatsFacts.

(** One turn of the loop of [studentStats]. *)
Lemma count_step sid (ls : list Lesson) (p l a : Z) :
  foldl (λ '(present, late, absent) l,
           if negb (appliesTo sid l) then (present, late, absent)
           else
             let val := attendanceOf sid l in
             if decide (val = "present") then (present + 1, late, absent)
             else if decide (val = "late") then (present, late + 1, absent)
             else (present, late, absent + 1))
    (p, l, a) ls
  = (p + Z.of_nat (length (filter (λ l, appliesTo sid l = true ∧ attendanceOf sid l = "present") ls)),
     l + Z.of_nat (length (filter (λ l, appliesTo sid l = true ∧ attendanceOf sid l = "late") ls)),
     a + Z.of_nat (length (filter (λ l, appliesTo sid l = true ∧ attendanceOf sid l ≠ "present"
                                        ∧ attendanceOf sid l ≠ "late") ls))).
Proof.
  revert p l a. induction ls as [|x ls IH]; intros p l a.
  - simpl. by rewrite !Z.add_0_r.
  - cbn [foldl]. destruct (appliesTo sid x) eqn:Hx; cbn [negb].
    + destruct (decide (attendanceOf sid x = "present")) as [Hp|Hp].
      * rewrite IH. rewrite (filter_cons_True _ x) by done.
        rewrite (filter_cons_False _ x) by (rewrite Hp; intros [_ ?]; done).
        rewrite (filter_cons_False _ x) by (intros (_ & ? & _); done).
        simpl length. repeat (match goal with |- (_, _) = (_, _) => f_equal end); lia.
      * destruct (decide (attendanceOf sid x = "late")) as [Hl|Hl].
        -- rewrite IH. rewrite (filter_cons_False _ x) by (intros [_ ?]; done).
           rewrite (filter_cons_True _ x) by done.
           rewrite (filter_cons_False _ x) by (intros (_ & _ & ?); done).
           simpl length. repeat (match goal with |- (_, _) = (_, _) => f_equal end); lia.
        -- rewrite IH. rewrite (filter_cons_False _ x) by (intros [_ ?]; done).
           rewrite (filter_cons_False _ x) by (intros [_ ?]; done).
           rewrite (filter_cons_True _ x) by done.
           simpl length. repeat (match goal with |- (_, _) = (_, _) => f_equal end); lia.
    + rewrite IH.
      rewrite !(filter_cons_False _ x) by (intros [? _]; congruence). done.
Qed.

(** The three kinds of lessons are the lessons that list the student. *)
Lemma kinds_partition sid (ls : list Lesson) :
  (length (filter (λ l, appliesTo sid l = true ∧ attendanceOf sid l = "present") ls)
   + length (filter (λ l, appliesTo sid l = true ∧ attendanceOf sid l = "late") ls)
   + length (filter (λ l, appliesTo sid l = true ∧ attendanceOf sid l ≠ "present"
                          ∧ attendanceOf sid l ≠ "late") ls)
   = length (filter (λ l, appliesTo sid l = true) ls))%nat.
Proof.
  induction ls as [|x ls IH]; [done|].
  destruct (appliesTo sid x) eqn:Hx.
  - rewrite (filter_cons_True (λ l, appliesTo sid l = true) x) by done.
    destruct (decide (attendanceOf sid x = "present")) as [Hp|Hp];
      [|destruct (decide (attendanceOf sid x = "late")) as [Hl|Hl]].
    + rewrite (filter_cons_True _ x) by done.
      rewrite (filter_cons_False _ x) by (rewrite Hp; intros [_ ?]; done).
      rewrite (filter_cons_False _ x) by (intros (_ & ? & _); done).
      simpl length. lia.
    + rewrite (filter_cons_False _ x) by (intros [_ ?]; done).
      rewrite (filter_cons_True _ x) by done.
      rewrite (filter_cons_False _ x) by (intros (_ & _ & ?); done).
      simpl length. lia.
    + rewrite (filter_cons_False _ x) by (intros [_ ?]; done).
      rewrite (filter_cons_False _ x) by (intros [_ ?]; done).
      rewrite (filter_cons_True _ x) by done.
      simpl length. lia.
  - rewrite !(filter_cons_False _ x) by (first [intros [? _]; congruence | congruence]). done.
Qed.
End StatsFacts.

(** X10: the statistics of a student in the current classroom count each
    lesson that lists the student once: [present] is the number of those
    lessons where the attendance is present (or not recorded), [late] the
    number where it is late, [absent] the number with any other value;
    [attended] is their first two summed, [total] the number of lessons that
    list the student, and present + late + absent = total.  Without a current
    classroom all five are 0. *)
Theorem student_stats_add_up (w : World) (sid : Z) :
  let st := studentStats w sid in
  match CC w ≫= classroomAt w with
  | None => st = mkStats 0 0 0 0 0
  | Some c =>
      let listed (l : Lesson) := appliesTo sid l = true in
      present st
      = Z.of_nat (length (filter (λ l, listed l ∧ attendanceOf sid l = "present") (c_lessons c)))
      ∧ late st
        = Z.of_nat (length (filter (λ l, listed l ∧ attendanceOf sid l = "late") (c_lessons c)))
      ∧ absent st
        = Z.of_nat (length (filter (λ l, listed l ∧ attendanceOf sid l ≠ "present"
                                         ∧ attendanceOf sid l ≠ "late") (c_lessons c)))
      ∧ total st = Z.of_nat (length (filter listed (c_lessons c)))
      ∧ attended st = (present st + late st)%Z
      ∧ (present st + late st + absent st = total st)%Z
      ∧ (0 ≤ total st ≤ Z.of_nat (length (c_lessons c)))%Z
  end.
Proof.
  intros st. unfold st, studentStats. destruct (CC w ≫= classroomAt w) as [c|]; [|done].
  rewrite StatsFacts.count_step. cbn -[Z.add Z.of_nat].
  pose proof (StatsFacts.kinds_partition sid (c_lessons c)) as Hsum.
  pose proof (length_filter (λ l, appliesTo sid l = true) (c_lessons c)) as Hle.
  repeat split; lia.
Qed.
(** ** The keys of a lesson's [data] *)

Module KeyFacts.

Lemma pretty_N_go_plain (x : N) (s : string) :
  ¬ In "_"%char (String.list_ascii_of_string s) →
  ¬ In "_"%char (String.list_ascii_of_string (pretty_N_go x s)).
Proof.
  revert s. induction (N.lt_wf_0 x) as [x _ IH]; intros s Hs.
  assert (x = 0 ∨ 0 < x)%N as [->|Hx] by lia.
  - by rewrite pretty_N_go_0.
  - rewrite pretty_N_go_step by done. apply IH; [by apply N.div_lt|].
    simpl. intros [Hc|Hin]; [|done].
    revert Hc. unfold pretty_N_char. by repeat case_match.
Qed.

Lemma pretty_Z_plain (z : Z) : ¬ In "_"%char (String.list_ascii_of_string (pretty z)).
Proof.
  assert (HN : ∀ n : N, ¬ In "_"%char (String.list_ascii_of_string (pretty n))).
  { intros n. unfold pretty, pretty_N. case_decide.
    - simpl. intros [?|[]]. done.
    - apply pretty_N_go_plain. simpl. tauto. }
  destruct z as [|p|p]; unfold pretty, pretty_Z.
  - simpl. intros [?|[]]. done.
  - apply (HN (Npos p)).
  - simpl. intros [?|Hin]; [done|]. by apply (HN (Npos p)).
Qed.

(** A text without underscores, an underscore, and a rest: read back in one
    way only. *)
Lemma split_at_underscore (a a' b b' : string) :
  ¬ In "_"%char (String.list_ascii_of_string a) → ¬ In "_"%char (String.list_ascii_of_string a') →
  a +:+ String "_" b = a' +:+ String "_" b' → a = a' ∧ b = b'.
Proof.
  revert a'. induction a as [|x a IH]; intros [|x' a'] Ha Ha'; simpl.
  - by intros [= ->].
  - intros [= <- _]. destruct Ha'. by left.
  - intros [= -> _]. destruct Ha. by left.
  - intros [= -> Heq]. destruct (IH a') as [-> ->]; [| |done|done].
    + intros Hin. apply Ha. by right.
    + intros Hin. apply Ha'. by right.
Qed.

Lemma att_key_inj sid sid' : att_key sid = att_key sid' → sid = sid'.
Proof. unfold att_key. simpl. intros [= Heq]. by apply (inj pretty). Qed.

Lemma col_key_inj cid sid cid' sid' :
  col_key cid sid = col_key cid' sid' → cid = cid' ∧ sid = sid'.
Proof.
  unfold col_key. simpl. intros [= Heq].
  apply split_at_underscore in Heq as [Hc Hs]; [|apply pretty_Z_plain..].
  split; by apply (inj pretty).
Qed.

Lemma att_key_ne_col_key sid cid sid' : att_key sid ≠ col_key cid sid'.
Proof. unfold att_key, col_key. simpl. discriminate. Qed.
End KeyFacts.

(** X11: the keys of a lesson's [data] never collide: two attendance keys
    are equal only for one student, two grade keys only for one column and
    one student, and no attendance key is a grade key. *)
Theorem cell_keys_distinct :
  (∀ sid sid', att_key sid = att_key sid' → sid = sid')
  ∧ (∀ cid sid cid' sid', col_key cid sid = col_key cid' sid' → cid = cid' ∧ sid = sid')
  ∧ (∀ sid cid sid', att_key sid ≠ col_key cid sid').
Proof.
  split; [apply KeyFacts.att_key_inj|].
  split; [apply KeyFacts.col_key_inj|apply KeyFacts.att_key_ne_col_key].
Qed.
(** ** Reading and writing through references *)

Module TrimFacts.

(** [trim] strips the white space of Unicode, not only that of ASCII. *)
Lemma trim_white_space :
  Js.trim Demo.paddedGrade = "7"
  ∧ Js.trim Demo.nbsp = "" ∧ Js.trim Demo.ideographicSpace = ""
  ∧ Js.trim (" a" +:+ Demo.nbsp +:+ "b ") = "a" +:+ Demo.nbsp +:+ "b".
Proof. vm_compute. repeat split; reflexivity. Qed.
End TrimFacts.

Module LensFacts.

Lemma set_lessons_twice x y c : set_lessons x (set_lessons y c) = set_lessons x c.
Proof. by destruct c. Qed.

Lemma c_lessons_set x c : c_lessons (set_lessons x c) = x.
Proof. by destruct c. Qed.

Lemma set_lessons_rest x y c : set_lessons y (set_lessons x c) = set_lessons y c.
Proof. by destruct c. Qed.

(** Two writes to one lesson are one write. *)
Lemma alter_lesson_twice (f g : Lesson → Lesson) (p q : nat) (cs : list Classroom) :
  alter (λ c, set_lessons (alter g q (c_lessons c)) c) p
    (alter (λ c, set_lessons (alter f q (c_lessons c)) c) p cs)
  = alter (λ c, set_lessons (alter (g ∘ f) q (c_lessons c)) c) p cs.
Proof.
  rewrite list_alter_alter_eq. apply list_alter_ext; [|done]. intros c _. simpl.
  by rewrite c_lessons_set, set_lessons_twice, list_alter_alter_eq.
Qed.

Section Written.
Variables (w w' : World) (r : nat * nat) (g : Lesson → Lesson).
Hypothesis written :
  classrooms (DB w')
  = alter (λ c, set_lessons (alter g r.2 (c_lessons c)) c) r.1 (classrooms (DB w)).

(** After a write to the lesson at [r]: that lesson, the other lessons, and
    the rest of every classroom. *)
Lemma lessonAt_written : lessonAt w' r = g <$> lessonAt w r.
Proof.
  unfold lessonAt, classroomAt. rewrite written, list_lookup_alter_eq.
  destruct (classrooms (DB w) !! r.1) as [c|]; [|done]. simpl.
  by rewrite c_lessons_set, list_lookup_alter_eq.
Qed.

Lemma lessonAt_other r' : r' ≠ r → lessonAt w' r' = lessonAt w r'.
Proof.
  intros Hr. unfold lessonAt, classroomAt. rewrite written.
  destruct (decide (r.1 = r'.1)) as [Hp|Hp].
  - rewrite <- Hp, list_lookup_alter_eq.
    destruct (classrooms (DB w) !! r.1) as [c|]; [|done]. simpl.
    rewrite c_lessons_set, list_lookup_alter_ne; [done|].
    intros Hq. apply Hr. destruct r, r'. simpl in *. congruence.
  - by rewrite list_lookup_alter_ne.
Qed.

Lemma classroomAt_written p :
  set_lessons [] <$> classroomAt w' p = set_lessons [] <$> classroomAt w p.
Proof.
  unfold classroomAt. rewrite written.
  destruct (decide (r.1 = p)) as [<-|Hp].
  - rewrite list_lookup_alter_eq.
    destruct (classrooms (DB w) !! r.1) as [c|]; [|done]. simpl.
    by rewrite set_lessons_rest.
  - by rewrite list_lookup_alter_ne.
Qed.
End Written.

Lemma setAtt_classrooms env sid status w r :
  CL w = Some r →
  classrooms (DB (setAtt env sid status w))
  = alter (λ c, set_lessons
                  (alter (λ l, set_l_updatedAt (Some (clock env (ticks w)))
                                 (set_data (Some (<[att_key sid := status]>
                                                    (default ∅ (l_data l)))) l))
                     r.2 (c_lessons c)) c)
      r.1 (classrooms (DB w)).
Proof.
  intros HCL. unfold setAtt. rewrite HCL. clear HCL.
  destruct w as [db idx cid0 lid esid mode cb q t ls cl rq nt tk].
  destruct db as [cs next usr synced status0 pending settings templates].
  cbn -[alter]. apply alter_lesson_twice.
Qed.

Lemma saveGrade_classrooms env cid sid val w r :
  CL w = Some r →
  classrooms (DB (saveGrade env cid sid val w))
  = alter (λ c, set_lessons
                  (alter (λ l, set_l_updatedAt (Some (clock env (ticks w)))
                                 (set_data (Some (<[col_key cid sid := Js.trim val]>
                                                    (default ∅ (l_data l)))) l))
                     r.2 (c_lessons c)) c)
      r.1 (classrooms (DB w)).
Proof.
  intros HCL. unfold saveGrade. rewrite HCL. clear HCL.
  destruct w as [db idx cid0 lid esid mode cb q t ls cl rq nt tk].
  destruct db as [cs next usr synced status pending settings templates].
  cbn -[alter]. apply alter_lesson_twice.
Qed.

Lemma l_data_written now data l :
  l_data (set_l_updatedAt now (set_data data l)) = data.
Proof. by destruct l. Qed.

Lemma attendanceOf_insert_col now cid sid val sid' l :
  attendanceOf sid' (set_l_updatedAt now
                       (set_data (Some (<[col_key cid sid := val]> (default ∅ (l_data l)))) l))
  = attendanceOf sid' l.
Proof.
  unfold attendanceOf. rewrite l_data_written. simpl.
  rewrite lookup_insert_ne; [done|]. intros Heq. symmetry in Heq.
  by apply KeyFacts.att_key_ne_col_key in Heq.
Qed.

Lemma appliesTo_written now data sid l :
  appliesTo sid (set_l_updatedAt now (set_data data l)) = appliesTo sid l.
Proof. by destruct l. Qed.
End LensFacts.

(** X12: [saveGrade] on the open lesson writes one cell and nothing else.
    The lesson's [data] gets the trimmed value under the key of the column
    and the student, and [updatedAt] the reading of the clock; every other
    grade cell and every attendance entry of the lesson read as before; the
    other lessons, and the students, columns, counters and timestamps of all
    classrooms are untouched. *)
Theorem grade_cell_write (env : Env) (cid sid : Z) (val : string) (w : World)
    (r : nat * nat) (l : Lesson) :
  CL w = Some r → lessonAt w r = Some l →
  let w' := saveGrade env cid sid val w in
  ∃ l', lessonAt w' r = Some l'
    ∧ l_data l' = Some (<[col_key cid sid := Js.trim val]> (default ∅ (l_data l)))
    ∧ l_updatedAt l' = Some (clock env (ticks w))
    ∧ (l_id l', l_topic l', l_date l', l_num l', l_mode l', l_studentIds l', l_notes l')
      = (l_id l, l_topic l, l_date l, l_num l, l_mode l, l_studentIds l, l_notes l)
    ∧ default ∅ (l_data l') !! col_key cid sid = Some (Js.trim val)
    ∧ (∀ cid' sid', (cid', sid') ≠ (cid, sid) →
         default ∅ (l_data l') !! col_key cid' sid' = default ∅ (l_data l) !! col_key cid' sid')
    ∧ (∀ sid', attendanceOf sid' l' = attendanceOf sid' l)
    ∧ (∀ r', r' ≠ r → lessonAt w' r' = lessonAt w r')
    ∧ (∀ p, set_lessons [] <$> classroomAt w' p = set_lessons [] <$> classroomAt w p).
Proof.
  intros HCL Hl w'.
  pose proof (LensFacts.saveGrade_classrooms env cid sid val w r HCL) as Hcs.
  fold w' in Hcs.
  eexists. split; [by rewrite (LensFacts.lessonAt_written _ _ _ _ Hcs), Hl|].
  split; [by destruct l|]. split; [by destruct l|]. split; [by destruct l|].
  rewrite LensFacts.l_data_written. simpl.
  split; [by rewrite lookup_insert_eq|].
  split.
  { intros cid' sid' Hne. rewrite lookup_insert_ne; [done|].
    intros [-> ->]%KeyFacts.col_key_inj. done. }
  split; [intros sid'; apply LensFacts.attendanceOf_insert_col|].
  split; [intros r' Hr'; by apply (LensFacts.lessonAt_other _ _ _ _ Hcs)|].
  intros p. apply (LensFacts.classroomAt_written _ _ _ _ Hcs).
Qed.

(** X13: [setAtt] on the open lesson writes one attendance entry and nothing
    else.  The student then reads as the status that was set (as present when
    the status is the empty text); every other student's attendance and
    every grade cell of the lesson read as before; the other lessons, and the
    students, columns, counters and timestamps of all classrooms are
    untouched. *)
Theorem attendance_write (env : Env) (sid : Z) (status : string) (w : World)
    (r : nat * nat) (l : Lesson) :
  CL w = Some r → lessonAt w r = Some l →
  let w' := setAtt env sid status w in
  ∃ l', lessonAt w' r = Some l'
    ∧ l_data l' = Some (<[att_key sid := status]> (default ∅ (l_data l)))
    ∧ l_updatedAt l' = Some (clock env (ticks w))
    ∧ (l_id l', l_topic l', l_date l', l_num l', l_mode l', l_studentIds l', l_notes l')
      = (l_id l, l_topic l, l_date l, l_num l, l_mode l, l_studentIds l, l_notes l)
    ∧ attendanceOf sid l' = (if decide (status = "") then "present" else status)
    ∧ (∀ sid', sid' ≠ sid → attendanceOf sid' l' = attendanceOf sid' l)
    ∧ (∀ cid' sid',
         default ∅ (l_data l') !! col_key cid' sid' = default ∅ (l_data l) !! col_key cid' sid')
    ∧ (∀ r', r' ≠ r → lessonAt w' r' = lessonAt w r')
    ∧ (∀ p, set_lessons [] <$> classroomAt w' p = set_lessons [] <$> classroomAt w p).
Proof.
  intros HCL Hl w'.
  pose proof (LensFacts.setAtt_classrooms env sid status w r HCL) as Hcs.
  fold w' in Hcs.
  eexists. split; [by rewrite (LensFacts.lessonAt_written _ _ _ _ Hcs), Hl|].
  split; [by destruct l|]. split; [by destruct l|]. split; [by destruct l|].
  split.
  { unfold attendanceOf. rewrite LensFacts.l_data_written. simpl.
    by rewrite lookup_insert_eq. }
  split.
  { intros sid' Hne. unfold attendanceOf. rewrite LensFacts.l_data_written. simpl.
    rewrite lookup_insert_ne; [done|]. intros Heq%KeyFacts.att_key_inj. done. }
  split.
  { intros cid' sid'. rewrite LensFacts.l_data_written. simpl.
    rewrite lookup_insert_ne; [done|]. apply KeyFacts.att_key_ne_col_key. }
  split; [intros r' Hr'; by apply (LensFacts.lessonAt_other _ _ _ _ Hcs)|].
  intros p. apply (LensFacts.classroomAt_written _ _ _ _ Hcs).
Qed.

Lemma grade_cell_write_witness :
  CL (openLesson 1 Sample.worldC) = Some (0, 0)%nat
  ∧ lessonAt (openLesson 1 Sample.worldC) (0, 0)%nat = Some Sample.lessonL1
  ∧ ∃ l', lessonAt (saveGrade Sample.env 1 2 Demo.paddedGrade (openLesson 1 Sample.worldC))
            (0, 0)%nat
          = Some l'
          ∧ default ∅ (l_data l') !! col_key 1 2 = Some "7"
          ∧ attendanceOf 2 l' = "absent".
Proof.
  assert (H1 : CL (openLesson 1 Sample.worldC) = Some (0, 0)%nat) by (vm_compute; reflexivity).
  assert (H2 : lessonAt (openLesson 1 Sample.worldC) (0, 0)%nat = Some Sample.lessonL1)
    by reflexivity.
  split; [exact H1|]. split; [exact H2|].
  destruct (grade_cell_write Sample.env 1 2 Demo.paddedGrade _ _ _ H1 H2)
    as (l' & Hl' & _ & _ & _ & Hcell & _ & Hatt & _).
  exists l'. split; [exact Hl'|]. split; [rewrite Hcell; vm_compute; reflexivity|].
  rewrite Hatt. vm_compute. reflexivity.
Defined.

Lemma attendance_write_witness :
  CL (openLesson 1 Sample.worldC) = Some (0, 0)%nat
  ∧ lessonAt (openLesson 1 Sample.worldC) (0, 0)%nat = Some Sample.lessonL1
  ∧ ∃ l', lessonAt (setAtt Sample.env 1 "present" (openLesson 1 Sample.worldC)) (0, 0)%nat
          = Some l'
          ∧ attendanceOf 1 l' = "present"
          ∧ attendanceOf 2 l' = "absent".
Proof.
  assert (H1 : CL (openLesson 1 Sample.worldC) = Some (0, 0)%nat) by (vm_compute; reflexivity).
  assert (H2 : lessonAt (openLesson 1 Sample.worldC) (0, 0)%nat = Some Sample.lessonL1)
    by reflexivity.
  split; [exact H1|]. split; [exact H2|].
  destruct (attendance_write Sample.env 1 "present" _ _ _ H1 H2)
    as (l' & Hl' & _ & _ & _ & Hsid & Hother & _).
  exists l'. split; [exact Hl'|]. split; [exact Hsid|].
  rewrite Hother by done. vm_compute. reflexivity.
Defined.
Module BulkFacts.


Lemma CL_updateClassroom p f w : CL (updateClassroom p f w) = CL w.
Proof. by destruct w. Qed.

Lemma ticks_updateClassroom p f w : ticks (updateClassroom p f w) = ticks w.
Proof. by destruct w. Qed.





End BulkFacts.


(** ** Lesson completion *)

Module CountFacts.
Section Count.
Context {A B : Type} (P : A → B → bool) (C : list B).

Lemma filled_one s :
  (length (filter (λ c, P s c = true) C) ≤ length C)%nat
  ∧ (length (filter (λ c, P s c = true) C) = length C ↔ ∀ c, c ∈ C → P s c = true)
  ∧ (length (filter (λ c, P s c = true) C) = 0%nat ↔ ∀ c, c ∈ C → P s c = false).
Proof.
  induction C as [|c cs (IHle & IHfull & IHnone)].
  - simpl. split; [lia|]. split; (split; [by intros _ c ?%elem_of_nil|done]).
  - destruct (P s c) eqn:Hc.
    + rewrite filter_cons_True by done. simpl. split; [lia|]. split; split.
      * intros Hlen c' [->|Hin]%elem_of_cons; [done|]. apply IHfull; [lia|done].
      * intros Hall. f_equal. apply IHfull. intros c' Hc'. apply Hall. by right.
      * intros [=].
      * intros Hall. specialize (Hall c ltac:(left)). congruence.
    + rewrite filter_cons_False by congruence. simpl. split; [lia|]. split; split.
      * intros Hlen. lia.
      * intros Hall. specialize (Hall c ltac:(left)). congruence.
      * intros Hlen c' [->|Hin]%elem_of_cons; [done|]. by apply IHnone.
      * intros Hall. apply IHnone. intros c' Hc'. apply Hall. by right.
Qed.

Lemma filled_shift (S : list A) (a : nat) :
  foldl (λ sum s, (sum + length (filter (λ c, P s c = true) C))%nat) a S
  = (a + foldl (λ sum s, (sum + length (filter (λ c, P s c = true) C))%nat) 0%nat S)%nat.
Proof.
  revert a. induction S as [|s S IH]; intros a; simpl; [lia|].
  rewrite IH, (IH (length _)). lia.
Qed.

Lemma filled_all (S : list A) :
  let n := foldl (λ sum s, (sum + length (filter (λ c, P s c = true) C))%nat) 0%nat S in
  (n ≤ length S * length C)%nat
  ∧ (n = (length S * length C)%nat ↔ ∀ s c, s ∈ S → c ∈ C → P s c = true)
  ∧ (n = 0%nat ↔ ∀ s c, s ∈ S → c ∈ C → P s c = false).
Proof.
  induction S as [|s S (IHle & IHfull & IHnone)]; simpl.
  - split; [lia|]. split; (split; [by intros _ s c ?%elem_of_nil|done]).
  - rewrite filled_shift. destruct (filled_one s) as (Hle & Hfull & Hnone).
    split; [lia|]. split; split.
    + intros Hlen s' c [->|Hin]%elem_of_cons Hc.
      * apply Hfull; [lia|done].
      * apply IHfull; [lia|done..].
    + intros Hall. rewrite (proj2 Hfull), (proj2 IHfull); [lia| |].
      * intros s' c Hs' Hc. apply Hall; [by right|done].
      * intros c Hc. apply Hall; [by left|done].
    + intros Hlen s' c [->|Hin]%elem_of_cons Hc.
      * apply Hnone; [lia|done].
      * apply IHnone; [lia|done..].
    + intros Hall. rewrite (proj2 Hnone), (proj2 IHnone); [lia| |].
      * intros s' c Hs' Hc. apply Hall; [by right|done].
      * intros c Hc. apply Hall; [by left|done].
Qed.

(** Some cell is filled, some cell is not. *)
Lemma some_filled (S : list A) :
  (0 < foldl (λ sum s, (sum + length (filter (λ c, P s c = true) C))%nat) 0%nat S)%nat →
  ∃ s c, s ∈ S ∧ c ∈ C ∧ P s c = true.
Proof.
  induction S as [|s S IH]; simpl; [lia|]. rewrite filled_shift. intros Hpos.
  destruct (filter (λ c, P s c = true) C) as [|c cs] eqn:Hf.
  - destruct IH as (s' & c & Hs' & Hc & Hp); [simpl in Hpos; lia|].
    exists s', c. split; [by right|done].
  - assert (Hin : c ∈ filter (λ c, P s c = true) C) by (rewrite Hf; left).
    apply list_elem_of_filter in Hin as [Hp Hc]. exists s, c. split; [by left|done].
Qed.

Lemma some_empty (S : list A) :
  (foldl (λ sum s, (sum + length (filter (λ c, P s c = true) C))%nat) 0%nat S
   < length S * length C)%nat →
  ∃ s c, s ∈ S ∧ c ∈ C ∧ P s c = false.
Proof.
  induction S as [|s S IH]; simpl; [lia|]. rewrite filled_shift. intros Hlt.
  destruct (decide (length (filter (λ c, P s c = true) C) = length C)) as [Heq|Hne].
  - destruct IH as (s' & c & Hs' & Hc & Hp); [lia|].
    exists s', c. split; [by right|done].
  - assert (Hex : Exists (λ c, P s c ≠ true) C).
    { apply not_Forall_Exists; [apply _|]. intros Hall. apply Hne.
      apply (filled_one s). intros c Hc. by apply (proj1 (Forall_forall _ _) Hall). }
    apply Exists_exists in Hex as (c & Hc & Hp). exists s, c.
    split; [by left|]. split; [done|]. by destruct (P s c).
Qed.
End Count.
End CountFacts.

(** X15: the completion status of a lesson is ['empty'] exactly when the
    lesson lists no student of the classroom; otherwise ['complete'] exactly
    when it has a graded column and every cell of every listed student is
    filled in, ['att-only'] exactly when no cell is (or there is no graded
    column), and ['partial'] exactly when some cell is filled in and some
    cell is not.  It is always one of the four. *)
Theorem lesson_completion_status (lesson : Lesson) (classroom : Classroom) :
  let students := studentsOf lesson classroom in
  let cols := gradedColumns lesson classroom in
  let status := lessonCompletionStatus lesson classroom in
  (status = "empty" ↔ students = [])
  ∧ (status = "complete" ↔
       students ≠ [] ∧ cols ≠ []
       ∧ ∀ s col, s ∈ students → col ∈ cols → cellFilled lesson s col = true)
  ∧ (status = "att-only" ↔
       students ≠ [] ∧ ∀ s col, s ∈ students → col ∈ cols → cellFilled lesson s col = false)
  ∧ (status = "partial" ↔
       (∃ s col, s ∈ students ∧ col ∈ cols ∧ cellFilled lesson s col = true)
       ∧ (∃ s col, s ∈ students ∧ col ∈ cols ∧ cellFilled lesson s col = false))
  ∧ status ∈ ["empty"; "att-only"; "partial"; "complete"].
Proof.
  intros students cols status. unfold status, lessonCompletionStatus.
  fold students. fold cols.
  destruct (CountFacts.filled_all (cellFilled lesson) cols students) as (Hle & Hfull & Hnone).
  pose proof (CountFacts.some_filled (cellFilled lesson) cols students) as Hsome.
  pose proof (CountFacts.some_empty (cellFilled lesson) cols students) as Hempty.
  cbv zeta in Hle, Hfull, Hnone.
  set (n := foldl _ _ _) in *.
  destruct (decide (length students = 0%nat)) as [Hs|Hs].
  { apply nil_length_inv in Hs. rewrite Hs.
    split; [done|]. split; [split; [done|by intros [? _]]|].
    split; [split; [done|by intros [? _]]|].
    split; [split; [done|by intros [(s & col & ?%elem_of_nil & _) _]]|].
    by left. }
  assert (Hs' : students ≠ []) by (by intros ->).
  destruct (decide (length cols = 0%nat)) as [Hc|Hc].
  { apply nil_length_inv in Hc. rewrite Hc.
    split; [split; [done|by intros ?]|].
    split; [split; [done|by intros (_ & ? & _)]|].
    split; [split; [intros _; split; [done|by intros s col _ ?%elem_of_nil]|done]|].
    split; [split; [done|by intros [(s & col & _ & ?%elem_of_nil & _) _]]|].
    right. by left. }
  assert (Hc' : cols ≠ []) by (by intros ->).
  assert (Hcell : ∃ s col, s ∈ students ∧ col ∈ cols).
  { destruct students as [|s ?]; [done|]. destruct cols as [|col ?]; [done|].
    exists s, col. split; left. }
  destruct Hcell as (s0 & col0 & Hs0 & Hcol0).
  destruct (decide (n = 0%nat)) as [Hn|Hn].
  { pose proof (proj1 Hnone Hn) as Hall.
    split; [split; [done|by intros ?]|].
    split; [split; [done|]|].
    { intros (_ & _ & Hall'). specialize (Hall s0 col0 Hs0 Hcol0).
      specialize (Hall' s0 col0 Hs0 Hcol0). congruence. }
    split; [split; [done|done]|].
    split; [split; [done|]|].
    { intros [(s & col & Hin & Hcol & Hp) _]. specialize (Hall s col Hin Hcol). congruence. }
    right. by left. }
  destruct (decide (n < length students * length cols)%nat) as [Hlt|Hge].
  { destruct (Hsome ltac:(lia)) as (s1 & c1 & Hs1 & Hc1 & Hp1).
    destruct (Hempty Hlt) as (s2 & c2 & Hs2 & Hc2 & Hp2).
    split; [split; [done|by intros ?]|].
    split; [split; [done|]|].
    { intros (_ & _ & Hall). specialize (Hall s2 c2 Hs2 Hc2). congruence. }
    split; [split; [done|]|].
    { intros [_ Hall]. specialize (Hall s1 c1 Hs1 Hc1). congruence. }
    split; [split; [intros _; split; eauto 10|done]|].
    right. right. by left. }
  assert (Hall : ∀ s c, s ∈ students → c ∈ cols → cellFilled lesson s c = true)
    by (apply Hfull; lia).
  split; [split; [done|by intros ?]|].
  split; [split; [done|done]|].
  split; [split; [done|]|].
  { intros [_ Hall']. specialize (Hall s0 col0 Hs0 Hcol0).
    specialize (Hall' s0 col0 Hs0 Hcol0). congruence. }
  split; [split; [done|]|].
  { intros [_ (s & col & Hin & Hcol & Hp)]. specialize (Hall s col Hin Hcol). congruence. }
  right. right. right. by left.
Qed.
(** ** Attendance streaks *)

Module StreakFacts.

Lemma every_true {A} (f : A → bool) (l : list A) :
  forallb f l = true ↔ ∀ x, x ∈ l → f x = true.
Proof.
  rewrite forallb_forall. split; intros H x Hx; apply H; by apply list_elem_of_In.
Qed.

(** The test of one lesson in [checkAttendanceStreak]. *)
Lemma lesson_test sid l :
  (if negb (appliesTo sid l) then true else bool_decide (attendanceOf sid l ≠ "absent")) = true
  ↔ appliesTo sid l = false ∨ attendanceOf sid l ≠ "absent".
Proof.
  destruct (appliesTo sid l); simpl.
  - rewrite bool_decide_eq_true. split; [by right|by intros [?|?]].
  - split; [by left|done].
Qed.
End StreakFacts.

(** X16: whatever order the runtime's sort gives the lessons, a student has
    no streak in a classroom with fewer than three lessons; has one in a
    classroom with at least three lessons when no lesson that lists the
    student records an absence; and in a classroom of three to five lessons
    has one exactly in that case. *)
Theorem attendance_streak (sortByDate : list Lesson → list Lesson) (classroom : Classroom)
    (sid : Z) :
  (∀ ls, sortByDate ls ≡ₚ ls) →
  let lessons := c_lessons classroom in
  let streak := checkAttendanceStreak sortByDate classroom sid in
  let fine (l : Lesson) := appliesTo sid l = false ∨ attendanceOf sid l ≠ "absent" in
  ((length lessons < 3)%nat → streak = false)
  ∧ ((3 ≤ length lessons)%nat → (∀ l, l ∈ lessons → fine l) → streak = true)
  ∧ ((3 ≤ length lessons ≤ 5)%nat → (streak = true ↔ ∀ l, l ∈ lessons → fine l)).
Proof.
  intros Hperm lessons streak fine. unfold streak, checkAttendanceStreak. fold lessons.
  assert (Hlen : length (take 5 (sortByDate lessons)) = (5 `min` length lessons)%nat)
    by (by rewrite length_take, (Permutation_length (Hperm lessons))).
  split; [|split].
  - intros Hfew. rewrite decide_True; [done|lia].
  - intros Hmany Hall. rewrite decide_False by lia.
    apply StreakFacts.every_true. intros l Hl. apply StreakFacts.lesson_test.
    apply Hall. rewrite <- (Hperm lessons).
    by apply (subseteq_take 5 (sortByDate lessons)).
  - intros Hsome. rewrite decide_False by lia.
    rewrite take_ge by (rewrite (Permutation_length (Hperm lessons)); lia).
    rewrite StreakFacts.every_true. split.
    + intros Hall l Hl. apply StreakFacts.lesson_test. apply Hall. by rewrite (Hperm lessons).
    + intros Hall l Hl. apply StreakFacts.lesson_test. apply Hall. by rewrite <- (Hperm lessons).
Qed.

Lemma attendance_streak_witness :
  (∀ ls : list Lesson, reverse ls ≡ₚ ls)
  ∧ checkAttendanceStreak reverse Sample.classroomC 1 = false.
Proof.
  split; [intros ls; apply reverse_Permutation|].
  apply (attendance_streak reverse Sample.classroomC 1 (λ ls, reverse_Permutation ls)).
  simpl. lia.
Defined.
(** ** Escaping of text for the page *)

Module HtmlFacts.
Import Html.

Lemma append_cons (x : ascii) (a b : string) : String x a +:+ b = String x (a +:+ b).
Proof. done. Qed.

Lemma append_assoc (a b c : string) : (a +:+ b) +:+ c = a +:+ (b +:+ c).
Proof. induction a as [|x a IH]; [done|]. by rewrite !append_cons, IH. Qed.

Lemma replaceAll_app c into (a b : string) :
  replaceAll c into (a +:+ b) = replaceAll c into a +:+ replaceAll c into b.
Proof.
  induction a as [|x a IH]; [done|]. rewrite append_cons. cbn [replaceAll]. case_decide.
  - by rewrite IH, append_assoc.
  - by rewrite IH, append_cons.
Qed.

Lemma esc_app (a b : string) : esc (Some (a +:+ b)) = esc (Some a) +:+ esc (Some b).
Proof. unfold esc. by rewrite !replaceAll_app. Qed.

Lemma esc_one (a : ascii) : esc (Some (String a EmptyString)) = entity a.
Proof.
  unfold entity.
  destruct (decide (a = amp)) as [->|H1]; [done|].
  destruct (decide (a = lt)) as [->|H2]; [done|].
  destruct (decide (a = gt)) as [->|H3]; [done|].
  destruct (decide (a = quot)) as [->|H4]; [done|].
  destruct (decide (a = apos)) as [->|H5]; [done|].
  unfold esc. cbn [replaceAll]. rewrite (decide_False (P := a = amp)) by done.
  cbn [replaceAll]. rewrite (decide_False (P := a = lt)) by done.
  cbn [replaceAll]. rewrite (decide_False (P := a = gt)) by done.
  cbn [replaceAll]. rewrite (decide_False (P := a = quot)) by done.
  cbn [replaceAll]. by rewrite (decide_False (P := a = apos)) by done.
Qed.

Lemma esc_each (s : string) : esc (Some s) = escapeEach s.
Proof.
  induction s as [|a s IH]; [done|].
  change (String a s) with (String a EmptyString +:+ s).
  rewrite esc_app, esc_one, IH. done.
Qed.

Lemma In_app (x : ascii) (a b : string) :
  In x (String.list_ascii_of_string (a +:+ b))
  ↔ In x (String.list_ascii_of_string a) ∨ In x (String.list_ascii_of_string b).
Proof.
  induction a as [|y a IH]; [simpl; tauto|].
  rewrite append_cons. cbn [String.list_ascii_of_string In]. rewrite IH. tauto.
Qed.

Lemma entity_safe (a x : ascii) :
  In x (String.list_ascii_of_string (entity a)) → x ≠ lt ∧ x ≠ gt ∧ x ≠ quot ∧ x ≠ apos.
Proof.
  unfold entity. repeat case_decide; simpl; intros Hin;
    repeat (destruct Hin as [<-|Hin]; [by repeat split|]); try done.
Qed.

Lemma escapeEach_safe (s : string) (x : ascii) :
  In x (String.list_ascii_of_string (escapeEach s)) → x ≠ lt ∧ x ≠ gt ∧ x ≠ quot ∧ x ≠ apos.
Proof.
  induction s as [|a s IH]; [done|]. cbn [escapeEach].
  rewrite In_app. intros [Hin|Hin]; [by apply (entity_safe a)|by apply IH].
Qed.

Lemma escapeEach_plain (s : string) :
  (∀ x, In x (String.list_ascii_of_string s) →
        x ≠ amp ∧ x ≠ lt ∧ x ≠ gt ∧ x ≠ quot ∧ x ≠ apos) →
  escapeEach s = s.
Proof.
  induction s as [|a s IH]; intros Hs; [done|]. cbn [escapeEach].
  rewrite IH by (intros x Hx; apply Hs; by right).
  destruct (Hs a) as (? & ? & ? & ? & ?); [by left|].
  unfold entity. by rewrite !decide_False by done.
Qed.
End HtmlFacts.

(** X17: [esc] replaces each of the five characters [&], [<], [>], the
    double quote and the apostrophe by its entity, one character at a time
    (an ampersand that an entity brings in is not escaped again), and leaves
    every other character as it is.  What it returns holds no [<], no [>], no
    double quote and no apostrophe; a text without the five characters comes
    back unchanged; [null] and [undefined] give the empty text. *)
Theorem esc_escapes_markup (s : string) :
  Html.esc None = ""
  ∧ Html.esc (Some s) = Html.escapeEach s
  ∧ (∀ x, In x (String.list_ascii_of_string (Html.esc (Some s))) →
          x ≠ Html.lt ∧ x ≠ Html.gt ∧ x ≠ Html.quot ∧ x ≠ Html.apos)
  ∧ ((∀ x, In x (String.list_ascii_of_string s) →
           x ≠ Html.amp ∧ x ≠ Html.lt ∧ x ≠ Html.gt ∧ x ≠ Html.quot ∧ x ≠ Html.apos) →
     Html.esc (Some s) = s).
Proof.
  split; [done|]. split; [apply HtmlFacts.esc_each|]. split.
  - intros x. rewrite HtmlFacts.esc_each. apply HtmlFacts.escapeEach_safe.
  - intros Hplain. rewrite HtmlFacts.esc_each. by apply HtmlFacts.escapeEach_plain.
Qed.

(** ** The age of the last sync *)

(** X18: for a timestamp that parses, [timeAgo] shows ['just now'] below one
    minute (and for a timestamp in the future), then whole minutes from 1 to
    59, whole hours from 1 to 23, and whole days from 1 on, each rounded
    down; for a timestamp that does not parse it shows ['NaNd ago']. *)
Theorem timeAgo_ranges (parse : string → TimeValue) (nowMs : Z) (ts : string) :
  match parse ts with
  | None => timeAgo parse nowMs ts = "NaNd ago"
  | Some t =>
      let s := ((nowMs - t) / 1000)%Z in
      ((s < 60)%Z → timeAgo parse nowMs ts = "just now")
      ∧ ((60 ≤ s < 3600)%Z →
         ∃ m, (1 ≤ m ≤ 59)%Z ∧ (60 * m ≤ s < 60 * (m + 1))%Z
              ∧ timeAgo parse nowMs ts = pretty m +:+ "m ago")
      ∧ ((3600 ≤ s < 86400)%Z →
         ∃ h, (1 ≤ h ≤ 23)%Z ∧ (3600 * h ≤ s < 3600 * (h + 1))%Z
              ∧ timeAgo parse nowMs ts = pretty h +:+ "h ago")
      ∧ ((86400 ≤ s)%Z →
         ∃ d, (1 ≤ d)%Z ∧ (86400 * d ≤ s < 86400 * (d + 1))%Z
              ∧ timeAgo parse nowMs ts = pretty d +:+ "d ago")
  end.
Proof.
  unfold timeAgo. destruct (parse ts) as [t|]; [|done].
  cbv zeta. set (s := ((nowMs - t) / 1000)%Z). split; [|split; [|split]].
  - intros Hs. by rewrite decide_True.
  - intros Hs. rewrite decide_False, decide_True by lia.
    exists (s / 60)%Z. split; [|split; [|done]].
    + pose proof (Z.div_le_mono 60 s 60 ltac:(lia) ltac:(lia)).
      pose proof (Z.div_lt_upper_bound s 60 60 ltac:(lia) ltac:(lia)).
      change (60 / 60)%Z with 1%Z in *. lia.
    + pose proof (Z.div_mod s 60 ltac:(lia)).
      pose proof (Z.mod_pos_bound s 60 ltac:(lia)). lia.
  - intros Hs. rewrite !decide_False, decide_True by lia.
    exists (s / 3600)%Z. split; [|split; [|done]].
    + pose proof (Z.div_le_mono 3600 s 3600 ltac:(lia) ltac:(lia)).
      pose proof (Z.div_lt_upper_bound s 3600 24 ltac:(lia) ltac:(lia)).
      change (3600 / 3600)%Z with 1%Z in *. lia.
    + pose proof (Z.div_mod s 3600 ltac:(lia)).
      pose proof (Z.mod_pos_bound s 3600 ltac:(lia)). lia.
  - intros Hs. rewrite !decide_False by lia.
    exists (s / 86400)%Z. split; [|split; [|done]].
    + pose proof (Z.div_le_mono 86400 s 86400 ltac:(lia) ltac:(lia)).
      change (86400 / 86400)%Z with 1%Z in *. lia.
    + pose proof (Z.div_mod s 86400 ltac:(lia)).
      pose proof (Z.mod_pos_bound s 86400 ltac:(lia)). lia.
Qed.
(** ** The secondary index *)

Module IndexFacts.

(** The four maps of the index, each as the [Map] of its entries. *)
Lemma index_fields (pcs : list (nat * Classroom)) (idx : Index) :
  let built :=
    foldl (λ idx '(p, c),
        mkIndex (JsMap.set (c_id c) p (classroomsById idx))
                (JsMap.set (c_id c) (p, byId s_id (c_students c)) (studentsByClassroom idx))
                (JsMap.set (c_id c) (p, byId l_id (c_lessons c)) (lessonsByClassroom idx))
                (JsMap.set (c_id c) (p, byId col_id (c_columns c)) (columnsByClassroom idx)))
      idx pcs in
  classroomsById built
  = foldl (λ m kv, JsMap.set kv.1 kv.2 m) (classroomsById idx)
      ((λ '(p, c), (c_id c, p)) <$> pcs)
  ∧ studentsByClassroom built
    = foldl (λ m kv, JsMap.set kv.1 kv.2 m) (studentsByClassroom idx)
        ((λ '(p, c), (c_id c, (p, byId s_id (c_students c)))) <$> pcs)
  ∧ lessonsByClassroom built
    = foldl (λ m kv, JsMap.set kv.1 kv.2 m) (lessonsByClassroom idx)
        ((λ '(p, c), (c_id c, (p, byId l_id (c_lessons c)))) <$> pcs)
  ∧ columnsByClassroom built
    = foldl (λ m kv, JsMap.set kv.1 kv.2 m) (columnsByClassroom idx)
        ((λ '(p, c), (c_id c, (p, byId col_id (c_columns c)))) <$> pcs).
Proof.
  revert idx. induction pcs as [|[p c] pcs IH]; intros idx; [done|].
  cbn [foldl fmap list_fmap]. apply IH.
Qed.

Lemma keys_imap {A K V} (key : A → K) (val : nat → A → V) (l : list A) :
  (imap (λ i x, (key x, val i x)) l).*1 = key <$> l.
Proof.
  revert val. induction l as [|x l IH]; intros val; [done|].
  csimpl. f_equal. apply (IH (val ∘ S)).
Qed.

Section Rebuilt.
Variable w : World.

Lemma DB_rebuildIndex : DB (rebuildIndex w) = DB w.
Proof. by destruct w. Qed.

Lemma classroomsById_rebuilt :
  classroomsById (DB_INDEX (rebuildIndex w)) = JsMap.new (imap (λ p c, (c_id c, p)) (classrooms (DB w))).
Proof.
  destruct w as [db idx cid0 lid esid mode cb q t ls cl rq nt tk]. unfold rebuildIndex.
  cbn [DB set_DB_INDEX DB_INDEX].
  rewrite (proj1 (index_fields _ _)). unfold JsMap.new. f_equal.
  rewrite fmap_imap. by apply imap_ext.
Qed.

Lemma studentsByClassroom_rebuilt :
  studentsByClassroom (DB_INDEX (rebuildIndex w))
  = JsMap.new (imap (λ p c, (c_id c, (p, byId s_id (c_students c)))) (classrooms (DB w))).
Proof.
  destruct w as [db idx cid0 lid esid mode cb q t ls cl rq nt tk]. unfold rebuildIndex.
  cbn [DB set_DB_INDEX DB_INDEX].
  rewrite (proj1 (proj2 (index_fields _ _))). unfold JsMap.new. f_equal.
  rewrite fmap_imap. by apply imap_ext.
Qed.

Lemma lessonsByClassroom_rebuilt :
  lessonsByClassroom (DB_INDEX (rebuildIndex w))
  = JsMap.new (imap (λ p c, (c_id c, (p, byId l_id (c_lessons c)))) (classrooms (DB w))).
Proof.
  destruct w as [db idx cid0 lid esid mode cb q t ls cl rq nt tk]. unfold rebuildIndex.
  cbn [DB set_DB_INDEX DB_INDEX].
  rewrite (proj1 (proj2 (proj2 (index_fields _ _)))). unfold JsMap.new. f_equal.
  rewrite fmap_imap. by apply imap_ext.
Qed.

Lemma columnsByClassroom_rebuilt :
  columnsByClassroom (DB_INDEX (rebuildIndex w))
  = JsMap.new (imap (λ p c, (c_id c, (p, byId col_id (c_columns c)))) (classrooms (DB w))).
Proof.
  destruct w as [db idx cid0 lid esid mode cb q t ls cl rq nt tk]. unfold rebuildIndex.
  cbn [DB set_DB_INDEX DB_INDEX].
  rewrite (proj2 (proj2 (proj2 (index_fields _ _)))). unfold JsMap.new. f_equal.
  rewrite fmap_imap. by apply imap_ext.
Qed.
End Rebuilt.

Section Children.
Context {A : Type} (id : A → Z) (children : Classroom → list A).
Implicit Types (cs : list Classroom).

(** What a [Map] of items by id holds for an id is the position of an item
    with that id. *)
Lemma byId_sound (items : list A) k q :
  JsMap.get (byId id items) k = Some q → ∃ x, items !! q = Some x ∧ id x = k.
Proof.
  intros Hget%JsMapFacts.get_new_Some.
  apply elem_of_lookup_imap in Hget as (i & x & [= -> ->] & Hx). eauto.
Qed.

Lemma byId_complete (items : list A) q x :
  NoDup (id <$> items) → items !! q = Some x → JsMap.get (byId id items) (id x) = Some q.
Proof.
  intros Hnd Hx. apply JsMapFacts.get_new_NoDup.
  - unfold byId. by rewrite (keys_imap id (λ q _, q)).
  - by apply (elem_of_lookup_imap_2 (λ q x, (id x, q))).
Qed.

Lemma byId_found (items : list A) x :
  x ∈ items → is_Some (JsMap.get (byId id items) (id x)).
Proof.
  intros Hx. apply JsMapFacts.get_is_Some, JsMapFacts.elem_of_keys_new.
  rewrite (keys_imap id (λ q _, q)). by apply list_elem_of_fmap_2.
Qed.

Lemma nested_sound cs classId k p q :
  ('(p, m) ← JsMap.get (JsMap.new (imap (λ p c, (c_id c, (p, byId id (children c)))) cs)) classId;
   q ← JsMap.get m k; Some (p, q)) = Some (p, q) →
  ∃ c x, cs !! p = Some c ∧ c_id c = classId ∧ children c !! q = Some x ∧ id x = k.
Proof.
  destruct (JsMap.get _ classId) as [[p' m]|] eqn:Hget; [|done]. simpl.
  destruct (JsMap.get m k) as [q'|] eqn:Hq; [|done]. simpl. intros [= -> ->].
  apply JsMapFacts.get_new_Some in Hget.
  apply elem_of_lookup_imap in Hget as (i & c & [= -> -> ->] & Hc).
  apply byId_sound in Hq as (x & Hx & Hk). eauto 10.
Qed.

Lemma nested_complete cs p c q x :
  NoDup (c_id <$> cs) → cs !! p = Some c →
  NoDup (id <$> children c) → children c !! q = Some x →
  ('(p, m) ← JsMap.get (JsMap.new (imap (λ p c, (c_id c, (p, byId id (children c)))) cs))
                (c_id c);
   q ← JsMap.get m (id x); Some (p, q)) = Some (p, q).
Proof.
  intros Hnd Hc Hndc Hx.
  rewrite (JsMapFacts.get_new_NoDup _ (c_id c) (p, byId id (children c))).
  - simpl. by rewrite (byId_complete _ q x).
  - by rewrite (keys_imap c_id (λ p c, (p, byId id (children c)))).
  - by apply (elem_of_lookup_imap_2 (λ p c, (c_id c, (p, byId id (children c))))).
Qed.
End Children.
End IndexFacts.

(** X19: after [rebuildIndex] the index finds what the store holds and
    nothing else.  What [getC], [getStudent], [getLesson] and [getColumn]
    return for an id is a classroom with that id, and a student, lesson or
    column with that id inside a classroom with the given id; every
    classroom of the store is found under its id; and when the classroom ids
    are distinct a classroom is found at its own position, and each of its
    students, lessons and columns, if their ids are distinct, at its own. *)
Theorem index_finds_what_is_there (w : World) :
  let w' := rebuildIndex w in
  (∀ id p, getC w' (Some id) = Some p → ∃ c, classroomAt w' p = Some c ∧ c_id c = id)
  ∧ (∀ id sid r, getStudent w' (Some id) sid = Some r →
       ∃ c s, classroomAt w' r.1 = Some c ∧ c_id c = id
              ∧ studentAt w' r = Some s ∧ s_id s = sid)
  ∧ (∀ id lid r, getLesson w' (Some id) lid = Some r →
       ∃ c l, classroomAt w' r.1 = Some c ∧ c_id c = id
              ∧ lessonAt w' r = Some l ∧ l_id l = lid)
  ∧ (∀ id cid r, getColumn w' (Some id) cid = Some r →
       ∃ c col, classroomAt w' r.1 = Some c ∧ c_id c = id
                ∧ columnAt w' r = Some col ∧ col_id col = cid)
  ∧ (∀ c, c ∈ classrooms (DB w) → is_Some (getC w' (Some (c_id c))))
  ∧ (NoDup (c_id <$> classrooms (DB w)) →
     ∀ p c, classroomAt w p = Some c →
       getC w' (Some (c_id c)) = Some p
       ∧ (NoDup (s_id <$> c_students c) → ∀ q s, c_students c !! q = Some s →
            getStudent w' (Some (c_id c)) (s_id s) = Some (p, q))
       ∧ (NoDup (l_id <$> c_lessons c) → ∀ q l, c_lessons c !! q = Some l →
            getLesson w' (Some (c_id c)) (l_id l) = Some (p, q))
       ∧ (NoDup (col_id <$> c_columns c) → ∀ q col, c_columns c !! q = Some col →
            getColumn w' (Some (c_id c)) (col_id col) = Some (p, q))).
Proof.
  intros w'.
  assert (Hat : ∀ p, classroomAt w' p = classrooms (DB w) !! p).
  { intros p. unfold classroomAt, w'. by rewrite IndexFacts.DB_rebuildIndex. }
  split; [|split; [|split; [|split; [|split]]]].
  - intros id p. unfold getC, w'. simpl. rewrite IndexFacts.classroomsById_rebuilt.
    intros Hget%JsMapFacts.get_new_Some.
    apply elem_of_lookup_imap in Hget as (i & c & [= -> ->] & Hc).
    exists c. by rewrite Hat.
  - intros id sid [p q]. unfold getStudent, w'. simpl.
    rewrite IndexFacts.studentsByClassroom_rebuilt.
    intros (c & s & Hc & Hid & Hs & Hsid)%(IndexFacts.nested_sound s_id c_students).
    exists c, s. unfold studentAt. simpl. rewrite Hat, Hc. by simpl.
  - intros id lid [p q]. unfold getLesson, w'. simpl.
    rewrite IndexFacts.lessonsByClassroom_rebuilt.
    intros (c & l & Hc & Hid & Hl & Hlid)%(IndexFacts.nested_sound l_id c_lessons).
    exists c, l. unfold lessonAt. simpl. rewrite Hat, Hc. by simpl.
  - intros id cid [p q]. unfold getColumn, w'. simpl.
    rewrite IndexFacts.columnsByClassroom_rebuilt.
    intros (c & col & Hc & Hid & Hcol & Hcid)%(IndexFacts.nested_sound col_id c_columns).
    exists c, col. unfold columnAt. simpl. rewrite Hat, Hc. by simpl.
  - intros c Hc. unfold getC, w'. simpl. rewrite IndexFacts.classroomsById_rebuilt.
    apply JsMapFacts.get_is_Some, JsMapFacts.elem_of_keys_new.
    rewrite (IndexFacts.keys_imap c_id (λ p _, p)). by apply list_elem_of_fmap_2.
  - intros Hnd p c Hc. unfold classroomAt in Hc. split; [|split; [|split]].
    + unfold getC, w'. simpl. rewrite IndexFacts.classroomsById_rebuilt.
      apply JsMapFacts.get_new_NoDup.
      * by rewrite (IndexFacts.keys_imap c_id (λ p _, p)).
      * by apply (elem_of_lookup_imap_2 (λ p c, (c_id c, p))).
    + intros Hs q s Hq. unfold getStudent, w'. simpl.
      rewrite IndexFacts.studentsByClassroom_rebuilt.
      by apply (IndexFacts.nested_complete s_id c_students).
    + intros Hl q l Hq. unfold getLesson, w'. simpl.
      rewrite IndexFacts.lessonsByClassroom_rebuilt.
      by apply (IndexFacts.nested_complete l_id c_lessons).
    + intros Hcol q col Hq. unfold getColumn, w'. simpl.
      rewrite IndexFacts.columnsByClassroom_rebuilt.
      by apply (IndexFacts.nested_complete col_id c_columns).
Qed.
(** ** Loading and migrating *)

Module LoadFacts.

(** The sample clock never prints the empty text. *)
Lemma clockAt_nonempty n : Sample.clockAt n ≠ "".
Proof. unfold Sample.clockAt. intros Heq. cbn [String.append] in Heq. discriminate. Qed.
Section WithClock.
Variable env : Env.

Lemma stamp_kept u t : missing u = false → Load.stamp env u t = (u, t).
Proof. intros Hu. unfold Load.stamp. by rewrite Hu. Qed.

Lemma stamp_set u t :
  (∀ n, clock env n ≠ "") → missing (Load.stamp env u t).1 = false.
Proof.
  intros Hclock. unfold Load.stamp. destruct (missing u) eqn:Hu; [|done].
  simpl. by apply bool_decide_eq_false_2.
Qed.

Lemma stamp_cases u t :
  Load.stamp env u t = (u, t) ∨ Load.stamp env u t = (Some (clock env t), S t).
Proof. unfold Load.stamp. destruct (missing u); auto. Qed.

(** Lessons: what the migration leaves, what it sets, what it needs. *)
Lemma migrateLessons_done students ls t :
  Forall (λ l, is_Some (l_studentIds l) ∧ missing (l_updatedAt l) = false) ls →
  Load.migrateLessons env students ls t = (ls, t).
Proof.
  revert t. induction ls as [|l ls IH]; intros t Hls; [done|].
  apply Forall_cons in Hls as [[[ids Hids] Hu] Hls]. cbn [Load.migrateLessons].
  rewrite Hids, (stamp_kept _ _ Hu), (IH _ Hls). by destruct l.
Qed.

Lemma migrateLessons_result students ls t :
  (∀ n, clock env n ≠ "") →
  Forall (λ l, is_Some (l_studentIds l) ∧ missing (l_updatedAt l) = false)
    (Load.migrateLessons env students ls t).1.
Proof.
  intros Hclock. revert t. induction ls as [|l ls IH]; intros t; [constructor|].
  cbn [Load.migrateLessons].
  set (l1 := match l_studentIds l with
             | None => set_studentIds (Some (s_id <$> students)) l
             | Some _ => l
             end).
  pose proof (stamp_set (l_updatedAt l1) t Hclock) as Hu.
  destruct (Load.stamp env (l_updatedAt l1) t) as [u t1]. simpl in Hu.
  specialize (IH t1). destruct (Load.migrateLessons env students ls t1) as [rest t2].
  simpl in *. apply Forall_cons. split; [|done].
  split; [|by destruct l1].
  unfold l1. destruct l as [? ? ? ? ? ? [ids|] ? ?]; simpl; by eexists.
Qed.

Lemma migrateLessons_shape students ls t :
  Forall2 (λ l l',
             set_l_updatedAt None (set_studentIds None l') = set_l_updatedAt None (set_studentIds None l)
             ∧ l_studentIds l' = Some (default (s_id <$> students) (l_studentIds l))
             ∧ (missing (l_updatedAt l) = false → l_updatedAt l' = l_updatedAt l))
    ls (Load.migrateLessons env students ls t).1.
Proof.
  revert t. induction ls as [|l ls IH]; intros t; [constructor|].
  cbn [Load.migrateLessons].
  set (l1 := match l_studentIds l with
             | None => set_studentIds (Some (s_id <$> students)) l
             | Some _ => l
             end).
  assert (Hl1 : l_updatedAt l1 = l_updatedAt l)
    by (unfold l1; by destruct l as [? ? ? ? ? ? [ids|] ? ?]).
  pose proof (stamp_kept (l_updatedAt l1) t) as Hkept.
  destruct (Load.stamp env (l_updatedAt l1) t) as [u t1].
  specialize (IH t1). destruct (Load.migrateLessons env students ls t1) as [rest t2].
  simpl in *. constructor; [|done]. split; [|split].
  - unfold l1. by destruct l as [? ? ? ? ? ? [ids|] ? ?].
  - unfold l1. by destruct l as [? ? ? ? ? ? [ids|] ? ?].
  - rewrite <- Hl1. intros Hu. specialize (Hkept Hu). injection Hkept as -> _.
    by destruct l1.
Qed.

Lemma migrateStudents_done ss t :
  Forall (λ s, missing (s_updatedAt s) = false) ss →
  Load.migrateStudents env ss t = (ss, t).
Proof.
  revert t. induction ss as [|s ss IH]; intros t Hss; [done|].
  apply Forall_cons in Hss as [Hu Hss]. cbn [Load.migrateStudents].
  rewrite (stamp_kept _ _ Hu), (IH _ Hss). by destruct s.
Qed.

Lemma migrateStudents_result ss t :
  (∀ n, clock env n ≠ "") →
  Forall (λ s, missing (s_updatedAt s) = false) (Load.migrateStudents env ss t).1.
Proof.
  intros Hclock. revert t. induction ss as [|s ss IH]; intros t; [constructor|].
  cbn [Load.migrateStudents].
  pose proof (stamp_set (s_updatedAt s) t Hclock) as Hu.
  destruct (Load.stamp env (s_updatedAt s) t) as [u t1]. simpl in Hu.
  specialize (IH t1). destruct (Load.migrateStudents env ss t1) as [rest t2].
  simpl in *. apply Forall_cons. split; [by destruct s|done].
Qed.

Lemma migrateStudents_shape ss t :
  Forall2 (λ s s', set_s_updatedAt None s' = set_s_updatedAt None s
                   ∧ (missing (s_updatedAt s) = false → s' = s))
    ss (Load.migrateStudents env ss t).1.
Proof.
  revert t. induction ss as [|s ss IH]; intros t; [constructor|].
  cbn [Load.migrateStudents].
  pose proof (stamp_kept (s_updatedAt s) t) as Hkept.
  destruct (Load.stamp env (s_updatedAt s) t) as [u t1].
  specialize (IH t1). destruct (Load.migrateStudents env ss t1) as [rest t2].
  simpl in *. constructor; [|done]. split; [by destruct s|].
  intros Hu. specialize (Hkept Hu). injection Hkept as -> _. by destruct s.
Qed.

Lemma migrateClassrooms_done cs t :
  Forall (λ c, Forall (λ l, is_Some (l_studentIds l) ∧ missing (l_updatedAt l) = false)
                 (c_lessons c)
               ∧ Forall (λ s, missing (s_updatedAt s) = false) (c_students c)) cs →
  Load.migrateClassrooms env cs t = (cs, t).
Proof.
  revert t. induction cs as [|c cs IH]; intros t Hcs; [done|].
  apply Forall_cons in Hcs as [[Hl Hs] Hcs]. cbn [Load.migrateClassrooms].
  rewrite (migrateLessons_done _ _ _ Hl), (migrateStudents_done _ _ Hs), (IH _ Hcs).
  by destruct c.
Qed.

Lemma migrateClassrooms_result cs t :
  (∀ n, clock env n ≠ "") →
  Forall (λ c, Forall (λ l, is_Some (l_studentIds l) ∧ missing (l_updatedAt l) = false)
                 (c_lessons c)
               ∧ Forall (λ s, missing (s_updatedAt s) = false) (c_students c))
    (Load.migrateClassrooms env cs t).1.
Proof.
  intros Hclock. revert t. induction cs as [|c cs IH]; intros t; [constructor|].
  cbn [Load.migrateClassrooms].
  pose proof (migrateLessons_result (c_students c) (c_lessons c) t Hclock) as Hl.
  destruct (Load.migrateLessons env (c_students c) (c_lessons c) t) as [lessons t1].
  pose proof (migrateStudents_result (c_students c) t1 Hclock) as Hs.
  destruct (Load.migrateStudents env (c_students c) t1) as [students t2].
  specialize (IH t2). destruct (Load.migrateClassrooms env cs t2) as [rest t3].
  simpl in *. apply Forall_cons. split; [|done]. by destruct c.
Qed.

Lemma migrateClassrooms_shape cs t :
  Forall2 (λ c c',
             set_students [] (set_lessons [] c') = set_students [] (set_lessons [] c)
             ∧ Forall2 (λ l l',
                          set_l_updatedAt None (set_studentIds None l')
                          = set_l_updatedAt None (set_studentIds None l)
                          ∧ l_studentIds l'
                            = Some (default (s_id <$> c_students c) (l_studentIds l))
                          ∧ (missing (l_updatedAt l) = false → l_updatedAt l' = l_updatedAt l))
                 (c_lessons c) (c_lessons c')
             ∧ Forall2 (λ s s', set_s_updatedAt None s' = set_s_updatedAt None s
                                ∧ (missing (s_updatedAt s) = false → s' = s))
                 (c_students c) (c_students c'))
    cs (Load.migrateClassrooms env cs t).1.
Proof.
  revert t. induction cs as [|c cs IH]; intros t; [constructor|].
  cbn [Load.migrateClassrooms].
  pose proof (migrateLessons_shape (c_students c) (c_lessons c) t) as Hl.
  destruct (Load.migrateLessons env (c_students c) (c_lessons c) t) as [lessons t1].
  pose proof (migrateStudents_shape (c_students c) t1) as Hs.
  destruct (Load.migrateStudents env (c_students c) t1) as [students t2].
  specialize (IH t2). destruct (Load.migrateClassrooms env cs t2) as [rest t3].
  simpl in *. constructor; [|done]. by destruct c.
Qed.

Lemma migrateLegacyData_classrooms w :
  classrooms (DB (Load.migrateLegacyData env w))
  = (Load.migrateClassrooms env (classrooms (DB w)) (ticks w)).1.
Proof.
  unfold Load.migrateLegacyData.
  destruct (Load.migrateClassrooms env (classrooms (DB w)) (ticks w)) as [cs t].
  destruct w. by match goal with d : Store |- _ => destruct d end.
Qed.

Lemma migrateLegacyData_done w :
  Forall (λ c, Forall (λ l, is_Some (l_studentIds l) ∧ missing (l_updatedAt l) = false)
                 (c_lessons c)
               ∧ Forall (λ s, missing (s_updatedAt s) = false) (c_students c))
    (classrooms (DB w)) →
  Load.migrateLegacyData env w = w.
Proof.
  intros Hdone. unfold Load.migrateLegacyData.
  rewrite (migrateClassrooms_done _ _ Hdone).
  destruct w. by match goal with d : Store |- _ => destruct d end.
Qed.
End WithClock.
End LoadFacts.

(** X20: [migrateLegacyData] completes the records of an older store and
    changes nothing else.  With a clock that never prints the empty text,
    afterwards every lesson has a [studentIds] list and a timestamp and every
    student a timestamp.  A lesson without [studentIds] gets the ids of the
    classroom's students, in their order; a [studentIds] list and a timestamp
    that were there are kept; classrooms, students and lessons keep their
    order and all their other fields.  A store that is complete is returned
    as it is, without a reading of the clock, so migrating twice is migrating
    once. *)
Theorem legacy_migration (env : Env) (w : World) :
  (∀ n, clock env n ≠ "") →
  let complete (c : Classroom) :=
    Forall (λ l, is_Some (l_studentIds l) ∧ missing (l_updatedAt l) = false) (c_lessons c)
    ∧ Forall (λ s, missing (s_updatedAt s) = false) (c_students c) in
  let w' := Load.migrateLegacyData env w in
  Forall complete (classrooms (DB w'))
  ∧ Forall2 (λ c c',
               set_students [] (set_lessons [] c') = set_students [] (set_lessons [] c)
               ∧ Forall2 (λ l l',
                            set_l_updatedAt None (set_studentIds None l')
                            = set_l_updatedAt None (set_studentIds None l)
                            ∧ l_studentIds l'
                              = Some (default (s_id <$> c_students c) (l_studentIds l))
                            ∧ (missing (l_updatedAt l) = false →
                               l_updatedAt l' = l_updatedAt l))
                   (c_lessons c) (c_lessons c')
               ∧ Forall2 (λ s s', set_s_updatedAt None s' = set_s_updatedAt None s
                                  ∧ (missing (s_updatedAt s) = false → s' = s))
                   (c_students c) (c_students c'))
      (classrooms (DB w)) (classrooms (DB w'))
  ∧ (Forall complete (classrooms (DB w)) → w' = w)
  ∧ Load.migrateLegacyData env w' = w'.
Proof.
  intros Hclock complete w'.
  assert (Hdone : Forall complete (classrooms (DB w'))).
  { unfold w'. rewrite LoadFacts.migrateLegacyData_classrooms.
    by apply LoadFacts.migrateClassrooms_result. }
  split; [exact Hdone|]. split; [|split].
  - unfold w'. rewrite LoadFacts.migrateLegacyData_classrooms.
    apply LoadFacts.migrateClassrooms_shape.
  - apply LoadFacts.migrateLegacyData_done.
  - by apply LoadFacts.migrateLegacyData_done.
Qed.

Lemma legacy_migration_witness :
  (∀ n, clock Sample.env n ≠ "")
  ∧ Load.migrateLegacyData Sample.env (Load.migrateLegacyData Sample.env Demo.legacyWorld)
    = Load.migrateLegacyData Sample.env Demo.legacyWorld
  ∧ classrooms (DB (Load.migrateLegacyData Sample.env Demo.legacyWorld))
    = [mkClassroom "1" "Algebra" "" ""
         [mkStudent 1 "Ada" "" "" "" "" "" (Some (Sample.clockAt 1));
          mkStudent 2 "Grace" "" "" "" "" "" (Some (Sample.clockAt 2))]
         [] [mkLesson 1 "L1" "2023-09-01" 1 (Some ∅) None (Some [1; 2]) None
               (Some (Sample.clockAt 0))] 3 2 1 None].
Proof.
  split; [exact LoadFacts.clockAt_nonempty|]. split.
  - exact (proj2 (proj2 (proj2
             (legacy_migration Sample.env Demo.legacyWorld LoadFacts.clockAt_nonempty)))).
  - vm_compute. reflexivity.
Defined.
Module LoadMore.
Section WithClock.
Variable env : Env.

Lemma inherit_set from u :
  missing from = false → missing (Load.inherit from u) = false.
Proof. intros Hfrom. unfold Load.inherit. by destruct (missing u) eqn:Hu. Qed.

Lemma inherit_kept from u : missing u = false → Load.inherit from u = u.
Proof. intros Hu. unfold Load.inherit. by rewrite Hu. Qed.

Lemma stampClassrooms_result cs t :
  (∀ n, clock env n ≠ "") →
  Forall (λ c, missing (c_updatedAt c) = false
               ∧ Forall (λ l, missing (l_updatedAt l) = false) (c_lessons c)
               ∧ Forall (λ s, missing (s_updatedAt s) = false) (c_students c))
    (Load.stampClassrooms env cs t).1.
Proof.
  intros Hclock. revert t. induction cs as [|c cs IH]; intros t; [constructor|].
  cbn [Load.stampClassrooms].
  pose proof (LoadFacts.stamp_set env (c_updatedAt c) t Hclock) as Hu.
  destruct (Load.stamp env (c_updatedAt c) t) as [u t1]. simpl in Hu.
  specialize (IH t1). destruct (Load.stampClassrooms env cs t1) as [rest t2].
  simpl in *. apply Forall_cons. split; [|done]. destruct c. simpl.
  split; [done|]. split; apply Forall_fmap, Forall_forall; intros x _; simpl.
  - destruct x. simpl. by apply inherit_set.
  - destruct x. simpl. by apply inherit_set.
Qed.

Lemma stampClassrooms_done cs t :
  Forall (λ c, missing (c_updatedAt c) = false
               ∧ Forall (λ l, missing (l_updatedAt l) = false) (c_lessons c)
               ∧ Forall (λ s, missing (s_updatedAt s) = false) (c_students c)) cs →
  Load.stampClassrooms env cs t = (cs, t).
Proof.
  revert t. induction cs as [|c cs IH]; intros t Hcs; [done|].
  apply Forall_cons in Hcs as [(Hu & Hl & Hs) Hcs]. cbn [Load.stampClassrooms].
  rewrite (LoadFacts.stamp_kept env _ _ Hu), (IH _ Hcs). f_equal. f_equal.
  destruct c as [id name subject teacher students columns lessons n1 n2 n3 u]. simpl in *.
  f_equal.
  - rewrite <- (list_fmap_id students) at 2. apply list_fmap_ext.
    intros i s Hi. apply list_elem_of_lookup_2 in Hi.
    rewrite inherit_kept by (by apply (proj1 (Forall_forall _ _) Hs)). by destruct s.
  - rewrite <- (list_fmap_id lessons) at 2. apply list_fmap_ext.
    intros i l Hi. apply list_elem_of_lookup_2 in Hi.
    rewrite inherit_kept by (by apply (proj1 (Forall_forall _ _) Hl)). by destruct l.
Qed.

(** The migration keeps the timestamps that are there. *)
Lemma migrateClassrooms_stamped cs t :
  (∀ n, clock env n ≠ "") →
  Forall (λ c, missing (c_updatedAt c) = false) cs →
  Forall (λ c, missing (c_updatedAt c) = false
               ∧ Forall (λ l, is_Some (l_studentIds l) ∧ missing (l_updatedAt l) = false)
                   (c_lessons c)
               ∧ Forall (λ s, missing (s_updatedAt s) = false) (c_students c))
    (Load.migrateClassrooms env cs t).1.
Proof.
  intros Hclock Hcs.
  pose proof (LoadFacts.migrateClassrooms_result env cs t Hclock) as Hres.
  pose proof (LoadFacts.migrateClassrooms_shape env cs t) as Hshape.
  revert Hcs Hres. induction Hshape as [|c c' cs cs' (Hc & _ & _) _ IH];
    intros Hcs Hres; [constructor|].
  apply Forall_cons in Hcs as [Hu Hcs]. apply Forall_cons in Hres as [[Hl Hs] Hres].
  apply Forall_cons. split; [|by apply IH]. split; [|done].
  assert (Heq : c_updatedAt c' = c_updatedAt c).
  { destruct c, c'; simpl in *; congruence. }
  by rewrite Heq.
Qed.

Lemma rebuildIndex_twice w : rebuildIndex (rebuildIndex w) = rebuildIndex w.
Proof. by destruct w. Qed.

Lemma loadDB_rebuilt w : ∃ x, Load.loadDB env w = rebuildIndex x.
Proof.
  unfold Load.loadDB. destruct (Load.stampClassrooms _ _ _) as [cs t]. by eexists.
Qed.

(** The store that [loadDB] starts from, with its defaults filled in. *)
Lemma loadDB_classrooms w :
  ∃ db,
    db = default (DB w) (Load.loadFromLocalStorage w)
    ∧ classrooms (DB (Load.loadDB env w))
      = (Load.migrateClassrooms env
           (Load.stampClassrooms env (classrooms db) (ticks w)).1
           (Load.stampClassrooms env (classrooms db) (ticks w)).2).1
    ∧ ticks (Load.loadDB env w)
      = (Load.migrateClassrooms env
           (Load.stampClassrooms env (classrooms db) (ticks w)).1
           (Load.stampClassrooms env (classrooms db) (ticks w)).2).2
    ∧ exportSettings (DB (Load.loadDB env w))
      = Some (default defaultExportSettings (exportSettings db))
    ∧ gradeTemplates (DB (Load.loadDB env w)) = Some (default [] (gradeTemplates db))
    ∧ (nextId (DB (Load.loadDB env w)), user (DB (Load.loadDB env w)),
       lastSync (DB (Load.loadDB env w)), syncStatus (DB (Load.loadDB env w)),
       pendingChanges (DB (Load.loadDB env w)))
      = (nextId db, user db, lastSync db, syncStatus db, pendingChanges db).
Proof.
  exists (default (DB w) (Load.loadFromLocalStorage w)). split; [done|].
  unfold Load.loadDB.
  destruct w as [db idx cid0 lid esid mode cb q t ls cl rq nt tk].
  destruct (Load.loadFromLocalStorage _) as [db0|]; cbn [default DB set_DB ticks].
  - destruct db0 as [cs next usr synced status pending [settings|] [templates|]];
      cbn -[Load.stampClassrooms Load.migrateLegacyData rebuildIndex];
      destruct (Load.stampClassrooms env cs tk) as [cs1 t1];
      cbn -[Load.migrateClassrooms rebuildIndex]; unfold Load.migrateLegacyData;
      cbn -[Load.migrateClassrooms rebuildIndex];
      destruct (Load.migrateClassrooms env cs1 t1) as [cs2 t2]; done.
  - destruct db as [cs next usr synced status pending [settings|] [templates|]];
      cbn -[Load.stampClassrooms Load.migrateLegacyData rebuildIndex];
      destruct (Load.stampClassrooms env cs tk) as [cs1 t1];
      cbn -[Load.migrateClassrooms rebuildIndex]; unfold Load.migrateLegacyData;
      cbn -[Load.migrateClassrooms rebuildIndex];
      destruct (Load.migrateClassrooms env cs1 t1) as [cs2 t2]; done.
Qed.
End WithClock.
End LoadMore.

(** X21: [loadDB] leaves a store with every record complete.  With a clock
    that never prints the empty text, after it the store has export settings
    and a list of grade templates, every classroom, student and lesson has a
    timestamp, every lesson a [studentIds] list, and the index is the one of
    the store.  A snapshot in local storage that is complete already is
    loaded as it is, without a reading of the clock; so what
    [saveToLocalStorage] wrote of a complete store is what [loadDB] brings
    back. *)
Theorem load_completes_the_store (env : Env) (w : World) :
  (∀ n, clock env n ≠ "") →
  let complete (c : Classroom) :=
    missing (c_updatedAt c) = false
    ∧ Forall (λ l, is_Some (l_studentIds l) ∧ missing (l_updatedAt l) = false) (c_lessons c)
    ∧ Forall (λ s, missing (s_updatedAt s) = false) (c_students c) in
  let ready (db : Store) :=
    is_Some (exportSettings db) ∧ is_Some (gradeTemplates db)
    ∧ Forall complete (classrooms db) in
  let w' := Load.loadDB env w in
  ready (DB w')
  ∧ rebuildIndex w' = w'
  ∧ (∀ db, Load.loadFromLocalStorage w = Some db → ready db →
           DB w' = db ∧ ticks w' = ticks w)
  ∧ (storageWritable env = true → ready (DB w) →
     DB (Load.loadDB env (saveToLocalStorage env w)) = DB w).
Proof.
  intros Hclock complete ready w'.
  assert (Hround : ∀ w0 db, Load.loadFromLocalStorage w0 = Some db → ready db →
                            DB (Load.loadDB env w0) = db ∧ ticks (Load.loadDB env w0) = ticks w0).
  { intros w0 db Hload (Hset & Htem & Hcs).
    destruct (LoadMore.loadDB_classrooms env w0) as (db0 & -> & H1 & H2 & H3 & H4 & H5).
    rewrite Hload in *. simpl in *.
    assert (Hstamped : Load.stampClassrooms env (classrooms db) (ticks w0)
                       = (classrooms db, ticks w0)).
    { apply LoadMore.stampClassrooms_done. eapply Forall_impl; [exact Hcs|].
      intros c (Hu & Hl & Hs). split; [done|]. split; [|done].
      eapply Forall_impl; [exact Hl|]. by intros l [_ ?]. }
    rewrite Hstamped in H1, H2. simpl in H1, H2.
    rewrite LoadFacts.migrateClassrooms_done in H1, H2
      by (eapply Forall_impl; [exact Hcs|]; by intros c (_ & ? & ?)).
    simpl in H1, H2. split; [|done].
    destruct Hset as [settings Hset], Htem as [templates Htem].
    rewrite Hset in H3. rewrite Htem in H4. simpl in *.
    destruct (DB (Load.loadDB env w0)), db. simpl in *. congruence. }
  split; [|split; [|split]].
  - destruct (LoadMore.loadDB_classrooms env w) as (db0 & _ & H1 & _ & H3 & H4 & _).
    fold w' in H1, H3, H4.
    split; [by rewrite H3|]. split; [by rewrite H4|].
    rewrite H1.
    eapply Forall_impl; [apply LoadMore.migrateClassrooms_stamped; [done|]|done].
    eapply Forall_impl; [by apply LoadMore.stampClassrooms_result|]. by intros c [? _].
  - unfold w'. destruct (LoadMore.loadDB_rebuilt env w) as [x ->].
    apply LoadMore.rebuildIndex_twice.
  - apply Hround.
  - intros Hwritable Hready. apply Hround; [|done].
    unfold saveToLocalStorage. rewrite Hwritable. by destruct w.
Qed.

Lemma load_completes_the_store_witness :
  (∀ n, clock Sample.env n ≠ "")
  ∧ rebuildIndex (Load.loadDB Sample.env Demo.legacyWorld) = Load.loadDB Sample.env Demo.legacyWorld
  ∧ classrooms (DB (Load.loadDB Sample.env Demo.legacyWorld))
    = [mkClassroom "1" "Algebra" "" ""
         [mkStudent 1 "Ada" "" "" "" "" "" (Some (Sample.clockAt 0));
          mkStudent 2 "Grace" "" "" "" "" "" (Some (Sample.clockAt 0))]
         [] [mkLesson 1 "L1" "2023-09-01" 1 (Some ∅) None (Some [1; 2]) None
               (Some (Sample.clockAt 0))] 3 2 1 (Some (Sample.clockAt 0))].
Proof.
  split; [exact LoadFacts.clockAt_nonempty|]. split.
  - exact (proj1 (proj2
             (load_completes_the_store Sample.env Demo.legacyWorld
                LoadFacts.clockAt_nonempty))).
  - vm_compute. reflexivity.
Defined.
(** ** What a save leaves alone *)

Module PageFacts.

Lemma pushLoop_page env userId cs errors w :
  let w' := (Push.pushLoop env userId cs errors w).2 in
  (DB w', DB_INDEX w', CID w', LID w', editSid w', currentLessonMode w', confirmCb w',
   saveQueue w', _st w', localStorage w')
  = (DB w, DB_INDEX w, CID w, LID w, editSid w, currentLessonMode w, confirmCb w,
     saveQueue w, _st w, localStorage w).
Proof.
  revert errors w. induction cs as [|c cs IH]; intros errors w; [done|].
  destruct w. cbn [Push.pushLoop readClock send]. destruct (upsertReply env _) as [|error|e].
  - by rewrite IH.
  - destruct (Js.messageIncludes error "does not exist"); [done|]. by rewrite IH.
  - by rewrite IH.
Qed.

Lemma saveUserDataToSupabase_page env userId w w' :
  Push.saveUserDataToSupabase env userId w = Js.Returned w' →
  (DB w', DB_INDEX w', CID w', LID w', editSid w', currentLessonMode w', confirmCb w',
   saveQueue w', _st w', localStorage w')
  = (DB w, DB_INDEX w, CID w, LID w, editSid w, currentLessonMode w, confirmCb w,
     saveQueue w, _st w, localStorage w).
Proof.
  unfold Push.saveUserDataToSupabase. destruct (supabase env); simpl; [|done].
  pose proof (pushLoop_page env userId (classrooms (DB w)) [] w) as Hpage.
  destruct (Push.pushLoop env userId (classrooms (DB w)) [] w) as [[errors|] w0];
    simpl in Hpage; intros [= <-]; [|done].
  case_bool_decide; [done|]. by destruct w0.
Qed.

Lemma saveOperation_page env badge w :
  let w' := saveOperation env badge w in
  (DB_INDEX w', CID w', LID w', editSid w', currentLessonMode w', confirmCb w', _st w')
  = (DB_INDEX w, CID w, LID w, editSid w, currentLessonMode w, confirmCb w, _st w)
  ∧ (classrooms (DB w'), nextId (DB w'), user (DB w'), lastSync (DB w'), syncStatus (DB w'),
     exportSettings (DB w'), gradeTemplates (DB w'))
    = (classrooms (DB w), nextId (DB w), user (DB w), lastSync (DB w), syncStatus (DB w),
       exportSettings (DB w), gradeTemplates (DB w)).
Proof.
  unfold saveOperation.
  assert (Hls : ∃ ls', saveToLocalStorage env w = set_localStorage ls' w).
  { unfold saveToLocalStorage. destruct (storageWritable env); [by eexists|].
    exists (localStorage w). by destruct w. }
  destruct Hls as [ls' ->].
  destruct w as [db idx cid lid esid mode cb q t ls cl rq nt tk]. cbn [set_localStorage DB].
  destruct (onLine env && supabase env) eqn:Hguard; [|done].
  apply andb_true_iff in Hguard as [_ Hs].
  destruct (remoteUserId db) as [userId|]; [|done].
  destruct (PushFacts.saveUserDataToSupabase_returns env userId
              (mkWorld db idx cid lid esid mode cb q t ls' cl rq nt tk) Hs) as [w' Hw'].
  rewrite Hw'. apply saveUserDataToSupabase_page in Hw'.
  destruct w'. simpl in *. injection Hw' as -> -> -> -> -> -> -> -> -> ->.
  by destruct db.
Qed.

Lemma saveDB_page env badge immediate w :
  let w' := saveDB env badge immediate w in
  (DB_INDEX w', CID w', LID w', editSid w', currentLessonMode w', confirmCb w')
  = (DB_INDEX w, CID w, LID w, editSid w, currentLessonMode w, confirmCb w)
  ∧ (classrooms (DB w'), nextId (DB w'), user (DB w'), lastSync (DB w'), syncStatus (DB w'),
     exportSettings (DB w'), gradeTemplates (DB w'))
    = (classrooms (DB w), nextId (DB w), user (DB w), lastSync (DB w), syncStatus (DB w),
       exportSettings (DB w), gradeTemplates (DB w)).
Proof.
  destruct w as [db idx cid lid esid mode cb q t ls cl rq nt tk]. unfold saveDB.
  cbn [readClockMs set_saveQueue saveQueue set__st]. destruct immediate; [|done].
  match goal with |- context [saveOperation env badge ?x] =>
    destruct (saveOperation_page env badge x) as [H1 H2] end.
  cbv zeta. split; [|exact H2]. simpl in H1. by injection H1 as -> -> -> -> -> -> _.
Qed.

(** The index that [rebuildIndex] builds is a function of the classrooms. *)
Lemma rebuildIndex_index w w' :
  classrooms (DB w') = classrooms (DB w) →
  DB_INDEX (rebuildIndex w') = DB_INDEX (rebuildIndex w).
Proof. intros Hcs. destruct w, w'. unfold rebuildIndex. simpl in *. by rewrite Hcs. Qed.

Lemma rebuildIndex_page w :
  (DB (rebuildIndex w), CID (rebuildIndex w), LID (rebuildIndex w), editSid (rebuildIndex w),
   currentLessonMode (rebuildIndex w), confirmCb (rebuildIndex w), ticks (rebuildIndex w))
  = (DB w, CID w, LID w, editSid w, currentLessonMode w, confirmCb w, ticks w).
Proof. by destruct w. Qed.
End PageFacts.
(** ** Deleting lessons, columns and classrooms *)

Module DeleteFacts.

Lemma deleteLesson_effect env lid w p :
  CC w = Some p →
  let w' := deleteLesson env lid w in
  classrooms (DB w')
  = alter (λ c, set_lessons (filter (λ ls, l_id ls ≠ lid) (c_lessons c))
                  (set_columns (filter (λ col, col_lessonId col ≠ Some lid) (c_columns c)) c))
      p (classrooms (DB w))
  ∧ LID w' = (if decide (LID w = Some lid) then None else LID w)
  ∧ CID w' = CID w
  ∧ DB_INDEX w' = DB_INDEX (rebuildIndex w').
Proof.
  intros HCC w'. unfold w', deleteLesson. rewrite HCC.
  match goal with |- context [saveDB env ?b ?i ?x] =>
    destruct (PageFacts.saveDB_page env b i x) as [H1 H2];
    pose proof (PageFacts.rebuildIndex_index x (saveDB env b i x)) as H3 end.
  cbv zeta in H1, H2.
  injection H1 as Hidx Hcid Hlid _ _ _. injection H2 as Hcs _ _ _ _ _ _.
  rewrite Hcs, Hlid, Hcid, Hidx. rewrite H3 by done. clear.
  destruct w as [db idx cid0 lid0 esid mode cb q t ls cl rq nt tk].
  destruct db as [cs next usr synced status pending settings templates].
  cbn -[alter filter rebuildIndex decide].
  split; [|split; [|split]].
  - case_decide; cbn -[alter filter]; rewrite list_alter_alter_eq;
      (apply list_alter_ext; [|done]); intros c _; by destruct c.
  - by case_decide.
  - by case_decide.
  - by case_decide.
Qed.

Lemma deleteColumn_effect env cid w p :
  CC w = Some p →
  let w' := deleteColumn env cid w in
  classrooms (DB w')
  = alter (λ c, set_columns (filter (λ col, col_id col ≠ cid) (c_columns c)) c)
      p (classrooms (DB w))
  ∧ LID w' = LID w ∧ CID w' = CID w
  ∧ DB_INDEX w' = DB_INDEX (rebuildIndex w').
Proof.
  intros HCC w'. unfold w', deleteColumn. rewrite HCC.
  match goal with |- context [saveDB env ?b ?i ?x] =>
    destruct (PageFacts.saveDB_page env b i x) as [H1 H2];
    pose proof (PageFacts.rebuildIndex_index x (saveDB env b i x)) as H3 end.
  cbv zeta in H1, H2.
  injection H1 as Hidx Hcid Hlid _ _ _. injection H2 as Hcs _ _ _ _ _ _.
  rewrite Hcs, Hlid, Hcid, Hidx. rewrite H3 by done. clear.
  destruct w as [db idx cid0 lid0 esid mode cb q t ls cl rq nt tk].
  by destruct db as [cs next usr synced status pending settings templates].
Qed.

Lemma deleteClass_effect env id w :
  let w' := deleteClass env id w in
  classrooms (DB w') = filter (λ cls, c_id cls ≠ id) (classrooms (DB w))
  ∧ LID w' = LID w ∧ CID w' = CID w
  ∧ DB_INDEX w' = DB_INDEX (rebuildIndex w').
Proof.
  intros w'. unfold w', deleteClass.
  match goal with |- context [saveDB env ?b ?i ?x] =>
    destruct (PageFacts.saveDB_page env b i x) as [H1 H2];
    pose proof (PageFacts.rebuildIndex_index x (saveDB env b i x)) as H3 end.
  cbv zeta in H1, H2.
  injection H1 as Hidx Hcid Hlid _ _ _. injection H2 as Hcs _ _ _ _ _ _.
  rewrite Hcs, Hlid, Hcid, Hidx. rewrite H3 by done. clear.
  destruct w as [db idx cid0 lid0 esid mode cb q t ls cl rq nt tk].
  by destruct db as [cs next usr synced status pending settings templates].
Qed.
End DeleteFacts.

(** X22: confirming the deletion of a lesson removes, from the current
    classroom, the lessons with that id and with them the columns tied to
    that lesson, so that no column is left that refers to a lesson that is
    gone; the other lessons and columns keep their order, and the students,
    counters, id and timestamp of the classroom and every other classroom are
    untouched.  The open lesson is closed when it is the deleted one. *)
Theorem delete_lesson_cascade (env : Env) (w : World) (lid : Z) (p : nat) (c : Classroom) :
  is_Some (getLesson w (CID w) lid) → CC w = Some p → classroomAt w p = Some c →
  let w' := confirmed (delLessonConfirm env lid w) w in
  (∃ c', classroomAt w' p = Some c'
     ∧ c_lessons c' = filter (λ l, l_id l ≠ lid) (c_lessons c)
     ∧ c_columns c' = filter (λ col, col_lessonId col ≠ Some lid) (c_columns c)
     ∧ (lid ∉ l_id <$> c_lessons c')
     ∧ Forall (λ col, col_lessonId col ≠ Some lid) (c_columns c')
     ∧ (∀ col other, col ∈ c_columns c' → col_lessonId col = Some other →
          other ∈ l_id <$> c_lessons c → other ∈ l_id <$> c_lessons c')
     ∧ set_lessons [] (set_columns [] c') = set_lessons [] (set_columns [] c))
  ∧ (∀ q, q ≠ p → classroomAt w' q = classroomAt w q)
  ∧ LID w' = (if decide (LID w = Some lid) then None else LID w)
  ∧ CID w' = CID w.
Proof.
  intros [r Hr] HCC Hc w'. unfold w', delLessonConfirm. rewrite Hr. simpl.
  destruct (DeleteFacts.deleteLesson_effect env lid w p HCC) as (Hcs & Hlid & Hcid & _).
  split; [|split; [|done]].
  - eexists. unfold classroomAt in *. rewrite Hcs, list_lookup_alter_eq, Hc. simpl.
    split; [reflexivity|]. split; [by destruct c|]. split; [by destruct c|].
    split; [|split; [|split]].
    + destruct c. simpl. intros (l & Heq & Hl%list_elem_of_filter)%list_elem_of_fmap.
      by destruct Hl.
    + destruct c. simpl. apply Forall_forall. by intros col [? _]%list_elem_of_filter.
    + destruct c. simpl. intros col other [Hne _]%list_elem_of_filter Hother.
      intros (l & -> & Hl)%list_elem_of_fmap. apply list_elem_of_fmap. exists l.
      split; [done|]. apply list_elem_of_filter. split; [|done]. congruence.
    + by destruct c.
  - intros q Hq. unfold classroomAt. by rewrite Hcs, list_lookup_alter_ne.
Qed.

Lemma delete_lesson_cascade_witness :
  is_Some (getLesson Sample.worldC (CID Sample.worldC) 1)
  ∧ CC Sample.worldC = Some 0%nat
  ∧ classroomAt Sample.worldC 0 = Some Sample.classroomC
  ∧ ∃ c', classroomAt (confirmed (delLessonConfirm Sample.env 1 Sample.worldC) Sample.worldC) 0
          = Some c'
          ∧ c_lessons c' = [] ∧ c_students c' = [Sample.S1; Sample.S2].
Proof.
  assert (H1 : is_Some (getLesson Sample.worldC (CID Sample.worldC) 1))
    by (vm_compute; eexists; reflexivity).
  assert (H2 : CC Sample.worldC = Some 0%nat) by (vm_compute; reflexivity).
  assert (H3 : classroomAt Sample.worldC 0 = Some Sample.classroomC) by reflexivity.
  split; [exact H1|]. split; [exact H2|]. split; [exact H3|].
  destruct (delete_lesson_cascade Sample.env Sample.worldC 1 0 _ H1 H2 H3)
    as ((c' & Hc' & Hl & _ & _ & _ & _ & Hrest) & _).
  exists c'. split; [exact Hc'|]. split; [exact Hl|].
  destruct c'. simpl in *. by injection Hrest as _ _ _ _ -> _ _ _ _.
Defined.

(** X23: confirming the deletion of a column removes the columns with that
    id from the current classroom and nothing else: the other columns keep
    their order, the lessons (with the grade cells of the deleted column
    still in their [data]), the students and the counters of the classroom
    and every other classroom are untouched. *)
Theorem delete_column_frame (env : Env) (w : World) (cid : Z) (p : nat) (c : Classroom) :
  is_Some (getColumn w (CID w) cid) → CC w = Some p → classroomAt w p = Some c →
  let w' := confirmed (delColumnConfirm env cid w) w in
  (∃ c', classroomAt w' p = Some c'
     ∧ c_columns c' = filter (λ col, col_id col ≠ cid) (c_columns c)
     ∧ (cid ∉ col_id <$> c_columns c')
     ∧ c_lessons c' = c_lessons c
     ∧ set_columns [] c' = set_columns [] c)
  ∧ (∀ q, q ≠ p → classroomAt w' q = classroomAt w q)
  ∧ LID w' = LID w ∧ CID w' = CID w.
Proof.
  intros [r Hr] HCC Hc w'. unfold w', delColumnConfirm. rewrite Hr. simpl.
  destruct (DeleteFacts.deleteColumn_effect env cid w p HCC) as (Hcs & Hlid & Hcid & _).
  split; [|split; [|done]].
  - eexists. unfold classroomAt in *. rewrite Hcs, list_lookup_alter_eq, Hc. simpl.
    split; [reflexivity|]. split; [by destruct c|]. split; [|split; by destruct c].
    destruct c. simpl. intros (col & Heq & Hcol%list_elem_of_filter)%list_elem_of_fmap.
    by destruct Hcol.
  - intros q Hq. unfold classroomAt. by rewrite Hcs, list_lookup_alter_ne.
Qed.

Lemma delete_column_frame_witness :
  is_Some (getColumn Sample.worldC (CID Sample.worldC) 1)
  ∧ CC Sample.worldC = Some 0%nat
  ∧ classroomAt Sample.worldC 0 = Some Sample.classroomC
  ∧ ∃ c', classroomAt (confirmed (delColumnConfirm Sample.env 1 Sample.worldC) Sample.worldC) 0
          = Some c'
          ∧ c_columns c' = [] ∧ c_lessons c' = [Sample.lessonL1].
Proof.
  assert (H1 : is_Some (getColumn Sample.worldC (CID Sample.worldC) 1))
    by (vm_compute; eexists; reflexivity).
  assert (H2 : CC Sample.worldC = Some 0%nat) by (vm_compute; reflexivity).
  assert (H3 : classroomAt Sample.worldC 0 = Some Sample.classroomC) by reflexivity.
  split; [exact H1|]. split; [exact H2|]. split; [exact H3|].
  destruct (delete_column_frame Sample.env Sample.worldC 1 0 _ H1 H2 H3)
    as ((c' & Hc' & Hcols & _ & Hl & _) & _).
  exists c'. split; [exact Hc'|]. split; [exact Hcols|exact Hl].
Defined.

(** X24: confirming the deletion of a classroom removes the classrooms with
    that id, with all that is inside them, and nothing else: the other
    classrooms stay as they are, in their order, and the rebuilt index no
    longer finds the id.  [CID] and [LID] are left as they were: when the
    deleted classroom is the open one, they go on naming it, and [CC()] and
    [CL()] find nothing. *)
Theorem delete_classroom (env : Env) (w : World) (id : string) :
  is_Some (getC w (Some id)) →
  let w' := confirmed (deleteClassConfirm env id w) w in
  classrooms (DB w') = filter (λ c, c_id c ≠ id) (classrooms (DB w))
  ∧ (∀ c, c ∈ classrooms (DB w') ↔ c ∈ classrooms (DB w) ∧ c_id c ≠ id)
  ∧ getC w' (Some id) = None
  ∧ (∀ sid, getStudent w' (Some id) sid = None)
  ∧ (∀ lid, getLesson w' (Some id) lid = None)
  ∧ (CID w', LID w') = (CID w, LID w)
  ∧ (CID w = Some id → CC w' = None ∧ CL w' = None).
Proof.
  intros [p Hp] w'. unfold w', deleteClassConfirm. rewrite Hp. simpl.
  destruct (DeleteFacts.deleteClass_effect env id w) as (Hcs & Hlid & Hcid & Hidx).
  assert (Hgone : id ∉ c_id <$> classrooms (DB (deleteClass env id w))).
  { rewrite Hcs. intros (c & Heq & Hc%list_elem_of_filter)%list_elem_of_fmap.
    by destruct Hc. }
  assert (HgetC : getC (deleteClass env id w) (Some id) = None).
  { unfold getC. simpl. rewrite Hidx, IndexFacts.classroomsById_rebuilt.
    apply JsMapFacts.get_None. rewrite JsMapFacts.elem_of_keys_new.
    by rewrite (IndexFacts.keys_imap c_id (λ p _, p)). }
  assert (HgetL : ∀ lid, getLesson (deleteClass env id w) (Some id) lid = None).
  { intros lid. unfold getLesson. simpl.
    rewrite Hidx, IndexFacts.lessonsByClassroom_rebuilt.
    rewrite (proj2 (JsMapFacts.get_None _ id)); [done|].
    rewrite JsMapFacts.elem_of_keys_new.
    by rewrite (IndexFacts.keys_imap c_id (λ p c, (p, byId l_id (c_lessons c)))). }
  split; [exact Hcs|]. split; [|split; [exact HgetC|split; [|split; [exact HgetL|split]]]].
  - intros c. rewrite Hcs, list_elem_of_filter. tauto.
  - intros sid. unfold getStudent. simpl.
    rewrite Hidx, IndexFacts.studentsByClassroom_rebuilt.
    rewrite (proj2 (JsMapFacts.get_None _ id)); [done|].
    rewrite JsMapFacts.elem_of_keys_new.
    by rewrite (IndexFacts.keys_imap c_id (λ p c, (p, byId s_id (c_students c)))).
  - by rewrite Hcid, Hlid.
  - intros Hopen. unfold CC, CL. rewrite Hcid, Hlid, Hopen. split; [exact HgetC|].
    destruct (LID w) as [lid|]; [|done]. by repeat case_decide.
Qed.

Lemma delete_classroom_witness :
  is_Some (getC Sample.worldC (Some "C"))
  ∧ CID Sample.worldC = Some "C"
  ∧ classrooms (DB (confirmed (deleteClassConfirm Sample.env "C" Sample.worldC) Sample.worldC))
    = [Sample.otherD]
  ∧ CID (confirmed (deleteClassConfirm Sample.env "C" Sample.worldC) Sample.worldC) = Some "C"
  ∧ CC (confirmed (deleteClassConfirm Sample.env "C" Sample.worldC) Sample.worldC) = None.
Proof.
  assert (H1 : is_Some (getC Sample.worldC (Some "C"))) by (vm_compute; eexists; reflexivity).
  split; [exact H1|]. split; [reflexivity|].
  destruct (delete_classroom Sample.env Sample.worldC "C" H1)
    as (Hcs & _ & _ & _ & _ & Hpage & Hopen).
  split; [rewrite Hcs; vm_compute; reflexivity|].
  split; [exact (f_equal fst Hpage)|]. by apply Hopen.
Defined.
(** ** Ids, counters and what refers to them *)

Module SoundFacts.

Lemma Forall_kept {A} (P Q : A → Prop) `{∀ x, Decision (Q x)} (l : list A) :
  Forall P l → Forall P (filter Q l).
Proof.
  rewrite !Forall_forall. intros Hall x [_ Hx]%list_elem_of_filter. by apply Hall.
Qed.

Lemma Forall_altered {A} (P Q : A → Prop) (g : A → A) q (l : list A) :
  Forall P l → (∀ x, P x → Q x) → (∀ x, P x → Q (g x)) → Forall Q (alter g q l).
Proof.
  intros Hall Hkeep Hg. revert q.
  induction Hall as [|x l Hx Hall IH]; intros [|q]; csimpl; [done..| |].
  - constructor; [by apply Hg|]. eapply Forall_impl; [exact Hall|done].
  - constructor; [by apply Hkeep|]. apply IH.
Qed.

Section Numbered.
Context {A : Type} (id : A → Z).
Implicit Types (items : list A) (next : Z).

Lemma numbered_ids items next :
  numbered id items next
  ↔ NoDup (id <$> items) ∧ Forall (λ i, 1 ≤ i < next)%Z (id <$> items) ∧ (1 ≤ next)%Z.
Proof. unfold numbered. by rewrite Forall_fmap. Qed.

Lemma numbered_same_ids items items' next :
  id <$> items' = id <$> items → numbered id items next → numbered id items' next.
Proof. intros Hids. rewrite !numbered_ids. by rewrite Hids. Qed.

Lemma numbered_mono items next next' :
  (next ≤ next')%Z → numbered id items next → numbered id items next'.
Proof.
  intros Hle (Hnd & Hall & Hpos). split; [done|]. split; [|lia].
  eapply Forall_impl; [exact Hall|]. simpl. lia.
Qed.

Lemma numbered_filter (P : A → Prop) `{∀ x, Decision (P x)} items next :
  numbered id items next → numbered id (filter P items) next.
Proof.
  intros (Hnd & Hall & Hpos). split; [|split; [|done]].
  - eapply (sublist_NoDup _ (id <$> items)); [exact Hnd|apply fmap_sublist, sublist_filter].
  - by apply Forall_kept.
Qed.

(** A new item takes the counter as its id, and the counter moves on. *)
Lemma numbered_snoc items next x :
  id x = next → numbered id items next → numbered id (items ++ [x]) (next + 1).
Proof.
  intros Hx (Hnd & Hall & Hpos). split; [|split; [|lia]].
  - rewrite fmap_app. apply NoDup_app. split; [done|]. split; [|apply NoDup_singleton].
    intros i (y & -> & Hy)%list_elem_of_fmap. simpl. rewrite list_elem_of_singleton.
    rewrite Forall_forall in Hall. specialize (Hall y Hy). lia.
  - apply Forall_app. split.
    + eapply Forall_impl; [exact Hall|]. simpl. lia.
    + apply Forall_singleton. lia.
Qed.

Lemma numbered_below items next x :
  numbered id items next → x ∈ items → (1 ≤ id x < next)%Z.
Proof. intros (_ & Hall & _) Hx. rewrite Forall_forall in Hall. by apply Hall. Qed.

Lemma ids_alter (g : A → A) q items :
  (∀ x, id (g x) = id x) → id <$> alter g q items = id <$> items.
Proof.
  intros Hg. revert q. induction items as [|x items IH]; intros [|q]; csimpl; [done..| |].
  - by rewrite Hg.
  - by rewrite IH.
Qed.
End Numbered.

Lemma ids_assignFirst sid (f : Student → Student) students :
  (∀ s, s_id (f s) = s_id s) → s_id <$> assignFirst sid f students = s_id <$> students.
Proof.
  intros Hf. induction students as [|s students IH]; [done|]. simpl.
  case_decide; csimpl; [by rewrite Hf|by rewrite IH].
Qed.

(** *** What each handler does to a classroom *)

Lemma sound_created id name subject teacher now :
  sound (mkClassroom id name subject teacher [] [] [] 1 1 1 now).
Proof.
  repeat split; simpl; try apply NoDup_nil_2; try apply Forall_nil_2; lia.
Qed.

Lemma sound_addStudent c s :
  s_id s = c_nextSid c →
  sound c → sound (set_students (c_students c ++ [s]) (set_nextSid (c_nextSid c + 1) c)).
Proof.
  intros Hs [(Hs1 & Hl1 & Hc1) [Hcols Hls]]. destruct c. simpl in *.
  split; [split; [|done]|split; [done|]].
  - by apply numbered_snoc.
  - eapply Forall_impl; [exact Hls|]. simpl. intros l (ids & Hids & Hnd & Hall).
    exists ids. split; [done|]. split; [done|].
    eapply Forall_impl; [exact Hall|]. simpl. lia.
Qed.

Lemma sound_editStudent c sid (f : Student → Student) :
  (∀ s, s_id (f s) = s_id s) →
  sound c → sound (set_students (assignFirst sid f (c_students c)) c).
Proof.
  intros Hf [(Hs1 & Hl1 & Hc1) [Hcols Hls]]. destruct c. simpl in *.
  split; [split; [|done]|done].
  eapply numbered_same_ids; [|exact Hs1]. by apply ids_assignFirst.
Qed.

Lemma sound_removeStudents c (P : Student → Prop) `{∀ s, Decision (P s)} :
  sound c → sound (set_students (filter P (c_students c)) c).
Proof.
  intros [(Hs1 & Hl1 & Hc1) [Hcols Hls]]. destruct c. simpl in *.
  split; [split; [|done]|done]. by apply numbered_filter.
Qed.

Lemma sound_addColumn c name ielts lessonId now :
  (∀ lid, lessonId = Some lid → lid ∈ l_id <$> c_lessons c) →
  sound c →
  sound (set_columns (c_columns c ++ [mkColumn (c_nextCid c) name ielts lessonId now])
           (set_nextCid (c_nextCid c + 1) c)).
Proof.
  intros Htied [(Hs1 & Hl1 & Hc1) [Hcols Hls]]. destruct c. simpl in *.
  split; [split; [done|split; [done|]]|split; [|done]].
  - by apply numbered_snoc.
  - apply Forall_app. split; [done|]. by apply Forall_singleton.
Qed.

Lemma sound_addLesson c lesson :
  l_id lesson = c_nextLid c → l_studentIds lesson = Some (s_id <$> c_students c) →
  sound c →
  sound (set_lessons (c_lessons c ++ [lesson]) (set_nextLid (c_nextLid c + 1) c)).
Proof.
  intros Hid Hids [(Hs1 & Hl1 & Hc1) [Hcols Hls]]. destruct c. simpl in *.
  split; [split; [done|split; [|done]]|split].
  - by apply numbered_snoc.
  - eapply Forall_impl; [exact Hcols|]. simpl. intros col Hcol other Hother.
    rewrite fmap_app, elem_of_app. left. by apply Hcol.
  - apply Forall_app. split; [done|]. apply Forall_singleton.
    eexists. split; [exact Hids|]. apply numbered_ids in Hs1 as (Hnd & Hall & _). done.
Qed.

(** A new IELTS lesson with its four columns; the columns are pushed before
    the lesson is. *)
Lemma sound_addIeltsLesson c lesson (s1 s2 s3 s4 : string) (n1 n2 n3 n4 : option string) :
  l_id lesson = c_nextLid c → l_studentIds lesson = Some (s_id <$> c_students c) →
  sound c →
  let add name now c0 :=
    set_columns
      (c_columns c0 ++ [mkColumn (c_nextCid c0) name true (Some (l_id lesson)) now])
      (set_nextCid (c_nextCid c0 + 1) c0) in
  sound ((λ c0, set_lessons (c_lessons c0 ++ [lesson]) c0)
           (add s4 n4 (add s3 n3 (add s2 n2 (add s1 n1 (set_nextLid (c_nextLid c + 1) c)))))).
Proof.
  intros Hid Hids Hc add.
  cut (sound (add s4 n4 (add s3 n3 (add s2 n2 (add s1 n1
                (set_lessons (c_lessons c ++ [lesson])
                   (set_nextLid (c_nextLid c + 1) c))))))).
  { clear. destruct c. intros Hgoal. exact Hgoal. }
  unfold add.
  repeat (apply sound_addColumn;
          [intros lid [= <-]; destruct c; simpl; rewrite fmap_app, elem_of_app; right;
           apply list_elem_of_singleton; reflexivity|]).
  by apply sound_addLesson.
Qed.

(** A new student who is listed in one lesson. *)
Lemma sound_quickAdd c s (g : Lesson → Lesson) q :
  s_id s = c_nextSid c →
  (∀ l, l_id (g l) = l_id l) →
  (∀ l, l_studentIds (g l) = match l_studentIds l with
                             | Some ids => Some (ids ++ [c_nextSid c])
                             | None => None
                             end) →
  sound c →
  sound (set_lessons (alter g q (c_lessons c))
           (set_students (c_students c ++ [s]) (set_nextSid (c_nextSid c + 1) c))).
Proof.
  intros Hs Hid Hids [(Hs1 & Hl1 & Hc1) [Hcols Hls]]. destruct c. simpl in *.
  split; [split; [|split; [|done]]|split].
  - by apply numbered_snoc.
  - eapply numbered_same_ids; [|exact Hl1]. by apply ids_alter.
  - eapply Forall_impl; [exact Hcols|]. simpl. intros col Hcol other Hother.
    rewrite ids_alter by done. by apply Hcol.
  - eapply Forall_altered; [exact Hls|..]; simpl.
    + intros l (ids & Hl & Hnd & Hall).
      exists ids. split; [done|]. split; [done|].
      eapply Forall_impl; [exact Hall|]. simpl. lia.
    + intros l (ids & Hl & Hnd & Hall). rewrite Hids, Hl. eexists. split; [done|].
      destruct Hs1 as (_ & _ & Hpos). split.
      * apply NoDup_app. split; [done|]. split; [|apply NoDup_singleton].
        intros i Hi. rewrite list_elem_of_singleton. rewrite Forall_forall in Hall.
        specialize (Hall i Hi). simpl in Hall. lia.
      * apply Forall_app. split.
        -- eapply Forall_impl; [exact Hall|]. simpl. lia.
        -- apply Forall_singleton. lia.
Qed.

(** The same, in the steps of [quickAddStudentToLesson]: the counter, the
    student, the list of the lesson, the timestamp of the lesson. *)
Lemma sound_quickAdded c s (g : Lesson → Lesson) q :
  s_id s = c_nextSid c →
  (∀ l, l_id (g l) = l_id l) → (∀ l, l_studentIds (g l) = l_studentIds l) →
  sound c →
  sound ((λ c0, set_lessons (alter g q (c_lessons c0)) c0)
           ((λ c0, set_lessons
                     (alter (λ l, match l_studentIds l with
                                  | Some ids => set_studentIds (Some (ids ++ [c_nextSid c])) l
                                  | None => l
                                  end) q (c_lessons c0)) c0)
              ((λ c0, set_students (c_students c0 ++ [s]) c0)
                 (set_nextSid (c_nextSid c + 1) c)))).
Proof.
  intros Hs Hid Hids Hc.
  cut (sound (set_lessons
                (alter (g ∘ (λ l, match l_studentIds l with
                                  | Some ids => set_studentIds (Some (ids ++ [c_nextSid c])) l
                                  | None => l
                                  end)) q (c_lessons c))
                (set_students (c_students c ++ [s]) (set_nextSid (c_nextSid c + 1) c)))).
  { clear. destruct c. simpl. rewrite list_alter_alter_eq. intros Hgoal. exact Hgoal. }
  apply sound_quickAdd; [done| |  |done].
  - intros l. simpl. rewrite Hid. by destruct l as [? ? ? ? ? ? [ids|] ? ?].
  - intros l. simpl. rewrite Hids. by destruct l as [? ? ? ? ? ? [ids|] ? ?].
Qed.

Lemma sound_removeColumns c (P : Column → Prop) `{∀ col, Decision (P col)} :
  sound c → sound (set_columns (filter P (c_columns c)) c).
Proof.
  intros [(Hs1 & Hl1 & Hc1) [Hcols Hls]]. destruct c. simpl in *.
  split; [split; [done|split; [done|]]|split; [|done]].
  - by apply numbered_filter.
  - by apply Forall_kept.
Qed.

Lemma sound_removeLesson c lid :
  sound c →
  sound (set_lessons (filter (λ ls, l_id ls ≠ lid) (c_lessons c))
           (set_columns (filter (λ col, col_lessonId col ≠ Some lid) (c_columns c)) c)).
Proof.
  intros [(Hs1 & Hl1 & Hc1) [Hcols Hls]]. destruct c. simpl in *.
  split; [split; [done|split]|split].
  - by apply numbered_filter.
  - by apply numbered_filter.
  - apply Forall_forall. intros col [Hne Hcol]%list_elem_of_filter other Hother.
    rewrite Forall_forall in Hcols.
    destruct (proj1 (list_elem_of_fmap _ _ _) (Hcols col Hcol other Hother)) as (l & Heq & Hl).
    apply list_elem_of_fmap. exists l. split; [done|].
    apply list_elem_of_filter. split; [congruence|done].
  - by apply Forall_kept.
Qed.

Lemma sound_alterLesson c (g : Lesson → Lesson) q :
  (∀ l, l_id (g l) = l_id l) → (∀ l, l_studentIds (g l) = l_studentIds l) →
  sound c → sound (set_lessons (alter g q (c_lessons c)) c).
Proof.
  intros Hid Hids [(Hs1 & Hl1 & Hc1) [Hcols Hls]]. destruct c. simpl in *.
  split; [split; [done|split; [|done]]|split].
  - eapply numbered_same_ids; [|exact Hl1]. by apply ids_alter.
  - eapply Forall_impl; [exact Hcols|]. simpl. intros col Hcol other Hother.
    rewrite ids_alter by done. by apply Hcol.
  - apply Forall_alter; [done|]. intros l _. by rewrite Hids.
Qed.

Lemma sound_alterStudent c (g : Student → Student) q :
  (∀ s, s_id (g s) = s_id s) → sound c → sound (set_students (alter g q (c_students c)) c).
Proof.
  intros Hid [(Hs1 & Hl1 & Hc1) [Hcols Hls]]. destruct c. simpl in *.
  split; [split; [|done]|done].
  eapply numbered_same_ids; [|exact Hs1]. by apply ids_alter.
Qed.

Lemma sound_alterColumn c (g : Column → Column) q :
  (∀ col, col_id (g col) = col_id col) → (∀ col, col_lessonId (g col) = col_lessonId col) →
  sound c → sound (set_columns (alter g q (c_columns c)) c).
Proof.
  intros Hid Hlid [(Hs1 & Hl1 & Hc1) [Hcols Hls]]. destruct c. simpl in *.
  split; [split; [done|split; [done|]]|split; [|done]].
  - eapply numbered_same_ids; [|exact Hc1]. by apply ids_alter.
  - apply Forall_alter; [done|]. intros col _. by rewrite Hlid.
Qed.
End SoundFacts.
(** ** What every event keeps *)

Module SessionFacts.

Lemma fmap_alter_same {A B} (f : A → B) (g : A → A) q (l : list A) :
  (∀ x, f (g x) = f x) → f <$> alter g q l = f <$> l.
Proof.
  intros Hg. revert q. induction l as [|x l IH]; intros [|q]; csimpl; [done..| |].
  - by rewrite Hg.
  - by rewrite IH.
Qed.

Lemma byId_ids {A} (id : A → Z) (items : list A) :
  byId id items = JsMap.new (imap (λ q i, (i, q)) (id <$> items)).
Proof. unfold byId. by rewrite imap_fmap. Qed.

(** The index that [rebuildIndex] builds is a function of what [indexed]
    keeps of the classrooms. *)
Lemma indexed_index w w' :
  indexed <$> classrooms (DB w') = indexed <$> classrooms (DB w) →
  DB_INDEX (rebuildIndex w') = DB_INDEX (rebuildIndex w).
Proof.
  intros Hcs.
  assert (Himap : ∀ {B} (g : nat → string * list Z * list Z * list Z → B),
            imap (λ p c, g p (indexed c)) (classrooms (DB w'))
            = imap (λ p c, g p (indexed c)) (classrooms (DB w))).
  { intros B g.
    transitivity (imap g (indexed <$> classrooms (DB w'))); [by rewrite imap_fmap|].
    rewrite Hcs. by rewrite imap_fmap. }
  assert (H1 : ∀ w0, classroomsById (DB_INDEX (rebuildIndex w0))
                     = JsMap.new (imap (λ p c, (λ p x, (x.1.1.1, p)) p (indexed c))
                                    (classrooms (DB w0))))
    by (intros w0; by rewrite IndexFacts.classroomsById_rebuilt).
  assert (H2 : ∀ w0, studentsByClassroom (DB_INDEX (rebuildIndex w0))
                     = JsMap.new
                         (imap (λ p c, (λ p x, (x.1.1.1,
                                                (p, JsMap.new (imap (λ q i, (i, q)) x.1.1.2))))
                                         p (indexed c))
                            (classrooms (DB w0)))).
  { intros w0. rewrite IndexFacts.studentsByClassroom_rebuilt. f_equal.
    apply imap_ext. intros p c _. simpl. by rewrite byId_ids. }
  assert (H3 : ∀ w0, lessonsByClassroom (DB_INDEX (rebuildIndex w0))
                     = JsMap.new
                         (imap (λ p c, (λ p x, (x.1.1.1,
                                                (p, JsMap.new (imap (λ q i, (i, q)) x.1.2))))
                                         p (indexed c))
                            (classrooms (DB w0)))).
  { intros w0. rewrite IndexFacts.lessonsByClassroom_rebuilt. f_equal.
    apply imap_ext. intros p c _. simpl. by rewrite byId_ids. }
  assert (H4 : ∀ w0, columnsByClassroom (DB_INDEX (rebuildIndex w0))
                     = JsMap.new
                         (imap (λ p c, (λ p x, (x.1.1.1,
                                                (p, JsMap.new (imap (λ q i, (i, q)) x.2))))
                                         p (indexed c))
                            (classrooms (DB w0)))).
  { intros w0. rewrite IndexFacts.columnsByClassroom_rebuilt. f_equal.
    apply imap_ext. intros p c _. simpl. by rewrite byId_ids. }
  pose proof (H1 w) as G1. pose proof (H2 w) as G2.
  pose proof (H3 w) as G3. pose proof (H4 w) as G4.
  specialize (H1 w'). specialize (H2 w'). specialize (H3 w'). specialize (H4 w').
  rewrite Himap in H1, H2, H3, H4.
  destruct (DB_INDEX (rebuildIndex w')), (DB_INDEX (rebuildIndex w)). simpl in *.
  congruence.
Qed.

Lemma consistent_ext w w' :
  classrooms (DB w') = classrooms (DB w) → DB_INDEX w' = DB_INDEX w →
  consistent w → consistent w'.
Proof.
  intros Hcs Hidx [Hsound Hfresh]. split; [by rewrite Hcs|].
  unfold indexFresh in *. by rewrite Hidx, (PageFacts.rebuildIndex_index w w').
Qed.

Lemma consistent_rebuildIndex w :
  Forall sound (classrooms (DB w)) → consistent (rebuildIndex w).
Proof.
  intros Hsound. split; [by rewrite SaveFacts.rebuildIndex_DB|].
  apply PageFacts.rebuildIndex_index. by rewrite SaveFacts.rebuildIndex_DB.
Qed.

Lemma consistent_saveDB env badge immediate w :
  consistent w → consistent (saveDB env badge immediate w).
Proof.
  destruct (PageFacts.saveDB_page env badge immediate w) as [H1 H2]. cbv zeta in H1, H2.
  apply consistent_ext; congruence.
Qed.

Lemma consistent_timerFires env w : consistent w → consistent (timerFires env w).
Proof.
  unfold timerFires. destruct (_st w) as [badge|] eqn:Ht; [|done].
  destruct (PageFacts.saveOperation_page env badge (set__st None w)) as [H1 H2].
  cbv zeta in H1, H2. intros Hw.
  apply (consistent_ext (set__st None w)); [congruence|congruence|].
  revert Hw. apply consistent_ext; by destruct w.
Qed.

Lemma readClock_eq env w :
  readClock env w = (clock env (ticks w), set_ticks (S (ticks w)) w).
Proof. by destruct w. Qed.

Lemma readClockMs_eq env w :
  readClockMs env w = (clockMs env (ticks w), set_ticks (S (ticks w)) w).
Proof. by destruct w. Qed.

Lemma readClockDay_eq env w :
  readClockDay env w = (clockDay env (ticks w), set_ticks (S (ticks w)) w).
Proof. by destruct w. Qed.

Lemma consistent_set_ticks n w : consistent w → consistent (set_ticks n w).
Proof. apply consistent_ext; by destruct w. Qed.

Lemma consistent_set_LID x w : consistent w → consistent (set_LID x w).
Proof. apply consistent_ext; by destruct w. Qed.

Lemma consistent_set_CID x w : consistent w → consistent (set_CID x w).
Proof. apply consistent_ext; by destruct w. Qed.

Lemma consistent_set_editSid x w : consistent w → consistent (set_editSid x w).
Proof. apply consistent_ext; by destruct w. Qed.

Lemma consistent_set_confirmCb x w : consistent w → consistent (set_confirmCb x w).
Proof. apply consistent_ext; by destruct w. Qed.

Lemma consistent_set_currentLessonMode x w :
  consistent w → consistent (set_currentLessonMode x w).
Proof. apply consistent_ext; by destruct w. Qed.

Lemma consistent_set_gradeTemplates x w :
  consistent w → consistent (set_DB (set_gradeTemplates x (DB w)) w).
Proof. apply consistent_ext; destruct w as [[] ]; done. Qed.

(** A write to a classroom that keeps it sound and keeps what the index
    records of it. *)
Lemma consistent_updateClassroom p f w :
  (∀ c, sound c → sound (f c)) → (∀ c, indexed (f c) = indexed c) →
  consistent w → consistent (updateClassroom p f w).
Proof.
  intros Hsound Hindexed [Hw Hfresh]. split.
  - rewrite SaveFacts.updateClassroom_classrooms. apply Forall_alter; [done|]. eauto.
  - unfold indexFresh in *. transitivity (DB_INDEX (rebuildIndex w)).
    + apply indexed_index. rewrite SaveFacts.updateClassroom_classrooms.
      by apply fmap_alter_same.
    + rewrite Hfresh. by destruct w.
Qed.

Lemma consistent_updateLesson r g w :
  (∀ l, l_id (g l) = l_id l) → (∀ l, l_studentIds (g l) = l_studentIds l) →
  consistent w → consistent (updateLesson r g w).
Proof.
  intros Hid Hids. apply consistent_updateClassroom.
  - intros c. by apply SoundFacts.sound_alterLesson.
  - intros c. unfold indexed. destruct c. simpl. by rewrite fmap_alter_same.
Qed.

Lemma consistent_updateColumn r g w :
  (∀ col, col_id (g col) = col_id col) → (∀ col, col_lessonId (g col) = col_lessonId col) →
  consistent w → consistent (updateColumn r g w).
Proof.
  intros Hid Hlid. apply consistent_updateClassroom.
  - intros c. by apply SoundFacts.sound_alterColumn.
  - intros c. unfold indexed. destruct c. simpl. by rewrite fmap_alter_same.
Qed.

Lemma consistent_updateStudent r g w :
  (∀ s, s_id (g s) = s_id s) → consistent w → consistent (updateStudent r g w).
Proof.
  intros Hid. apply consistent_updateClassroom.
  - intros c. by apply SoundFacts.sound_alterStudent.
  - intros c. unfold indexed. destruct c. simpl. by rewrite fmap_alter_same.
Qed.

(** A write to a classroom that keeps it sound, followed by [rebuildIndex]. *)
Lemma consistent_rebuilt p f w :
  (∀ c, classroomAt w p = Some c → sound c → sound (f c)) →
  consistent w → consistent (rebuildIndex (updateClassroom p f w)).
Proof.
  intros Hsound [Hw _]. apply consistent_rebuildIndex.
  rewrite SaveFacts.updateClassroom_classrooms. by apply Forall_alter.
Qed.

Ltac clocks :=
  rewrite ?readClock_eq, ?readClockMs_eq, ?readClockDay_eq; cbv beta iota zeta.

Lemma createClassroom_consistent env form random w :
  consistent w → consistent (createClassroom env form random w).
Proof.
  intros Hw. unfold createClassroom. destruct (inp_cname form) as [value|]; [|done].
  case_decide; [done|]. clocks. clocks.
  apply consistent_saveDB, consistent_rebuildIndex.
  destruct Hw as [Hw _]. destruct w as [[] ]. simpl in *.
  apply Forall_app. split; [done|]. apply Forall_singleton, SoundFacts.sound_created.
Qed.

Lemma saveStudent_consistent env form w :
  consistent w → consistent (saveStudent env form w).
Proof.
  intros Hw. unfold saveStudent. destruct (inp_sname form) as [value|]; [|done].
  case_decide; [done|]. clocks. apply (consistent_set_ticks (S (ticks w))) in Hw.
  destruct (CC _) as [p|]; [|done]. apply consistent_saveDB.
  destruct (editSid _) as [editedId|]; apply consistent_rebuilt; try done; intros c _.
  - by apply SoundFacts.sound_editStudent.
  - by apply SoundFacts.sound_addStudent.
Qed.

Lemma editField_consistent env sid field value w :
  consistent w → consistent (editField env sid field value w).
Proof.
  intros Hw. unfold editField. destruct (getStudent _ _ _) as [r|]; [|done]. clocks.
  apply consistent_saveDB.
  apply consistent_updateStudent; [by intros []|]. apply consistent_set_ticks.
  apply consistent_updateStudent; [|done]. intros s. by destruct s, field.
Qed.

Lemma openAddLesson_consistent env inp_ldate w :
  consistent w → consistent (openAddLesson env inp_ldate w).
Proof.
  intros Hw. unfold openAddLesson. cbv zeta. rewrite readClockDay_eq.
  destruct inp_ldate; simpl.
  - by apply consistent_set_ticks, consistent_set_currentLessonMode.
  - by apply consistent_set_currentLessonMode.
Qed.

Lemma deleteStudent_consistent env sid w :
  consistent w → consistent (confirmOk env (delStudentConfirm sid w)).
Proof.
  intros Hw. unfold confirmOk. apply consistent_set_confirmCb.
  assert (Hw1 : consistent (delStudentConfirm sid w)).
  { unfold delStudentConfirm. destruct (getStudent _ _ _); [|done].
    by apply consistent_set_confirmCb. }
  destruct (confirmCb _) as [[sid']|]; [|done]. unfold runCallback.
  destruct (CC _) as [p|]; [|done].
  apply consistent_saveDB, consistent_rebuilt; [|done]. intros c _.
  apply SoundFacts.sound_removeStudents.
Qed.

Lemma setAtt_consistent env sid status w :
  consistent w → consistent (setAtt env sid status w).
Proof.
  intros Hw. unfold setAtt. destruct (CL w) as [r|]; [|done]. clocks.
  apply consistent_saveDB.
  apply consistent_updateLesson; [by intros []..|]. apply consistent_set_ticks.
  by apply consistent_updateLesson; [by intros []..|].
Qed.

Lemma saveGrade_consistent env cid sid val w :
  consistent w → consistent (saveGrade env cid sid val w).
Proof.
  intros Hw. unfold saveGrade. destruct (CL w) as [r|]; [|done]. clocks.
  apply consistent_saveDB.
  apply consistent_updateLesson; [by intros []..|]. apply consistent_set_ticks.
  by apply consistent_updateLesson; [by intros []..|].
Qed.

Lemma bulkSetAttendance_consistent env status w :
  consistent w → consistent (bulkSetAttendance env status w).
Proof.
  intros Hw. unfold bulkSetAttendance. destruct (CL w) as [r|]; [|done].
  assert (Hw1 : consistent (updateLesson r (λ l, set_data (Some (default ∅ (l_data l))) l) w))
    by (by apply consistent_updateLesson; [by intros []..|]).
  cbv zeta. destruct (_ ≫= _) as [c|]; [|done]. destruct (lessonAt _ _) as [l|]; [|done].
  clocks. apply consistent_saveDB.
  apply consistent_updateLesson; [by intros []..|]. apply consistent_set_ticks.
  by apply consistent_updateLesson; [by intros []..|].
Qed.

Lemma saveLessonNotes_consistent env notesArea w :
  consistent w → consistent (saveLessonNotes env notesArea w).
Proof.
  intros Hw. unfold saveLessonNotes. destruct (CL w) as [r|]; [|done]. clocks.
  apply consistent_saveDB.
  apply consistent_updateLesson; [by intros []..|]. apply consistent_set_ticks.
  by apply consistent_updateLesson; [by intros []..|].
Qed.

Lemma confirmEditLesson_consistent env editLid form w :
  consistent w → consistent (confirmEditLesson env editLid form w).
Proof.
  intros Hw. unfold confirmEditLesson. destruct (inp_el_topic form) as [value|]; [|done].
  case_decide; [done|]. destruct (getLesson _ _ _) as [r|]; [|done]. clocks.
  apply consistent_saveDB.
  apply consistent_updateLesson; [by intros []..|]. apply consistent_set_ticks.
  assert (Hw1 : consistent (updateLesson r (set_topic (Js.trim value)) w))
    by (by apply consistent_updateLesson; [by intros []..|]).
  destruct (filledIn (inp_el_date form)) as [d|]; destruct (filledIn (inp_el_num form)) as [n|];
    repeat (apply consistent_updateLesson; [by intros []..|]); done.
Qed.

Lemma confirmRenameCol_consistent env renameColId inp_rename_col w :
  consistent w → consistent (confirmRenameCol env renameColId inp_rename_col w).
Proof.
  intros Hw. unfold confirmRenameCol. destruct inp_rename_col as [value|]; [|done].
  case_decide; [done|]. destruct (getColumn _ _ _) as [r|]; [|done]. clocks.
  apply consistent_saveDB.
  apply consistent_updateColumn; [by intros []..|]. apply consistent_set_ticks.
  by apply consistent_updateColumn; [by intros []..|].
Qed.

Lemma saveColumn_consistent env inp_colname w :
  consistent w → consistent (saveColumn env inp_colname w).
Proof.
  intros Hw. unfold saveColumn. destruct inp_colname as [value|]; [|done].
  case_decide; [done|]. destruct (CC _) as [p|]; [|done]. clocks.
  apply consistent_saveDB, consistent_rebuilt; [|by apply consistent_set_ticks].
  intros c _. by apply SoundFacts.sound_addColumn.
Qed.

(** The columns of a template are added one by one. *)
Lemma addColumns_sound env p names w :
  Forall sound (classrooms (DB w)) →
  Forall sound
    (classrooms
       (DB (foldl (λ w name,
                     let '(now, w) := readClock env w in
                     updateClassroom p
                       (λ c, set_columns
                               (c_columns c ++ [mkColumn (c_nextCid c) name false None (Some now)])
                               (set_nextCid (c_nextCid c + 1) c)) w)
              w names))).
Proof.
  revert w. induction names as [|name names IH]; intros w Hw; [done|].
  cbn [foldl]. apply IH. clocks. rewrite SaveFacts.updateClassroom_classrooms.
  apply Forall_alter; [by destruct w|]. intros c _. by apply SoundFacts.sound_addColumn.
Qed.

Lemma applyGradeTemplate_consistent env idx w :
  consistent w → consistent (applyGradeTemplate env idx w).
Proof.
  intros Hw. unfold applyGradeTemplate. destruct (_ ≫= _) as [t|]; [|done].
  destruct (CC _) as [p|]; [|done].
  apply consistent_saveDB, consistent_rebuildIndex, addColumns_sound. apply Hw.
Qed.

Lemma saveCurrentColumnsAsTemplate_consistent env answer w :
  consistent w → consistent (saveCurrentColumnsAsTemplate env answer w).
Proof.
  intros Hw. unfold saveCurrentColumnsAsTemplate. destruct (_ ≫= _) as [c|]; [|done].
  cbv zeta. case_decide; [done|]. destruct answer as [name|]; [|done].
  case_decide; [done|]. by apply consistent_saveDB, consistent_set_gradeTemplates.
Qed.

Lemma deleteTemplate_consistent env idx w :
  consistent w → consistent (deleteTemplate env idx w).
Proof.
  intros Hw. unfold deleteTemplate. destruct (gradeTemplates _) as [templates|]; [|done].
  by apply consistent_saveDB, consistent_set_gradeTemplates.
Qed.

Lemma deleteLesson_consistent env lid w :
  consistent w → consistent (confirmed (delLessonConfirm env lid w) w).
Proof.
  intros Hw. unfold delLessonConfirm. destruct (getLesson _ _ _) as [r|]; [|done]. simpl.
  destruct (CC w) as [p|] eqn:HCC; [|by unfold deleteLesson; rewrite HCC].
  destruct (DeleteFacts.deleteLesson_effect env lid w p HCC) as (Hcs & _ & _ & Hidx).
  split.
  - rewrite Hcs. apply Forall_alter; [apply Hw|]. intros c _.
    apply SoundFacts.sound_removeLesson.
  - unfold indexFresh. by rewrite <- Hidx.
Qed.

Lemma deleteColumn_consistent env cid w :
  consistent w → consistent (confirmed (delColumnConfirm env cid w) w).
Proof.
  intros Hw. unfold delColumnConfirm. destruct (getColumn _ _ _) as [r|]; [|done]. simpl.
  unfold deleteColumn. destruct (CC w) as [p|]; [|done].
  apply consistent_saveDB, consistent_rebuilt; [|done].
  intros c _. apply SoundFacts.sound_removeColumns.
Qed.

Lemma deleteClass_consistent env id w :
  consistent w → consistent (confirmed (deleteClassConfirm env id w) w).
Proof.
  intros Hw. unfold deleteClassConfirm. destruct (getC _ _) as [r|]; [|done]. simpl.
  unfold deleteClass. apply consistent_saveDB, consistent_rebuildIndex.
  destruct Hw as [Hw _]. destruct w as [[] ]. simpl in *. by apply SoundFacts.Forall_kept.
Qed.

(** What a [Map] holds for a key is the last entry with that key. *)
Lemma get_app {K V} `{EqDecision K} (m1 m2 : list (K * V)) k :
  JsMap.get (m1 ++ m2) k
  = match JsMap.get m1 k with Some v => Some v | None => JsMap.get m2 k end.
Proof.
  induction m1 as [|[k0 v0] m1 IH]; simpl; [done|]. by case_decide.
Qed.

Lemma get_build {K V} `{EqDecision K} (l m : list (K * V)) k :
  JsMap.get (foldl (λ m kv, JsMap.set kv.1 kv.2 m) m l) k
  = match JsMap.get (reverse l) k with Some v => Some v | None => JsMap.get m k end.
Proof.
  revert m. induction l as [|[k0 v0] l IH]; intros m; [done|].
  cbn [foldl]. rewrite IH, reverse_cons, get_app, JsMapFacts.get_set. simpl.
  destruct (JsMap.get (reverse l) k); [done|]. by case_decide.
Qed.

Lemma get_values {K V W} `{EqDecision K} (h : V → W) (m : list (K * V)) k :
  JsMap.get (prod_map id h <$> m) k = h <$> JsMap.get m k.
Proof.
  induction m as [|[k0 v0] m IH]; csimpl; [done|]. by case_decide.
Qed.

Lemma get_new_values {K V W} `{EqDecision K} (h : V → W) (l : list (K * V)) k :
  JsMap.get (JsMap.new (prod_map id h <$> l)) k = h <$> JsMap.get (JsMap.new l) k.
Proof.
  unfold JsMap.new. rewrite !get_build. simpl. rewrite <- fmap_reverse, get_values.
  by destruct (JsMap.get (reverse l) k).
Qed.

(** With a fresh index, the lesson that [getLesson] finds for a classroom id
    is a lesson of the classroom that [getC] finds for it. *)
Lemma getLesson_getC w classId lid r p :
  indexFresh w → getLesson w classId lid = Some r → getC w classId = Some p → r.1 = p.
Proof.
  unfold indexFresh, getLesson, getC. intros <-.
  rewrite IndexFacts.classroomsById_rebuilt, IndexFacts.lessonsByClassroom_rebuilt.
  destruct classId as [classId|]; [|done]. simpl.
  replace (imap (λ p c, (c_id c, p)) (classrooms (DB w)))
    with (prod_map id fst <$> imap (λ p c, (c_id c, (p, byId l_id (c_lessons c))))
                                (classrooms (DB w)))
    by (by rewrite fmap_imap).
  rewrite get_new_values. destruct (JsMap.get _ classId) as [[p' m]|]; [|done]. simpl.
  destruct (JsMap.get m lid) as [q|]; [|done]. simpl. by intros [= <-] [= <-].
Qed.

Lemma CL_CC w r p : indexFresh w → CL w = Some r → CC w = Some p → r.1 = p.
Proof.
  unfold CL, CC. intros Hfresh. destruct (CID w) as [cid|]; [|done].
  destruct (LID w) as [lid|]; [|done]. repeat case_decide; try done.
  by apply getLesson_getC.
Qed.

Lemma classrooms_set_ticks n w : classrooms (DB (set_ticks n w)) = classrooms (DB w).
Proof. by destruct w. Qed.

Lemma classrooms_set_LID x w : classrooms (DB (set_LID x w)) = classrooms (DB w).
Proof. by destruct w. Qed.

Lemma saveLesson_consistent env form w :
  consistent w → consistent (saveLesson env form w).
Proof.
  intros Hw. unfold saveLesson. destruct (inp_ltopic form) as [value|]; [|done].
  case_decide; [done|].
  assert (∃ date w1, (match inp_ldate form with
                      | Some d => (d, w)
                      | None => readClockDay env w
                      end) = (date, w1) ∧ consistent w1) as (date & w1 & -> & Hw1).
  { destruct (inp_ldate form); [by eauto|]. rewrite readClockDay_eq.
    eexists _, _. split; [done|]. by apply consistent_set_ticks. }
  clear Hw. destruct (CC w1) as [p|] eqn:HCC; [|done]. simpl.
  destruct (classroomAt w1 p) as [c|] eqn:Hc; [|done]. clocks.
  apply consistent_saveDB, consistent_rebuildIndex. rewrite classrooms_set_LID.
  rewrite SaveFacts.updateClassroom_classrooms.
  set (lesson := mkLesson _ _ _ _ _ _ _ _ _).
  destruct Hw1 as [Hw1 _]. unfold classroomAt in Hc.
  case_decide.
  - rewrite ieltsColumns_sections. cbn [foldl]. clocks.
    repeat first [rewrite SaveFacts.updateClassroom_classrooms|rewrite classrooms_set_ticks].
    rewrite !list_alter_alter_eq.
    apply Forall_alter; [done|]. intros c' Hc' Hsound. simplify_eq.
    by apply (SoundFacts.sound_addIeltsLesson c lesson).
  - rewrite classrooms_set_ticks, SaveFacts.updateClassroom_classrooms, list_alter_alter_eq.
    apply Forall_alter; [done|]. intros c' Hc' Hsound. simplify_eq.
    cut (sound (set_lessons (c_lessons c ++ [lesson]) (set_nextLid (c_nextLid c + 1) c))).
    { clear. destruct c. intros Hgoal. exact Hgoal. }
    by apply SoundFacts.sound_addLesson.
Qed.

Lemma quickAddStudentToLesson_consistent env name w :
  consistent w → consistent (quickAddStudentToLesson env name w).
Proof.
  intros Hw. unfold quickAddStudentToLesson. cbv zeta. case_decide; [done|].
  destruct (CC w) as [p|] eqn:HCC; [|done]. simpl.
  destruct (classroomAt w p) as [c|] eqn:Hc; [|done].
  destruct (CL w) as [r|] eqn:HCL; [|done]. clocks.
  assert (Hr : r.1 = p) by (eapply CL_CC; [apply Hw|done..]).
  apply consistent_saveDB, consistent_rebuildIndex.
  unfold updateLesson. rewrite Hr.
  repeat first [rewrite SaveFacts.updateClassroom_classrooms|rewrite classrooms_set_ticks].
  rewrite !list_alter_alter_eq.
  destruct Hw as [Hw _]. unfold classroomAt in Hc.
  apply Forall_alter; [done|]. intros c' Hc' Hsound. simplify_eq.
  apply (SoundFacts.sound_quickAdded c _ _ r.2); [done|by intros []..|done].
Qed.

Lemma initialWorld_consistent : consistent initialWorld.
Proof. split; [apply Forall_nil_2|reflexivity]. Qed.

Lemma handle_consistent env e w : consistent w → consistent (handle env e w).
Proof.
  intros Hw. destruct e; simpl.
  - by apply createClassroom_consistent.
  - by apply consistent_set_CID.
  - by apply consistent_set_editSid.
  - by apply consistent_set_editSid.
  - by apply saveStudent_consistent.
  - by apply editField_consistent.
  - by apply deleteStudent_consistent.
  - by apply consistent_set_currentLessonMode.
  - by apply openAddLesson_consistent.
  - by apply saveLesson_consistent.
  - by apply confirmEditLesson_consistent.
  - by apply deleteLesson_consistent.
  - by apply consistent_set_LID.
  - by apply setAtt_consistent.
  - by apply bulkSetAttendance_consistent.
  - by apply saveGrade_consistent.
  - by apply quickAddStudentToLesson_consistent.
  - by apply saveLessonNotes_consistent.
  - by apply saveColumn_consistent.
  - by apply confirmRenameCol_consistent.
  - by apply deleteColumn_consistent.
  - by apply deleteClass_consistent.
  - by apply applyGradeTemplate_consistent.
  - by apply saveCurrentColumnsAsTemplate_consistent.
  - by apply deleteTemplate_consistent.
  - by apply consistent_timerFires.
Qed.

(** The sample session, event by event. *)
Lemma lessonWorld_consistent : consistent Demo.lessonWorld.
Proof.
  unfold Demo.lessonWorld, Demo.events, session. cbn [fmap list_fmap foldl].
  repeat apply handle_consistent. apply initialWorld_consistent.
Qed.
End SessionFacts.

(** Why a sync is not an event of a session: a merge takes the counters of
    the remote copy of a classroom when that copy is the later one, and the
    students of both copies.  Here both stores are consistent, and the merged
    classroom has a student 3 under a counter that is 3. *)
Lemma merge_can_lower_a_counter :
  let lc := mkClassroom "C" "Algebra" "" ""
              [Sample.S1; Sample.S2; Sample.student 3 "Linus" Sample.T1] [] [] 4 1 1
              (Some Sample.T1) in
  let rc := mkClassroom "C" "Algebra" "" "" [Sample.S1; Sample.S2] [] [] 3 1 1
              (Some Sample.T2) in
  let merged := Merge.mergeData IsoDate.parse Sample.now1 (Sample.store [lc])
                  (Some (Sample.store [rc])) in
  sound lc ∧ sound rc
  ∧ (λ c, (c_nextSid c, s_id <$> c_students c)) <$> classrooms merged = [(3, [1; 2; 3])].
Proof.
  split; [|split; [|vm_compute; reflexivity]];
    (split; [repeat split; simpl;
               try (apply (bool_decide_unpack _); vm_compute; exact I);
               try (repeat constructor; simpl; lia); lia
            |split; constructor]).
Qed.

(** X25: the handlers of the page that edit the classrooms, students,
    lessons, columns and templates of the store in place keep a consistent
    store consistent, in whatever order they run and under whatever clock,
    connectivity and backend.  They are [createClassroom],
    [deleteClassConfirm], [saveStudent], [editField], [delStudentConfirm],
    [saveLesson], [confirmEditLesson], [delLessonConfirm], [setAtt],
    [bulkSetAttendance], [saveGrade], [quickAddStudentToLesson],
    [saveLessonNotes], [saveColumn], [confirmRenameCol], [delColumnConfirm],
    [applyGradeTemplate], [saveCurrentColumnsAsTemplate] and
    [deleteTemplate], with the handlers that open a classroom, a lesson or a
    form and the debounce timer of [saveDB]: the events of [Event].
    Consistent is: in every classroom the ids of the students, of the lessons
    and of the columns are distinct, at least 1 and below the counter they
    are drawn from; a column tied to a lesson is tied to a lesson that is
    still there; the students a lesson lists are distinct and were given
    their ids by this classroom; and [DB_INDEX] is the index that
    [rebuildIndex] would build.  The store of a fresh page is consistent, and
    so is every store that a session of these events reaches from it.
    [loadDB], [loadFromBackup], [restoreFromFile], [authSubmit] and
    [syncWithCloud], which replace the store by one from outside the page,
    are no events of a session, and the property is not claimed of them. *)
Theorem session_keeps_consistency (events : list (Env * Event)) (w : World) :
  consistent w →
  consistent (session events w) ∧ consistent (session events initialWorld).
Proof.
  assert (Hkept : ∀ w0, consistent w0 → consistent (session events w0)).
  { induction events as [|[env e] events IH]; intros w0 Hw0; [done|].
    apply IH. by apply SessionFacts.handle_consistent. }
  intros Hw. split; [by apply Hkept|].
  apply Hkept, SessionFacts.initialWorld_consistent.
Qed.

Lemma session_keeps_consistency_witness :
  consistent initialWorld
  ∧ consistent (session Demo.events initialWorld)
  ∧ (c_students <$> classrooms (DB (session Demo.events initialWorld)))
    = [[mkStudent 2 "Grace" "" "" "" "" "" (Some (Sample.clockAt 5))]].
Proof.
  split; [apply SessionFacts.initialWorld_consistent|].
  split; [apply (session_keeps_consistency Demo.events initialWorld),
            SessionFacts.initialWorld_consistent|].
  vm_compute. reflexivity.
Defined.
(** ** Debounced saves *)

Module DebounceFacts.

(** What a run of scheduled saves leaves behind. *)
Lemma scheduled env badges w :
  let w' := foldl (λ w badge, saveDB env badge false w) w badges in
  w' = set__st (match last badges with Some badge => Some badge | None => _st w end)
         (set_saveQueue
            (saveQueue w ++ imap (λ i badge, (badge, clockMs env (ticks w + i))) badges)
            (set_ticks (ticks w + length badges) w)).
Proof.
  revert w. induction badges as [|badge badges IH]; intros w.
  - destruct w. simpl. by rewrite app_nil_r, Nat.add_0_r.
  - cbn [foldl]. cbv zeta in IH. rewrite IH. clear IH.
    destruct w as [db idx cid0 lid esid mode cb q t ls cl rq nt tk].
    cbn [saveDB readClockMs set_saveQueue saveQueue set__st set_ticks ticks _st length].
    rewrite <- app_assoc. cbn [imap app]. rewrite Nat.add_0_r.
    assert (Hq : imap (λ i b, (b, clockMs env (S tk + i))) badges
                 = imap ((λ i b, (b, clockMs env (tk + i))) ∘ S) badges).
    { apply imap_ext. intros i b _. simpl. do 2 f_equal. lia. }
    assert (Hl : match last badges with Some b => Some b | None => Some badge end
                 = match last (badge :: badges) with Some b => Some b | None => t end).
    { rewrite last_cons. by destruct (last badges). }
    rewrite Hq, Hl. f_equal. lia.
Qed.

Lemma saveQueue_emptied x : saveQueue (set_saveQueue [] x) = [].
Proof. by destruct x. Qed.

Lemma saveOperation_saveQueue env badge w : saveQueue (saveOperation env badge w) = [].
Proof. unfold saveOperation. cbv zeta. apply saveQueue_emptied. Qed.
End DebounceFacts.

(** X26: saves that are not immediate are coalesced.  A run of calls
    [saveDB(badge)] writes nothing to local storage, sends nothing and leaves
    the store alone: each call only reads the clock, adds an entry to
    [saveQueue] and replaces the pending timer.  When the timer fires, one save
    runs, with the badge of the last call; it empties [saveQueue] and leaves no
    timer, so a timer event after it does nothing. *)
Theorem debounced_saves_coalesce (env : Env) (badges : list (option string))
    (badge : option string) (w : World) :
  let w' := foldl (λ w badge, saveDB env badge false w) w (badges ++ [badge]) in
  (DB w', DB_INDEX w', localStorage w', cloud w', requests w', notices w')
  = (DB w, DB_INDEX w, localStorage w, cloud w, requests w, notices w)
  ∧ saveQueue w'
    = saveQueue w ++ imap (λ i badge, (badge, clockMs env (ticks w + i))) (badges ++ [badge])
  ∧ _st w' = Some badge
  ∧ timerFires env w' = saveOperation env badge (set__st None w')
  ∧ saveQueue (timerFires env w') = []
  ∧ _st (timerFires env w') = None
  ∧ timerFires env (timerFires env w') = timerFires env w'.
Proof.
  intros w'. pose proof (DebounceFacts.scheduled env (badges ++ [badge]) w) as Hw'.
  cbv zeta in Hw'. fold w' in Hw'. rewrite last_snoc in Hw'.
  assert (Hst : _st w' = Some badge) by (rewrite Hw'; by destruct w).
  assert (Hfire : timerFires env w' = saveOperation env badge (set__st None w'))
    by (unfold timerFires; by rewrite Hst).
  assert (Hnone : _st (timerFires env w') = None).
  { rewrite Hfire.
    destruct (PageFacts.saveOperation_page env badge (set__st None w')) as [H1 _].
    cbv zeta in H1. injection H1 as _ _ _ _ _ _ ->. by destruct w'. }
  split; [rewrite Hw'; by destruct w|]. split; [rewrite Hw'; by destruct w|].
  split; [done|]. split; [done|]. split; [|split; [done|]].
  - rewrite Hfire. apply DebounceFacts.saveOperation_saveQueue.
  - unfold timerFires at 1. by rewrite Hnone.
Qed.
(** ** Grade templates *)

Module TemplateFacts.

Lemma fmap_imap_const {A B C} (g : B → C) (f : nat → A → B) (h : A → C) (l : list A) :
  (∀ i x, g (f i x) = h x) → g <$> imap f l = h <$> l.
Proof.
  revert f. induction l as [|x l IH]; intros f Hf; [done|].
  csimpl. rewrite Hf. f_equal. apply IH. intros i y. apply Hf.
Qed.

(** The columns that applying a list of names adds to a classroom, the first
    at the reading [ticks w] of the clock. *)
Lemma addColumns_effect env p names w :
  let w' :=
    foldl (λ w name,
             let '(now, w) := readClock env w in
             updateClassroom p
               (λ c, set_columns
                       (c_columns c ++ [mkColumn (c_nextCid c) name false None (Some now)])
                       (set_nextCid (c_nextCid c + 1) c)) w)
      w names in
  classrooms (DB w')
  = alter (λ c, set_columns
                  (c_columns c
                   ++ imap (λ i name, mkColumn (c_nextCid c + Z.of_nat i) name false None
                                        (Some (clock env (ticks w + i)))) names)
                  (set_nextCid (c_nextCid c + Z.of_nat (length names)) c))
      p (classrooms (DB w))
  ∧ gradeTemplates (DB w') = gradeTemplates (DB w)
  ∧ (CID w', LID w', DB_INDEX w') = (CID w, LID w, DB_INDEX w).
Proof.
  revert w. induction names as [|name names IH]; intros w.
  - cbn [foldl imap length]. split; [|done].
    rewrite <- (list_alter_id id (classrooms (DB w)) p) at 1 by done.
    apply list_alter_ext; [|done]. intros c _. destruct c. simpl.
    by rewrite app_nil_r, Z.add_0_r.
  - cbn [foldl]. cbv zeta in IH. rewrite SessionFacts.readClock_eq. cbv beta iota zeta.
    match goal with |- context [foldl _ ?x names] =>
      destruct (IH x) as (Hcs & Htem & Hpage); rewrite Hcs, Htem, Hpage; clear IH Hcs Htem Hpage
    end.
    split; [|by destruct w as [[] ]].
    rewrite SaveFacts.updateClassroom_classrooms, SessionFacts.classrooms_set_ticks,
      list_alter_alter_eq.
    apply list_alter_ext; [|done]. intros c _.
    destruct w as [db idx cid0 lid esid mode cb q t ls cl rq nt tk]. destruct c. simpl.
    rewrite <- app_assoc. cbn [app imap]. rewrite Z.add_0_r, Nat.add_0_r.
    f_equal; [|lia]. do 2 f_equal. apply imap_ext. intros i b _. simpl.
    f_equal; [lia|]. do 2 f_equal. lia.
Qed.

Lemma applyGradeTemplate_effect env idx w t p :
  gradeTemplates (DB w) ≫= (.!! idx) = Some t → CC w = Some p →
  let w' := applyGradeTemplate env idx w in
  classrooms (DB w')
  = alter (λ c, set_columns
                  (c_columns c
                   ++ imap (λ i name, mkColumn (c_nextCid c + Z.of_nat i) name false None
                                        (Some (clock env (ticks w + i)))) (gt_columns t))
                  (set_nextCid (c_nextCid c + Z.of_nat (length (gt_columns t))) c))
      p (classrooms (DB w))
  ∧ gradeTemplates (DB w') = gradeTemplates (DB w)
  ∧ (CID w', LID w') = (CID w, LID w)
  ∧ DB_INDEX w' = DB_INDEX (rebuildIndex w').
Proof.
  intros Ht HCC w'. unfold w', applyGradeTemplate. rewrite Ht, HCC.
  match goal with |- context [saveDB env ?b ?i ?x] =>
    destruct (PageFacts.saveDB_page env b i x) as [H1 H2];
    pose proof (PageFacts.rebuildIndex_index x (saveDB env b i x)) as H3 end.
  cbv zeta in H1, H2.
  injection H1 as Hidx Hcid Hlid _ _ _. injection H2 as Hcs _ _ _ _ _ Htem.
  rewrite Hcs, Hlid, Hcid, Hidx, Htem. rewrite H3 by done. clear.
  destruct (addColumns_effect env p (gt_columns t) w) as (Hcs & Htem & Hpage).
  cbv zeta in Hcs, Htem, Hpage. injection Hpage as Hcid Hlid _.
  rewrite !SaveFacts.rebuildIndex_DB, Hcs, Htem.
  split; [done|]. split; [done|]. split.
  - match goal with |- (CID (rebuildIndex ?x), LID (rebuildIndex ?x)) = _ =>
      pose proof (PageFacts.rebuildIndex_page x) as Hp; injection Hp as _ -> -> _ _ _ _ end.
    by rewrite Hcid, Hlid.
  - symmetry. apply PageFacts.rebuildIndex_index. by rewrite SaveFacts.rebuildIndex_DB.
Qed.

End TemplateFacts.

(** X27: applying a grade template appends to the current classroom one
    standard column per name of the template, in the order of the template,
    with the ids that follow the column counter and the successive readings
    of the clock as timestamps; the counter moves past them.  The columns
    that were there, the rest of the classroom, the other classrooms and the
    templates are untouched, and the index is rebuilt. *)
Theorem apply_template_appends (env : Env) (idx : nat) (w : World) (t : GradeTemplate)
    (p : nat) (c : Classroom) :
  gradeTemplates (DB w) ≫= (.!! idx) = Some t → CC w = Some p → classroomAt w p = Some c →
  let w' := applyGradeTemplate env idx w in
  let added :=
    imap (λ i name, mkColumn (c_nextCid c + Z.of_nat i) name false None
                      (Some (clock env (ticks w + i)))) (gt_columns t) in
  classroomAt w' p
  = Some (set_columns (c_columns c ++ added)
            (set_nextCid (c_nextCid c + Z.of_nat (length (gt_columns t))) c))
  ∧ col_name <$> added = gt_columns t
  ∧ (∀ q, q ≠ p → classroomAt w' q = classroomAt w q)
  ∧ gradeTemplates (DB w') = gradeTemplates (DB w)
  ∧ (CID w', LID w') = (CID w, LID w)
  ∧ DB_INDEX w' = DB_INDEX (rebuildIndex w').
Proof.
  intros Ht HCC Hc w' added.
  destruct (TemplateFacts.applyGradeTemplate_effect env idx w t p Ht HCC)
    as (Hcs & Htem & Hpage & Hidx).
  unfold classroomAt in *. fold w' in Hcs, Htem, Hpage, Hidx.
  split; [by rewrite Hcs, list_lookup_alter_eq, Hc|].
  split; [|split; [|done]].
  - unfold added. rewrite (TemplateFacts.fmap_imap_const _ _ id) by done.
    apply list_fmap_id.
  - intros q Hq. by rewrite Hcs, list_lookup_alter_ne.
Qed.

Lemma apply_template_appends_witness :
  gradeTemplates (DB Demo.templateWorld) ≫= (.!! 0%nat) = Some Demo.quizSet
  ∧ CC Demo.templateWorld = Some 0%nat
  ∧ classroomAt Demo.templateWorld 0 = Some Sample.classroomC
  ∧ (col_id <$> default [] (c_columns <$> classroomAt
                                           (applyGradeTemplate Sample.env 0 Demo.templateWorld) 0),
     col_name <$> default [] (c_columns <$> classroomAt
                                             (applyGradeTemplate Sample.env 0 Demo.templateWorld) 0))
    = ([1; 2; 3], ["Quiz"; "Quiz 1"; "Quiz 2"]).
Proof.
  assert (H1 : gradeTemplates (DB Demo.templateWorld) ≫= (.!! 0%nat) = Some Demo.quizSet)
    by reflexivity.
  assert (H2 : CC Demo.templateWorld = Some 0%nat) by (vm_compute; reflexivity).
  assert (H3 : classroomAt Demo.templateWorld 0 = Some Sample.classroomC) by reflexivity.
  split; [exact H1|]. split; [exact H2|]. split; [exact H3|].
  destruct (apply_template_appends Sample.env 0 Demo.templateWorld Demo.quizSet 0
              Sample.classroomC H1 H2 H3) as (-> & _).
  vm_compute. reflexivity.
Defined.


(** ** Adding a student from the gradebook, editing a student *)

Module RosterFacts.

Lemma Forall2_altered {A} (R : A → A → Prop) (g : A → A) q (l : list A) :
  (∀ x, R x x) → (∀ x, R x (g x)) → Forall2 R l (alter g q l).
Proof.
  intros Hrefl Hg. revert q. induction l as [|x l IH]; intros [|q]; csimpl.
  - constructor.
  - constructor.
  - constructor; [apply Hg|]. by apply Forall_Forall2_diag, Forall_true.
  - constructor; [apply Hrefl|apply IH].
Qed.

Lemma quickAddStudentToLesson_effect env name w p c r :
  Js.trim name ≠ "" → CC w = Some p → classroomAt w p = Some c → CL w = Some r → r.1 = p →
  let w' := quickAddStudentToLesson env name w in
  let newStudent :=
    mkStudent (c_nextSid c) (Js.trim name) "" "" "" "" "" (Some (clock env (ticks w))) in
  classrooms (DB w')
  = alter (λ _, set_lessons
                  (alter (λ l, set_l_updatedAt (Some (clock env (S (ticks w))))
                                 (match l_studentIds l with
                                  | Some ids => set_studentIds (Some (ids ++ [c_nextSid c])) l
                                  | None => l
                                  end)) r.2 (c_lessons c))
                  (set_students (c_students c ++ [newStudent])
                     (set_nextSid (c_nextSid c + 1) c)))
      p (classrooms (DB w))
  ∧ (CID w', LID w', requests w', localStorage w')
    = (CID w, LID w, requests w, localStorage w)
  ∧ DB_INDEX w' = DB_INDEX (rebuildIndex w').
Proof.
  intros Hname HCC Hc HCL Hr w' newStudent. unfold w', quickAddStudentToLesson. cbv zeta.
  rewrite decide_False, HCC by done. simpl. rewrite Hc, HCL.
  rewrite !SessionFacts.readClock_eq. cbv beta iota zeta.
  split; [|split].
  - rewrite SaveFacts.saveDB_classrooms, SaveFacts.rebuildIndex_DB. unfold updateLesson.
    rewrite Hr.
    repeat first [rewrite SaveFacts.updateClassroom_classrooms
                 |rewrite SessionFacts.classrooms_set_ticks].
    rewrite !list_alter_alter_eq. unfold classroomAt in Hc.
    apply list_alter_ext; [|done]. intros c' Hc'. simplify_eq.
    destruct w as [db idx cid0 lid esid mode cb q t ls cl rq nt tk]. destruct c. simpl.
    by rewrite list_alter_alter_eq.
  - destruct w as [db idx cid0 lid esid mode cb q t ls cl rq nt tk]. done.
  - match goal with |- context [saveDB env ?b ?i ?x] =>
      destruct (PageFacts.saveDB_page env b i x) as [H1 H2];
      pose proof (PageFacts.rebuildIndex_index x (saveDB env b i x)) as H3 end.
    cbv zeta in H1, H2. injection H1 as Hidx _ _ _ _ _. injection H2 as Hcs _ _ _ _ _ _.
    rewrite Hidx, H3 by done. symmetry. apply PageFacts.rebuildIndex_index.
    by rewrite SaveFacts.rebuildIndex_DB.
Qed.
End RosterFacts.

(** X29: in a consistent store, adding a student from the gradebook of the
    open lesson appends the student to the roster of the current classroom
    under an id that no student of the classroom has, moves the counter on,
    and lists the student in the open lesson and in no other lesson of the
    classroom; the lessons keep their order and everything but the list and
    the timestamp of the open lesson.  The other classrooms are untouched,
    nothing is written or sent before the timer fires, and the index is
    rebuilt. *)
Theorem quick_add_lists_in_open_lesson (env : Env) (name : string) (w : World) (p : nat)
    (c : Classroom) (r : nat * nat) :
  consistent w → Js.trim name ≠ "" →
  CC w = Some p → classroomAt w p = Some c → CL w = Some r →
  let w' := quickAddStudentToLesson env name w in
  let newId := c_nextSid c in
  ∃ c', classroomAt w' p = Some c'
        ∧ c_students c'
          = c_students c
            ++ [mkStudent newId (Js.trim name) "" "" "" "" "" (Some (clock env (ticks w)))]
        ∧ (newId ∉ s_id <$> c_students c)
        ∧ c_nextSid c' = newId + 1
        ∧ r.1 = p
        ∧ Forall2 (λ l l', set_l_updatedAt None (set_studentIds None l')
                           = set_l_updatedAt None (set_studentIds None l))
            (c_lessons c) (c_lessons c')
        ∧ (∀ q l', c_lessons c' !! q = Some l' → appliesTo newId l' = true ↔ q = r.2)
        ∧ set_lessons [] (set_students [] (set_nextSid 0 c'))
          = set_lessons [] (set_students [] (set_nextSid 0 c))
        ∧ (∀ q, q ≠ p → classroomAt w' q = classroomAt w q)
        ∧ (CID w', LID w', requests w', localStorage w')
          = (CID w, LID w, requests w, localStorage w)
        ∧ DB_INDEX w' = DB_INDEX (rebuildIndex w').
Proof.
  intros Hw Hname HCC Hc HCL w' newId.
  assert (Hr : r.1 = p) by (eapply SessionFacts.CL_CC; [apply Hw|done..]).
  destruct (RosterFacts.quickAddStudentToLesson_effect env name w p c r Hname HCC Hc HCL Hr)
    as (Hcs & Hpage & Hidx).
  fold w' in Hcs, Hpage, Hidx. destruct Hw as [Hsound _].
  unfold classroomAt in *. rewrite Forall_forall in Hsound.
  destruct (Hsound c (list_elem_of_lookup_2 _ _ _ Hc)) as [(Hs1 & _ & _) [_ Hls]].
  eexists. split; [by rewrite Hcs, list_lookup_alter_eq, Hc|].
  split; [by destruct c|]. split; [|split; [by destruct c|]]; [|split; [done|]].
  { intros (s & Hs & Hin)%list_elem_of_fmap.
    pose proof (SoundFacts.numbered_below s_id _ _ s Hs1 Hin). unfold newId in Hs. lia. }
  split; [|split; [|split; [by destruct c|]]].
  - destruct c. simpl. apply RosterFacts.Forall2_altered; [done|].
    by intros [? ? ? ? ? ? [ids|] ? ?].
  - intros q l'. replace (c_lessons _) with
      (alter (λ l, set_l_updatedAt (Some (clock env (S (ticks w))))
                     (match l_studentIds l with
                      | Some ids => set_studentIds (Some (ids ++ [newId])) l
                      | None => l
                      end)) r.2 (c_lessons c)) by (by destruct c).
    rewrite list_lookup_alter. rewrite Forall_forall in Hls.
    case_decide as Hq; subst.
    + intros (l & Hl & ->)%fmap_Some. split; [done|]. intros _.
      destruct (Hls l (list_elem_of_lookup_2 _ _ _ Hl)) as (ids & Hids & _).
      unfold appliesTo. destruct l. simpl in *. subst. simpl.
      apply bool_decide_eq_true. apply elem_of_app. right. by left.
    + intros Hl. split; [|done]. intros Happlies.
      destruct (Hls l' (list_elem_of_lookup_2 _ _ _ Hl)) as (ids & Hids & _ & Hall).
      unfold appliesTo in Happlies. rewrite Hids in Happlies.
      apply bool_decide_eq_true in Happlies. rewrite Forall_forall in Hall.
      specialize (Hall _ Happlies). simpl in Hall. unfold newId in Hall. lia.
  - split; [|done]. intros q Hq. by rewrite Hcs, list_lookup_alter_ne.
Qed.

Lemma quick_add_lists_in_open_lesson_witness :
  consistent Demo.lessonWorld ∧ Js.trim " Alan " ≠ ""
  ∧ CC Demo.lessonWorld = Some 0%nat
  ∧ classroomAt Demo.lessonWorld 0 = Some Demo.lessonClassroom
  ∧ CL Demo.lessonWorld = Some (0, 0)%nat
  ∧ ∃ c', classroomAt (quickAddStudentToLesson Sample.env " Alan " Demo.lessonWorld) 0 = Some c'
          ∧ s_name <$> c_students c' = ["Grace"; "Alan"]
          ∧ s_id <$> c_students c' = [2; 3].
Proof.
  assert (H1 : Js.trim " Alan " ≠ "") by (vm_compute; discriminate).
  assert (H2 : CC Demo.lessonWorld = Some 0%nat) by (vm_compute; reflexivity).
  assert (H3 : classroomAt Demo.lessonWorld 0 = Some Demo.lessonClassroom)
    by (vm_compute; reflexivity).
  assert (H4 : CL Demo.lessonWorld = Some (0, 0)%nat) by (vm_compute; reflexivity).
  split; [exact SessionFacts.lessonWorld_consistent|].
  split; [exact H1|]. split; [exact H2|]. split; [exact H3|]. split; [exact H4|].
  destruct (quick_add_lists_in_open_lesson Sample.env " Alan " Demo.lessonWorld 0
              Demo.lessonClassroom (0, 0)%nat SessionFacts.lessonWorld_consistent H1 H2 H3 H4)
    as (c' & Hc' & Hstudents & _).
  exists c'. split; [exact Hc'|]. rewrite Hstudents. vm_compute. split; reflexivity.
Defined.

Module EditFacts.

(** [students.find(s => s.id === sid)] followed by [Object.assign]. *)
Lemma assignFirst_insert sid (f : Student → Student) students :
  assignFirst sid f students
  = match list_find (λ s, s_id s = sid) students with
    | Some (q, s) => <[q := f s]> students
    | None => students
    end.
Proof.
  induction students as [|s students IH]; [done|]. cbn [assignFirst list_find].
  case_decide; [done|]. rewrite IH.
  destruct (list_find _ students) as [[q s']|]; done.
Qed.

Lemma saveStudent_edit_effect env form w value sid p :
  inp_sname form = Some value → Js.trim value ≠ "" → editSid w = Some sid → CC w = Some p →
  let w' := saveStudent env form w in
  classrooms (DB w')
  = alter (λ c, set_students
                  (assignFirst sid
                     (λ s, mkStudent (s_id s) (Js.trim value) (trimmed (inp_sphone form))
                             (trimmed (inp_semail form)) (trimmed (inp_pname form))
                             (trimmed (inp_pphone form)) (trimmed (inp_snote form))
                             (Some (clock env (ticks w))))
                     (c_students c)) c)
      p (classrooms (DB w))
  ∧ (CID w', LID w', editSid w', requests w', localStorage w', _st w')
    = (CID w, LID w, editSid w, requests w, localStorage w, Some (Some "class"))
  ∧ DB_INDEX w' = DB_INDEX (rebuildIndex w').
Proof.
  intros Hform Hname Hedit HCC w'. unfold w', saveStudent.
  rewrite Hform, decide_False by done. rewrite SessionFacts.readClock_eq. cbv beta iota zeta.
  replace (CC (set_ticks (S (ticks w)) w)) with (CC w) by (by destruct w).
  replace (editSid (set_ticks (S (ticks w)) w)) with (editSid w) by (by destruct w).
  rewrite HCC, Hedit. split; [|split].
  - by rewrite SaveFacts.saveDB_classrooms, SaveFacts.rebuildIndex_DB,
      SaveFacts.updateClassroom_classrooms, SessionFacts.classrooms_set_ticks.
  - destruct w as [db idx cid0 lid esid mode cb q t ls cl rq nt tk]. simpl in *. by subst.
  - match goal with |- context [saveDB env ?b ?i ?x] =>
      destruct (PageFacts.saveDB_page env b i x) as [H1 H2];
      pose proof (PageFacts.rebuildIndex_index x (saveDB env b i x)) as H3 end.
    cbv zeta in H1, H2. injection H1 as Hidx _ _ _ _ _. injection H2 as Hcs _ _ _ _ _ _.
    rewrite Hidx, H3 by done. symmetry. apply PageFacts.rebuildIndex_index.
    by rewrite SaveFacts.rebuildIndex_DB.
Qed.
End EditFacts.

(** X30: saving the student form while a student is being edited replaces
    the details of the first student of the current classroom with the edited
    id by the trimmed fields of the form and the time of the save, and keeps
    that student's id and place; when no student has the id, the roster is
    left as it is.  Nobody is added or removed, the rest of the classroom and
    the other classrooms are untouched, [editSid] stays set, nothing is
    written or sent before the timer fires, and the index is rebuilt. *)
Theorem edit_student_in_place (env : Env) (form : StudentForm) (w : World) (value : string)
    (sid : Z) (p : nat) (c : Classroom) :
  inp_sname form = Some value → Js.trim value ≠ "" →
  editSid w = Some sid → CC w = Some p → classroomAt w p = Some c →
  let w' := saveStudent env form w in
  let edited (s : Student) :=
    mkStudent (s_id s) (Js.trim value) (trimmed (inp_sphone form)) (trimmed (inp_semail form))
      (trimmed (inp_pname form)) (trimmed (inp_pphone form)) (trimmed (inp_snote form))
      (Some (clock env (ticks w))) in
  ∃ c', classroomAt w' p = Some c'
        ∧ c_students c'
          = match list_find (λ s, s_id s = sid) (c_students c) with
            | Some (q, s) => <[q := edited s]> (c_students c)
            | None => c_students c
            end
        ∧ s_id <$> c_students c' = s_id <$> c_students c
        ∧ set_students [] c' = set_students [] c
        ∧ (∀ q, q ≠ p → classroomAt w' q = classroomAt w q)
        ∧ (CID w', LID w', editSid w', requests w', localStorage w', _st w')
          = (CID w, LID w, Some sid, requests w, localStorage w, Some (Some "class"))
        ∧ DB_INDEX w' = DB_INDEX (rebuildIndex w').
Proof.
  intros Hform Hname Hedit HCC Hc w' edited.
  destruct (EditFacts.saveStudent_edit_effect env form w value sid p Hform Hname Hedit HCC)
    as (Hcs & Hpage & Hidx).
  fold w' in Hcs, Hpage, Hidx. unfold classroomAt in *.
  eexists. split; [by rewrite Hcs, list_lookup_alter_eq, Hc|].
  split; [|split; [|split; [by destruct c|]]].
  - destruct c. simpl. apply EditFacts.assignFirst_insert.
  - destruct c. simpl. by apply SoundFacts.ids_assignFirst.
  - split; [|split; [by rewrite Hpage, Hedit|done]].
    intros q Hq. by rewrite Hcs, list_lookup_alter_ne.
Qed.

Lemma edit_student_in_place_witness :
  inp_sname (mkStudentForm (Some " Grace H. ") (Some "555") None None None None)
  = Some " Grace H. "
  ∧ Js.trim " Grace H. " ≠ ""
  ∧ editSid (openEditStudent 2 Demo.lessonWorld) = Some 2
  ∧ CC (openEditStudent 2 Demo.lessonWorld) = Some 0%nat
  ∧ classroomAt (openEditStudent 2 Demo.lessonWorld) 0 = Some Demo.lessonClassroom
  ∧ ∃ c', classroomAt
            (saveStudent Sample.env
               (mkStudentForm (Some " Grace H. ") (Some "555") None None None None)
               (openEditStudent 2 Demo.lessonWorld)) 0 = Some c'
          ∧ (λ s, (s_id s, s_name s, s_phone s)) <$> c_students c' = [(2, "Grace H.", "555")].
Proof.
  assert (H1 : Js.trim " Grace H. " ≠ "") by (vm_compute; discriminate).
  assert (H2 : CC (openEditStudent 2 Demo.lessonWorld) = Some 0%nat)
    by (vm_compute; reflexivity).
  assert (H3 : classroomAt (openEditStudent 2 Demo.lessonWorld) 0 = Some Demo.lessonClassroom)
    by (vm_compute; reflexivity).
  split; [reflexivity|]. split; [exact H1|]. split; [reflexivity|].
  split; [exact H2|]. split; [exact H3|].
  destruct (edit_student_in_place Sample.env
              (mkStudentForm (Some " Grace H. ") (Some "555") None None None None)
              (openEditStudent 2 Demo.lessonWorld) " Grace H. " 2 0 Demo.lessonClassroom
              eq_refl H1 eq_refl H2 H3) as (c' & Hc' & Hstudents & _).
  exists c'. split; [exact Hc'|]. rewrite Hstudents. vm_compute. reflexivity.
Defined.
